(** * Training orchestration of the two single-device recipes

    Shallow embedding of the recipe-state bookkeeping of

      - [recipes/knowledge_distillation_single_device.py]
        (class [KDRecipeSingleDevice], module [KD] below), and
      - [recipes/lora_dpo_single_device.py]
        (class [LoRADPORecipeSingleDevice], module [DPO] below).

    Python integers are [Z]; [//] and [%] are floor division and floor
    modulo, which is what [Z.div] and [Z.modulo] compute for a non-zero
    divisor, and they raise [ZeroDivisionError] on a zero divisor.  Floating
    point tensors and scalars are read as exact rationals ([Qc]); nothing
    below depends on rounding.  A division of tensors by a zero divisor
    does not raise: it gives an infinity or a NaN, a [scalar] that is not
    [Finite].  Exceptions are the [Raise] branch of
    [result].  Calls into the collaborators of the recipes (optimizer,
    scheduler, metric logger, checkpoint client, autograd) are recorded, in
    program order, in the [trace] of the [World]. *)

From Stdlib Require Import String ZArith QArith Qcanon List Bool Lia.
Import ListNotations.

Local Open Scope Z_scope.

(** ** Exceptions and the error monad *)

Inductive exn : Type :=
| KeyError
| ValueError
| ZeroDivisionError
| TypeError
| AttributeError
| UnboundLocalError.

Inductive result (A : Type) : Type :=
| Ok (a : A)
| Raise (e : exn).

Arguments Ok {A} a.
Arguments Raise {A} e.

Definition bind {A B : Type} (m : result A) (k : A -> result B) : result B :=
  match m with
  | Ok a => k a
  | Raise e => Raise e
  end.

Notation "x <- m ;; k" := (bind m (fun x => k))
  (at level 61, m at next level, right associativity).

(** Python [a // b] and [a % b] on integers. *)
Definition floordiv (a b : Z) : result Z :=
  if b =? 0 then Raise ZeroDivisionError else Ok (a / b).

Definition pymod (a b : Z) : result Z :=
  if b =? 0 then Raise ZeroDivisionError else Ok (a mod b).

(** [range(a, b)] *)
Definition range (a b : Z) : list Z :=
  map (fun i => a + Z.of_nat i) (seq 0 (Z.to_nat (b - a))).

(** [x == y] and [x != y] on values that are an int or [None]. *)
Definition opt_eqb (x y : option Z) : bool :=
  match x, y with
  | Some a, Some b => a =? b
  | None, None => true
  | _, _ => false
  end.

(** A [for idx, x in enumerate(xs)] loop whose body may [break].  The body
    returns the new state and whether it executed [break]; the loop returns
    the final state and whether it was left through [break]. *)
Fixpoint for_enumerate {S B : Type}
    (body : Z -> B -> S -> result (S * bool))
    (idx : Z) (xs : list B) (s : S) : result (S * bool) :=
  match xs with
  | [] => Ok (s, false)
  | x :: xs' =>
      r <- body idx x s ;;
      if snd r then Ok (fst r, true)
      else for_enumerate body (idx + 1) xs' (fst r)
  end.

(** ** Small helpers used by the training loops *)

Definition Z2Qc (z : Z) : Qc := Q2Qc (inject_Z z).

(** [a > b] on scalars *)
Definition Qc_gtb (a b : Qc) : bool := negb (Qle_bool a b).

Definition Qc_sum (l : list Qc) : Qc := fold_right Qcplus (Q2Qc 0) l.

(** [tensor.mean()] of a one-dimensional tensor *)
Definition mean (l : list Qc) : Qc :=
  (Qc_sum l / Z2Qc (Z.of_nat (length l)))%Qc.

(** What a division of tensors gives: a finite value, or what the device
    gives on a zero divisor. *)
Inductive scalar : Type :=
| Finite (q : Qc)
| Inf (negative : bool)
| NaN.

Definition Qc_eqb (a b : Qc) : bool := Qeq_bool a b.

(** [x / n] for a float [x] and an integer tensor [n]: [0 / 0] is NaN and
    [x / 0] an infinity of the sign of [x]. *)
Definition tensor_div (x : Qc) (n : Z) : scalar :=
  if n =? 0
  then if Qc_eqb x (Q2Qc 0) then NaN else Inf (Qc_gtb (Q2Qc 0) x)
  else Finite (x / Z2Qc n)%Qc.

(** [c * x] and [x + y] where [c] is a float and [x], [y] come from a
    division: NaN is absorbing, [0 * inf] and [inf - inf] are NaN. *)
Definition scalar_scale (c : Qc) (x : scalar) : scalar :=
  match x with
  | Finite q => Finite (c * q)%Qc
  | Inf negative =>
      if Qc_eqb c (Q2Qc 0) then NaN
      else Inf (xorb negative (Qc_gtb (Q2Qc 0) c))
  | NaN => NaN
  end.

Definition scalar_add (x y : scalar) : scalar :=
  match x, y with
  | Finite a, Finite b => Finite (a + b)%Qc
  | NaN, _ | _, NaN => NaN
  | Inf a, Inf b => if Bool.eqb a b then Inf a else NaN
  | Inf a, Finite _ => Inf a
  | Finite _, Inf b => Inf b
  end.

(** reading an attribute of [self] that [setup] assigns *)
Definition getattr {A : Type} (v : option A) : result A :=
  match v with
  | Some a => Ok a
  | None => Raise AttributeError
  end.

(** a [for x in xs] loop without [break] *)
Fixpoint for_each {S B : Type} (body : B -> S -> result S)
    (xs : list B) (s : S) : result S :=
  match xs with
  | [] => Ok s
  | x :: xs' => s' <- body x s ;; for_each body xs' s'
  end.

(** the value a loop variable holds after the loop, if it was ever bound *)
Definition loop_variable {B : Type} (xs : list B) : result B :=
  match rev xs with
  | x :: _ => Ok x
  | [] => Raise UnboundLocalError
  end.

(** ** Data shared by the two recipes *)

(** [cfg]: the configuration fields the recipes read for their state. *)
Record Cfg : Type := {
  cfg_seed : option Z;
  cfg_epochs : Z;
  cfg_max_steps_per_epoch : option Z;
  cfg_resume_from_checkpoint : bool;
  cfg_gradient_accumulation_steps : Z;
  cfg_save_every_n_steps : option Z;          (* cfg.get("save_every_n_steps") *)
  cfg_log_every_n_steps : option Z;           (* cfg.get("log_every_n_steps", 1) *)
  cfg_enable_async_checkpointing : option bool;
  cfg_clip_grad_norm : option Qc;             (* cfg.get("clip_grad_norm", None) *)
  cfg_kd_ratio : option Qc;                   (* cfg.get("kd_ratio", 0.5) *)
  cfg_lr_scheduler : bool;                    (* a scheduler is configured *)
  cfg_device_type : string;                   (* utils.get_device(cfg.device).type *)
  cfg_log_peak_memory_stats : option bool     (* cfg.get("log_peak_memory_stats", False) *)
}.

(** [ckpt_dict]: the recipe-state keys of a loaded checkpoint.  A field is
    [None] when the key is absent from the dict (subscripting it raises
    [KeyError]); the value under [MAX_STEPS_KEY] is an int or [None]. *)
Record Ckpt : Type := {
  ckpt_has_adapter : bool;                    (* training.ADAPTER_KEY in ckpt_dict *)
  ckpt_epochs : option Z;                     (* training.EPOCHS_KEY *)
  ckpt_steps : option Z;                      (* training.STEPS_KEY *)
  ckpt_seed : option Z;                       (* training.SEED_KEY *)
  ckpt_max_steps : option (option Z);         (* training.MAX_STEPS_KEY *)
  ckpt_total_epochs : option Z                (* training.TOTAL_EPOCHS_KEY *)
}.

Definition getitem {A : Type} (v : option A) : result A :=
  match v with
  | Some a => Ok a
  | None => Raise KeyError
  end.

Inductive dir_prefix : Type := prefix_epoch | prefix_step.

(** The attributes of [self] that make up the recipe state. *)
Record Recipe : Type := {
  seed : Z;
  epochs_run : Z;
  total_epochs : Z;
  max_steps_per_epoch : option Z;
  global_step : Z;
  _resume_from_checkpoint : bool;
  _gradient_accumulation_steps : Z;
  save_every_n_steps : option Z;
  _log_every_n_steps : Z;
  _enable_async_checkpointing : bool;
  _clip_grad_norm : option Qc;
  _kd_ratio : Qc;
  _lr_scheduler : bool;                       (* self._lr_scheduler is not None *)
  _steps_per_epoch : option Z;                (* unset before [setup] *)
  checkpoint_dir_prefix : option dir_prefix;  (* unset before [setup] *)
  _device_type : string;                      (* self._device.type *)
  _log_peak_memory_stats : bool
}.

Definition set_seed_attr (v : Z) (r : Recipe) : Recipe :=
  {| seed := v; epochs_run := epochs_run r; total_epochs := total_epochs r;
     max_steps_per_epoch := max_steps_per_epoch r; global_step := global_step r;
     _resume_from_checkpoint := _resume_from_checkpoint r;
     _gradient_accumulation_steps := _gradient_accumulation_steps r;
     save_every_n_steps := save_every_n_steps r;
     _log_every_n_steps := _log_every_n_steps r;
     _enable_async_checkpointing := _enable_async_checkpointing r;
     _clip_grad_norm := _clip_grad_norm r; _kd_ratio := _kd_ratio r;
     _lr_scheduler := _lr_scheduler r;
     _steps_per_epoch := _steps_per_epoch r;
     checkpoint_dir_prefix := checkpoint_dir_prefix r;
     _device_type := _device_type r;
     _log_peak_memory_stats := _log_peak_memory_stats r |}.

Definition set_epochs_run (v : Z) (r : Recipe) : Recipe :=
  {| seed := seed r; epochs_run := v; total_epochs := total_epochs r;
     max_steps_per_epoch := max_steps_per_epoch r; global_step := global_step r;
     _resume_from_checkpoint := _resume_from_checkpoint r;
     _gradient_accumulation_steps := _gradient_accumulation_steps r;
     save_every_n_steps := save_every_n_steps r;
     _log_every_n_steps := _log_every_n_steps r;
     _enable_async_checkpointing := _enable_async_checkpointing r;
     _clip_grad_norm := _clip_grad_norm r; _kd_ratio := _kd_ratio r;
     _lr_scheduler := _lr_scheduler r;
     _steps_per_epoch := _steps_per_epoch r;
     checkpoint_dir_prefix := checkpoint_dir_prefix r;
     _device_type := _device_type r;
     _log_peak_memory_stats := _log_peak_memory_stats r |}.

Definition set_max_steps_per_epoch (v : option Z) (r : Recipe) : Recipe :=
  {| seed := seed r; epochs_run := epochs_run r; total_epochs := total_epochs r;
     max_steps_per_epoch := v; global_step := global_step r;
     _resume_from_checkpoint := _resume_from_checkpoint r;
     _gradient_accumulation_steps := _gradient_accumulation_steps r;
     save_every_n_steps := save_every_n_steps r;
     _log_every_n_steps := _log_every_n_steps r;
     _enable_async_checkpointing := _enable_async_checkpointing r;
     _clip_grad_norm := _clip_grad_norm r; _kd_ratio := _kd_ratio r;
     _lr_scheduler := _lr_scheduler r;
     _steps_per_epoch := _steps_per_epoch r;
     checkpoint_dir_prefix := checkpoint_dir_prefix r;
     _device_type := _device_type r;
     _log_peak_memory_stats := _log_peak_memory_stats r |}.

Definition set_global_step (v : Z) (r : Recipe) : Recipe :=
  {| seed := seed r; epochs_run := epochs_run r; total_epochs := total_epochs r;
     max_steps_per_epoch := max_steps_per_epoch r; global_step := v;
     _resume_from_checkpoint := _resume_from_checkpoint r;
     _gradient_accumulation_steps := _gradient_accumulation_steps r;
     save_every_n_steps := save_every_n_steps r;
     _log_every_n_steps := _log_every_n_steps r;
     _enable_async_checkpointing := _enable_async_checkpointing r;
     _clip_grad_norm := _clip_grad_norm r; _kd_ratio := _kd_ratio r;
     _lr_scheduler := _lr_scheduler r;
     _steps_per_epoch := _steps_per_epoch r;
     checkpoint_dir_prefix := checkpoint_dir_prefix r;
     _device_type := _device_type r;
     _log_peak_memory_stats := _log_peak_memory_stats r |}.

Definition set_save_every_n_steps (v : option Z) (r : Recipe) : Recipe :=
  {| seed := seed r; epochs_run := epochs_run r; total_epochs := total_epochs r;
     max_steps_per_epoch := max_steps_per_epoch r; global_step := global_step r;
     _resume_from_checkpoint := _resume_from_checkpoint r;
     _gradient_accumulation_steps := _gradient_accumulation_steps r;
     save_every_n_steps := v;
     _log_every_n_steps := _log_every_n_steps r;
     _enable_async_checkpointing := _enable_async_checkpointing r;
     _clip_grad_norm := _clip_grad_norm r; _kd_ratio := _kd_ratio r;
     _lr_scheduler := _lr_scheduler r;
     _steps_per_epoch := _steps_per_epoch r;
     checkpoint_dir_prefix := checkpoint_dir_prefix r;
     _device_type := _device_type r;
     _log_peak_memory_stats := _log_peak_memory_stats r |}.

Definition set_steps_per_epoch (v : Z) (r : Recipe) : Recipe :=
  {| seed := seed r; epochs_run := epochs_run r; total_epochs := total_epochs r;
     max_steps_per_epoch := max_steps_per_epoch r; global_step := global_step r;
     _resume_from_checkpoint := _resume_from_checkpoint r;
     _gradient_accumulation_steps := _gradient_accumulation_steps r;
     save_every_n_steps := save_every_n_steps r;
     _log_every_n_steps := _log_every_n_steps r;
     _enable_async_checkpointing := _enable_async_checkpointing r;
     _clip_grad_norm := _clip_grad_norm r; _kd_ratio := _kd_ratio r;
     _lr_scheduler := _lr_scheduler r;
     _steps_per_epoch := Some v;
     checkpoint_dir_prefix := checkpoint_dir_prefix r;
     _device_type := _device_type r;
     _log_peak_memory_stats := _log_peak_memory_stats r |}.

Definition set_checkpoint_dir_prefix (v : dir_prefix) (r : Recipe) : Recipe :=
  {| seed := seed r; epochs_run := epochs_run r; total_epochs := total_epochs r;
     max_steps_per_epoch := max_steps_per_epoch r; global_step := global_step r;
     _resume_from_checkpoint := _resume_from_checkpoint r;
     _gradient_accumulation_steps := _gradient_accumulation_steps r;
     save_every_n_steps := save_every_n_steps r;
     _log_every_n_steps := _log_every_n_steps r;
     _enable_async_checkpointing := _enable_async_checkpointing r;
     _clip_grad_norm := _clip_grad_norm r; _kd_ratio := _kd_ratio r;
     _lr_scheduler := _lr_scheduler r;
     _steps_per_epoch := _steps_per_epoch r;
     checkpoint_dir_prefix := Some v;
     _device_type := _device_type r;
     _log_peak_memory_stats := _log_peak_memory_stats r |}.

(** ** The collaborators

    What the recipes obtain from torch and torchtune, as an interface: the
    model weights and their gradients, the two loss computations, the
    optimizer update and gradient clipping.  The recipes do not look inside
    any of these. *)

(** A distillation microbatch: [batch["tokens"]] and [batch["labels"]],
    both of shape [b, s]. *)
Record KDBatch : Type := {
  kd_tokens : list (list Z);
  kd_labels : list (list Z)
}.

(** A preference microbatch, the pair [(input_ids, labels)]; the rows of
    both are the chosen sequences followed by the rejected ones. *)
Record DPOBatch : Type := {
  concatenated_input_ids : list (list Z);
  concatenated_labels : list (list Z)
}.

Class Torch : Type := {
  Weights : Type;
  Grad : Type;
  Logits : Type;
  (* accumulation of [.grad] by [backward()], and [training.scale_grads] *)
  grad_add : Grad -> Grad -> Grad;
  grad_scale : Qc -> Grad -> Grad;
  grad_none : Grad;
  (* [optimizer.step()] *)
  optimizer_step : Weights -> Grad -> Weights;
  (* [g.mul_(x)] of [training.scale_grads] for an [x] that is not finite *)
  grad_nonfinite : scalar -> Grad -> Grad;
  (* [torch.nn.utils.clip_grad_norm_]: the clipped gradients and the norm *)
  clip_grad_norm_ : Grad -> Qc -> Grad * scalar;
  (* [self._loss_fn.ignore_index] *)
  ignore_index : Z;
  (* [KDRecipeSingleDevice._loss_step]: [(loss, kd_loss)] on the student
     weights, and the gradient of each with respect to them *)
  kd_losses : Weights -> KDBatch -> Qc * Qc;
  kd_loss_grads : Weights -> KDBatch -> Grad * Grad;
  (* the policy model on one sequence, with adapters enabled or disabled *)
  model_forward : Weights -> bool -> list Z -> Logits;
  (* [rlhf.get_batch_log_probs], for one sequence *)
  get_log_probs : Logits -> list Z -> Qc;
  (* [tensor.mean()] of a group of logits *)
  logits_mean : list Logits -> Qc;
  (* [self._loss_fn]: policy chosen/rejected log-probabilities, reference
     chosen/rejected log-probabilities; returns the per-pair loss, the
     chosen rewards and the rejected rewards *)
  dpo_loss_fn : list Qc -> list Qc -> list Qc -> list Qc ->
                list Qc * list Qc * list Qc;
  (* gradient of the mean preference loss with respect to the adapters *)
  dpo_loss_grad : Weights -> DPOBatch -> Grad;
  (* what the metrics of step [g] read from outside the recipe:
     [self._optimizer.param_groups[0]["lr"]], the time
     [time.perf_counter() - t0] the step took, which is positive, and the
     three figures of [training.get_memory_stats] *)
  optimizer_lr : Z -> Qc;
  time_per_step : Z -> Qc;
  time_per_step_pos : forall g, Qclt (Q2Qc 0) (time_per_step g);
  memory_stats : Z -> Qc * Qc * Qc
}.

Inductive warning : Type :=
| WarnSeed (ckpt_value : Z)
| WarnMaxSteps (ckpt_value : option Z)
| WarnTotalEpochs (config_value : Z).

(** [TrainingProgress(...)] as the recipes build it (the data-source cursor
    is opaque and left out). *)
Record TrainingProgress : Type := {
  tp_seed : Z;
  tp_epochs_run : Z;
  tp_total_epochs : Z;
  tp_max_steps_per_epoch : option Z
}.

Section Collaborators.

Context {T : Torch}.

Inductive event : Type :=
| EvForward (adapters_enabled grad_mode : bool) (input_ids : list (list Z))
| EvBackward (g : Grad)
| EvScaleGrads (factor : scalar)
| EvClipGradNorm (max_norm : Qc)
| EvOptimizerStep (g : Grad)
| EvZeroGrad
| EvLrSchedulerStep
| EvPbar (epoch step : Z) (loss : scalar)
| EvLogDict (step : Z) (log_dict : list (string * scalar))
| EvSaveCheckpoint (training_progress : TrainingProgress) (epoch : Z)
                   (full_tensors : bool) (prefix : option dir_prefix).

(** Everything outside [self] that the recipes act on. *)
Record World : Type := {
  rng : option Z;           (* seed the process-wide generators were seeded with *)
  entropy : Z;              (* what [set_seed] draws when given no seed *)
  warnings : list warning;
  weights : Weights;
  adapter_enabled : bool;
  grad_enabled : bool;
  grads : Grad;             (* the [.grad] buffers of the trainable parameters *)
  trace : list event
}.

Definition set_rng (v : option Z) (w : World) : World :=
  {| rng := v; entropy := entropy w; warnings := warnings w;
     weights := weights w; adapter_enabled := adapter_enabled w;
     grad_enabled := grad_enabled w; grads := grads w; trace := trace w |}.

Definition warn (m : warning) (w : World) : World :=
  {| rng := rng w; entropy := entropy w; warnings := warnings w ++ [m];
     weights := weights w; adapter_enabled := adapter_enabled w;
     grad_enabled := grad_enabled w; grads := grads w; trace := trace w |}.

Definition set_weights (v : Weights) (w : World) : World :=
  {| rng := rng w; entropy := entropy w; warnings := warnings w;
     weights := v; adapter_enabled := adapter_enabled w;
     grad_enabled := grad_enabled w; grads := grads w; trace := trace w |}.

Definition set_adapter_enabled (v : bool) (w : World) : World :=
  {| rng := rng w; entropy := entropy w; warnings := warnings w;
     weights := weights w; adapter_enabled := v;
     grad_enabled := grad_enabled w; grads := grads w; trace := trace w |}.

Definition set_grad_enabled (v : bool) (w : World) : World :=
  {| rng := rng w; entropy := entropy w; warnings := warnings w;
     weights := weights w; adapter_enabled := adapter_enabled w;
     grad_enabled := v; grads := grads w; trace := trace w |}.

Definition set_grads (v : Grad) (w : World) : World :=
  {| rng := rng w; entropy := entropy w; warnings := warnings w;
     weights := weights w; adapter_enabled := adapter_enabled w;
     grad_enabled := grad_enabled w; grads := v; trace := trace w |}.

Definition emit (e : event) (w : World) : World :=
  {| rng := rng w; entropy := entropy w; warnings := warnings w;
     weights := weights w; adapter_enabled := adapter_enabled w;
     grad_enabled := grad_enabled w; grads := grads w;
     trace := trace w ++ [e] |}.

(** [training.set_seed(seed=...)]: seeds the process-wide generators and
    returns the seed it used. *)
Definition set_seed (s : option Z) (w : World) : Z * World :=
  let v := match s with Some v => v | None => entropy w end in
  (v, set_rng (Some v) w).

(** [x.backward()] for a scalar whose gradient is [g]. *)
Definition backward (g : Grad) (w : World) : World :=
  emit (EvBackward g) (set_grads (grad_add (grads w) g) w).

(** [g.mul_(x)] on the gradient buffers *)
Definition grad_times (x : scalar) (g : Grad) : Grad :=
  match x with
  | Finite q => grad_scale q g
  | _ => grad_nonfinite x g
  end.

(** [training.scale_grads(self._model, factor)] *)
Definition scale_grads (factor : scalar) (w : World) : World :=
  emit (EvScaleGrads factor) (set_grads (grad_times factor (grads w)) w).

(** [training.get_memory_stats(device=self._device)] as a dict *)
Definition get_memory_stats (g : Z) : list (string * scalar) :=
  [("peak_memory_active"%string, Finite (fst (fst (memory_stats g))));
   ("peak_memory_alloc"%string, Finite (snd (fst (memory_stats g))));
   ("peak_memory_reserved"%string, Finite (snd (memory_stats g)))].

(** [self._optimizer.step()] *)
Definition optimizer_step_call (w : World) : World :=
  emit (EvOptimizerStep (grads w))
       (set_weights (optimizer_step (weights w) (grads w)) w).

(** [self._optimizer.zero_grad(set_to_none=True)] *)
Definition zero_grad (w : World) : World :=
  emit EvZeroGrad (set_grads grad_none w).

(** [__init__], the part of both constructors that sets the recipe state
    (identical in the two recipes; the distillation ratio and the clipping
    norm are read by the distillation recipe only).  Peak-memory logging
    asked for on a cpu device is switched off. *)
Definition __init__ (cfg : Cfg) (w : World) : Recipe * World :=
  let sw := set_seed (cfg_seed cfg) w in
  ({| seed := fst sw;
      epochs_run := 0;
      total_epochs := cfg_epochs cfg;
      max_steps_per_epoch := cfg_max_steps_per_epoch cfg;
      global_step := 0;
      _resume_from_checkpoint := cfg_resume_from_checkpoint cfg;
      _gradient_accumulation_steps := cfg_gradient_accumulation_steps cfg;
      save_every_n_steps := cfg_save_every_n_steps cfg;
      _log_every_n_steps :=
        match cfg_log_every_n_steps cfg with Some n => n | None => 1 end;
      _enable_async_checkpointing :=
        match cfg_enable_async_checkpointing cfg with
        | Some b => b | None => false end;
      _clip_grad_norm := cfg_clip_grad_norm cfg;
      _kd_ratio :=
        match cfg_kd_ratio cfg with Some r => r | None => Q2Qc (1 # 2) end;
      _lr_scheduler := cfg_lr_scheduler cfg;
      _steps_per_epoch := None;
      checkpoint_dir_prefix := None;
      _device_type := cfg_device_type cfg;
      _log_peak_memory_stats :=
        let flag :=
          match cfg_log_peak_memory_stats cfg with
          | Some b => b | None => false end in
        if flag && String.eqb (cfg_device_type cfg) "cpu" then false else flag |},
   snd sw).

(** The three reconciliation statements shared by both
    [_update_recipe_state] methods, in source order. *)

(** [if self.seed != ckpt_dict[SEED_KEY]: warn(...); self.seed = ckpt_dict[SEED_KEY]] *)
Definition reconcile_seed (ckpt : Ckpt) (sw : Recipe * World)
  : result (Recipe * World) :=
  s <- getitem (ckpt_seed ckpt) ;;
  if negb (seed (fst sw) =? s)
  then Ok (set_seed_attr s (fst sw), warn (WarnSeed s) (snd sw))
  else Ok sw.

(** [if self.max_steps_per_epoch != ckpt_dict[MAX_STEPS_KEY]: warn(...);
     self.max_steps_per_epoch = ckpt_dict[MAX_STEPS_KEY]] *)
Definition reconcile_max_steps (ckpt : Ckpt) (sw : Recipe * World)
  : result (Recipe * World) :=
  m <- getitem (ckpt_max_steps ckpt) ;;
  if negb (opt_eqb (max_steps_per_epoch (fst sw)) m)
  then Ok (set_max_steps_per_epoch m (fst sw), warn (WarnMaxSteps m) (snd sw))
  else Ok sw.

(** [if self.total_epochs != ckpt_dict[TOTAL_EPOCHS_KEY]: warn(...)] *)
Definition check_total_epochs (ckpt : Ckpt) (sw : Recipe * World)
  : result (Recipe * World) :=
  t <- getitem (ckpt_total_epochs ckpt) ;;
  if negb (total_epochs (fst sw) =? t)
  then Ok (fst sw, warn (WarnTotalEpochs (total_epochs (fst sw))) (snd sw))
  else Ok sw.

(** The schedule part of [setup], identical in the two recipes: lines
    313-333 of the distillation recipe, 266-286 of the preference recipe.
    [len_dataloader] is [len(self._dataloader)].  The boolean returned tells
    whether the data source was drained ([list(self._dataloader)]). *)
Definition setup_schedule (len_dataloader : Z) (self : Recipe)
  : result (Recipe * bool) :=
  spe <- floordiv len_dataloader (_gradient_accumulation_steps self) ;;
  let self1 := set_steps_per_epoch spe self in
  let self2 :=
    match max_steps_per_epoch self1 with
    | Some m =>
        if m <? spe
        then
          let s := set_steps_per_epoch m self1 in
          set_global_step (epochs_run s * m) s
        else self1
    | None => self1
    end in
  let self3 :=
    match save_every_n_steps self2 with
    | None =>
        set_checkpoint_dir_prefix prefix_epoch
          (set_save_every_n_steps (_steps_per_epoch self2) self2)
    | Some _ => set_checkpoint_dir_prefix prefix_step self2
    end in
  if _resume_from_checkpoint self3
  then
    spe3 <- match _steps_per_epoch self3 with
            | Some v => Ok v | None => Raise AttributeError end ;;
    m <- pymod (global_step self3) spe3 ;;
    Ok (self3, m =? 0)
  else Ok (self3, false).

(** The resume part of [setup] (lines 255-274 and 227-246), given the
    recipe's own [_update_recipe_state]. *)
Definition setup_resume
    (update : Ckpt -> Recipe * World -> result (Recipe * World))
    (base_ckpt distributed_ckpt : Ckpt) (sw : Recipe * World)
  : result (Recipe * World) :=
  if _resume_from_checkpoint (fst sw)
  then
    let checkpoint_dict :=
      if _enable_async_checkpointing (fst sw)
      then distributed_ckpt else base_ckpt in
    if negb (ckpt_has_adapter checkpoint_dict)
    then Raise ValueError
    else update checkpoint_dict sw
  else Ok sw.

End Collaborators.

(** ** The distillation recipe *)

Module KD.
Section Recipe.

Context {T : Torch}.

(** [KDRecipeSingleDevice._update_recipe_state] *)
Definition _update_recipe_state (ckpt_dict : Ckpt) (sw : Recipe * World)
  : result (Recipe * World) :=
  e <- getitem (ckpt_epochs ckpt_dict) ;;
  let sw1 := (set_epochs_run e (fst sw), snd sw) in
  g <- getitem (ckpt_steps ckpt_dict) ;;
  let sw2 := (set_global_step g (fst sw1), snd sw1) in
  sw3 <- reconcile_seed ckpt_dict sw2 ;;
  sw4 <- reconcile_max_steps ckpt_dict sw3 ;;
  check_total_epochs ckpt_dict sw4.

(** [KDRecipeSingleDevice.setup], restricted to the recipe state. *)
Definition setup (base_ckpt distributed_ckpt : Ckpt) (len_dataloader : Z)
    (sw : Recipe * World) : result (Recipe * World * bool) :=
  sw1 <- setup_resume _update_recipe_state base_ckpt distributed_ckpt sw ;;
  r <- setup_schedule len_dataloader (fst sw1) ;;
  Ok (fst r, snd sw1, snd r).

(** The recipe together with the local variables of [train]. *)
Record State : Type := {
  self : Recipe;
  world : World;
  running_class_loss : Qc;
  running_kd_loss : Qc;
  num_tokens : Z
}.

(** [(batch["labels"] != self._loss_fn.ignore_index).sum()] *)
Definition current_num_tokens (batch : KDBatch) : Z :=
  Z.of_nat (length (filter (fun l => negb (l =? ignore_index))
                           (concat (kd_labels batch)))).

(** [KDRecipeSingleDevice.save_checkpoint] *)
Definition save_checkpoint (epoch : Z) (full_tensors : bool)
    (sw : Recipe * World) : result World :=
  let s := fst sw in
  spe <- getattr (_steps_per_epoch s) ;;
  m <- pymod (global_step s) spe ;;
  let training_progress_epoch := if m =? 0 then epoch + 1 else epoch in
  prefix <- getattr (checkpoint_dir_prefix s) ;;
  Ok (emit (EvSaveCheckpoint
              {| tp_seed := seed s;
                 tp_epochs_run := training_progress_epoch;
                 tp_total_epochs := total_epochs s;
                 tp_max_steps_per_epoch := max_steps_per_epoch s |}
              epoch full_tensors (Some prefix))
           (snd sw)).

(** [log_dict] of [train] (lines 692-707) at the step that made
    [global_step] equal to [step], with [num_tokens] counted in the window:
    the dict literal, then [log_dict.update(...)] with the memory
    statistics off the cpu when they are asked for, then
    [log_dict.update({"grad_norm": grad_norm})] when clipping is
    configured.  No key occurs twice, so each [update] appends. *)
Definition log_dict (s : Recipe) (step num_tokens : Z)
    (loss_to_log class_loss_to_log kd_loss_to_log : scalar)
    (grad_norm : option scalar) : list (string * scalar) :=
  [("loss"%string, loss_to_log);
   ("class_loss"%string, class_loss_to_log);
   ("kd_loss"%string, kd_loss_to_log);
   ("lr"%string, Finite (optimizer_lr step));
   ("tokens_per_second_per_gpu"%string,
     Finite (Z2Qc num_tokens / time_per_step step)%Qc)]
  ++ (if negb (String.eqb (_device_type s) "cpu") && _log_peak_memory_stats s
      then get_memory_stats step
      else [])
  ++ match grad_norm with
     | Some n => [("grad_norm"%string, n)]
     | None => []
     end.

(** The body of [if (idx + 1) % self._gradient_accumulation_steps == 0:]
    in [train] (lines 670-724). *)
Definition optimizer_block (curr_epoch : Z) (st : State) : result State :=
  let s := self st in
  let w1 := scale_grads (tensor_div (Q2Qc 1) (num_tokens st)) (world st) in
  let wn :=
    match _clip_grad_norm s with
    | Some max_norm =>
        let c := clip_grad_norm_ (grads w1) max_norm in
        (emit (EvClipGradNorm max_norm) (set_grads (fst c) w1), Some (snd c))
    | None => (w1, None)
    end in
  let w2 := optimizer_step_call (fst wn) in
  let w3 := zero_grad w2 in
  let w4 := emit EvLrSchedulerStep w3 in
  let s1 := set_global_step (global_step s + 1) s in
  let class_loss_to_log :=
    tensor_div (running_class_loss st) (num_tokens st) in
  let kd_loss_to_log := tensor_div (running_kd_loss st) (num_tokens st) in
  let loss_to_log :=
    scalar_add (scalar_scale (1 - _kd_ratio s1)%Qc class_loss_to_log)
               (scalar_scale (_kd_ratio s1) kd_loss_to_log) in
  let w5 := emit (EvPbar (curr_epoch + 1) (global_step s1) loss_to_log) w4 in
  lm <- pymod (global_step s1) (_log_every_n_steps s1) ;;
  let w6 :=
    if lm =? 0
    then emit (EvLogDict (global_step s1)
                 (log_dict s1 (global_step s1) (num_tokens st)
                           loss_to_log class_loss_to_log kd_loss_to_log
                           (snd wn))) w5
    else w5 in
  n <- match save_every_n_steps s1 with
       | Some n => Ok n | None => Raise TypeError end ;;
  sm <- pymod (global_step s1) n ;;
  w7 <- (if (sm =? 0) && negb (curr_epoch =? total_epochs s1 - 1)
         then save_checkpoint curr_epoch false (s1, w6)
         else Ok w6) ;;
  Ok {| self := s1; world := w7;
        running_class_loss := Q2Qc 0; running_kd_loss := Q2Qc 0;
        num_tokens := 0 |}.

(** Lines 651-666 of [train]: count the tokens, run [_loss_step], add to
    the running sums, call [current_loss.backward()]. *)
Definition accumulate (batch : KDBatch) (st : State) : State :=
  let s := self st in
  let n := current_num_tokens batch in
  let losses := kd_losses (weights (world st)) batch in
  let g := kd_loss_grads (weights (world st)) batch in
  {| self := s;
     world :=
       backward (grad_add (grad_scale (1 - _kd_ratio s)%Qc (fst g))
                          (grad_scale (_kd_ratio s) (snd g)))
                (world st);
     running_class_loss :=
       (running_class_loss st + fst losses * Z2Qc n)%Qc;
     running_kd_loss := (running_kd_loss st + snd losses * Z2Qc n)%Qc;
     num_tokens := num_tokens st + n |}.

(** The body of [for idx, batch in enumerate(self._dataloader):] in
    [train] (lines 651-747, without the profiler). *)
Definition microbatch (curr_epoch idx : Z) (batch : KDBatch) (st : State)
  : result (State * bool) :=
  let st1 := accumulate batch st in
  m <- pymod (idx + 1) (_gradient_accumulation_steps (self st1)) ;;
  st2 <- (if m =? 0 then optimizer_block curr_epoch st1 else Ok st1) ;;
  q <- floordiv (idx + 1) (_gradient_accumulation_steps (self st2)) ;;
  Ok (st2, opt_eqb (Some q) (max_steps_per_epoch (self st2))).

(** One iteration of [for curr_epoch in range(...)]; [dataloader e] is what
    iterating [self._dataloader] yields after [sampler.set_epoch(e)]. *)
Definition epoch (dataloader : Z -> list KDBatch) (curr_epoch : Z)
    (st : State) : result State :=
  r <- for_enumerate (microbatch curr_epoch) 0 (dataloader curr_epoch) st ;;
  let st' := fst r in
  Ok {| self := set_epochs_run (epochs_run (self st') + 1) (self st');
        world := world st';
        running_class_loss := running_class_loss st';
        running_kd_loss := running_kd_loss st';
        num_tokens := num_tokens st' |}.

(** [KDRecipeSingleDevice.train] *)
Definition train (dataloader : Z -> list KDBatch) (sw : Recipe * World)
  : result (Recipe * World) :=
  let st0 :=
    {| self := fst sw; world := snd sw;
       running_class_loss := Q2Qc 0; running_kd_loss := Q2Qc 0;
       num_tokens := 0 |} in
  let epochs := range (epochs_run (fst sw)) (total_epochs (fst sw)) in
  st <- for_each (epoch dataloader) epochs st0 ;;
  curr_epoch <- loop_variable epochs ;;
  w <- save_checkpoint curr_epoch true (self st, world st) ;;
  Ok (self st, w).

End Recipe.
End KD.


(** ** The preference recipe *)

Module DPO.
Section Recipe.

Context {T : Torch}.

(** [LoRADPORecipeSingleDevice._update_recipe_state] *)
Definition _update_recipe_state (ckpt_dict : Ckpt) (sw : Recipe * World)
  : result (Recipe * World) :=
  e <- getitem (ckpt_epochs ckpt_dict) ;;
  let sw1 := (set_epochs_run e (fst sw), snd sw) in
  sw3 <- reconcile_seed ckpt_dict sw1 ;;
  sw4 <- reconcile_max_steps ckpt_dict sw3 ;;
  check_total_epochs ckpt_dict sw4.

(** [LoRADPORecipeSingleDevice.setup], restricted to the recipe state. *)
Definition setup (base_ckpt distributed_ckpt : Ckpt) (len_dataloader : Z)
    (sw : Recipe * World) : result (Recipe * World * bool) :=
  sw1 <- setup_resume _update_recipe_state base_ckpt distributed_ckpt sw ;;
  r <- setup_schedule len_dataloader (fst sw1) ;;
  Ok (fst r, snd sw1, snd r).

Record ChosenRejectedOutputs : Type := {
  chosen_logps : list Qc;
  rejected_logps : list Qc;
  chosen_logits : list Logits;
  rejected_logits : list Logits
}.

Record State : Type := {
  self : Recipe;
  world : World;
  running_loss : Qc;
  num_tokens : Z
}.

(** [LoRADPORecipeSingleDevice.save_checkpoint] *)
Definition save_checkpoint (epoch : Z) (full_tensors : bool)
    (sw : Recipe * World) : result World :=
  let s := fst sw in
  Ok (emit (EvSaveCheckpoint
              {| tp_seed := seed s;
                 tp_epochs_run := epochs_run s;
                 tp_total_epochs := total_epochs s;
                 tp_max_steps_per_epoch := max_steps_per_epoch s |}
              epoch full_tensors None)
           (snd sw)).

(** [LoRADPORecipeSingleDevice.concatenated_forward]; the model passed in
    is always [self._model], here the weights and the adapter switch of the
    world. *)
Definition concatenated_forward (batch : DPOBatch) (w : World)
  : ChosenRejectedOutputs * World :=
  let len_chosen := (length (concatenated_input_ids batch) / 2)%nat in
  let all_logits :=
    map (model_forward (weights w) (adapter_enabled w))
        (concatenated_input_ids batch) in
  let w' :=
    emit (EvForward (adapter_enabled w) (grad_enabled w)
                    (concatenated_input_ids batch)) w in
  let all_log_probs :=
    map (fun p => get_log_probs (fst p) (snd p))
        (combine all_logits (concatenated_labels batch)) in
  ({| chosen_logps := firstn len_chosen all_log_probs;
      rejected_logps := skipn len_chosen all_log_probs;
      chosen_logits := firstn len_chosen all_logits;
      rejected_logits := skipn len_chosen all_logits |}, w').

(** [(chosen_rewards > rejected_rewards).float()] *)
Definition reward_accuracies (chosen_rewards rejected_rewards : list Qc)
  : list Qc :=
  map (fun p => if Qc_gtb (fst p) (snd p) then Q2Qc 1 else Q2Qc 0)
      (combine chosen_rewards rejected_rewards).

(** What one pass through the forward part of the loop body leaves in the
    local variables. *)
Record Forwarded : Type := {
  policy_chosen_rejected_outputs : ChosenRejectedOutputs;
  reference_chosen_rejected_outputs : ChosenRejectedOutputs;
  policy_chosen_logits_mean : Qc;
  policy_rejected_logits_mean : Qc;
  loss : Qc;
  chosen_rewards : list Qc;
  rejected_rewards : list Qc
}.

(** Lines 517-543 of [train]: the policy pass, the reference pass under
    [with torch.no_grad(), disable_adapter(self._model):], the loss. *)
Definition forward_passes (batch : DPOBatch) (w : World)
  : Forwarded * World :=
  let pw := concatenated_forward batch w in
  let w1 := set_adapter_enabled false (set_grad_enabled false (snd pw)) in
  let rw := concatenated_forward batch w1 in
  let w2 :=
    set_grad_enabled (grad_enabled (snd pw))
      (set_adapter_enabled true (snd rw)) in
  let out :=
    dpo_loss_fn (chosen_logps (fst pw)) (rejected_logps (fst pw))
                (chosen_logps (fst rw)) (rejected_logps (fst rw)) in
  ({| policy_chosen_rejected_outputs := fst pw;
      reference_chosen_rejected_outputs := fst rw;
      policy_chosen_logits_mean := logits_mean (chosen_logits (fst pw));
      policy_rejected_logits_mean := logits_mean (rejected_logits (fst pw));
      loss := mean (fst (fst out));
      chosen_rewards := snd (fst out);
      rejected_rewards := snd out |}, w2).

(** [log_dict] of [train] (lines 569-589) at the step that made
    [global_step] equal to [step], with [num_tokens] counted in the window
    and [f] the local variables of the iteration: the dict literal, then
    [log_dict.update(...)] with the memory statistics when they are asked
    for.  No key occurs twice, so the [update] appends. *)
Definition log_dict (s : Recipe) (step num_tokens : Z) (loss_to_log : Qc)
    (f : Forwarded) : list (string * scalar) :=
  [("loss"%string, Finite loss_to_log);
   ("lr"%string, Finite (optimizer_lr step));
   ("tokens_per_second_per_gpu"%string,
     Finite (Z2Qc num_tokens / time_per_step step)%Qc);
   ("rewards/chosen"%string, Finite (mean (chosen_rewards f)));
   ("rewards/rejected"%string, Finite (mean (rejected_rewards f)));
   ("rewards/accuracies"%string,
     Finite (mean (reward_accuracies (chosen_rewards f) (rejected_rewards f))));
   ("rewards/margins"%string,
     Finite (mean (map (fun p => (fst p - snd p)%Qc)
                       (combine (chosen_rewards f) (rejected_rewards f)))));
   ("log_probs/rejected"%string,
     Finite (mean (rejected_logps (policy_chosen_rejected_outputs f))));
   ("log_probs/chosen"%string,
     Finite (mean (chosen_logps (policy_chosen_rejected_outputs f))));
   ("logits/rejected"%string, Finite (policy_rejected_logits_mean f));
   ("logits/chosen"%string, Finite (policy_chosen_logits_mean f))]
  ++ (if _log_peak_memory_stats s then get_memory_stats step else []).

(** The body of [if (idx + 1) % self._gradient_accumulation_steps == 0:]
    in [train] (lines 552-607). *)
Definition optimizer_block (curr_epoch : Z) (f : Forwarded) (st : State)
  : result State :=
  let s := self st in
  let w2 := optimizer_step_call (world st) in
  let w3 := zero_grad w2 in
  let w4 := if _lr_scheduler s then emit EvLrSchedulerStep w3 else w3 in
  let s1 := set_global_step (global_step s + 1) s in
  let loss_to_log := running_loss st in
  let w5 :=
    emit (EvPbar (curr_epoch + 1) (global_step s1) (Finite loss_to_log)) w4 in
  lm <- pymod (global_step s1) (_log_every_n_steps s1) ;;
  let w6 :=
    if lm =? 0
    then emit (EvLogDict (global_step s1)
                 (log_dict s1 (global_step s1) (num_tokens st) loss_to_log f)) w5
    else w5 in
  n <- match save_every_n_steps s1 with
       | Some n => Ok n | None => Raise TypeError end ;;
  sm <- pymod (global_step s1) n ;;
  w7 <- (if (sm =? 0) && negb (curr_epoch =? total_epochs s1 - 1)
         then save_checkpoint curr_epoch false (s1, w6)
         else Ok w6) ;;
  Ok {| self := s1; world := w7; running_loss := Q2Qc 0; num_tokens := 0 |}.

(** [batch[0].numel()] *)
Definition numel (t : list (list Z)) : Z :=
  Z.of_nat (length (concat t)).

(** Lines 516-548 of [train]: count the tokens, run the two passes and
    the loss, add to the running loss, call [loss.backward()]. *)
Definition accumulate (batch : DPOBatch) (st : State) : Forwarded * State :=
  let s := self st in
  let fw := forward_passes batch (world st) in
  let loss' :=
    (loss (fst fw) / Z2Qc (_gradient_accumulation_steps s))%Qc in
  (fst fw,
   {| self := s;
      world :=
        backward (grad_scale (1 / Z2Qc (_gradient_accumulation_steps s))%Qc
                             (dpo_loss_grad (weights (world st)) batch))
                 (snd fw);
      running_loss := (running_loss st + loss')%Qc;
      num_tokens := num_tokens st + numel (concatenated_input_ids batch) |}).

(** The body of [for idx, batch in enumerate(self._dataloader):] in
    [train] (lines 509-607). *)
Definition microbatch (curr_epoch idx : Z) (batch : DPOBatch) (st : State)
  : result (State * bool) :=
  stop <- match max_steps_per_epoch (self st) with
          | Some m =>
              q <- floordiv idx (_gradient_accumulation_steps (self st)) ;;
              Ok (q =? m)
          | None => Ok false
          end ;;
  if stop then Ok (st, true)
  else
    let fst1 := accumulate batch st in
    m <- pymod (idx + 1) (_gradient_accumulation_steps (self (snd fst1))) ;;
    st2 <- (if m =? 0 then optimizer_block curr_epoch (fst fst1) (snd fst1)
            else Ok (snd fst1)) ;;
    Ok (st2, false).

(** One iteration of [for curr_epoch in range(...)]. *)
Definition epoch (dataloader : Z -> list DPOBatch) (curr_epoch : Z)
    (st : State) : result State :=
  r <- for_enumerate (microbatch curr_epoch) 0 (dataloader curr_epoch) st ;;
  let st' := fst r in
  Ok {| self := set_epochs_run (epochs_run (self st') + 1) (self st');
        world := world st';
        running_loss := running_loss st';
        num_tokens := num_tokens st' |}.

(** [LoRADPORecipeSingleDevice.train] *)
Definition train (dataloader : Z -> list DPOBatch) (sw : Recipe * World)
  : result (Recipe * World) :=
  let st0 :=
    {| self := fst sw; world := snd sw;
       running_loss := Q2Qc 0; num_tokens := 0 |} in
  let epochs := range (epochs_run (fst sw)) (total_epochs (fst sw)) in
  st <- for_each (epoch dataloader) epochs st0 ;;
  curr_epoch <- loop_variable epochs ;;
  w <- save_checkpoint curr_epoch true (self st, world st) ;;
  Ok (self st, w).

End Recipe.
End DPO.


(** ** Concrete collaborators and inputs

    A small instance of the interface, used to run the recipes on concrete
    inputs: gradients are rationals, the weights count the optimizer steps
    taken, the class loss of a microbatch is its first token. *)

Module Sample.

Definition torch : Torch :=
  {| Weights := Z; Grad := Qc; Logits := Z;
     grad_add := Qcplus; grad_scale := Qcmult; grad_none := Q2Qc 0;
     optimizer_step := fun w _ => w + 1;
     grad_nonfinite := fun _ g => g;
     clip_grad_norm_ := fun g max_norm => (g, Finite g);
     ignore_index := -100;
     kd_losses :=
       fun _ b => (Z2Qc (hd 0 (concat (kd_tokens b))), Z2Qc 2);
     kd_loss_grads := fun _ b => (Z2Qc 1, Z2Qc 3);
     model_forward := fun w a s => if a then 10 * hd 0 s + w else 10 * hd 0 s;
     get_log_probs := fun l lab => Z2Qc (l + hd 0 lab);
     logits_mean := fun l => Z2Qc (fold_right Z.add 0 l);
     dpo_loss_fn := fun pc pr rc rr => (pc, pc, pr);
     dpo_loss_grad := fun _ _ => Z2Qc 1;
     optimizer_lr := fun g => Z2Qc g;
     time_per_step := fun _ => Z2Qc 2;
     time_per_step_pos := fun _ => eq_refl;
     memory_stats := fun _ => (Z2Qc 1, Z2Qc 2, Z2Qc 3) |}.

Definition world0 : @World torch :=
  {| rng := None; entropy := 7; warnings := [];
     weights := (0 : @Weights torch);
     adapter_enabled := true; grad_enabled := true;
     grads := (Q2Qc 0 : @Grad torch); trace := [] |}.

(** seed 1, 2 epochs, no step cap, 2 microbatches per optimizer step *)
Definition cfg (resume : bool) (max_steps save_every : option Z) : Cfg :=
  {| cfg_seed := Some 1; cfg_epochs := 2;
     cfg_max_steps_per_epoch := max_steps;
     cfg_resume_from_checkpoint := resume;
     cfg_gradient_accumulation_steps := 2;
     cfg_save_every_n_steps := save_every;
     cfg_log_every_n_steps := None;
     cfg_enable_async_checkpointing := None;
     cfg_clip_grad_norm := None;
     cfg_kd_ratio := None;
     cfg_lr_scheduler := true;
     cfg_device_type := "cuda";
     cfg_log_peak_memory_stats := Some true |}.

(** a checkpoint taken after 1 epoch and 4 steps, every value differing
    from [cfg] *)
Definition ckpt : Ckpt :=
  {| ckpt_has_adapter := true;
     ckpt_epochs := Some 1; ckpt_steps := Some 4;
     ckpt_seed := Some 2; ckpt_max_steps := Some (Some 3);
     ckpt_total_epochs := Some 5 |}.

(** a recipe after [setup]: 4 steps per epoch, checkpoint every 4 steps *)
Definition recipe (epochs_run global_step : Z) (max_steps : option Z)
  : Recipe :=
  {| seed := 1; epochs_run := epochs_run; total_epochs := 2;
     max_steps_per_epoch := max_steps; global_step := global_step;
     _resume_from_checkpoint := false;
     _gradient_accumulation_steps := 2;
     save_every_n_steps := Some 4;
     _log_every_n_steps := 1;
     _enable_async_checkpointing := false;
     _clip_grad_norm := None;
     _kd_ratio := Q2Qc (1 # 2);
     _lr_scheduler := true;
     _steps_per_epoch := Some 4;
     checkpoint_dir_prefix := Some prefix_epoch;
     _device_type := "cuda";
     _log_peak_memory_stats := true |}.

Definition kd_batch (t : Z) : KDBatch :=
  {| kd_tokens := [[t; 2]; [3; 4]]; kd_labels := [[t; -100]; [3; 4]] |}.

Definition dpo_batch (t : Z) : DPOBatch :=
  {| concatenated_input_ids := [[t; 1]; [2; 1]; [3; 1]; [4; 1]];
     concatenated_labels := [[1; 1]; [1; 2]; [1; 3]; [1; 4]] |}.

Definition kd_state (r : Recipe) : @KD.State torch :=
  {| KD.self := r; KD.world := world0;
     KD.running_class_loss := Q2Qc 0; KD.running_kd_loss := Q2Qc 0;
     KD.num_tokens := 0 |}.

Definition dpo_state (r : Recipe) : @DPO.State torch :=
  {| DPO.self := r; DPO.world := world0;
     DPO.running_loss := Q2Qc 0; DPO.num_tokens := 0 |}.

(** eight microbatches per epoch, the same in every epoch *)
Definition kd_dataloader (_ : Z) : list KDBatch :=
  map kd_batch [1; 2; 3; 4; 5; 6; 7; 8].

Definition dpo_dataloader (_ : Z) : list DPOBatch :=
  map dpo_batch [1; 2; 3; 4; 5; 6; 7; 8].

(** three microbatches per epoch: one whole window and half of another *)
Definition kd_dataloader3 (_ : Z) : list KDBatch :=
  map kd_batch [1; 2; 3].

Definition dpo_dataloader3 (_ : Z) : list DPOBatch :=
  map dpo_batch [1; 2; 3].

End Sample.

(** ** Predicates used in the statements *)

(** Two worlds that differ at most in the warnings issued. *)
Definition same_but_warnings {T : Torch} (w w' : World) : Prop :=
  rng w' = rng w /\ entropy w' = entropy w /\ weights w' = weights w /\
  adapter_enabled w' = adapter_enabled w /\ grad_enabled w' = grad_enabled w /\
  grads w' = grads w /\ trace w' = trace w.

(** The checkpoint holds every key [_update_recipe_state] reads. *)
Definition has_recipe_keys (ckpt : Ckpt) : Prop :=
  ckpt_epochs ckpt <> None /\ ckpt_steps ckpt <> None /\ ckpt_seed ckpt <> None /\
  ckpt_max_steps ckpt <> None /\ ckpt_total_epochs ckpt <> None.

(** What a run shows of its checkpointing: each optimizer step, as the
    progress bar reports it (epoch and [global_step]), and each call of the
    checkpoint client. *)
Inductive ckpt_obs : Type :=
| ObsStep (epoch global_step : Z)
| ObsSave (epoch : Z) (full_tensors : bool).

Definition checkpoint_view {T : Torch} (tr : list event) : list ckpt_obs :=
  flat_map (fun ev =>
              match ev with
              | EvPbar e1 g _ => [ObsStep (e1 - 1) g]
              | EvSaveCheckpoint _ e f _ => [ObsSave e f]
              | _ => []
              end) tr.

(** The [TrainingProgress] snapshots handed to the checkpoint client. *)
Definition saved_progress {T : Torch} (tr : list event)
  : list (TrainingProgress * bool) :=
  flat_map (fun ev =>
              match ev with
              | EvSaveCheckpoint tp _ f _ => [(tp, f)]
              | _ => []
              end) tr.

(** The schedule of the recipe is set and not degenerate: the divisors
    used by the training loop are set and non-zero, the accumulation factor
    is positive, the checkpoint prefix is chosen.  [setup] leaves the
    recipe so when the data source fills at least one accumulation window
    and the configured cadences are non-zero; it does not when the data
    source is shorter than a window, where [_steps_per_epoch] is 0. *)
Definition ready (s : Recipe) : Prop :=
  0 < _gradient_accumulation_steps s /\
  _log_every_n_steps s <> 0 /\
  (exists n, save_every_n_steps s = Some n /\ n <> 0) /\
  (exists p, _steps_per_epoch s = Some p /\ p <> 0) /\
  (exists pre, checkpoint_dir_prefix s = Some pre).

(** The gradient [current_loss.backward()] adds for a microbatch. *)
Definition kd_backward_grad {T : Torch} (s : Recipe) (w : Weights) (b : KDBatch)
  : Grad :=
  grad_add (grad_scale (1 - _kd_ratio s)%Qc (fst (kd_loss_grads w b)))
           (grad_scale (_kd_ratio s) (snd (kd_loss_grads w b))).

(** The gradient the optimizer is given when the buffers hold [g] and
    [nt] tokens were counted: rescaled, then clipped if configured. *)
Definition kd_applied_grad {T : Torch} (s : Recipe) (nt : Z) (g : Grad) : Grad :=
  match _clip_grad_norm s with
  | Some max_norm =>
      fst (clip_grad_norm_ (grad_times (tensor_div (Q2Qc 1) nt) g) max_norm)
  | None => grad_times (tensor_div (Q2Qc 1) nt) g
  end.

(** The intermediate checkpoint of the distillation recipe, if one is due
    after the step that made [global_step] equal to [g'] in epoch [e]. *)
Definition kd_save_events {T : Torch} (s : Recipe) (e g' : Z) : list event :=
  match save_every_n_steps s, _steps_per_epoch s, checkpoint_dir_prefix s with
  | Some n, Some p, Some pre =>
      if (g' mod n =? 0) && negb (e =? total_epochs s - 1)
      then [EvSaveCheckpoint
              {| tp_seed := seed s;
                 tp_epochs_run := if g' mod p =? 0 then e + 1 else e;
                 tp_total_epochs := total_epochs s;
                 tp_max_steps_per_epoch := max_steps_per_epoch s |}
              e false (Some pre)]
      else []
  | _, _, _ => []
  end.

(** What the optimizer block of the distillation recipe emits in epoch [e]
    when the running sums are [rc] and [rk], [nt] tokens were counted and
    the gradient buffers hold [g]. *)
Definition kd_step_events {T : Torch} (s : Recipe) (e : Z) (rc rk : Qc) (nt : Z)
    (g : Grad) : list event :=
  let g' := global_step s + 1 in
  let class_loss := tensor_div rc nt in
  let kd_loss := tensor_div rk nt in
  let loss :=
    scalar_add (scalar_scale (1 - _kd_ratio s)%Qc class_loss)
               (scalar_scale (_kd_ratio s) kd_loss) in
  [EvScaleGrads (tensor_div (Q2Qc 1) nt)]
  ++ match _clip_grad_norm s with
     | Some max_norm => [EvClipGradNorm max_norm]
     | None => []
     end
  ++ [EvOptimizerStep (kd_applied_grad s nt g); EvZeroGrad; EvLrSchedulerStep;
      EvPbar (e + 1) g' loss]
  ++ (if g' mod _log_every_n_steps s =? 0
      then [EvLogDict g'
              (KD.log_dict s g' nt loss class_loss kd_loss
                 match _clip_grad_norm s with
                 | Some max_norm =>
                     Some (snd (clip_grad_norm_
                                  (grad_times (tensor_div (Q2Qc 1) nt) g) max_norm))
                 | None => None
                 end)]
      else [])
  ++ kd_save_events s e g'.

(** The same for the preference recipe. *)
Definition dpo_save_events {T : Torch} (s : Recipe) (e g' : Z) : list event :=
  match save_every_n_steps s with
  | Some n =>
      if (g' mod n =? 0) && negb (e =? total_epochs s - 1)
      then [EvSaveCheckpoint
              {| tp_seed := seed s;
                 tp_epochs_run := epochs_run s;
                 tp_total_epochs := total_epochs s;
                 tp_max_steps_per_epoch := max_steps_per_epoch s |}
              e false None]
      else []
  | None => []
  end.

Definition dpo_step_events {T : Torch} (s : Recipe) (e : Z) (f : DPO.Forwarded)
    (running : Qc) (nt : Z) (g : Grad) : list event :=
  let g' := global_step s + 1 in
  [EvOptimizerStep g; EvZeroGrad]
  ++ (if _lr_scheduler s then [EvLrSchedulerStep] else [])
  ++ [EvPbar (e + 1) g' (Finite running)]
  ++ (if g' mod _log_every_n_steps s =? 0
      then [EvLogDict g' (DPO.log_dict s g' nt running f)]
      else [])
  ++ dpo_save_events s e g'.

(** Microbatches put through forward and backward, and optimizer steps
    taken, as the trace shows them. *)
Definition count_backward {T : Torch} (tr : list event) : Z :=
  Z.of_nat (length (filter (fun ev => match ev with EvBackward _ => true | _ => false end) tr)).

Definition count_optimizer_steps {T : Torch} (tr : list event) : Z :=
  Z.of_nat (length (filter (fun ev => match ev with EvOptimizerStep _ => true | _ => false end) tr)).

(** The accumulating part of the loop body over a run of microbatches. *)
Definition kd_accumulate_all {T : Torch} (xs : list KDBatch) (st : KD.State)
  : KD.State :=
  fold_left (fun st b => KD.accumulate b st) xs st.

(** [sum(t_i)] and [sum(l_i * t_i)] over a run of microbatches, for the
    class loss ([fst]) or the distillation loss ([snd]) under weights [w]. *)
Definition kd_tokens_total {T : Torch} (xs : list KDBatch) : Z :=
  fold_right Z.add 0 (map KD.current_num_tokens xs).

Definition kd_weighted_loss {T : Torch} (component : Qc * Qc -> Qc) (w : Weights)
    (xs : list KDBatch) : Qc :=
  Qc_sum (map (fun b => (component (kd_losses w b)
                         * Z2Qc (KD.current_num_tokens b))%Qc) xs).

(** The snapshots of a whole run, if it ends without an exception. *)
Definition snapshots_of {T : Torch} (r : result (Recipe * World))
  : option (list (TrainingProgress * bool)) :=
  match r with
  | Ok (_, w) => Some (saved_progress (trace w))
  | Raise _ => None
  end.

(** [s'] is [s] up to the two counters the training loop advances. *)
Definition same_schedule (s s' : Recipe) : Prop :=
  seed s' = seed s /\ total_epochs s' = total_epochs s /\
  max_steps_per_epoch s' = max_steps_per_epoch s /\
  _gradient_accumulation_steps s' = _gradient_accumulation_steps s /\
  save_every_n_steps s' = save_every_n_steps s /\
  _log_every_n_steps s' = _log_every_n_steps s /\
  _clip_grad_norm s' = _clip_grad_norm s /\ _kd_ratio s' = _kd_ratio s /\
  _lr_scheduler s' = _lr_scheduler s /\
  _steps_per_epoch s' = _steps_per_epoch s /\
  checkpoint_dir_prefix s' = checkpoint_dir_prefix s /\
  _device_type s' = _device_type s /\
  _log_peak_memory_stats s' = _log_peak_memory_stats s.

Definition dpo_accumulate_all {T : Torch} (xs : list DPOBatch) (st : DPO.State)
  : DPO.State :=
  fold_left (fun st b => snd (DPO.accumulate b st)) xs st.

(** The break test at the top of the preference loop body. *)
Definition dpo_stop (s : Recipe) (idx : Z) : bool :=
  match max_steps_per_epoch s with
  | Some m => idx / _gradient_accumulation_steps s =? m
  | None => false
  end.

(** What the checkpoint policy prescribes for the optimizer step that
    made [global_step] equal to [g] in epoch [e]: the step, followed by an
    intermediate checkpoint exactly when [g % cadence == 0] and [e] is not
    the last epoch. *)
Definition ckpt_block (cadence last_epoch : Z) (step : Z * Z) : list ckpt_obs :=
  ObsStep (fst step) (snd step)
  :: (if (snd step mod cadence =? 0) && negb (fst step =? last_epoch)
      then [ObsSave (fst step) false]
      else []).

(** Successive optimizer steps of one epoch, numbered from [g0 + 1]. *)
Definition epoch_steps (e g0 : Z) (m : nat) : list (Z * Z) :=
  map (fun k => (e, g0 + Z.of_nat k)) (seq 1 m).

(** [gs] is [g0 + 1, g0 + 2, ...]. *)
Definition consecutive_from (g0 : Z) (gs : list Z) : Prop :=
  gs = map (fun k => g0 + Z.of_nat k) (seq 1 (length gs)).

(** The running state of a window that has not started. *)
Definition kd_clean {T : Torch} (st : KD.State) : Prop :=
  KD.running_class_loss st = Q2Qc 0 /\ KD.running_kd_loss st = Q2Qc 0 /\
  KD.num_tokens st = 0 /\ grads (KD.world st) = grad_none.

Definition dpo_clean {T : Torch} (st : DPO.State) : Prop :=
  DPO.running_loss st = Q2Qc 0 /\ DPO.num_tokens st = 0 /\
  grads (DPO.world st) = grad_none.

(** The gradient [loss.backward()] adds for a preference microbatch: that
    of the mean loss divided by the accumulation factor. *)
Definition dpo_backward_grad {T : Torch} (s : Recipe) (W : Weights) (b : DPOBatch)
  : Grad :=
  grad_scale (1 / Z2Qc (_gradient_accumulation_steps s))%Qc (dpo_loss_grad W b).

(** What a preference microbatch adds to [running_loss] and to
    [num_tokens], with the model as it is in world [w]. *)
Definition dpo_running_term {T : Torch} (s : Recipe) (w : World) (b : DPOBatch) : Qc :=
  (DPO.loss (fst (DPO.forward_passes b w))
   / Z2Qc (_gradient_accumulation_steps s))%Qc.

Definition dpo_running_total {T : Torch} (s : Recipe) (w : World)
    (xs : list DPOBatch) : Qc :=
  Qc_sum (map (dpo_running_term s w) xs).

Definition dpo_tokens_total (xs : list DPOBatch) : Z :=
  fold_right Z.add 0 (map (fun b => DPO.numel (concatenated_input_ids b)) xs).

(** The collaborator calls of the accumulating part of one iteration. *)
Definition dpo_accumulate_events {T : Torch} (s : Recipe) (w : World) (b : DPOBatch)
  : list event :=
  [EvForward true (grad_enabled w) (concatenated_input_ids b);
   EvForward false false (concatenated_input_ids b);
   EvBackward (dpo_backward_grad s (weights w) b)].

(** ** Further parts of [setup], and further predicates *)

(** The arguments [setup] hands to [_setup_lr_scheduler] once the schedule
    is known (lines 337-341 of the distillation recipe, 290-294 of the
    preference recipe): [num_training_steps] and [last_epoch]. *)
Definition lr_scheduler_args (self : Recipe) : result (Z * Z) :=
  spe <- getattr (_steps_per_epoch self) ;;
  Ok (total_epochs self * spe, global_step self - 1).

(** The checkpoint holds every key the preference recipe reads: the step
    count is not among them. *)
Definition has_dpo_recipe_keys (ckpt : Ckpt) : Prop :=
  ckpt_epochs ckpt <> None /\ ckpt_seed ckpt <> None /\
  ckpt_max_steps ckpt <> None /\ ckpt_total_epochs ckpt <> None.

(** The warnings a resume must issue, in program order, for a recipe whose
    config says [r] and a checkpoint that says seed [s], cap [m] and [t]
    epochs. *)
Definition resume_warnings (r : Recipe) (s : Z) (m : option Z) (t : Z)
  : list warning :=
  (if seed r =? s then [] else [WarnSeed s])
  ++ (if opt_eqb (max_steps_per_epoch r) m then [] else [WarnMaxSteps m])
  ++ (if total_epochs r =? t then [] else [WarnTotalEpochs (total_epochs r)]).

Definition count_lr_scheduler_steps {T : Torch} (tr : list event) : Z :=
  Z.of_nat (length (filter (fun ev => match ev with EvLrSchedulerStep => true | _ => false end) tr)).

(** The number of optimizer steps per epoch that [setup] schedules for a
    data source of [L] microbatches: [L // A], or the cap if smaller. *)
Definition steps_scheduled (s : Recipe) (L : Z) : Z :=
  match max_steps_per_epoch s with
  | Some m => Z.min m (L / _gradient_accumulation_steps s)
  | None => L / _gradient_accumulation_steps s
  end.

(** The number of microbatches of an epoch of [L] that go through forward
    and backward: all of them, or [A * cap] if that is fewer. *)
Definition microbatches_processed (s : Recipe) (L : Z) : Z :=
  match max_steps_per_epoch s with
  | Some m => Z.min L (_gradient_accumulation_steps s * m)
  | None => L
  end.

(** The cap, when set, is positive. *)
Definition cap_positive (s : Recipe) : Prop :=
  forall m, max_steps_per_epoch s = Some m -> 0 < m.

(** The modes of the model's forward calls, in the order of the trace:
    whether the adapters were enabled and whether gradients were tracked. *)
Definition forward_modes {T : Torch} (tr : list event) : list (bool * bool) :=
  flat_map (fun ev =>
              match ev with
              | EvForward adapters grad _ => [(adapters, grad)]
              | _ => []
              end) tr.

(** The two passes of [k] microbatches of the preference recipe under the
    ambient gradient mode [grad]: the policy pass, then the reference
    pass. *)
Definition policy_then_reference (grad : bool) (k : nat) : list (bool * bool) :=
  concat (repeat [(true, grad); (false, false)] k).

(** The calls of the checkpoint client among what a run shows: the epoch
    each is made for and whether it is the full one. *)
Definition saves_of (view : list ckpt_obs) : list (Z * bool) :=
  flat_map (fun o =>
              match o with
              | ObsSave e full => [(e, full)]
              | ObsStep _ _ => []
              end) view.

(** What a run under the cadence of one epoch's [p] optimizer steps shows
    for epoch [e]: the steps [e * p + 1], ..., [e * p + p] of that epoch,
    then one call of the checkpoint client for [e], the full one exactly
    when [e] is the last epoch. *)
Definition epoch_then_checkpoint (p last_epoch e : Z) : list ckpt_obs :=
  map (fun k => ObsStep e (e * p + Z.of_nat k)) (seq 1 (Z.to_nat p))
  ++ [ObsSave e (e =? last_epoch)].

(** * Properties *)

(** ** The error monad and the loops *)

Lemma bind_Ok {A B : Type} (m : result A) (k : A -> result B) (b : B) :
  bind m k = Ok b -> exists a, m = Ok a /\ k a = Ok b.
Proof.
  destruct m as [a|e]; simpl; intros H; [eauto | discriminate].
Qed.

Lemma floordiv_Ok (a b : Z) : b <> 0 -> floordiv a b = Ok (a / b).
Proof.
  intros H. unfold floordiv. destruct (Z.eqb_spec b 0); [contradiction | reflexivity].
Qed.

Lemma pymod_Ok (a b : Z) : b <> 0 -> pymod a b = Ok (a mod b).
Proof.
  intros H. unfold pymod. destruct (Z.eqb_spec b 0); [contradiction | reflexivity].
Qed.

Ltac inv_bind H :=
  let x := fresh "x" in
  let Hx := fresh "Hx" in
  apply bind_Ok in H; destruct H as (x & Hx & H).

(** ** Resuming: [_update_recipe_state] *)

Section Resume.

Context {T : Torch}.

Lemma reconcile_seed_spec (ckpt : Ckpt) (sw : Recipe * World) (r : Recipe) (w : World) :
  reconcile_seed ckpt sw = Ok (r, w) ->
  exists s, ckpt_seed ckpt = Some s /\
    r = set_seed_attr s (fst sw) /\
    (w = snd sw \/ (seed (fst sw) <> s /\ w = warn (WarnSeed s) (snd sw))).
Proof.
  destruct sw as [r0 w0]. unfold reconcile_seed. intros H. inv_bind H.
  destruct (ckpt_seed ckpt) as [s|]; simpl in Hx; [|discriminate].
  injection Hx as <-. exists s. split; [reflexivity|].
  simpl in *.
  destruct (Z.eqb_spec (seed r0) s) as [E|E]; simpl in H;
    injection H as <- <-.
  - split; [|now left]. destruct r0; simpl in *; subst; reflexivity.
  - split; [reflexivity|]. right. split; [exact E | reflexivity].
Qed.

Lemma opt_eqb_eq (x y : option Z) : opt_eqb x y = true <-> x = y.
Proof.
  destruct x, y; simpl; split; intros H; try discriminate; try reflexivity.
  - apply Z.eqb_eq in H. now subst.
  - injection H as ->. apply Z.eqb_refl.
Qed.

Lemma reconcile_max_steps_spec (ckpt : Ckpt) (sw : Recipe * World) (r : Recipe) (w : World) :
  reconcile_max_steps ckpt sw = Ok (r, w) ->
  exists m, ckpt_max_steps ckpt = Some m /\
    r = set_max_steps_per_epoch m (fst sw) /\
    (w = snd sw \/ (max_steps_per_epoch (fst sw) <> m /\ w = warn (WarnMaxSteps m) (snd sw))).
Proof.
  destruct sw as [r0 w0]. unfold reconcile_max_steps. intros H. inv_bind H.
  destruct (ckpt_max_steps ckpt) as [m|]; simpl in Hx; [|discriminate].
  injection Hx as <-. exists m. split; [reflexivity|].
  simpl in *.
  destruct (opt_eqb (max_steps_per_epoch r0) m) eqn:E; simpl in H;
    injection H as <- <-.
  - apply opt_eqb_eq in E. split; [|now left].
    destruct r0; simpl in *; subst; reflexivity.
  - split; [reflexivity|]. right. split; [|reflexivity].
    intros E'. apply opt_eqb_eq in E'. congruence.
Qed.

Lemma check_total_epochs_spec (ckpt : Ckpt) (sw : Recipe * World) (r : Recipe) (w : World) :
  check_total_epochs ckpt sw = Ok (r, w) ->
  exists t, ckpt_total_epochs ckpt = Some t /\
    r = fst sw /\
    (w = snd sw \/
     (total_epochs (fst sw) <> t /\ w = warn (WarnTotalEpochs (total_epochs (fst sw))) (snd sw))).
Proof.
  destruct sw as [r0 w0]. unfold check_total_epochs. intros H. inv_bind H.
  destruct (ckpt_total_epochs ckpt) as [t|]; simpl in Hx; [|discriminate].
  injection Hx as <-. exists t. split; [reflexivity|].
  simpl in *.
  destruct (Z.eqb_spec (total_epochs r0) t) as [E|E]; simpl in H;
    injection H as <- <-.
  - auto.
  - split; [reflexivity|]. right. split; [exact E | reflexivity].
Qed.

(** What the distillation recipe holds after resuming: every field of the
    claim, with the number of warnings raised. *)
Lemma kd_update_recipe_state_spec (ckpt : Ckpt) (sw : Recipe * World) (r : Recipe) (w : World) :
  KD._update_recipe_state ckpt sw = Ok (r, w) ->
  ckpt_epochs ckpt = Some (epochs_run r) /\
  ckpt_steps ckpt = Some (global_step r) /\
  ckpt_seed ckpt = Some (seed r) /\
  ckpt_max_steps ckpt = Some (max_steps_per_epoch r) /\
  total_epochs r = total_epochs (fst sw).
Proof.
  unfold KD._update_recipe_state. intros H.
  inv_bind H. inv_bind H. inv_bind H. inv_bind H.
  destruct x1 as [r1 w1], x2 as [r2 w2].
  apply reconcile_seed_spec in Hx1 as (s & Hs & -> & _).
  apply reconcile_max_steps_spec in Hx2 as (m & Hm & -> & _).
  apply check_total_epochs_spec in H as (t & Ht & -> & _).
  destruct (ckpt_epochs ckpt); [|discriminate].
  destruct (ckpt_steps ckpt); [|discriminate].
  simpl in *. injection Hx as <-. injection Hx0 as <-.
  now rewrite Hs, Hm.
Qed.

(** The preference recipe restores the same fields except [global_step],
    which [_update_recipe_state] never assigns. *)
Lemma dpo_update_recipe_state_spec (ckpt : Ckpt) (sw : Recipe * World) (r : Recipe) (w : World) :
  DPO._update_recipe_state ckpt sw = Ok (r, w) ->
  ckpt_epochs ckpt = Some (epochs_run r) /\
  global_step r = global_step (fst sw) /\
  ckpt_seed ckpt = Some (seed r) /\
  ckpt_max_steps ckpt = Some (max_steps_per_epoch r) /\
  total_epochs r = total_epochs (fst sw).
Proof.
  unfold DPO._update_recipe_state. intros H.
  inv_bind H. inv_bind H. inv_bind H.
  destruct x0 as [r1 w1], x1 as [r2 w2].
  apply reconcile_seed_spec in Hx0 as (s & Hs & -> & _).
  apply reconcile_max_steps_spec in Hx1 as (m & Hm & -> & _).
  apply check_total_epochs_spec in H as (t & Ht & -> & _).
  destruct (ckpt_epochs ckpt); [|discriminate].
  simpl in *. injection Hx as <-.
  now rewrite Hs, Hm.
Qed.

End Resume.

(** C1.  Resuming the preference recipe from a checkpoint taken at step 4
    of epoch 1 (seed 2, step cap 3, 5 epochs) with a config that says seed
    1, no cap, 2 epochs: the epoch count, the seed and the cap come from
    the checkpoint and the epoch total from the config, as claimed, but
    [global_step] is still the constructor's 0 and not the checkpoint's 4.
    On the same input the distillation recipe restores it. *)
Theorem resume_global_step_dpo_vs_kd :
  let cfg := Sample.cfg true None None in
  (exists r w,
      DPO._update_recipe_state Sample.ckpt (__init__ cfg Sample.world0) = Ok (r, w) /\
      epochs_run r = 1 /\ seed r = 2 /\ max_steps_per_epoch r = Some 3 /\
      total_epochs r = 2 /\
      global_step r = 0 /\ ckpt_steps Sample.ckpt = Some 4) /\
  (exists r w,
      KD._update_recipe_state Sample.ckpt (__init__ cfg Sample.world0) = Ok (r, w) /\
      epochs_run r = 1 /\ seed r = 2 /\ max_steps_per_epoch r = Some 3 /\
      total_epochs r = 2 /\
      global_step r = 4).
Proof.
  split; eexists; eexists; (split; [reflexivity|]); repeat split; reflexivity.
Qed.

(** ** What resuming leaves alone *)

Section Frame.

Context {T : Torch}.

Lemma same_but_warnings_refl (w : World) : same_but_warnings w w.
Proof. repeat split. Qed.

Lemma same_but_warnings_warn (m : warning) (w w' : World) :
  same_but_warnings w w' -> same_but_warnings w (warn m w').
Proof. intros H. exact H. Qed.

Lemma reconcile_seed_world ckpt (sw : Recipe * World) r w :
  reconcile_seed ckpt sw = Ok (r, w) -> same_but_warnings (snd sw) w.
Proof.
  intros H. apply reconcile_seed_spec in H as (s & _ & _ & [->|[_ ->]]).
  - apply same_but_warnings_refl.
  - apply same_but_warnings_warn, same_but_warnings_refl.
Qed.

Lemma reconcile_max_steps_world ckpt (sw : Recipe * World) r w :
  reconcile_max_steps ckpt sw = Ok (r, w) -> same_but_warnings (snd sw) w.
Proof.
  intros H. apply reconcile_max_steps_spec in H as (s & _ & _ & [->|[_ ->]]).
  - apply same_but_warnings_refl.
  - apply same_but_warnings_warn, same_but_warnings_refl.
Qed.

Lemma check_total_epochs_world ckpt (sw : Recipe * World) r w :
  check_total_epochs ckpt sw = Ok (r, w) -> same_but_warnings (snd sw) w.
Proof.
  intros H. apply check_total_epochs_spec in H as (s & _ & _ & [->|[_ ->]]).
  - apply same_but_warnings_refl.
  - apply same_but_warnings_warn, same_but_warnings_refl.
Qed.

Lemma same_but_warnings_trans (a b c : World) :
  same_but_warnings a b -> same_but_warnings b c -> same_but_warnings a c.
Proof.
  unfold same_but_warnings. intros (?&?&?&?&?&?&?) (?&?&?&?&?&?&?).
  repeat split; congruence.
Qed.

Lemma kd_update_recipe_state_world ckpt (sw : Recipe * World) r w :
  KD._update_recipe_state ckpt sw = Ok (r, w) -> same_but_warnings (snd sw) w.
Proof.
  unfold KD._update_recipe_state. intros H.
  inv_bind H. inv_bind H. inv_bind H. inv_bind H.
  destruct x1 as [r1 w1], x2 as [r2 w2].
  apply reconcile_seed_world in Hx1. apply reconcile_max_steps_world in Hx2.
  apply check_total_epochs_world in H. simpl in *.
  eapply same_but_warnings_trans; [exact Hx1|].
  eapply same_but_warnings_trans; [exact Hx2| exact H].
Qed.

Lemma dpo_update_recipe_state_world ckpt (sw : Recipe * World) r w :
  DPO._update_recipe_state ckpt sw = Ok (r, w) -> same_but_warnings (snd sw) w.
Proof.
  unfold DPO._update_recipe_state. intros H.
  inv_bind H. inv_bind H. inv_bind H.
  destruct x0 as [r1 w1], x1 as [r2 w2].
  apply reconcile_seed_world in Hx0. apply reconcile_max_steps_world in Hx1.
  apply check_total_epochs_world in H. simpl in *.
  eapply same_but_warnings_trans; [exact Hx0|].
  eapply same_but_warnings_trans; [exact Hx1| exact H].
Qed.

(** With every key present the update goes through. *)
Lemma reconcile_seed_total ckpt (sw : Recipe * World) :
  ckpt_seed ckpt <> None -> exists rw, reconcile_seed ckpt sw = Ok rw.
Proof.
  unfold reconcile_seed. destruct (ckpt_seed ckpt); [|congruence]. intros _. simpl.
  destruct (negb _); eauto.
Qed.

Lemma reconcile_max_steps_total ckpt (sw : Recipe * World) :
  ckpt_max_steps ckpt <> None -> exists rw, reconcile_max_steps ckpt sw = Ok rw.
Proof.
  unfold reconcile_max_steps. destruct (ckpt_max_steps ckpt); [|congruence]. intros _. simpl.
  destruct (negb _); eauto.
Qed.

Lemma check_total_epochs_total ckpt (sw : Recipe * World) :
  ckpt_total_epochs ckpt <> None -> exists rw, check_total_epochs ckpt sw = Ok rw.
Proof.
  unfold check_total_epochs. destruct (ckpt_total_epochs ckpt); [|congruence]. intros _. simpl.
  destruct (negb _); eauto.
Qed.

Lemma kd_update_recipe_state_total ckpt (sw : Recipe * World) :
  has_recipe_keys ckpt -> exists rw, KD._update_recipe_state ckpt sw = Ok rw.
Proof.
  intros (He & Hg & Hs & Hm & Ht). unfold KD._update_recipe_state.
  destruct (ckpt_epochs ckpt); [|congruence].
  destruct (ckpt_steps ckpt); [|congruence]. simpl.
  destruct (reconcile_seed_total ckpt (set_global_step z0 (set_epochs_run z (fst sw)), snd sw) Hs)
    as [rw1 ->]. simpl.
  destruct (reconcile_max_steps_total ckpt rw1 Hm) as [rw2 ->]. simpl.
  apply check_total_epochs_total, Ht.
Qed.

Lemma dpo_update_recipe_state_total ckpt (sw : Recipe * World) :
  has_recipe_keys ckpt -> exists rw, DPO._update_recipe_state ckpt sw = Ok rw.
Proof.
  intros (He & Hg & Hs & Hm & Ht). unfold DPO._update_recipe_state.
  destruct (ckpt_epochs ckpt); [|congruence]. simpl.
  destruct (reconcile_seed_total ckpt (set_epochs_run z (fst sw), snd sw) Hs)
    as [rw1 ->]. simpl.
  destruct (reconcile_max_steps_total ckpt rw1 Hm) as [rw2 ->]. simpl.
  apply check_total_epochs_total, Ht.
Qed.

Lemma init_rng (cfg : Cfg) (w0 : World) :
  rng (snd (__init__ cfg w0)) = Some (seed (fst (__init__ cfg w0))).
Proof. reflexivity. Qed.

End Frame.

(** C9.  Resuming with a checkpoint seed [s] that is not the seed the
    constructor seeded the generators with: the seed statement of
    [_update_recipe_state] replaces the [seed] attribute and nothing else of
    the recipe, and adds a warning and nothing else to the world; after the
    whole update, in either recipe, the recorded seed is [s] while the
    generators are still seeded with the constructor's seed, and weights,
    gradients, modes and trace are as the constructor left them. *)
Theorem seed_reconciliation_frame {T : Torch} (cfg : Cfg) (w0 : World) (ckpt : Ckpt) (s : Z) :
  has_recipe_keys ckpt ->
  ckpt_seed ckpt = Some s ->
  seed (fst (__init__ cfg w0)) <> s ->
  (forall (sw : Recipe * World), seed (fst sw) <> s ->
     reconcile_seed ckpt sw
     = Ok (set_seed_attr s (fst sw), warn (WarnSeed s) (snd sw))) /\
  (exists r w,
     KD._update_recipe_state ckpt (__init__ cfg w0) = Ok (r, w) /\
     seed r = s /\
     rng w = Some (seed (fst (__init__ cfg w0))) /\
     same_but_warnings (snd (__init__ cfg w0)) w) /\
  (exists r w,
     DPO._update_recipe_state ckpt (__init__ cfg w0) = Ok (r, w) /\
     seed r = s /\
     rng w = Some (seed (fst (__init__ cfg w0))) /\
     same_but_warnings (snd (__init__ cfg w0)) w).
Proof.
  intros Hkeys Hs Hne. split; [|split].
  - intros sw Hsw. unfold reconcile_seed. rewrite Hs. simpl.
    destruct (Z.eqb_spec (seed (fst sw)) s); [contradiction | reflexivity].
  - destruct (kd_update_recipe_state_total ckpt (__init__ cfg w0) Hkeys) as [[r w] H].
    exists r, w. split; [exact H|].
    pose proof (kd_update_recipe_state_spec _ _ _ _ H) as (_ & _ & Hseed & _).
    pose proof (kd_update_recipe_state_world _ _ _ _ H) as Hw.
    split; [congruence|]. split; [|exact Hw].
    destruct Hw as (-> & _). apply init_rng.
  - destruct (dpo_update_recipe_state_total ckpt (__init__ cfg w0) Hkeys) as [[r w] H].
    exists r, w. split; [exact H|].
    pose proof (dpo_update_recipe_state_spec _ _ _ _ H) as (_ & _ & Hseed & _).
    pose proof (dpo_update_recipe_state_world _ _ _ _ H) as Hw.
    split; [congruence|]. split; [|exact Hw].
    destruct Hw as (-> & _). apply init_rng.
Qed.

Lemma seed_reconciliation_frame_witness :
  (forall (sw : Recipe * @World Sample.torch), seed (fst sw) <> 2 ->
     reconcile_seed Sample.ckpt sw
     = Ok (set_seed_attr 2 (fst sw), warn (WarnSeed 2) (snd sw))) /\
  (exists r w,
     KD._update_recipe_state Sample.ckpt
       (__init__ (Sample.cfg true None None) Sample.world0) = Ok (r, w) /\
     seed r = 2 /\ rng w = Some 1 /\
     same_but_warnings (snd (__init__ (Sample.cfg true None None) Sample.world0)) w) /\
  (exists r w,
     DPO._update_recipe_state Sample.ckpt
       (__init__ (Sample.cfg true None None) Sample.world0) = Ok (r, w) /\
     seed r = 2 /\ rng w = Some 1 /\
     same_but_warnings (snd (__init__ (Sample.cfg true None None) Sample.world0)) w).
Proof.
  apply (seed_reconciliation_frame (T := Sample.torch)
           (Sample.cfg true None None) Sample.world0 Sample.ckpt 2).
  - unfold has_recipe_keys; simpl; repeat split; discriminate.
  - reflexivity.
  - simpl; lia.
Defined.

(** ** The schedule computed by [setup] *)

Section Schedule.

Context {T : Torch}.

Lemma setup_schedule_spec (L : Z) (self r : Recipe) (d : bool) :
  _gradient_accumulation_steps self <> 0 ->
  setup_schedule L self = Ok (r, d) ->
  let spe := L / _gradient_accumulation_steps self in
  max_steps_per_epoch r = max_steps_per_epoch self /\
  epochs_run r = epochs_run self /\
  (forall M, max_steps_per_epoch self = Some M -> M < spe ->
     _steps_per_epoch r = Some M /\ global_step r = epochs_run self * M) /\
  (max_steps_per_epoch self = None \/
   (exists M, max_steps_per_epoch self = Some M /\ spe <= M) ->
     _steps_per_epoch r = Some spe /\ global_step r = global_step self).
Proof.
  intros HA H spe. unfold setup_schedule in H.
  rewrite (floordiv_Ok _ _ HA) in H. simpl in H. fold spe in H.
  revert H.
  destruct (max_steps_per_epoch self) as [M|] eqn:HM;
    [destruct (Z.ltb_spec M spe) as [Hlt|Hge]|];
    (simpl; destruct (save_every_n_steps self) eqn:Hsv; simpl;
     destruct (_resume_from_checkpoint self); simpl; intros H;
     [ inv_bind H; injection H as <- <- | injection H as <- <-
     | inv_bind H; injection H as <- <- | injection H as <- <- ]);
    simpl;
    (split; [assumption || reflexivity |
     split; [reflexivity |
     split;
       [ intros M' HM' Hlt'; try discriminate; injection HM' as <-;
         try lia; split; reflexivity
       | intros [HN | (M' & HM' & Hle)]; try discriminate;
         try (injection HM' as <-); try lia; split; reflexivity ]]]).
Qed.

Lemma setup_schedule_total (L : Z) (self : Recipe) :
  _gradient_accumulation_steps self <> 0 ->
  _resume_from_checkpoint self = false ->
  exists rd, setup_schedule L self = Ok rd.
Proof.
  intros HA Hres. unfold setup_schedule.
  rewrite (floordiv_Ok _ _ HA). simpl.
  destruct (max_steps_per_epoch self) as [M|];
    [destruct (M <? _)|]; simpl; destruct (save_every_n_steps self); simpl;
    rewrite Hres; eauto.
Qed.

Lemma kd_update_recipe_state_accum ckpt (sw : Recipe * World) r w :
  KD._update_recipe_state ckpt sw = Ok (r, w) ->
  _gradient_accumulation_steps r = _gradient_accumulation_steps (fst sw).
Proof.
  unfold KD._update_recipe_state. intros H.
  inv_bind H. inv_bind H. inv_bind H. inv_bind H.
  destruct x1 as [r1 w1], x2 as [r2 w2].
  apply reconcile_seed_spec in Hx1 as (s & Hs & -> & _).
  apply reconcile_max_steps_spec in Hx2 as (m & Hm & -> & _).
  apply check_total_epochs_spec in H as (t & Ht & -> & _).
  reflexivity.
Qed.

Lemma dpo_update_recipe_state_accum ckpt (sw : Recipe * World) r w :
  DPO._update_recipe_state ckpt sw = Ok (r, w) ->
  _gradient_accumulation_steps r = _gradient_accumulation_steps (fst sw).
Proof.
  unfold DPO._update_recipe_state. intros H.
  inv_bind H. inv_bind H. inv_bind H.
  destruct x0 as [r1 w1], x1 as [r2 w2].
  apply reconcile_seed_spec in Hx0 as (s & Hs & -> & _).
  apply reconcile_max_steps_spec in Hx1 as (m & Hm & -> & _).
  apply check_total_epochs_spec in H as (t & Ht & -> & _).
  reflexivity.
Qed.

Lemma setup_resume_accum update base dist (sw sw1 : Recipe * World) :
  (forall ckpt r w, update ckpt sw = Ok (r, w) ->
     _gradient_accumulation_steps r = _gradient_accumulation_steps (fst sw)) ->
  setup_resume update base dist sw = Ok sw1 ->
  _gradient_accumulation_steps (fst sw1) = _gradient_accumulation_steps (fst sw).
Proof.
  intros Hup. unfold setup_resume.
  destruct (_resume_from_checkpoint (fst sw)).
  - destruct (negb _); [discriminate|]. destruct sw1. apply Hup.
  - intros H. injection H as <-. reflexivity.
Qed.

Lemma setup_resume_off update base dist (sw : Recipe * World) :
  _resume_from_checkpoint (fst sw) = false ->
  setup_resume update base dist sw = Ok sw.
Proof. intros H. unfold setup_resume. now rewrite H. Qed.

End Schedule.

(** C2.  With a non-zero (in particular positive) accumulation factor [A],
    whatever [setup] returns in either recipe has [_steps_per_epoch] equal
    to [L // A] when no smaller cap is in force, and equal to the cap [M]
    when [M < L // A]; in that case [global_step] is [epochs_run * M],
    whatever step count was held before.  [M] and [epochs_run] are the
    values in force after a possible resume.  A fresh run (no resume) always
    gets through [setup]. *)
Theorem setup_steps_per_epoch {T : Torch} (base dist : Ckpt) (L : Z) (sw : Recipe * World) :
  0 < _gradient_accumulation_steps (fst sw) ->
  let A := _gradient_accumulation_steps (fst sw) in
  let schedule (r : Recipe) :=
    (forall M, max_steps_per_epoch r = Some M -> M < L / A ->
       _steps_per_epoch r = Some M /\ global_step r = epochs_run r * M) /\
    (max_steps_per_epoch r = None \/
     (exists M, max_steps_per_epoch r = Some M /\ L / A <= M) ->
       _steps_per_epoch r = Some (L / A)) in
  (forall r w d, KD.setup base dist L sw = Ok (r, w, d) -> schedule r) /\
  (forall r w d, DPO.setup base dist L sw = Ok (r, w, d) -> schedule r) /\
  (_resume_from_checkpoint (fst sw) = false ->
     (exists r w d, KD.setup base dist L sw = Ok (r, w, d)) /\
     (exists r w d, DPO.setup base dist L sw = Ok (r, w, d))).
Proof.
  intros HA A schedule.
  assert (Hgen : forall update sw1 r d,
            (forall ckpt r w, update ckpt sw = Ok (r, w) ->
               _gradient_accumulation_steps r = _gradient_accumulation_steps (fst sw)) ->
            setup_resume update base dist sw = Ok sw1 ->
            setup_schedule L (fst sw1) = Ok (r, d) -> schedule r).
  { intros update sw1 r d Hup H1 H2.
    pose proof (setup_resume_accum _ _ _ _ _ Hup H1) as HA1.
    assert (HA1' : _gradient_accumulation_steps (fst sw1) <> 0) by (rewrite HA1; lia).
    pose proof (setup_schedule_spec _ _ _ _ HA1' H2) as (Hm & He & Hcap & Hfree).
    rewrite HA1 in Hcap, Hfree. fold A in Hcap, Hfree.
    split.
    - intros M HM Hlt. rewrite Hm in HM. rewrite He. apply Hcap; assumption.
    - intros Hno. rewrite Hm in Hno. apply Hfree, Hno. }
  split; [|split].
  - intros r w d H. unfold KD.setup in H. inv_bind H. inv_bind H.
    injection H as <- _ <-. destruct x0 as [r' d']. simpl.
    eapply Hgen; [intros; eapply kd_update_recipe_state_accum; eassumption | exact Hx | exact Hx0].
  - intros r w d H. unfold DPO.setup in H. inv_bind H. inv_bind H.
    injection H as <- _ <-. destruct x0 as [r' d']. simpl.
    eapply Hgen; [intros; eapply dpo_update_recipe_state_accum; eassumption | exact Hx | exact Hx0].
  - intros Hres.
    assert (HA' : _gradient_accumulation_steps (fst sw) <> 0) by lia.
    destruct (setup_schedule_total L (fst sw) HA' Hres) as [[r d] Hs].
    split; exists r, (snd sw), d.
    + unfold KD.setup. rewrite setup_resume_off by exact Hres. simpl.
      rewrite Hs. reflexivity.
    + unfold DPO.setup. rewrite setup_resume_off by exact Hres. simpl.
      rewrite Hs. reflexivity.
Qed.

Lemma setup_steps_per_epoch_witness :
  match KD.setup (T := Sample.torch) Sample.ckpt Sample.ckpt 9
          (__init__ (Sample.cfg true None None) Sample.world0) with
  | Ok (r, _, _) =>
      max_steps_per_epoch r = Some 3 /\
      _steps_per_epoch r = Some 3 /\
      global_step r = epochs_run r * 3
  | Raise _ => False
  end.
Proof.
  pose proof (setup_steps_per_epoch (T := Sample.torch) Sample.ckpt Sample.ckpt 9
                (__init__ (Sample.cfg true None None) Sample.world0)
                ltac:(vm_compute; reflexivity)) as (Hkd & _).
  destruct (KD.setup Sample.ckpt Sample.ckpt 9
              (__init__ (Sample.cfg true None None) Sample.world0))
    as [[[r w] d]|err] eqn:E.
  - specialize (Hkd r w d eq_refl) as (Hcap & _).
    vm_compute in E. injection E as <- _ _.
    split; [reflexivity|]. apply Hcap; reflexivity.
  - vm_compute in E. discriminate E.
Defined.

(** ** The snapshot handed to the checkpoint client *)

Section Snapshot.

Context {T : Torch}.

(** The distillation recipe records [epoch + 1] on an epoch boundary and
    [epoch] elsewhere. *)
Lemma kd_save_checkpoint_spec (epoch : Z) (full : bool) (s : Recipe) (w : World)
    (p : Z) (pre : dir_prefix) :
  _steps_per_epoch s = Some p -> p <> 0 ->
  checkpoint_dir_prefix s = Some pre ->
  KD.save_checkpoint epoch full (s, w)
  = Ok (emit (EvSaveCheckpoint
                {| tp_seed := seed s;
                   tp_epochs_run :=
                     if global_step s mod p =? 0 then epoch + 1 else epoch;
                   tp_total_epochs := total_epochs s;
                   tp_max_steps_per_epoch := max_steps_per_epoch s |}
                epoch full (Some pre)) w).
Proof.
  intros Hp Hp0 Hpre. unfold KD.save_checkpoint. simpl.
  rewrite Hp. simpl. rewrite (pymod_Ok _ _ Hp0). simpl.
  rewrite Hpre. reflexivity.
Qed.

(** The preference recipe records [self.epochs_run], whatever the step. *)
Lemma dpo_save_checkpoint_spec (epoch : Z) (full : bool) (s : Recipe) (w : World) :
  DPO.save_checkpoint epoch full (s, w)
  = Ok (emit (EvSaveCheckpoint
                {| tp_seed := seed s;
                   tp_epochs_run := epochs_run s;
                   tp_total_epochs := total_epochs s;
                   tp_max_steps_per_epoch := max_steps_per_epoch s |}
                epoch full None) w).
Proof. reflexivity. Qed.

End Snapshot.

(** C6.  Two epochs of eight microbatches, two microbatches per optimizer
    step, a checkpoint every four steps.  Step 4 closes epoch 0
    ([4 % 4 == 0]), and the checkpoint taken there must record one epoch
    run.  The distillation recipe records 1; the preference recipe records
    0, the working epoch count.  (The final checkpoints of both record 2.) *)
Theorem dpo_snapshot_on_epoch_boundary :
  let r := Sample.recipe 0 0 None in
  let progress (n : Z) :=
    {| tp_seed := 1; tp_epochs_run := n; tp_total_epochs := 2;
       tp_max_steps_per_epoch := None |} in
  snapshots_of (DPO.train Sample.dpo_dataloader (r, Sample.world0))
  = Some [(progress 0, false); (progress 2, true)] /\
  snapshots_of (KD.train Sample.kd_dataloader (r, Sample.world0))
  = Some [(progress 1, false); (progress 2, true)].
Proof.
  split; vm_compute; reflexivity.
Qed.

(** ** Splitting the concatenated batch *)

Section Split.

Context {T : Torch}.

Lemma firstn_length_app {A : Type} (a b : list A) : firstn (length a) (a ++ b) = a.
Proof. induction a as [|x a IH]; simpl; [now destruct b | now rewrite IH]. Qed.

Lemma skipn_length_app {A : Type} (a b : list A) : skipn (length a) (a ++ b) = b.
Proof. induction a as [|x a IH]; simpl; [reflexivity | exact IH]. Qed.

Lemma half_double (k : nat) : ((k + k) / 2 = k)%nat.
Proof. replace (k + k)%nat with (k * 2)%nat by lia. now apply Nat.div_mul. Qed.

Lemma half_odd (k : nat) : ((2 * k + 1) / 2 = k)%nat.
Proof. symmetry. apply (Nat.div_unique _ 2 k 1); lia. Qed.

Lemma combine_app {A B : Type} (a a' : list A) (b b' : list B) :
  length a = length b ->
  combine (a ++ a') (b ++ b') = combine a b ++ combine a' b'.
Proof.
  revert b. induction a as [|x a IH]; intros [|y b] H; simpl in *; try discriminate.
  - reflexivity.
  - injection H as H. now rewrite IH.
Qed.

(** The log-probabilities of a group of sequences under a model. *)
Lemma concatenated_forward_even (batch : DPOBatch) (w : World)
    (chosen rejected chosen_labels rejected_labels : list (list Z)) :
  concatenated_input_ids batch = chosen ++ rejected ->
  concatenated_labels batch = chosen_labels ++ rejected_labels ->
  length chosen = length rejected ->
  length chosen_labels = length chosen ->
  let out := fst (DPO.concatenated_forward batch w) in
  let f := model_forward (weights w) (adapter_enabled w) in
  let logps ids labels :=
    map (fun p => get_log_probs (f (fst p)) (snd p)) (combine ids labels) in
  DPO.chosen_logits out = map f chosen /\
  DPO.rejected_logits out = map f rejected /\
  DPO.chosen_logps out = logps chosen chosen_labels /\
  DPO.rejected_logps out = logps rejected rejected_labels.
Proof.
  intros Hids Hlab Hlen Hlab_len out f logps.
  unfold out, DPO.concatenated_forward.
  cbn [fst DPO.chosen_logits DPO.rejected_logits DPO.chosen_logps DPO.rejected_logps].
  rewrite Hids, Hlab.
  rewrite length_app, <- Hlen, half_double.
  fold f. rewrite map_app.
  assert (Hc : combine (map f chosen ++ map f rejected) (chosen_labels ++ rejected_labels)
               = combine (map f chosen) chosen_labels ++ combine (map f rejected) rejected_labels).
  { apply combine_app. rewrite length_map. now symmetry. }
  rewrite Hc, map_app.
  assert (Hm : forall ids labels,
             map (fun p => get_log_probs (fst p) (snd p)) (combine (map f ids) labels)
             = logps ids labels).
  { intros ids. unfold logps. induction ids as [|i ids IH]; intros [|l labels]; simpl;
      try reflexivity. now rewrite IH. }
  rewrite !Hm.
  assert (Hl1 : length chosen = length (map f chosen)) by now rewrite length_map.
  assert (Hl2 : length chosen = length (logps chosen chosen_labels)).
  { unfold logps. rewrite length_map, length_combine. lia. }
  repeat split.
  - rewrite Hl1 at 1. apply firstn_length_app.
  - rewrite Hl1 at 1. apply skipn_length_app.
  - rewrite Hl2 at 1. apply firstn_length_app.
  - rewrite Hl2 at 1. apply skipn_length_app.
Qed.

(** The two passes of one loop iteration. *)
Lemma forward_passes_spec (batch : DPOBatch) (w : World) :
  let fw := fst (DPO.forward_passes batch w) in
  let w' := snd (DPO.forward_passes batch w) in
  let reference_mode := set_adapter_enabled false (set_grad_enabled false w) in
  DPO.policy_chosen_rejected_outputs fw = fst (DPO.concatenated_forward batch w) /\
  DPO.reference_chosen_rejected_outputs fw
  = fst (DPO.concatenated_forward batch reference_mode) /\
  weights reference_mode = weights w /\
  trace w' = trace w ++
             [EvForward (adapter_enabled w) (grad_enabled w) (concatenated_input_ids batch);
              EvForward false false (concatenated_input_ids batch)] /\
  weights w' = weights w /\ grads w' = grads w /\
  adapter_enabled w' = true /\ grad_enabled w' = grad_enabled w /\
  rng w' = rng w.
Proof.
  simpl. repeat split. now rewrite <- app_assoc.
Qed.

End Split.

(** C10.  [concatenated_forward] is a total function of the batch: there is
    no check and no error path.  On a batch of [2k+1] sequences the split
    point is [k]; the chosen group is the outputs of the first [k]
    sequences and the rejected group the outputs of the remaining [k+1],
    the first of which is the middle sequence (index [k]). *)
Theorem concatenated_forward_odd_batch {T : Torch} (batch : DPOBatch) (w : World) (k : nat) :
  length (concatenated_input_ids batch) = (2 * k + 1)%nat ->
  length (concatenated_labels batch) = (2 * k + 1)%nat ->
  let out := fst (DPO.concatenated_forward batch w) in
  let f := model_forward (weights w) (adapter_enabled w) in
  DPO.chosen_logits out = map f (firstn k (concatenated_input_ids batch)) /\
  DPO.rejected_logits out = map f (skipn k (concatenated_input_ids batch)) /\
  length (DPO.chosen_logits out) = k /\
  length (DPO.rejected_logits out) = S k /\
  length (DPO.chosen_logps out) = k /\
  length (DPO.rejected_logps out) = S k /\
  exists middle,
    nth_error (concatenated_input_ids batch) k = Some middle /\
    hd_error (DPO.rejected_logits out) = Some (f middle).
Proof.
  intros Hids Hlab out f. unfold out, DPO.concatenated_forward.
  cbn [fst DPO.chosen_logits DPO.rejected_logits DPO.chosen_logps DPO.rejected_logps].
  rewrite Hids, half_odd. fold f.
  rewrite firstn_map, skipn_map.
  assert (Hcomb : length (combine (map f (concatenated_input_ids batch))
                                  (concatenated_labels batch)) = (2 * k + 1)%nat).
  { rewrite length_combine, length_map. lia. }
  repeat split.
  - rewrite length_map, length_firstn. lia.
  - rewrite length_map, length_skipn. lia.
  - rewrite length_firstn, length_map, Hcomb. lia.
  - rewrite length_skipn, length_map, Hcomb. lia.
  - destruct (nth_error (concatenated_input_ids batch) k) as [middle|] eqn:Hnth.
    + exists middle. split; [reflexivity|].
      rewrite <- (firstn_skipn k (concatenated_input_ids batch)) in Hnth.
      rewrite nth_error_app2 in Hnth by (rewrite length_firstn; lia).
      rewrite length_firstn in Hnth.
      replace (k - Nat.min k (length (concatenated_input_ids batch)))%nat with 0%nat in Hnth by lia.
      destruct (skipn k (concatenated_input_ids batch)); simpl in *; congruence.
    + apply nth_error_None in Hnth. lia.
Qed.

Lemma concatenated_forward_odd_batch_witness :
  let batch := {| concatenated_input_ids := [[1]; [2]; [3]];
                  concatenated_labels := [[1]; [1]; [1]] |} in
  let out := fst (DPO.concatenated_forward (T := Sample.torch) batch Sample.world0) in
  DPO.chosen_logits out = [10] /\ DPO.rejected_logits out = [20; 30].
Proof.
  pose proof (concatenated_forward_odd_batch (T := Sample.torch)
                {| concatenated_input_ids := [[1]; [2]; [3]];
                   concatenated_labels := [[1]; [1]; [1]] |}
                Sample.world0 1%nat eq_refl eq_refl) as (Hc & Hr & _).
  split; [exact Hc | exact Hr].
Defined.

(** ** One pass through the optimizer block *)

Section OptimizerBlock.

Context {T : Torch}.

Lemma ready_set_global_step (g : Z) (s : Recipe) : ready s -> ready (set_global_step g s).
Proof. intros H. exact H. Qed.

Lemma ready_set_epochs_run (e : Z) (s : Recipe) : ready s -> ready (set_epochs_run e s).
Proof. intros H. exact H. Qed.

Lemma kd_optimizer_block_spec (e : Z) (st : KD.State) :
  ready (KD.self st) ->
  exists st',
    KD.optimizer_block e st = Ok st' /\
    KD.self st' = set_global_step (global_step (KD.self st) + 1) (KD.self st) /\
    KD.running_class_loss st' = Q2Qc 0 /\
    KD.running_kd_loss st' = Q2Qc 0 /\
    KD.num_tokens st' = 0 /\
    grads (KD.world st') = grad_none /\
    weights (KD.world st')
    = optimizer_step (weights (KD.world st))
        (kd_applied_grad (KD.self st) (KD.num_tokens st) (grads (KD.world st))) /\
    trace (KD.world st')
    = trace (KD.world st)
      ++ kd_step_events (KD.self st) e (KD.running_class_loss st)
           (KD.running_kd_loss st) (KD.num_tokens st) (grads (KD.world st)).
Proof.
  intros (HA & Hlog & (n & Hn & Hn0) & (p & Hp & Hp0) & (pre & Hpre)).
  unfold KD.optimizer_block, kd_step_events, kd_save_events, kd_applied_grad.
  cbn [global_step set_global_step _log_every_n_steps save_every_n_steps
       total_epochs _kd_ratio].
  rewrite (pymod_Ok _ _ Hlog), Hn, Hp, Hpre. cbn [bind].
  rewrite (pymod_Ok _ _ Hn0). cbn [bind].
  destruct (_clip_grad_norm (KD.self st)) as [mx|];
    destruct ((global_step (KD.self st) + 1) mod _log_every_n_steps (KD.self st) =? 0);
    destruct (((global_step (KD.self st) + 1) mod n =? 0)
              && negb (e =? total_epochs (KD.self st) - 1));
    [ rewrite (kd_save_checkpoint_spec _ _ _ _ p pre) by assumption | |
      rewrite (kd_save_checkpoint_spec _ _ _ _ p pre) by assumption | |
      rewrite (kd_save_checkpoint_spec _ _ _ _ p pre) by assumption | |
      rewrite (kd_save_checkpoint_spec _ _ _ _ p pre) by assumption | ];
    cbn [bind]; eexists; (split; [reflexivity|]);
    cbn; rewrite <- ?app_assoc; repeat split.
Qed.

Lemma dpo_optimizer_block_spec (e : Z) (f : DPO.Forwarded) (st : DPO.State) :
  ready (DPO.self st) ->
  exists st',
    DPO.optimizer_block e f st = Ok st' /\
    DPO.self st' = set_global_step (global_step (DPO.self st) + 1) (DPO.self st) /\
    DPO.running_loss st' = Q2Qc 0 /\
    DPO.num_tokens st' = 0 /\
    grads (DPO.world st') = grad_none /\
    weights (DPO.world st')
    = optimizer_step (weights (DPO.world st)) (grads (DPO.world st)) /\
    trace (DPO.world st')
    = trace (DPO.world st)
      ++ dpo_step_events (DPO.self st) e f (DPO.running_loss st) (DPO.num_tokens st)
           (grads (DPO.world st)).
Proof.
  intros (HA & Hlog & (n & Hn & Hn0) & _).
  unfold DPO.optimizer_block, dpo_step_events, dpo_save_events.
  cbn [global_step set_global_step _log_every_n_steps save_every_n_steps
       total_epochs _lr_scheduler].
  rewrite (pymod_Ok _ _ Hlog), Hn. cbn [bind].
  rewrite (pymod_Ok _ _ Hn0). cbn [bind].
  destruct (_lr_scheduler (DPO.self st));
    destruct ((global_step (DPO.self st) + 1) mod _log_every_n_steps (DPO.self st) =? 0);
    destruct (((global_step (DPO.self st) + 1) mod n =? 0)
              && negb (e =? total_epochs (DPO.self st) - 1));
    rewrite ?dpo_save_checkpoint_spec;
    cbn [bind]; eexists; (split; [reflexivity|]);
    cbn; rewrite <- ?app_assoc; repeat split.
Qed.

End OptimizerBlock.

(** ** Loops *)

Lemma for_enumerate_app {S B : Type} (body : Z -> B -> S -> result (S * bool))
    (xs ys : list B) (idx : Z) (s : S) :
  for_enumerate body idx (xs ++ ys) s
  = match for_enumerate body idx xs s with
    | Ok (s', true) => Ok (s', true)
    | Ok (s', false) => for_enumerate body (idx + Z.of_nat (length xs)) ys s'
    | Raise e => Raise e
    end.
Proof.
  revert idx s. induction xs as [|x xs IH]; intros idx s.
  - simpl. now rewrite Z.add_0_r.
  - cbn [app for_enumerate]. destruct (body idx x s) as [[s1 [|]]|e]; cbn [bind fst snd].
    + reflexivity.
    + rewrite IH. replace (idx + 1 + Z.of_nat (length xs)) with (idx + Z.of_nat (length (x :: xs)))
        by (cbn [length]; lia).
      reflexivity.
    + reflexivity.
Qed.

Lemma for_each_app {S B : Type} (body : B -> S -> result S) (xs ys : list B) (s : S) :
  for_each body (xs ++ ys) s = (s' <- for_each body xs s ;; for_each body ys s').
Proof.
  revert s. induction xs as [|x xs IH]; intros s; [reflexivity|].
  cbn [app for_each]. destruct (body x s) as [s1|e]; cbn [bind]; [apply IH | reflexivity].
Qed.

Lemma aligned_mod (A q r : Z) : 0 < A -> 0 <= r < A -> (q * A + r) mod A = r.
Proof. intros HA Hr. symmetry. apply (Z.mod_unique _ _ q); [left; lia | lia]. Qed.

Lemma aligned_div (A q r : Z) : 0 < A -> 0 <= r < A -> (q * A + r) / A = q.
Proof. intros HA Hr. symmetry. apply (Z.div_unique _ _ _ r); [left; lia | lia]. Qed.

Lemma range_nonempty (a b : Z) : a < b -> range a b = range a (b - 1) ++ [b - 1].
Proof.
  intros H. unfold range.
  replace (Z.to_nat (b - a)) with (S (Z.to_nat (b - 1 - a))) by lia.
  rewrite seq_S, map_app. simpl. do 2 f_equal. lia.
Qed.

Lemma range_empty (a b : Z) : b <= a -> range a b = [].
Proof. intros H. unfold range. now replace (Z.to_nat (b - a)) with 0%nat by lia. Qed.

Lemma range_cons (a b : Z) : a < b -> range a b = a :: range (a + 1) b.
Proof.
  intros H. unfold range.
  replace (Z.to_nat (b - a)) with (S (Z.to_nat (b - (a + 1)))) by lia.
  cbn [seq map]. rewrite <- seq_shift, map_map. f_equal; [lia|].
  apply map_ext. intros i. lia.
Qed.

Lemma loop_variable_range (a b : Z) : a < b -> loop_variable (range a b) = Ok (b - 1).
Proof.
  intros H. unfold loop_variable. rewrite (range_nonempty a b H), rev_app_distr. reflexivity.
Qed.

(** ** The distillation loop, one microbatch at a time *)

Section KDLoop.

Context {T : Torch}.

Lemma kd_microbatch_spec (e idx : Z) (b : KDBatch) (st : KD.State) :
  ready (KD.self st) ->
  let A := _gradient_accumulation_steps (KD.self st) in
  exists st2,
    KD.microbatch e idx b st
    = Ok (st2, opt_eqb (Some ((idx + 1) / A)) (max_steps_per_epoch (KD.self st))) /\
    (if (idx + 1) mod A =? 0
     then KD.optimizer_block e (KD.accumulate b st) = Ok st2
     else st2 = KD.accumulate b st).
Proof.
  intros Hr A. pose proof Hr as (HA & _).
  assert (HA0 : A <> 0) by (unfold A; lia).
  unfold KD.microbatch.
  change (KD.self (KD.accumulate b st)) with (KD.self st). fold A.
  rewrite (pymod_Ok _ _ HA0). cbn [bind].
  destruct ((idx + 1) mod A =? 0).
  - destruct (kd_optimizer_block_spec e (KD.accumulate b st) Hr) as (st2 & Hst2 & Hself & _).
    exists st2. split; [|exact Hst2].
    rewrite Hst2. cbn [bind]. rewrite Hself.
    change (KD.self (KD.accumulate b st)) with (KD.self st).
    change (_gradient_accumulation_steps (set_global_step (global_step (KD.self st) + 1) (KD.self st)))
      with A.
    change (max_steps_per_epoch (set_global_step (global_step (KD.self st) + 1) (KD.self st)))
      with (max_steps_per_epoch (KD.self st)).
    rewrite (floordiv_Ok _ _ HA0). reflexivity.
  - exists (KD.accumulate b st). split; [|reflexivity].
    cbn [bind]. change (KD.self (KD.accumulate b st)) with (KD.self st). fold A.
    rewrite (floordiv_Ok _ _ HA0). reflexivity.
Qed.

Lemma kd_accumulate_all_self (xs : list KDBatch) (st : KD.State) :
  KD.self (kd_accumulate_all xs st) = KD.self st.
Proof.
  revert st. induction xs as [|x xs IH]; intros st; [reflexivity|].
  unfold kd_accumulate_all in *. cbn [fold_left]. now rewrite IH.
Qed.

Lemma kd_accumulate_all_app (xs ys : list KDBatch) (st : KD.State) :
  kd_accumulate_all (xs ++ ys) st = kd_accumulate_all ys (kd_accumulate_all xs st).
Proof. apply fold_left_app. Qed.

(** A stretch of microbatches none of which closes a window or reaches
    the cap only accumulates. *)
Lemma kd_accumulate_run (e : Z) (xs : list KDBatch) (idx : Z) (st : KD.State) :
  ready (KD.self st) ->
  (forall j, 0 <= j < Z.of_nat (length xs) ->
     (idx + j + 1) mod _gradient_accumulation_steps (KD.self st) <> 0 /\
     max_steps_per_epoch (KD.self st)
     <> Some ((idx + j + 1) / _gradient_accumulation_steps (KD.self st))) ->
  for_enumerate (KD.microbatch e) idx xs st = Ok (kd_accumulate_all xs st, false).
Proof.
  revert idx st. induction xs as [|x xs IH]; intros idx st Hr Hno; [reflexivity|].
  cbn [for_enumerate].
  destruct (kd_microbatch_spec e idx x st Hr) as (st2 & Hm & Hst2).
  destruct (Hno 0) as (Hmod & Hcap); [cbn [length]; lia|].
  rewrite Z.add_0_r in Hmod, Hcap.
  rewrite Hm. cbn [bind fst snd].
  destruct (opt_eqb _ _) eqn:Heq.
  { apply opt_eqb_eq in Heq. congruence. }
  destruct (Z.eqb_spec ((idx + 1) mod _gradient_accumulation_steps (KD.self st)) 0);
    [contradiction|].
  subst st2. rewrite IH.
  - reflexivity.
  - exact Hr.
  - intros j Hj. cbn [KD.accumulate KD.self].
    replace (idx + 1 + j + 1) with (idx + (j + 1) + 1) by lia.
    apply Hno. cbn [length]. lia.
Qed.

(** A window: a stretch that only accumulates, then the microbatch that
    closes it. *)
Lemma kd_window_run (e : Z) (xs : list KDBatch) (b : KDBatch) (idx : Z) (st : KD.State) :
  ready (KD.self st) ->
  let A := _gradient_accumulation_steps (KD.self st) in
  (forall j, 0 <= j < Z.of_nat (length xs) ->
     (idx + j + 1) mod A <> 0 /\
     max_steps_per_epoch (KD.self st) <> Some ((idx + j + 1) / A)) ->
  (idx + Z.of_nat (length xs) + 1) mod A = 0 ->
  exists st2,
    KD.optimizer_block e (kd_accumulate_all (xs ++ [b]) st) = Ok st2 /\
    for_enumerate (KD.microbatch e) idx (xs ++ [b]) st
    = Ok (st2, opt_eqb (Some ((idx + Z.of_nat (length xs) + 1) / A))
                       (max_steps_per_epoch (KD.self st))).
Proof.
  intros Hr A Hno Hlast.
  rewrite for_enumerate_app, (kd_accumulate_run e xs idx st Hr Hno).
  cbn [for_enumerate].
  assert (Hr' : ready (KD.self (kd_accumulate_all xs st)))
    by (now rewrite kd_accumulate_all_self).
  destruct (kd_microbatch_spec e (idx + Z.of_nat (length xs)) b _ Hr') as (st2 & Hm & Hst2).
  rewrite kd_accumulate_all_self in Hm, Hst2. fold A in Hm, Hst2.
  rewrite Hlast in Hst2. cbn [Z.eqb] in Hst2.
  exists st2. rewrite kd_accumulate_all_app. split; [exact Hst2|].
  rewrite Hm. cbn [bind fst snd]. now destruct (opt_eqb _ _).
Qed.

End KDLoop.

(** ** The accumulation window of the distillation recipe *)

Section KDWindow.

Context {T : Torch}.

Lemma Qc_sum_cons (a : Qc) (l : list Qc) : Qc_sum (a :: l) = (a + Qc_sum l)%Qc.
Proof. reflexivity. Qed.

Lemma kd_accumulate_all_spec (xs : list KDBatch) (st : KD.State) :
  let st' := kd_accumulate_all xs st in
  let s := KD.self st in
  let W := weights (KD.world st) in
  KD.self st' = s /\
  weights (KD.world st') = W /\
  trace (KD.world st')
  = trace (KD.world st) ++ map (fun b => EvBackward (kd_backward_grad s W b)) xs /\
  grads (KD.world st')
  = fold_left grad_add (map (kd_backward_grad s W) xs) (grads (KD.world st)) /\
  KD.running_class_loss st' = (KD.running_class_loss st + kd_weighted_loss fst W xs)%Qc /\
  KD.running_kd_loss st' = (KD.running_kd_loss st + kd_weighted_loss snd W xs)%Qc /\
  KD.num_tokens st' = KD.num_tokens st + kd_tokens_total xs.
Proof.
  revert st. induction xs as [|x xs IH]; intros st.
  - cbn. rewrite app_nil_r. repeat split; try ring.
  - specialize (IH (KD.accumulate x st)).
    destruct IH as (Hs & HW & Htr & Hg & Hc & Hk & Hn).
    cbn zeta. change (kd_accumulate_all (x :: xs) st)
      with (kd_accumulate_all xs (KD.accumulate x st)).
    change (KD.self (KD.accumulate x st)) with (KD.self st) in *.
    change (weights (KD.world (KD.accumulate x st))) with (weights (KD.world st)) in *.
    repeat split.
    + exact Hs.
    + exact HW.
    + rewrite Htr. cbn [KD.accumulate KD.world backward emit set_grads trace map].
      now rewrite <- app_assoc.
    + rewrite Hg. reflexivity.
    + rewrite Hc. unfold kd_weighted_loss. cbn [KD.accumulate KD.running_class_loss map].
      rewrite Qc_sum_cons. ring.
    + rewrite Hk. unfold kd_weighted_loss. cbn [KD.accumulate KD.running_kd_loss map].
      rewrite Qc_sum_cons. ring.
    + rewrite Hn. unfold kd_tokens_total. cbn [KD.accumulate KD.num_tokens map fold_right].
      ring.
Qed.

End KDWindow.

Lemma kd_tokens_total_nonneg {T : Torch} (xs : list KDBatch) : 0 <= kd_tokens_total xs.
Proof.
  unfold kd_tokens_total. induction xs as [|x xs IH]; cbn [map fold_right]; [lia|].
  unfold KD.current_num_tokens at 1. lia.
Qed.

(** A window in which no label counts has weighted losses zero. *)
Lemma kd_weighted_loss_no_tokens {T : Torch} (component : Qc * Qc -> Qc) (W : Weights)
    (xs : list KDBatch) :
  kd_tokens_total xs = 0 -> kd_weighted_loss component W xs = Q2Qc 0.
Proof.
  unfold kd_weighted_loss. induction xs as [|x xs IH]; intros H; [reflexivity|].
  pose proof (kd_tokens_total_nonneg xs) as Hxs.
  unfold kd_tokens_total in H, Hxs. cbn [map fold_right] in H.
  assert (Hx : KD.current_num_tokens x = 0).
  { assert (0 <= KD.current_num_tokens x) by (unfold KD.current_num_tokens; lia). lia. }
  cbn [map]. rewrite Qc_sum_cons, IH by (unfold kd_tokens_total; lia).
  rewrite Hx. change (Z2Qc 0) with (Q2Qc 0). ring.
Qed.

(** C4.  The [q]-th accumulation window of an epoch of the distillation
    recipe: [A] microbatches from index [q * A], entered with the running
    sums and the token count at zero, under weights [W].  With [t_i] the
    count of labels that are not [ignore_index] and [l_i] the class (or
    distillation) loss of microbatch [i], the loop over the window returns;
    it calls [backward] once per microbatch, then rescales the gradients
    by [1 / sum(t_i)], then steps the optimizer; the dict it logs holds
    under ["class_loss"] and ["kd_loss"] the components
    [sum(l_i * t_i) / sum(t_i)], over the same token total, and under
    ["loss"] their combination by [kd_ratio]; and it leaves the running
    sums and the token count at zero.  The divisions are those of tensors:
    when some label counts they are the rational quotients; when none does
    ([sum(t_i) = 0]) nothing is raised, the gradients are scaled by
    [+inf] and the three losses logged are NaN.  (The window is reached
    only if the cap is not [q]: a cap of [q] ends the epoch earlier.) *)
Theorem kd_window_loss_and_gradient {T : Torch} (e q : Z) (window : list KDBatch)
    (st : KD.State) :
  ready (KD.self st) ->
  Z.of_nat (length window) = _gradient_accumulation_steps (KD.self st) ->
  max_steps_per_epoch (KD.self st) <> Some q ->
  KD.running_class_loss st = Q2Qc 0 ->
  KD.running_kd_loss st = Q2Qc 0 ->
  KD.num_tokens st = 0 ->
  let s := KD.self st in
  let A := _gradient_accumulation_steps s in
  let W := weights (KD.world st) in
  let tokens := kd_tokens_total window in
  let factor := tensor_div (Q2Qc 1) tokens in
  let class_loss := tensor_div (kd_weighted_loss fst W window) tokens in
  let kd_loss := tensor_div (kd_weighted_loss snd W window) tokens in
  let loss :=
    scalar_add (scalar_scale (1 - _kd_ratio s)%Qc class_loss)
               (scalar_scale (_kd_ratio s) kd_loss) in
  let g := fold_left grad_add (map (kd_backward_grad s W) window) (grads (KD.world st)) in
  let scaled := grad_times factor g in
  let log_dict :=
    KD.log_dict s (global_step s + 1) tokens loss class_loss kd_loss
      match _clip_grad_norm s with
      | Some max_norm => Some (snd (clip_grad_norm_ scaled max_norm))
      | None => None
      end in
  (exists st' stop,
     for_enumerate (KD.microbatch e) (q * A) window st = Ok (st', stop) /\
     trace (KD.world st')
     = trace (KD.world st)
       ++ map (fun b => EvBackward (kd_backward_grad s W b)) window
       ++ [EvScaleGrads factor]
       ++ match _clip_grad_norm s with
          | Some max_norm => [EvClipGradNorm max_norm]
          | None => []
          end
       ++ [EvOptimizerStep
             match _clip_grad_norm s with
             | Some max_norm => fst (clip_grad_norm_ scaled max_norm)
             | None => scaled
             end;
           EvZeroGrad; EvLrSchedulerStep;
           EvPbar (e + 1) (global_step s + 1) loss]
       ++ (if (global_step s + 1) mod _log_every_n_steps s =? 0
           then [EvLogDict (global_step s + 1) log_dict]
           else [])
       ++ kd_save_events s e (global_step s + 1) /\
     KD.running_class_loss st' = Q2Qc 0 /\
     KD.running_kd_loss st' = Q2Qc 0 /\
     KD.num_tokens st' = 0 /\
     grads (KD.world st') = grad_none) /\
  (In ("loss"%string, loss) log_dict /\
   In ("class_loss"%string, class_loss) log_dict /\
   In ("kd_loss"%string, kd_loss) log_dict /\
   In ("tokens_per_second_per_gpu"%string,
       Finite (Z2Qc tokens / time_per_step (global_step s + 1))%Qc) log_dict /\
   (forall max_norm, _clip_grad_norm s = Some max_norm ->
      In ("grad_norm"%string, snd (clip_grad_norm_ scaled max_norm)) log_dict)) /\
  (tokens <> 0 ->
   factor = Finite (1 / Z2Qc tokens)%Qc /\
   scaled = grad_scale (1 / Z2Qc tokens)%Qc g /\
   class_loss = Finite (kd_weighted_loss fst W window / Z2Qc tokens)%Qc /\
   kd_loss = Finite (kd_weighted_loss snd W window / Z2Qc tokens)%Qc /\
   loss = Finite ((1 - _kd_ratio s)
                  * (kd_weighted_loss fst W window / Z2Qc tokens)
                  + _kd_ratio s
                    * (kd_weighted_loss snd W window / Z2Qc tokens))%Qc) /\
  (tokens = 0 ->
   factor = Inf false /\ class_loss = NaN /\ kd_loss = NaN /\ loss = NaN).
Proof.
  intros Hr Hlen Hcap Hrc Hrk Hnt s A W tokens factor class_loss kd_loss loss g scaled
         log_dict.
  split; [|split; [|split]].
  - pose proof Hr as (HA & _). fold s A in HA, Hlen.
    destruct (exists_last (l := window)) as (xs & b & Hw).
    { intros ->. cbn in Hlen. lia. }
    assert (Hxs : Z.of_nat (length xs) = A - 1).
    { rewrite Hw, length_app in Hlen. cbn [length] in Hlen. lia. }
    destruct (kd_window_run e xs b (q * A) st Hr) as (st2 & Hblock & Hloop).
    + intros j Hj. fold s A. rewrite Hxs in Hj.
      replace (q * A + j + 1) with (q * A + (j + 1)) by lia.
      rewrite aligned_mod, aligned_div by lia. split; [lia | exact Hcap].
    + fold s A. rewrite Hxs.
      replace (q * A + (A - 1) + 1) with ((q + 1) * A + 0) by lia.
      apply aligned_mod; lia.
    + rewrite <- Hw in Hblock, Hloop.
      pose proof (kd_accumulate_all_spec window st) as (Hs & HW & Htr & Hg & Hc & Hk & Hn).
      cbn zeta in Hs, HW, Htr, Hg, Hc, Hk, Hn.
      fold s W in Hs, HW, Htr, Hg, Hc, Hk, Hn.
      rewrite Hrc, Qcplus_0_l in Hc. rewrite Hrk, Qcplus_0_l in Hk.
      rewrite Hnt, Z.add_0_l in Hn. fold tokens in Hn.
      destruct (kd_optimizer_block_spec e (kd_accumulate_all window st)) as
        (st' & Hblock' & Hself' & Hrc' & Hrk' & Hnt' & Hg' & _ & Htr').
      { now rewrite Hs. }
      rewrite Hblock in Hblock'. injection Hblock' as <-.
      exists st2, (opt_eqb (Some ((q * A + Z.of_nat (length xs) + 1) / A))
                           (max_steps_per_epoch s)).
      split; [exact Hloop|]. split; [|repeat split; assumption].
      rewrite Htr', Htr, Hs, Hc, Hk, Hn, Hg. fold g.
      unfold kd_step_events, kd_applied_grad.
      fold factor class_loss kd_loss loss scaled log_dict.
      rewrite <- !app_assoc. reflexivity.
  - unfold log_dict, KD.log_dict.
    split; [now left|]. split; [right; now left|]. split; [right; right; now left|].
    split; [right; right; right; right; now left|].
    intros max_norm Hclip. rewrite Hclip.
    rewrite !in_app_iff. right. right. now left.
  - intros Htok. unfold loss, scaled, factor, class_loss, kd_loss, tensor_div.
    destruct (Z.eqb_spec tokens 0) as [E|_]; [contradiction|].
    cbn [scalar_scale scalar_add grad_times]. repeat split.
  - intros Htok. unfold loss, factor, class_loss, kd_loss, tensor_div.
    rewrite !(kd_weighted_loss_no_tokens _ W window Htok), Htok. cbn [Z.eqb].
    repeat split.
Qed.

Lemma kd_window_loss_and_gradient_witness :
  let st := Sample.kd_state (Sample.recipe 0 0 None) in
  let window := [Sample.kd_batch 1; Sample.kd_batch 2] in
  kd_tokens_total (T := Sample.torch) window = 6 /\
  exists st' stop,
    for_enumerate (KD.microbatch 0) (0 * 2) window st = Ok (st', stop) /\
    KD.running_class_loss st' = Q2Qc 0 /\
    KD.running_kd_loss st' = Q2Qc 0 /\
    KD.num_tokens st' = 0.
Proof.
  split; [reflexivity|].
  destruct (kd_window_loss_and_gradient (T := Sample.torch) 0 0
              [Sample.kd_batch 1; Sample.kd_batch 2]
              (Sample.kd_state (Sample.recipe 0 0 None)))
    as ((st' & stop & Hloop & _ & Hc & Hk & Hn & _) & _).
  - unfold ready; simpl. repeat split; try lia; eexists; split; try reflexivity; lia.
  - reflexivity.
  - discriminate.
  - reflexivity.
  - reflexivity.
  - reflexivity.
  - exists st', stop. repeat split; assumption.
Defined.

(** ** Counting microbatches and optimizer steps *)

Section Counting.

Context {T : Torch}.

Lemma same_schedule_refl (s : Recipe) : same_schedule s s.
Proof. repeat split. Qed.

Lemma same_schedule_trans (a b c : Recipe) :
  same_schedule a b -> same_schedule b c -> same_schedule a c.
Proof.
  unfold same_schedule.
  intros (?&?&?&?&?&?&?&?&?&?&?&?&?) (?&?&?&?&?&?&?&?&?&?&?&?&?).
  repeat split; congruence.
Qed.

Lemma same_schedule_ready (s s' : Recipe) : same_schedule s s' -> ready s -> ready s'.
Proof.
  unfold same_schedule, ready.
  intros (?&?&?&HA&Hs&Hl&?&?&?&Hp&Hd&?) (?&?&?&?&?).
  rewrite HA, Hs, Hl, Hp, Hd. repeat split; assumption.
Qed.

Lemma same_schedule_set_global_step (g : Z) (s : Recipe) :
  same_schedule s (set_global_step g s).
Proof. repeat split. Qed.

Lemma same_schedule_set_epochs_run (e : Z) (s : Recipe) :
  same_schedule s (set_epochs_run e s).
Proof. repeat split. Qed.

Lemma count_backward_app (a b : list event) :
  count_backward (a ++ b) = count_backward a + count_backward b.
Proof. unfold count_backward. rewrite filter_app, length_app. lia. Qed.

Lemma count_optimizer_steps_app (a b : list event) :
  count_optimizer_steps (a ++ b) = count_optimizer_steps a + count_optimizer_steps b.
Proof. unfold count_optimizer_steps. rewrite filter_app, length_app. lia. Qed.

Lemma kd_step_events_counts (s : Recipe) (e : Z) (rc rk : Qc) (nt : Z) (g : Grad) :
  count_backward (kd_step_events s e rc rk nt g) = 0 /\
  count_optimizer_steps (kd_step_events s e rc rk nt g) = 1.
Proof.
  unfold kd_step_events, kd_save_events.
  destruct (_clip_grad_norm s), (_ =? 0), (save_every_n_steps s),
    (_steps_per_epoch s), (checkpoint_dir_prefix s);
    try destruct (_ && _); split; reflexivity.
Qed.

Lemma dpo_step_events_counts (s : Recipe) (e : Z) (f : DPO.Forwarded) (r : Qc) (nt : Z) (g : Grad) :
  count_backward (dpo_step_events s e f r nt g) = 0 /\
  count_optimizer_steps (dpo_step_events s e f r nt g) = 1.
Proof.
  unfold dpo_step_events, dpo_save_events.
  destruct (_lr_scheduler s), (_ =? 0), (save_every_n_steps s);
    try destruct (_ && _); split; reflexivity.
Qed.

Lemma div_succ (A i : Z) :
  0 < A -> (i + 1) / A = i / A + (if (i + 1) mod A =? 0 then 1 else 0).
Proof.
  intros HA.
  pose proof (Z.div_mod i A ltac:(lia)) as E1.
  pose proof (Z.mod_pos_bound i A HA) as B1.
  pose proof (Z.div_mod (i + 1) A ltac:(lia)) as E2.
  pose proof (Z.mod_pos_bound (i + 1) A HA) as B2.
  set (q1 := i / A) in *. set (r1 := i mod A) in *.
  set (q2 := (i + 1) / A) in *. set (r2 := (i + 1) mod A) in *.
  assert (Hd : A * (q2 - q1) = r1 + 1 - r2) by lia.
  destruct (Z.eqb_spec r2 0) as [E|E].
  - assert (q2 - q1 = 1) by nia. lia.
  - assert (q2 - q1 = 0) by nia. lia.
Qed.

(** What one pass through the distillation loop body does to the schedule
    and to the counts. *)
Lemma kd_microbatch_counts (e idx : Z) (b : KDBatch) (st : KD.State) :
  ready (KD.self st) ->
  let A := _gradient_accumulation_steps (KD.self st) in
  exists st2,
    KD.microbatch e idx b st
    = Ok (st2, opt_eqb (Some ((idx + 1) / A)) (max_steps_per_epoch (KD.self st))) /\
    same_schedule (KD.self st) (KD.self st2) /\
    epochs_run (KD.self st2) = epochs_run (KD.self st) /\
    count_backward (trace (KD.world st2)) = count_backward (trace (KD.world st)) + 1 /\
    count_optimizer_steps (trace (KD.world st2))
    = count_optimizer_steps (trace (KD.world st))
      + (if (idx + 1) mod A =? 0 then 1 else 0).
Proof.
  intros Hr A. destruct (kd_microbatch_spec e idx b st Hr) as (st2 & Hm & Hst2).
  exists st2. split; [exact Hm|]. fold A in Hst2.
  assert (Hacc_b : count_backward (trace (KD.world (KD.accumulate b st)))
                   = count_backward (trace (KD.world st)) + 1).
  { cbn [KD.accumulate KD.world backward emit set_grads trace].
    now rewrite count_backward_app. }
  assert (Hacc_s : count_optimizer_steps (trace (KD.world (KD.accumulate b st)))
                   = count_optimizer_steps (trace (KD.world st))).
  { cbn [KD.accumulate KD.world backward emit set_grads trace].
    rewrite count_optimizer_steps_app. cbn. lia. }
  destruct ((idx + 1) mod A =? 0).
  - destruct (kd_optimizer_block_spec e (KD.accumulate b st) Hr)
      as (st' & Hb & Hself & _ & _ & _ & _ & _ & Htr).
    rewrite Hst2 in Hb. injection Hb as <-.
    rewrite Hself, Htr, count_backward_app, count_optimizer_steps_app.
    destruct (kd_step_events_counts (KD.self (KD.accumulate b st)) e
                (KD.running_class_loss (KD.accumulate b st))
                (KD.running_kd_loss (KD.accumulate b st))
                (KD.num_tokens (KD.accumulate b st))
                (grads (KD.world (KD.accumulate b st)))) as (-> & ->).
    rewrite Hacc_b, Hacc_s. repeat split; lia.
  - subst st2. rewrite Hacc_b, Hacc_s. repeat split; lia.
Qed.

(** A capped epoch of the distillation recipe, from any index before the
    cap is reached. *)
Lemma kd_capped_run (e M : Z) (bs : list KDBatch) (idx : Z) (st : KD.State) :
  ready (KD.self st) ->
  max_steps_per_epoch (KD.self st) = Some M ->
  let A := _gradient_accumulation_steps (KD.self st) in
  0 <= idx < A * M ->
  A * M - idx <= Z.of_nat (length bs) ->
  exists st',
    for_enumerate (KD.microbatch e) idx bs st = Ok (st', true) /\
    same_schedule (KD.self st) (KD.self st') /\
    epochs_run (KD.self st') = epochs_run (KD.self st) /\
    count_backward (trace (KD.world st'))
    = count_backward (trace (KD.world st)) + (A * M - idx) /\
    count_optimizer_steps (trace (KD.world st'))
    = count_optimizer_steps (trace (KD.world st)) + (M - idx / A).
Proof.
  revert idx st. induction bs as [|b bs IH]; intros idx st Hr HM A Hidx Hlen.
  { cbn [length] in Hlen. lia. }
  pose proof Hr as (HA & _). fold A in HA.
  destruct (kd_microbatch_counts e idx b st Hr) as (st2 & Hm & Hsame & Hep & Hcb & Hcs).
  fold A in Hm, Hcs. rewrite HM in Hm. cbn [opt_eqb] in Hm.
  cbn [for_enumerate]. rewrite Hm. cbn [bind fst snd].
  pose proof (div_succ A idx HA) as Hdiv.
  destruct (Z.eqb_spec ((idx + 1) / A) M) as [Heq|Hne].
  - exists st2. split; [reflexivity|]. split; [exact Hsame|]. split; [exact Hep|].
    assert (idx + 1 = A * M).
    { pose proof (Z.div_mod (idx + 1) A ltac:(lia)) as E.
      pose proof (Z.mod_pos_bound (idx + 1) A HA). rewrite Heq in E. nia. }
    assert (Hmod : (idx + 1) mod A = 0).
    { replace (idx + 1) with (M * A + 0) by lia. apply aligned_mod; lia. }
    rewrite Hmod in Hcs, Hdiv. cbn [Z.eqb] in Hcs, Hdiv. split; lia.
  - assert (Hlt : idx + 1 < A * M).
    { destruct (Z.eq_dec (idx + 1) (A * M)) as [E|E]; [|lia].
      exfalso. apply Hne. rewrite E, Z.mul_comm. apply Z.div_mul. lia. }
    assert (Hr2 : ready (KD.self st2)) by (eapply same_schedule_ready; eassumption).
    pose proof Hsame as (_ & _ & HM2 & HA2 & _).
    destruct (IH (idx + 1) st2 Hr2) as (st' & Hloop & Hsame' & Hep' & Hcb' & Hcs').
    + now rewrite HM2.
    + rewrite HA2. fold A. lia.
    + rewrite HA2. fold A. cbn [length] in Hlen. lia.
    + rewrite HA2 in Hcb', Hcs'. fold A in Hcb', Hcs'.
      exists st'. split; [exact Hloop|].
      split; [eapply same_schedule_trans; eassumption|].
      split; [congruence|].
      destruct ((idx + 1) mod A =? 0); split; lia.
Qed.

End Counting.

(** ** The preference loop, one microbatch at a time *)

Section DPOLoop.

Context {T : Torch}.

Lemma dpo_microbatch_spec (e idx : Z) (b : DPOBatch) (st : DPO.State) :
  ready (DPO.self st) ->
  let A := _gradient_accumulation_steps (DPO.self st) in
  if dpo_stop (DPO.self st) idx
  then DPO.microbatch e idx b st = Ok (st, true)
  else exists st2,
      DPO.microbatch e idx b st = Ok (st2, false) /\
      (if (idx + 1) mod A =? 0
       then DPO.optimizer_block e (fst (DPO.accumulate b st)) (snd (DPO.accumulate b st))
            = Ok st2
       else st2 = snd (DPO.accumulate b st)).
Proof.
  intros Hr A. pose proof Hr as (HA & _).
  assert (HA0 : A <> 0) by (unfold A; lia).
  unfold DPO.microbatch, dpo_stop. fold A.
  assert (Hcont :
    exists st2,
      (let fst1 := DPO.accumulate b st in
       m <- pymod (idx + 1) (_gradient_accumulation_steps (DPO.self (snd fst1))) ;;
       st2 <- (if m =? 0 then DPO.optimizer_block e (fst fst1) (snd fst1)
               else Ok (snd fst1)) ;;
       Ok (st2, false)) = Ok (st2, false) /\
      (if (idx + 1) mod A =? 0
       then DPO.optimizer_block e (fst (DPO.accumulate b st)) (snd (DPO.accumulate b st))
            = Ok st2
       else st2 = snd (DPO.accumulate b st))).
  { cbn zeta.
    change (DPO.self (snd (DPO.accumulate b st))) with (DPO.self st). fold A.
    rewrite (pymod_Ok _ _ HA0). cbn [bind].
    destruct ((idx + 1) mod A =? 0).
    - destruct (dpo_optimizer_block_spec e (fst (DPO.accumulate b st))
                  (snd (DPO.accumulate b st)) Hr) as (st2 & Hst2 & _).
      exists st2. rewrite Hst2. split; reflexivity.
    - exists (snd (DPO.accumulate b st)). split; reflexivity. }
  destruct (max_steps_per_epoch (DPO.self st)) as [m|].
  - rewrite (floordiv_Ok _ _ HA0). cbn [bind].
    destruct (idx / A =? m); [reflexivity | exact Hcont].
  - cbn [bind]. exact Hcont.
Qed.

Lemma dpo_accumulate_counts (b : DPOBatch) (st : DPO.State) :
  count_backward (trace (DPO.world (snd (DPO.accumulate b st))))
  = count_backward (trace (DPO.world st)) + 1 /\
  count_optimizer_steps (trace (DPO.world (snd (DPO.accumulate b st))))
  = count_optimizer_steps (trace (DPO.world st)).
Proof.
  cbn [DPO.accumulate snd DPO.world backward emit set_grads trace].
  pose proof (forward_passes_spec b (DPO.world st)) as (_ & _ & _ & Htr & _).
  cbn zeta in Htr. cbn [trace set_grads]. rewrite Htr.
  rewrite !count_backward_app, !count_optimizer_steps_app. cbn. split; lia.
Qed.

Lemma dpo_microbatch_counts (e idx : Z) (b : DPOBatch) (st : DPO.State) :
  ready (DPO.self st) ->
  let A := _gradient_accumulation_steps (DPO.self st) in
  if dpo_stop (DPO.self st) idx
  then DPO.microbatch e idx b st = Ok (st, true)
  else exists st2,
      DPO.microbatch e idx b st = Ok (st2, false) /\
      same_schedule (DPO.self st) (DPO.self st2) /\
      epochs_run (DPO.self st2) = epochs_run (DPO.self st) /\
      count_backward (trace (DPO.world st2))
      = count_backward (trace (DPO.world st)) + 1 /\
      count_optimizer_steps (trace (DPO.world st2))
      = count_optimizer_steps (trace (DPO.world st))
        + (if (idx + 1) mod A =? 0 then 1 else 0).
Proof.
  intros Hr A. pose proof (dpo_microbatch_spec e idx b st Hr) as H. fold A in H.
  destruct (dpo_stop (DPO.self st) idx); [exact H|].
  destruct H as (st2 & Hm & Hst2). exists st2. split; [exact Hm|].
  destruct (dpo_accumulate_counts b st) as (Hcb & Hcs).
  destruct ((idx + 1) mod A =? 0).
  - destruct (dpo_optimizer_block_spec e (fst (DPO.accumulate b st))
                (snd (DPO.accumulate b st)) Hr)
      as (st' & Hb & Hself & _ & _ & _ & _ & Htr).
    rewrite Hst2 in Hb. injection Hb as <-.
    rewrite Hself, Htr, count_backward_app, count_optimizer_steps_app.
    destruct (dpo_step_events_counts (DPO.self (snd (DPO.accumulate b st))) e
                (fst (DPO.accumulate b st))
                (DPO.running_loss (snd (DPO.accumulate b st)))
                (DPO.num_tokens (snd (DPO.accumulate b st)))
                (grads (DPO.world (snd (DPO.accumulate b st))))) as (-> & ->).
    rewrite Hcb, Hcs. repeat split; lia.
  - subst st2. rewrite Hcb, Hcs. repeat split; lia.
Qed.

(** A capped epoch of the preference recipe, from any index up to the
    cap. *)
Lemma dpo_capped_run (e M : Z) (bs : list DPOBatch) (idx : Z) (st : DPO.State) :
  ready (DPO.self st) ->
  max_steps_per_epoch (DPO.self st) = Some M ->
  let A := _gradient_accumulation_steps (DPO.self st) in
  0 <= idx <= A * M ->
  A * M - idx < Z.of_nat (length bs) ->
  exists st',
    for_enumerate (DPO.microbatch e) idx bs st = Ok (st', true) /\
    same_schedule (DPO.self st) (DPO.self st') /\
    epochs_run (DPO.self st') = epochs_run (DPO.self st) /\
    count_backward (trace (DPO.world st'))
    = count_backward (trace (DPO.world st)) + (A * M - idx) /\
    count_optimizer_steps (trace (DPO.world st'))
    = count_optimizer_steps (trace (DPO.world st)) + (M - idx / A).
Proof.
  revert idx st. induction bs as [|b bs IH]; intros idx st Hr HM A Hidx Hlen.
  { cbn [length] in Hlen. lia. }
  pose proof Hr as (HA & _). fold A in HA.
  pose proof (dpo_microbatch_counts e idx b st Hr) as Hm. fold A in Hm.
  unfold dpo_stop in Hm. rewrite HM in Hm. fold A in Hm.
  cbn [for_enumerate].
  pose proof (div_succ A idx HA) as Hdiv.
  destruct (Z.eqb_spec (idx / A) M) as [Heq|Hne].
  - rewrite Hm. cbn [bind fst snd]. exists st.
    split; [reflexivity|]. split; [apply same_schedule_refl|]. split; [reflexivity|].
    assert (idx = A * M).
    { pose proof (Z.div_mod idx A ltac:(lia)) as E.
      pose proof (Z.mod_pos_bound idx A HA). rewrite Heq in E. nia. }
    split; lia.
  - destruct Hm as (st2 & Hm & Hsame & Hep & Hcb & Hcs).
    rewrite Hm. cbn [bind fst snd].
    assert (Hlt : idx < A * M).
    { destruct (Z.eq_dec idx (A * M)) as [E|E]; [|lia].
      exfalso. apply Hne. rewrite E, Z.mul_comm. apply Z.div_mul. lia. }
    assert (Hr2 : ready (DPO.self st2)) by (eapply same_schedule_ready; eassumption).
    pose proof Hsame as (_ & _ & HM2 & HA2 & _).
    destruct (IH (idx + 1) st2 Hr2) as (st' & Hloop & Hsame' & Hep' & Hcb' & Hcs').
    + now rewrite HM2.
    + rewrite HA2. fold A. lia.
    + rewrite HA2. fold A. cbn [length] in Hlen. lia.
    + rewrite HA2 in Hcb', Hcs'. fold A in Hcb', Hcs'.
      exists st'. split; [exact Hloop|].
      split; [eapply same_schedule_trans; eassumption|].
      split; [congruence|].
      destruct ((idx + 1) mod A =? 0); split; lia.
Qed.

End DPOLoop.

(** C7.  An epoch whose schedule is capped: [max_steps_per_epoch] is a
    positive [M] below [len(dataloader) // A].  In the distillation recipe
    the loop over the epoch's microbatches is left through [break] after
    the microbatch whose index [idx] has [(idx + 1) // A == M]; in the
    preference recipe through the [break] at the top of the iteration
    whose index has [idx // A == M].  Either way exactly [A * M]
    microbatches went through forward and backward and exactly [M]
    optimizer steps were taken in the epoch, and the epoch ends normally.
    (In the preference recipe the data source has by then yielded one
    more batch, which is dropped untouched.  [M] is positive, as the
    schedule calculator's inputs are.) *)
Theorem capped_epoch_counts {T : Torch} (e M : Z) :
  0 < M ->
  (forall (dataloader : Z -> list KDBatch) (st : KD.State),
     ready (KD.self st) ->
     max_steps_per_epoch (KD.self st) = Some M ->
     let A := _gradient_accumulation_steps (KD.self st) in
     M < Z.of_nat (length (dataloader e)) / A ->
     exists st' st'',
       for_enumerate (KD.microbatch e) 0 (dataloader e) st = Ok (st', true) /\
       KD.epoch dataloader e st = Ok st'' /\
       KD.world st'' = KD.world st' /\
       count_backward (trace (KD.world st'))
       = count_backward (trace (KD.world st)) + A * M /\
       count_optimizer_steps (trace (KD.world st'))
       = count_optimizer_steps (trace (KD.world st)) + M) /\
  (forall (dataloader : Z -> list DPOBatch) (st : DPO.State),
     ready (DPO.self st) ->
     max_steps_per_epoch (DPO.self st) = Some M ->
     let A := _gradient_accumulation_steps (DPO.self st) in
     M < Z.of_nat (length (dataloader e)) / A ->
     exists st' st'',
       for_enumerate (DPO.microbatch e) 0 (dataloader e) st = Ok (st', true) /\
       DPO.epoch dataloader e st = Ok st'' /\
       DPO.world st'' = DPO.world st' /\
       count_backward (trace (DPO.world st'))
       = count_backward (trace (DPO.world st)) + A * M /\
       count_optimizer_steps (trace (DPO.world st'))
       = count_optimizer_steps (trace (DPO.world st)) + M).
Proof.
  intros HM. split.
  - intros dataloader st Hr Hcap A Hlt.
    pose proof Hr as (HA & _). fold A in HA.
    pose proof (Z.mul_div_le (Z.of_nat (length (dataloader e))) A HA) as Hle.
    destruct (kd_capped_run e M (dataloader e) 0 st Hr Hcap)
      as (st' & Hloop & _ & _ & Hcb & Hcs); fold A.
    + nia.
    + nia.
    + fold A in Hcb, Hcs. rewrite Z.div_0_l in Hcs by lia.
      eexists st', _. split; [exact Hloop|].
      unfold KD.epoch. rewrite Hloop. cbn [bind fst].
      split; [reflexivity|]. split; [reflexivity|]. split; lia.
  - intros dataloader st Hr Hcap A Hlt.
    pose proof Hr as (HA & _). fold A in HA.
    pose proof (Z.mul_div_le (Z.of_nat (length (dataloader e))) A HA) as Hle.
    destruct (dpo_capped_run e M (dataloader e) 0 st Hr Hcap)
      as (st' & Hloop & _ & _ & Hcb & Hcs); fold A.
    + nia.
    + nia.
    + fold A in Hcb, Hcs. rewrite Z.div_0_l in Hcs by lia.
      eexists st', _. split; [exact Hloop|].
      unfold DPO.epoch. rewrite Hloop. cbn [bind fst].
      split; [reflexivity|]. split; [reflexivity|]. split; lia.
Qed.

Lemma capped_epoch_counts_witness :
  (exists st',
     for_enumerate (KD.microbatch 0) 0 (Sample.kd_dataloader 0)
       (Sample.kd_state (Sample.recipe 0 0 (Some 3))) = Ok (st', true) /\
     count_backward (trace (KD.world st')) = 0 + 2 * 3 /\
     count_optimizer_steps (trace (KD.world st')) = 0 + 3) /\
  (exists st',
     for_enumerate (DPO.microbatch 0) 0 (Sample.dpo_dataloader 0)
       (Sample.dpo_state (Sample.recipe 0 0 (Some 3))) = Ok (st', true) /\
     count_backward (trace (DPO.world st')) = 0 + 2 * 3 /\
     count_optimizer_steps (trace (DPO.world st')) = 0 + 3).
Proof.
  destruct (capped_epoch_counts (T := Sample.torch) 0 3 ltac:(lia)) as (Hkd & Hdpo).
  assert (Hready : ready (Sample.recipe 0 0 (Some 3))).
  { unfold ready; cbn. repeat split; try lia; eexists; split; try reflexivity; lia. }
  split.
  - destruct (Hkd Sample.kd_dataloader (Sample.kd_state (Sample.recipe 0 0 (Some 3)))
                Hready eq_refl ltac:(vm_compute; reflexivity))
      as (st' & _ & Hloop & _ & _ & Hcb & Hcs).
    exists st'. repeat split; assumption.
  - destruct (Hdpo Sample.dpo_dataloader (Sample.dpo_state (Sample.recipe 0 0 (Some 3)))
                Hready eq_refl ltac:(vm_compute; reflexivity))
      as (st' & _ & Hloop & _ & _ & Hcb & Hcs).
    exists st'. repeat split; assumption.
Defined.

(** ** The checkpoint policy of the distillation recipe *)

Section Checkpoints.

Context {T : Torch}.

Lemma checkpoint_view_app (a b : list event) :
  checkpoint_view (a ++ b) = checkpoint_view a ++ checkpoint_view b.
Proof. apply flat_map_app. Qed.

Lemma kd_step_events_view (s : Recipe) (e : Z) (rc rk : Qc) (nt : Z) (g : Grad) (n : Z) :
  ready s -> save_every_n_steps s = Some n ->
  checkpoint_view (kd_step_events s e rc rk nt g)
  = ckpt_block n (total_epochs s - 1) (e, global_step s + 1).
Proof.
  intros (_ & _ & _ & (p & Hp & _) & (pre & Hpre)) Hn.
  unfold kd_step_events, kd_save_events, ckpt_block. rewrite Hn, Hp, Hpre.
  cbn [fst snd].
  destruct (_clip_grad_norm s), (_ mod _log_every_n_steps s =? 0), (_ && _);
    cbn; rewrite Z.add_simpl_r; reflexivity.
Qed.

Lemma epoch_steps_S (e g0 : Z) (m : nat) :
  epoch_steps e g0 (S m) = (e, g0 + 1) :: epoch_steps e (g0 + 1) m.
Proof.
  unfold epoch_steps. cbn [seq map]. f_equal.
  rewrite <- seq_shift, map_map. apply map_ext. intros k. f_equal. lia.
Qed.

Lemma epoch_steps_app (e g0 : Z) (k m : nat) :
  epoch_steps e g0 (k + m) = epoch_steps e g0 k ++ epoch_steps e (g0 + Z.of_nat k) m.
Proof.
  revert g0. induction k as [|k IH]; intros g0.
  - cbn [Nat.add]. now rewrite Z.add_0_r.
  - cbn [Nat.add]. rewrite !epoch_steps_S, IH. cbn [app]. do 3 f_equal. lia.
Qed.

(** The loop over the microbatches of an epoch, from any index: it
    returns, and the trace grows by the policy's blocks for the optimizer
    steps taken. *)
Lemma kd_loop_view (e n : Z) (bs : list KDBatch) (idx : Z) (st : KD.State) :
  ready (KD.self st) ->
  save_every_n_steps (KD.self st) = Some n ->
  exists st' stop m,
    for_enumerate (KD.microbatch e) idx bs st = Ok (st', stop) /\
    same_schedule (KD.self st) (KD.self st') /\
    epochs_run (KD.self st') = epochs_run (KD.self st) /\
    global_step (KD.self st') = global_step (KD.self st) + Z.of_nat m /\
    checkpoint_view (trace (KD.world st'))
    = checkpoint_view (trace (KD.world st))
      ++ flat_map (ckpt_block n (total_epochs (KD.self st) - 1))
                  (epoch_steps e (global_step (KD.self st)) m).
Proof.
  revert idx st. induction bs as [|b bs IH]; intros idx st Hr Hn.
  { exists st, false, 0%nat. cbn. rewrite app_nil_r, Z.add_0_r.
    repeat split. }
  destruct (kd_microbatch_spec e idx b st Hr) as (st2 & Hm & Hst2).
  assert (Hstep :
    exists k : nat,
      same_schedule (KD.self st) (KD.self st2) /\
      epochs_run (KD.self st2) = epochs_run (KD.self st) /\
      global_step (KD.self st2) = global_step (KD.self st) + Z.of_nat k /\
      checkpoint_view (trace (KD.world st2))
      = checkpoint_view (trace (KD.world st))
        ++ flat_map (ckpt_block n (total_epochs (KD.self st) - 1))
                    (epoch_steps e (global_step (KD.self st)) k)).
  { assert (Hacc : checkpoint_view (trace (KD.world (KD.accumulate b st)))
                   = checkpoint_view (trace (KD.world st))).
    { cbn [KD.accumulate KD.world backward emit set_grads trace].
      rewrite checkpoint_view_app. cbn. apply app_nil_r. }
    destruct (_ =? 0) in Hst2.
    - destruct (kd_optimizer_block_spec e (KD.accumulate b st) Hr)
        as (st' & Hb & Hself & _ & _ & _ & _ & _ & Htr).
      rewrite Hst2 in Hb. injection Hb as <-.
      exists 1%nat. rewrite Hself, Htr, checkpoint_view_app, Hacc.
      rewrite (kd_step_events_view _ _ _ _ _ _ n) by assumption.
      change (KD.self (KD.accumulate b st)) with (KD.self st).
      repeat split. cbn. now rewrite app_nil_r.
    - subst st2. exists 0%nat. rewrite Hacc.
      change (KD.self (KD.accumulate b st)) with (KD.self st).
      cbn. rewrite app_nil_r, Z.add_0_r. repeat split. }
  destruct Hstep as (k & Hsame & Hep & Hg & Hview).
  cbn [for_enumerate]. rewrite Hm. cbn [bind fst snd].
  destruct (opt_eqb _ _).
  - exists st2, true, k. split; [reflexivity|]. split; [exact Hsame|].
    split; [exact Hep|]. split; [exact Hg | exact Hview].
  - assert (Hr2 : ready (KD.self st2)) by (eapply same_schedule_ready; eassumption).
    pose proof Hsame as (_ & HT & _ & _ & Hsv & _).
    destruct (IH (idx + 1) st2 Hr2) as (st' & stop & m & Hloop & Hsame' & Hep' & Hg' & Hview').
    { now rewrite Hsv. }
    exists st', stop, (k + m)%nat. split; [exact Hloop|].
    split; [eapply same_schedule_trans; eassumption|].
    split; [congruence|]. split; [lia|].
    rewrite Hview', Hview, HT, Hg, <- app_assoc, <- flat_map_app. do 2 f_equal.
    symmetry. apply epoch_steps_app.
Qed.

End Checkpoints.

Section CheckpointsOfARun.

Context {T : Torch}.

Lemma map_seq_shift (g0 : Z) (k i m : nat) :
  map (fun j => g0 + Z.of_nat k + Z.of_nat j) (seq i m)
  = map (fun j => g0 + Z.of_nat j) (seq (k + i) m).
Proof.
  revert i. induction m as [|m IH]; intros i; [reflexivity|].
  cbn [seq map]. f_equal; [lia|].
  rewrite IH. now rewrite Nat.add_succ_r.
Qed.

Lemma consecutive_from_app (g0 : Z) (a b : list Z) :
  consecutive_from g0 a ->
  consecutive_from (g0 + Z.of_nat (length a)) b ->
  consecutive_from g0 (a ++ b).
Proof.
  unfold consecutive_from. intros Ha Hb.
  rewrite length_app, seq_app, map_app. rewrite <- Ha. f_equal.
  rewrite Hb at 1. rewrite (Nat.add_comm 1 (length a)). apply map_seq_shift.
Qed.

Lemma consecutive_epoch_steps (e g0 : Z) (m : nat) :
  consecutive_from g0 (map snd (epoch_steps e g0 m)) /\
  length (epoch_steps e g0 m) = m /\
  Forall (fun p => fst p = e) (epoch_steps e g0 m).
Proof.
  unfold consecutive_from, epoch_steps.
  rewrite !length_map, length_seq, map_map. cbn [snd]. repeat split.
  apply Forall_forall. intros p Hp. apply in_map_iff in Hp as (k & <- & _). reflexivity.
Qed.

Lemma kd_epoch_view (dataloader : Z -> list KDBatch) (e n : Z) (st : KD.State) :
  ready (KD.self st) ->
  save_every_n_steps (KD.self st) = Some n ->
  exists st' m,
    KD.epoch dataloader e st = Ok st' /\
    same_schedule (KD.self st) (KD.self st') /\
    global_step (KD.self st') = global_step (KD.self st) + Z.of_nat m /\
    checkpoint_view (trace (KD.world st'))
    = checkpoint_view (trace (KD.world st))
      ++ flat_map (ckpt_block n (total_epochs (KD.self st) - 1))
                  (epoch_steps e (global_step (KD.self st)) m).
Proof.
  intros Hr Hn.
  destruct (kd_loop_view e n (dataloader e) 0 st Hr Hn)
    as (st' & stop & m & Hloop & Hsame & _ & Hg & Hview).
  unfold KD.epoch. rewrite Hloop. cbn [bind fst].
  eexists _, m. split; [reflexivity|]. cbn [KD.self KD.world].
  split; [|split; [exact Hg | exact Hview]].
  eapply same_schedule_trans; [exact Hsame | apply same_schedule_set_epochs_run].
Qed.

Lemma kd_epochs_view (dataloader : Z -> list KDBatch) (n : Z) (es : list Z) (st : KD.State) :
  ready (KD.self st) ->
  save_every_n_steps (KD.self st) = Some n ->
  exists st' steps,
    for_each (KD.epoch dataloader) es st = Ok st' /\
    same_schedule (KD.self st) (KD.self st') /\
    global_step (KD.self st') = global_step (KD.self st) + Z.of_nat (length steps) /\
    consecutive_from (global_step (KD.self st)) (map snd steps) /\
    Forall (fun p => In (fst p) es) steps /\
    checkpoint_view (trace (KD.world st'))
    = checkpoint_view (trace (KD.world st))
      ++ flat_map (ckpt_block n (total_epochs (KD.self st) - 1)) steps.
Proof.
  revert st. induction es as [|e es IH]; intros st Hr Hn.
  { exists st, []. cbn. rewrite app_nil_r, Z.add_0_r.
    split; [reflexivity|]. split; [apply same_schedule_refl|].
    repeat split. constructor. }
  destruct (kd_epoch_view dataloader e n st Hr Hn) as (st1 & m & Hep & Hsame & Hg & Hview).
  assert (Hr1 : ready (KD.self st1)) by (eapply same_schedule_ready; eassumption).
  pose proof Hsame as (_ & HT & _ & _ & Hsv & _).
  destruct (IH st1 Hr1) as (st' & steps & Hloop & Hsame' & Hg' & Hcons & Hin & Hview').
  { now rewrite Hsv. }
  destruct (consecutive_epoch_steps e (global_step (KD.self st)) m) as (Hc1 & Hl1 & Hf1).
  exists st', (epoch_steps e (global_step (KD.self st)) m ++ steps).
  cbn [for_each]. rewrite Hep. cbn [bind].
  split; [exact Hloop|].
  split; [eapply same_schedule_trans; eassumption|].
  split; [rewrite length_app, Hl1; lia|].
  split.
  { rewrite map_app. apply consecutive_from_app; [exact Hc1|].
    rewrite length_map, Hl1, <- Hg. exact Hcons. }
  split.
  { apply Forall_app. split.
    - eapply Forall_impl; [|exact Hf1]. intros p ->. now left.
    - eapply Forall_impl; [|exact Hin]. intros p Hp. now right. }
  rewrite Hview', Hview, HT, flat_map_app, <- app_assoc. reflexivity.
Qed.

Lemma in_range (a b x : Z) : In x (range a b) -> a <= x < b.
Proof.
  unfold range. intros H. apply in_map_iff in H as (i & <- & Hi).
  apply in_seq in Hi. lia.
Qed.

Lemma setup_schedule_cadence (L : Z) (self r : Recipe) (d : bool) :
  setup_schedule L self = Ok (r, d) ->
  match save_every_n_steps self with
  | None =>
      save_every_n_steps r = _steps_per_epoch r /\
      checkpoint_dir_prefix r = Some prefix_epoch
  | Some k =>
      save_every_n_steps r = Some k /\
      checkpoint_dir_prefix r = Some prefix_step
  end.
Proof.
  unfold setup_schedule. intros H. inv_bind H. revert H.
  destruct (max_steps_per_epoch self) as [M|] eqn:HM;
    [cbn; rewrite HM; destruct (M <? x)|cbn; rewrite HM];
    (cbn; destruct (save_every_n_steps self) eqn:Hsv; cbn;
     destruct (_resume_from_checkpoint self); cbn; intros H;
     [ inv_bind H; injection H as <- <- | injection H as <- <-
     | inv_bind H; injection H as <- <- | injection H as <- <- ]);
    cbn; rewrite ?Hsv; split; reflexivity.
Qed.

Lemma kd_update_recipe_state_cadence ckpt (sw : Recipe * World) r w :
  KD._update_recipe_state ckpt sw = Ok (r, w) ->
  save_every_n_steps r = save_every_n_steps (fst sw).
Proof.
  unfold KD._update_recipe_state. intros H.
  inv_bind H. inv_bind H. inv_bind H. inv_bind H.
  destruct x1 as [r1 w1], x2 as [r2 w2].
  apply reconcile_seed_spec in Hx1 as (s & Hs & -> & _).
  apply reconcile_max_steps_spec in Hx2 as (m & Hm & -> & _).
  apply check_total_epochs_spec in H as (t & Ht & -> & _).
  reflexivity.
Qed.

End CheckpointsOfARun.

(** X16.  The distillation recipe with a schedule that is set and not
    degenerate ([ready]: a positive accumulation factor, a non-zero logging
    cadence, [save_every_n_steps] and [_steps_per_epoch] set and non-zero,
    the checkpoint prefix chosen; a precondition on the recipe, not a
    consequence of [setup]), with at least one epoch left to run.  [train]
    returns, and what it shows of its checkpointing is, for each optimizer
    step in turn, the step followed by an intermediate (not full)
    checkpoint exactly when [global_step % save_every_n_steps == 0] and the
    epoch is not the last one, and after all of them one full checkpoint
    for the last epoch.  The steps are numbered consecutively from the
    resumed [global_step], in epochs [epochs_run .. total_epochs - 1].
    [setup] sets the cadence to [_steps_per_epoch], with the [epoch]
    prefix, when the config leaves [save_every_n_steps] unset, and keeps
    the config value, with the [step] prefix, otherwise. *)
Theorem kd_checkpoint_policy {T : Torch} (dataloader : Z -> list KDBatch)
    (s : Recipe) (w : World) (n : Z) :
  ready s ->
  save_every_n_steps s = Some n ->
  epochs_run s < total_epochs s ->
  (exists r' w' steps,
     KD.train dataloader (s, w) = Ok (r', w') /\
     checkpoint_view (trace w')
     = checkpoint_view (trace w)
       ++ flat_map (ckpt_block n (total_epochs s - 1)) steps
       ++ [ObsSave (total_epochs s - 1) true] /\
     consecutive_from (global_step s) (map snd steps) /\
     Forall (fun p => epochs_run s <= fst p < total_epochs s) steps) /\
  (forall base dist L sw r w0 d,
     KD.setup base dist L sw = Ok (r, w0, d) ->
     match save_every_n_steps (fst sw) with
     | None =>
         save_every_n_steps r = _steps_per_epoch r /\
         checkpoint_dir_prefix r = Some prefix_epoch
     | Some k =>
         save_every_n_steps r = Some k /\
         checkpoint_dir_prefix r = Some prefix_step
     end).
Proof.
  intros Hr Hn Hlt. split.
  - set (st0 := {| KD.self := s; KD.world := w;
                   KD.running_class_loss := Q2Qc 0; KD.running_kd_loss := Q2Qc 0;
                   KD.num_tokens := 0 |}).
    destruct (kd_epochs_view dataloader n (range (epochs_run s) (total_epochs s)) st0 Hr Hn)
      as (st' & steps & Hloop & Hsame & Hg & Hcons & Hin & Hview).
    assert (Hr' : ready (KD.self st')) by (eapply same_schedule_ready; eassumption).
    pose proof Hr' as (_ & _ & _ & (p & Hp & Hp0) & (pre & Hpre)).
    unfold KD.train. cbn [fst snd]. fold st0. rewrite Hloop. cbn [bind].
    rewrite (loop_variable_range _ _ Hlt). cbn [bind].
    rewrite (kd_save_checkpoint_spec _ _ _ _ p pre) by assumption. cbn [bind].
    eexists _, _, steps. split; [reflexivity|].
    cbn [emit trace]. rewrite checkpoint_view_app, Hview. cbn [st0 KD.world KD.self].
    rewrite <- app_assoc. split; [reflexivity|]. split; [exact Hcons|].
    eapply Forall_impl; [|exact Hin]. intros q Hq. now apply in_range.
  - intros base dist L sw r w0 d H. unfold KD.setup in H.
    inv_bind H. inv_bind H. injection H as <- _ _. destruct x0 as [r' d']. cbn [fst].
    pose proof (setup_schedule_cadence _ _ _ _ Hx0) as Hc.
    assert (Hsv : save_every_n_steps (fst x) = save_every_n_steps (fst sw)).
    { revert Hx. unfold setup_resume.
      destruct (_resume_from_checkpoint (fst sw)).
      - destruct (negb _); [discriminate|]. destruct x.
        apply kd_update_recipe_state_cadence.
      - intros H. now injection H as <-. }
    now rewrite Hsv in Hc.
Qed.

Lemma kd_checkpoint_policy_witness :
  exists r' w' steps,
    KD.train Sample.kd_dataloader (Sample.recipe 0 0 None, Sample.world0) = Ok (r', w') /\
    checkpoint_view (trace w')
    = flat_map (ckpt_block 4 1) steps ++ [ObsSave 1 true] /\
    consecutive_from 0 (map snd steps).
Proof.
  destruct (kd_checkpoint_policy (T := Sample.torch) Sample.kd_dataloader
              (Sample.recipe 0 0 None) Sample.world0 4) as ((r' & w' & steps & H1 & H2 & H3 & _) & _).
  - unfold ready; cbn. repeat split; try lia; eexists; split; try reflexivity; lia.
  - reflexivity.
  - cbn; lia.
  - exists r', w', steps. split; [exact H1|]. split; [exact H2 | exact H3].
Defined.

(** Two epochs of eight microbatches, four steps each, with the default
    cadence of 4 and with a cadence of 2: one
    intermediate checkpoint at step 4, respectively three at steps 2, 4
    and 6; none at step 8, which falls in the last epoch; then the final
    one. *)
Example kd_two_epochs_checkpoints :
  let run (r : Recipe) :=
    match KD.train Sample.kd_dataloader (r, Sample.world0) with
    | Ok (_, w') => checkpoint_view (trace w')
    | Raise _ => []
    end in
  let with_cadence (n : Z) :=
    set_checkpoint_dir_prefix prefix_step
      (set_save_every_n_steps (Some n) (Sample.recipe 0 0 None)) in
  run (Sample.recipe 0 0 None)
  = [ObsStep 0 1; ObsStep 0 2; ObsStep 0 3; ObsStep 0 4; ObsSave 0 false;
     ObsStep 1 5; ObsStep 1 6; ObsStep 1 7; ObsStep 1 8; ObsSave 1 true] /\
  run (with_cadence 2)
  = [ObsStep 0 1; ObsStep 0 2; ObsSave 0 false; ObsStep 0 3; ObsStep 0 4;
     ObsSave 0 false;
     ObsStep 1 5; ObsStep 1 6; ObsStep 1 7; ObsStep 1 8; ObsSave 1 true].
Proof. split; vm_compute; reflexivity. Qed.

(** C3.  A fresh run of the distillation recipe with two microbatches per
    optimizer step over a data source of one microbatch per epoch, two
    epochs.  [setup] returns with [_steps_per_epoch = 0].  The loop over
    the epochs runs to its end: both microbatches go through backward, no
    optimizer step is taken and no checkpoint is due.  The final
    [save_checkpoint(epoch=1, full_tensors=True)] then raises
    [ZeroDivisionError] on [global_step % _steps_per_epoch] before it
    reaches the checkpoint client, and so does [train]: the final
    checkpoint, which must always be emitted, is not.  On the same input
    the preference recipe, whose [save_checkpoint] does not take that
    modulo, emits it. *)
Theorem kd_final_checkpoint_lost_on_short_epoch :
  let cfg := Sample.cfg false None None in
  let progress :=
    {| tp_seed := 1; tp_epochs_run := 2; tp_total_epochs := 2;
       tp_max_steps_per_epoch := None |} in
  match KD.setup (T := Sample.torch) Sample.ckpt Sample.ckpt 1
          (__init__ cfg Sample.world0) with
  | Ok (r, w, _) =>
      _steps_per_epoch r = Some 0 /\
      match for_each (KD.epoch (fun _ => [Sample.kd_batch 1]))
              (range (epochs_run r) (total_epochs r))
              {| KD.self := r; KD.world := w;
                 KD.running_class_loss := Q2Qc 0; KD.running_kd_loss := Q2Qc 0;
                 KD.num_tokens := 0 |} with
      | Ok st =>
          epochs_run (KD.self st) = 2 /\
          count_backward (trace (KD.world st)) = 2 /\
          count_optimizer_steps (trace (KD.world st)) = 0 /\
          saved_progress (trace (KD.world st)) = [] /\
          KD.save_checkpoint 1 true (KD.self st, KD.world st) = Raise ZeroDivisionError
      | Raise _ => False
      end /\
      KD.train (fun _ => [Sample.kd_batch 1]) (r, w) = Raise ZeroDivisionError
  | Raise _ => False
  end /\
  match DPO.setup (T := Sample.torch) Sample.ckpt Sample.ckpt 1
          (__init__ cfg Sample.world0) with
  | Ok (r, w, _) =>
      snapshots_of (DPO.train (fun _ => [Sample.dpo_batch 1]) (r, w))
      = Some [(progress, true)]
  | Raise _ => False
  end.
Proof.
  split; vm_compute; repeat split; reflexivity.
Qed.

(** ** The preference forward pass and its accuracy metric *)

Section Accuracy.

Context {T : Torch}.

Lemma Z2Qc_add (a b : Z) : Z2Qc (a + b) = (Z2Qc a + Z2Qc b)%Qc.
Proof.
  unfold Z2Qc. apply Qc_is_canon. cbn [this Qcplus Q2Qc].
  now rewrite !Qred_correct, inject_Z_plus.
Qed.

Lemma Qc_gtb_spec (a b : Qc) : Qc_gtb a b = true <-> (b < a)%Qc.
Proof.
  unfold Qc_gtb, Qclt. rewrite negb_true_iff. split.
  - intros H. apply Qnot_le_lt. intros Hle. apply Qle_bool_iff in Hle. congruence.
  - intros H. destruct (Qle_bool a b) eqn:E; [|reflexivity].
    apply Qle_bool_iff in E. exfalso. exact (Qlt_not_le _ _ H E).
Qed.

(** The number of pairs whose chosen reward exceeds the rejected one. *)
Lemma reward_accuracies_sum (chosen_rewards rejected_rewards : list Qc) :
  Qc_sum (DPO.reward_accuracies chosen_rewards rejected_rewards)
  = Z2Qc (Z.of_nat (length (filter (fun p => Qc_gtb (fst p) (snd p))
                                   (combine chosen_rewards rejected_rewards)))).
Proof.
  unfold DPO.reward_accuracies.
  induction (combine chosen_rewards rejected_rewards) as [|p l IH]; [reflexivity|].
  cbn [map filter]. rewrite Qc_sum_cons, IH.
  destruct (Qc_gtb (fst p) (snd p)).
  - cbn [length]. rewrite Nat2Z.inj_succ, <- Z.add_1_l, Z2Qc_add. reflexivity.
  - apply Qcplus_0_l.
Qed.

Lemma mean_reward_accuracies (chosen_rewards rejected_rewards : list Qc) :
  mean (DPO.reward_accuracies chosen_rewards rejected_rewards)
  = (Z2Qc (Z.of_nat (length (filter (fun p => Qc_gtb (fst p) (snd p))
                                    (combine chosen_rewards rejected_rewards))))
     / Z2Qc (Z.of_nat (length (combine chosen_rewards rejected_rewards))))%Qc.
Proof.
  unfold mean. rewrite reward_accuracies_sum.
  unfold DPO.reward_accuracies. now rewrite length_map.
Qed.

Lemma dpo_log_fires (e : Z) (f : DPO.Forwarded) (st : DPO.State) :
  ready (DPO.self st) ->
  (global_step (DPO.self st) + 1) mod _log_every_n_steps (DPO.self st) = 0 ->
  exists st',
    DPO.optimizer_block e f st = Ok st' /\
    In (EvLogDict (global_step (DPO.self st) + 1)
          (DPO.log_dict (DPO.self st) (global_step (DPO.self st) + 1)
             (DPO.num_tokens st) (DPO.running_loss st) f))
       (trace (DPO.world st')).
Proof.
  intros Hr Hlog.
  destruct (dpo_optimizer_block_spec e f st Hr) as (st' & Hb & _ & _ & _ & _ & _ & Htr).
  exists st'. split; [exact Hb|]. rewrite Htr. apply in_or_app. right.
  unfold dpo_step_events. rewrite Hlog. cbn [Z.eqb].
  apply in_or_app. right. apply in_or_app. right. apply in_or_app. right.
  apply in_or_app. left. now left.
Qed.

End Accuracy.

(** C5.  A batch made of [k] chosen sequences followed by [k] rejected
    ones, labels alike.  The policy pass of a loop iteration splits logits
    and log-probabilities at [k], into the outputs for the chosen sequences
    and the outputs for the rejected ones.  The reference pass is the same
    model (same weights) on the same concatenated input, with adapters
    disabled and gradient tracking off, split in the same way.  When the
    step is logged, ["rewards/accuracies"] is the number of pairs with
    [chosen_reward > rejected_reward] divided by the number of pairs; for
    rewards [[2, 1]] and [[0, 3]] that is [1/2]. *)
Theorem dpo_split_reference_accuracy {T : Torch} (batch : DPOBatch) (w : World)
    (chosen rejected chosen_labels rejected_labels : list (list Z)) :
  concatenated_input_ids batch = chosen ++ rejected ->
  concatenated_labels batch = chosen_labels ++ rejected_labels ->
  length chosen = length rejected ->
  length chosen_labels = length chosen ->
  let fw := fst (DPO.forward_passes batch w) in
  let w' := snd (DPO.forward_passes batch w) in
  let policy := DPO.policy_chosen_rejected_outputs fw in
  let reference := DPO.reference_chosen_rejected_outputs fw in
  let model := model_forward (weights w) in
  let logps adapters ids labels :=
    map (fun p => get_log_probs (model adapters (fst p)) (snd p)) (combine ids labels) in
  let pairs := combine (DPO.chosen_rewards fw) (DPO.rejected_rewards fw) in
  let accuracy :=
    (Z2Qc (Z.of_nat (length (filter (fun p => Qc_gtb (fst p) (snd p)) pairs)))
     / Z2Qc (Z.of_nat (length pairs)))%Qc in
  (DPO.chosen_logits policy = map (model (adapter_enabled w)) chosen /\
   DPO.rejected_logits policy = map (model (adapter_enabled w)) rejected /\
   DPO.chosen_logps policy = logps (adapter_enabled w) chosen chosen_labels /\
   DPO.rejected_logps policy = logps (adapter_enabled w) rejected rejected_labels) /\
  (DPO.chosen_logits reference = map (model false) chosen /\
   DPO.rejected_logits reference = map (model false) rejected /\
   DPO.chosen_logps reference = logps false chosen chosen_labels /\
   DPO.rejected_logps reference = logps false rejected rejected_labels /\
   trace w' = trace w ++
              [EvForward (adapter_enabled w) (grad_enabled w) (chosen ++ rejected);
               EvForward false false (chosen ++ rejected)] /\
   weights w' = weights w /\ grads w' = grads w) /\
  (forall e st,
     ready (DPO.self st) ->
     (global_step (DPO.self st) + 1) mod _log_every_n_steps (DPO.self st) = 0 ->
     exists st' log_dict,
       DPO.optimizer_block e fw st = Ok st' /\
       In (EvLogDict (global_step (DPO.self st) + 1) log_dict) (trace (DPO.world st')) /\
       In ("rewards/accuracies"%string, Finite accuracy) log_dict) /\
  mean (DPO.reward_accuracies [Z2Qc 2; Z2Qc 1] [Z2Qc 0; Z2Qc 3]) = Q2Qc (1 # 2).
Proof.
  intros Hids Hlab Hlen Hlab_len fw w' policy reference model logps pairs accuracy.
  pose proof (forward_passes_spec batch w) as (Hp & Href & _ & Htr & HW & Hg & _).
  cbn zeta in Hp, Href, Htr, HW, Hg. fold fw w' in Hp, Href, Htr, HW, Hg.
  split; [|split; [|split]].
  - unfold policy. rewrite Hp.
    exact (concatenated_forward_even batch w _ _ _ _ Hids Hlab Hlen Hlab_len).
  - unfold reference. rewrite Href.
    pose proof (concatenated_forward_even batch
                  (set_adapter_enabled false (set_grad_enabled false w))
                  _ _ _ _ Hids Hlab Hlen Hlab_len) as (H1 & H2 & H3 & H4).
    rewrite <- Hids. repeat split; assumption.
  - intros e st Hr Hlog.
    destruct (dpo_log_fires e fw st Hr Hlog) as (st' & Hb & Hin).
    exists st', (DPO.log_dict (DPO.self st) (global_step (DPO.self st) + 1)
                   (DPO.num_tokens st) (DPO.running_loss st) fw).
    split; [exact Hb|]. split; [exact Hin|].
    unfold DPO.log_dict, accuracy, pairs. rewrite <- mean_reward_accuracies.
    apply in_or_app. left. right. right. right. right. right. now left.
  - apply Qc_is_canon. vm_compute. reflexivity.
Qed.

Lemma dpo_split_reference_accuracy_witness :
  let fw := fst (DPO.forward_passes (T := Sample.torch) (Sample.dpo_batch 1) Sample.world0) in
  DPO.chosen_logits (DPO.policy_chosen_rejected_outputs fw) = [10; 20] /\
  DPO.rejected_logits (DPO.policy_chosen_rejected_outputs fw) = [30; 40] /\
  DPO.chosen_logits (DPO.reference_chosen_rejected_outputs fw) = [10; 20] /\
  DPO.rejected_logits (DPO.reference_chosen_rejected_outputs fw) = [30; 40].
Proof.
  pose proof (dpo_split_reference_accuracy (T := Sample.torch)
                (Sample.dpo_batch 1) Sample.world0
                [[1; 1]; [2; 1]] [[3; 1]; [4; 1]] [[1; 1]; [1; 2]] [[1; 3]; [1; 4]]
                eq_refl eq_refl eq_refl eq_refl)
    as ((H1 & H2 & _) & (H3 & H4 & _) & _).
  repeat split; assumption.
Defined.

(** ** Whole windows, and what is left after them: distillation *)

Section KDCarryOver.

Context {T : Torch}.

Lemma kd_window_aligned (e q : Z) (window : list KDBatch) (st : KD.State) :
  ready (KD.self st) ->
  Z.of_nat (length window) = _gradient_accumulation_steps (KD.self st) ->
  max_steps_per_epoch (KD.self st) <> Some q ->
  exists st2,
    KD.optimizer_block e (kd_accumulate_all window st) = Ok st2 /\
    for_enumerate (KD.microbatch e) (q * _gradient_accumulation_steps (KD.self st)) window st
    = Ok (st2, opt_eqb (Some (q + 1)) (max_steps_per_epoch (KD.self st))).
Proof.
  intros Hr Hlen Hcap. pose proof Hr as (HA & _).
  set (A := _gradient_accumulation_steps (KD.self st)) in *.
  destruct (exists_last (l := window)) as (xs & b & Hw).
  { intros ->. cbn in Hlen. lia. }
  assert (Hxs : Z.of_nat (length xs) = A - 1).
  { rewrite Hw, length_app in Hlen. cbn [length] in Hlen. lia. }
  destruct (kd_window_run e xs b (q * A) st Hr) as (st2 & Hblock & Hloop).
  - intros j Hj. fold A. rewrite Hxs in Hj.
    replace (q * A + j + 1) with (q * A + (j + 1)) by lia.
    rewrite aligned_mod, aligned_div by lia. split; [lia | exact Hcap].
  - fold A. rewrite Hxs.
    replace (q * A + (A - 1) + 1) with ((q + 1) * A + 0) by lia.
    apply aligned_mod; lia.
  - rewrite <- Hw in Hblock, Hloop. exists st2. split; [exact Hblock|].
    rewrite Hloop. fold A. rewrite Hxs.
    replace (q * A + (A - 1) + 1) with ((q + 1) * A + 0) by lia.
    rewrite aligned_div by lia. reflexivity.
Qed.

(** The loop never fails on a recipe that is [ready], and only adds to the
    trace. *)
Lemma kd_loop_total (e : Z) (bs : list KDBatch) (idx : Z) (st : KD.State) :
  ready (KD.self st) ->
  exists st' stop post,
    for_enumerate (KD.microbatch e) idx bs st = Ok (st', stop) /\
    trace (KD.world st') = trace (KD.world st) ++ post.
Proof.
  revert idx st. induction bs as [|b bs IH]; intros idx st Hr.
  { exists st, false, []. now rewrite app_nil_r. }
  destruct (kd_microbatch_spec e idx b st Hr) as (st2 & Hm & Hst2).
  assert (H2 : ready (KD.self st2) /\
               exists post, trace (KD.world st2) = trace (KD.world st) ++ post).
  { destruct (_ =? 0) in Hst2.
    - destruct (kd_optimizer_block_spec e (KD.accumulate b st) Hr)
        as (st' & Hb & Hself & _ & _ & _ & _ & _ & Htr).
      rewrite Hst2 in Hb. injection Hb as <-. rewrite Hself. split; [exact Hr|].
      rewrite Htr. cbn [KD.accumulate KD.world backward emit set_grads trace].
      rewrite <- app_assoc. eauto.
    - subst st2. split; [exact Hr|].
      cbn [KD.accumulate KD.world backward emit set_grads trace]. eauto. }
  destruct H2 as (Hr2 & post2 & Hpost2).
  cbn [for_enumerate]. rewrite Hm. cbn [bind fst snd].
  destruct (opt_eqb _ _).
  - exists st2, true, post2. split; [reflexivity | exact Hpost2].
  - destruct (IH (idx + 1) st2 Hr2) as (st' & stop & post & Hloop & Hpost).
    exists st', stop, (post2 ++ post). split; [exact Hloop|].
    now rewrite Hpost, Hpost2, <- app_assoc.
Qed.

(** [q] whole windows from window number [q0], the cap lying beyond
    them: the loop goes through without [break]; if there was at least
    one window, the running state is reset at the end. *)
Lemma kd_full_windows (e : Z) (q : nat) (q0 : Z) (full : list KDBatch) (st : KD.State) :
  ready (KD.self st) ->
  Z.of_nat (length full) = Z.of_nat q * _gradient_accumulation_steps (KD.self st) ->
  (forall m, max_steps_per_epoch (KD.self st) = Some m -> q0 + Z.of_nat q < m) ->
  0 <= q0 ->
  exists st',
    for_enumerate (KD.microbatch e) (q0 * _gradient_accumulation_steps (KD.self st)) full st
    = Ok (st', false) /\
    same_schedule (KD.self st) (KD.self st') /\
    epochs_run (KD.self st') = epochs_run (KD.self st) /\
    (q = 0%nat -> st' = st) /\
    (q <> 0%nat ->
       KD.running_class_loss st' = Q2Qc 0 /\ KD.running_kd_loss st' = Q2Qc 0 /\
       KD.num_tokens st' = 0 /\ grads (KD.world st') = grad_none).
Proof.
  revert q0 full st. induction q as [|q IH]; intros q0 full st Hr Hlen Hcap Hq0.
  { destruct full; [|cbn in Hlen; lia]. exists st. cbn.
    split; [reflexivity|]. split; [apply same_schedule_refl|].
    split; [reflexivity|]. split; [reflexivity | congruence]. }
  pose proof Hr as (HA & _).
  set (A := _gradient_accumulation_steps (KD.self st)) in *.
  rewrite <- (firstn_skipn (Z.to_nat A) full).
  set (w := firstn (Z.to_nat A) full). set (rest := skipn (Z.to_nat A) full).
  assert (Hw : Z.of_nat (length w) = A).
  { unfold w. rewrite length_firstn. nia. }
  assert (Hrest : Z.of_nat (length rest) = Z.of_nat q * A).
  { unfold rest. rewrite length_skipn. nia. }
  destruct (kd_window_aligned e q0 w st Hr Hw) as (st2 & Hblock & Hloop).
  { intros Hm. apply Hcap in Hm. lia. }
  fold A in Hloop.
  assert (Hflag : opt_eqb (Some (q0 + 1)) (max_steps_per_epoch (KD.self st)) = false).
  { destruct (max_steps_per_epoch (KD.self st)) as [m|] eqn:Hm; [|reflexivity].
    cbn. apply Z.eqb_neq. specialize (Hcap m eq_refl). lia. }
  rewrite Hflag in Hloop.
  assert (Hr_acc : ready (KD.self (kd_accumulate_all w st)))
    by (now rewrite kd_accumulate_all_self).
  destruct (kd_optimizer_block_spec e (kd_accumulate_all w st) Hr_acc)
    as (st2' & Hb & Hself & Hrc & Hrk & Hnt & Hg & _).
  rewrite Hblock in Hb. injection Hb as <-.
  rewrite kd_accumulate_all_self in Hself.
  assert (Hsame2 : same_schedule (KD.self st) (KD.self st2))
    by (rewrite Hself; apply same_schedule_set_global_step).
  assert (Hr2 : ready (KD.self st2)) by (eapply same_schedule_ready; eassumption).
  pose proof Hsame2 as (_ & _ & HM2 & HA2 & _).
  destruct (IH (q0 + 1) rest st2 Hr2) as (st' & Hloop' & Hsame' & Hep' & Hzero & Hpos).
  { rewrite HA2. exact Hrest. }
  { intros m Hm. rewrite HM2 in Hm. apply Hcap in Hm. lia. }
  { lia. }
  rewrite HA2 in Hloop'. fold A in Hloop'.
  exists st'. rewrite for_enumerate_app, Hloop.
  replace (q0 * A + Z.of_nat (length w)) with ((q0 + 1) * A) by lia.
  split; [exact Hloop'|].
  split; [eapply same_schedule_trans; eassumption|].
  split; [rewrite Hep', Hself; reflexivity|].
  split; [discriminate|]. intros _.
  destruct q as [|q'].
  - rewrite (Hzero eq_refl). repeat split; assumption.
  - apply Hpos. discriminate.
Qed.

End KDCarryOver.

Section KDCarryOverEpoch.

Context {T : Torch}.

Lemma kd_backward_grad_same (s s' : Recipe) (W : Weights) :
  same_schedule s s' ->
  map (kd_backward_grad s' W) = map (kd_backward_grad s W).
Proof.
  intros (_ & _ & _ & _ & _ & _ & _ & Hk & _).
  unfold kd_backward_grad. now rewrite Hk.
Qed.

(** An epoch of [q] whole windows followed by an incomplete one, then the
    first window of the next epoch. *)
Lemma kd_carry_over (dataloader : Z -> list KDBatch) (e q : Z)
    (full tail window rest : list KDBatch) (st : KD.State) :
  0 <= q ->
  ready (KD.self st) ->
  kd_clean st ->
  let A := _gradient_accumulation_steps (KD.self st) in
  dataloader e = full ++ tail ->
  Z.of_nat (length full) = q * A ->
  0 < Z.of_nat (length tail) < A ->
  (forall m, max_steps_per_epoch (KD.self st) = Some m -> q < m) ->
  dataloader (e + 1) = window ++ rest ->
  Z.of_nat (length window) = A ->
  exists st1,
    KD.epoch dataloader e st = Ok st1 /\
    let s := KD.self st1 in
    let W := weights (KD.world st1) in
    let g := fold_left grad_add (map (kd_backward_grad s W) tail) grad_none in
    KD.running_class_loss st1 = kd_weighted_loss fst W tail /\
    KD.running_kd_loss st1 = kd_weighted_loss snd W tail /\
    KD.num_tokens st1 = kd_tokens_total tail /\
    grads (KD.world st1) = g /\
    (exists before,
       trace (KD.world st1)
       = before ++ map (fun b => EvBackward (kd_backward_grad s W b)) tail) /\
    exists st2 after,
      KD.epoch dataloader (e + 1) st1 = Ok st2 /\
      trace (KD.world st2)
      = trace (KD.world st1)
        ++ map (fun b => EvBackward (kd_backward_grad s W b)) window
        ++ kd_step_events s (e + 1)
             (kd_weighted_loss fst W tail + kd_weighted_loss fst W window)%Qc
             (kd_weighted_loss snd W tail + kd_weighted_loss snd W window)%Qc
             (kd_tokens_total tail + kd_tokens_total window)
             (fold_left grad_add (map (kd_backward_grad s W) window) g)
        ++ after.
Proof.
  intros Hq Hr Hclean A Hdl Hfull Htail Hcap Hdl2 Hwin.
  pose proof Hr as (HA & _). fold A in HA.
  (* the whole windows *)
  destruct (kd_full_windows e (Z.to_nat q) 0 full st Hr) as (stf & Hloopf & Hsamef & Hepf & Hzero & Hpos).
  { fold A. lia. }
  { intros m Hm. apply Hcap in Hm. lia. }
  { lia. }
  assert (Hcleanf : kd_clean stf).
  { destruct (Nat.eq_dec (Z.to_nat q) 0) as [E|E].
    - now rewrite (Hzero E).
    - exact (Hpos E). }
  assert (Hrf : ready (KD.self stf)) by (eapply same_schedule_ready; eassumption).
  pose proof Hsamef as (_ & _ & HMf & HAf & _).
  (* the incomplete window *)
  assert (Hlooptail :
    for_enumerate (KD.microbatch e) (q * A) tail stf = Ok (kd_accumulate_all tail stf, false)).
  { apply kd_accumulate_run; [exact Hrf|].
    intros j Hj. rewrite HAf, HMf. fold A.
    replace (q * A + j + 1) with (q * A + (j + 1)) by lia.
    rewrite aligned_mod, aligned_div by lia. split; [lia|].
    intros Hm. apply Hcap in Hm. lia. }
  pose proof (kd_accumulate_all_spec tail stf) as (Hs & HW & Htr & Hg & Hc & Hk & Hn).
  cbn zeta in Hs, HW, Htr, Hg, Hc, Hk, Hn.
  destruct Hcleanf as (Hc0 & Hk0 & Hn0 & Hg0).
  rewrite Hc0, Qcplus_0_l in Hc. rewrite Hk0, Qcplus_0_l in Hk.
  rewrite Hn0, Z.add_0_l in Hn. rewrite Hg0 in Hg.
  set (stT := kd_accumulate_all tail stf) in *.
  set (st1 := {| KD.self := set_epochs_run (epochs_run (KD.self stT) + 1) (KD.self stT);
                 KD.world := KD.world stT;
                 KD.running_class_loss := KD.running_class_loss stT;
                 KD.running_kd_loss := KD.running_kd_loss stT;
                 KD.num_tokens := KD.num_tokens stT |}).
  assert (Hepoch : KD.epoch dataloader e st = Ok st1).
  { unfold KD.epoch. rewrite Hdl, for_enumerate_app. cbn [Z.mul] in Hloopf.
    rewrite Hloopf. cbn [Z.add]. rewrite Hfull, Hlooptail. reflexivity. }
  assert (Hsame1 : same_schedule (KD.self stf) (KD.self st1)).
  { cbn [st1 KD.self]. rewrite Hs. apply same_schedule_set_epochs_run. }
  assert (Hr1 : ready (KD.self st1)) by (eapply same_schedule_ready; eassumption).
  pose proof Hsame1 as (_ & _ & HM1 & HA1 & _).
  pose proof (kd_backward_grad_same _ _ (weights (KD.world stf)) Hsame1) as Hgrad.
  exists st1. split; [exact Hepoch|]. cbn zeta.
  change (weights (KD.world st1)) with (weights (KD.world stT)). rewrite HW.
  change (KD.running_class_loss st1) with (KD.running_class_loss stT).
  change (KD.running_kd_loss st1) with (KD.running_kd_loss stT).
  change (KD.num_tokens st1) with (KD.num_tokens stT).
  change (KD.world st1) with (KD.world stT).
  assert (Hmapgrad : forall l,
            map (fun b => EvBackward (kd_backward_grad (KD.self st1) (weights (KD.world stf)) b)) l
            = map (fun b => EvBackward (kd_backward_grad (KD.self stf) (weights (KD.world stf)) b)) l).
  { intros l. rewrite <- (map_map (kd_backward_grad (KD.self st1) (weights (KD.world stf))) EvBackward l).
    rewrite Hgrad. apply map_map. }
  rewrite Hgrad, !Hmapgrad.
  split; [exact Hc|]. split; [exact Hk|]. split; [exact Hn|]. split; [exact Hg|].
  split; [eexists; exact Htr|].
  (* the next epoch *)
  destruct (kd_window_aligned (e + 1) 0 window st1 Hr1) as (st2 & Hblock & Hloop2).
  { rewrite HA1, HAf. exact Hwin. }
  { rewrite HM1, HMf. intros Hm. apply Hcap in Hm. lia. }
  cbn [Z.mul] in Hloop2.
  pose proof (kd_accumulate_all_spec window st1) as (Hs2 & HW2 & Htr2 & Hg2 & Hc2 & Hk2 & Hn2).
  cbn zeta in Hs2, HW2, Htr2, Hg2, Hc2, Hk2, Hn2.
  destruct (kd_optimizer_block_spec (e + 1) (kd_accumulate_all window st1))
    as (st2' & Hb & Hself2 & _ & _ & _ & _ & _ & Htrb).
  { now rewrite Hs2. }
  rewrite Hblock in Hb. injection Hb as <-.
  assert (Htrace2 :
    trace (KD.world st2)
    = trace (KD.world stT)
      ++ map (fun b => EvBackward (kd_backward_grad (KD.self stf) (weights (KD.world stf)) b)) window
      ++ kd_step_events (KD.self st1) (e + 1)
           (kd_weighted_loss fst (weights (KD.world stf)) tail
            + kd_weighted_loss fst (weights (KD.world stf)) window)%Qc
           (kd_weighted_loss snd (weights (KD.world stf)) tail
            + kd_weighted_loss snd (weights (KD.world stf)) window)%Qc
           (kd_tokens_total tail + kd_tokens_total window)
           (fold_left grad_add (map (kd_backward_grad (KD.self stf) (weights (KD.world stf))) window)
              (fold_left grad_add
                 (map (kd_backward_grad (KD.self stf) (weights (KD.world stf))) tail) grad_none))).
  { rewrite Htrb, Htr2, Hs2, Hc2, Hk2, Hn2, Hg2.
    change (weights (KD.world st1)) with (weights (KD.world stT)). rewrite HW.
    change (KD.running_class_loss st1) with (KD.running_class_loss stT).
    change (KD.running_kd_loss st1) with (KD.running_kd_loss stT).
    change (KD.num_tokens st1) with (KD.num_tokens stT).
    change (KD.world st1) with (KD.world stT).
    rewrite Hc, Hk, Hn, Hg, Hgrad, Hmapgrad, <- app_assoc. reflexivity. }
  assert (Hr2 : ready (KD.self st2)).
  { rewrite Hself2, Hs2. exact Hr1. }
  unfold KD.epoch. rewrite Hdl2, for_enumerate_app, Hloop2.
  destruct (opt_eqb (Some (0 + 1)) (max_steps_per_epoch (KD.self st1))).
  - cbn [bind fst]. eexists _, []. split; [reflexivity|].
    cbn [KD.world]. rewrite Htrace2, app_nil_r. reflexivity.
  - destruct (kd_loop_total (e + 1) rest (0 + Z.of_nat (length window)) st2 Hr2)
      as (st3 & stop & post & Hloop3 & Hpost).
    rewrite Hloop3. cbn [bind fst]. eexists _, post. split; [reflexivity|].
    cbn [KD.world]. rewrite Hpost, Htrace2, <- !app_assoc. reflexivity.
Qed.

End KDCarryOverEpoch.

(** ** Whole windows, and what is left after them: preference recipe *)

Section DPOCarryOver.

Context {T : Torch}.

Lemma forward_passes_ext (b : DPOBatch) (w1 w2 : World) :
  weights w1 = weights w2 -> adapter_enabled w1 = adapter_enabled w2 ->
  fst (DPO.forward_passes b w1) = fst (DPO.forward_passes b w2).
Proof.
  destruct w1, w2. cbn [weights adapter_enabled]. intros -> ->. reflexivity.
Qed.

Lemma dpo_accumulate_one (b : DPOBatch) (st : DPO.State) :
  adapter_enabled (DPO.world st) = true ->
  let st' := snd (DPO.accumulate b st) in
  let s := DPO.self st in
  let w := DPO.world st in
  DPO.self st' = s /\
  weights (DPO.world st') = weights w /\
  adapter_enabled (DPO.world st') = true /\
  grad_enabled (DPO.world st') = grad_enabled w /\
  trace (DPO.world st') = trace w ++ dpo_accumulate_events s w b /\
  grads (DPO.world st') = grad_add (grads w) (dpo_backward_grad s (weights w) b) /\
  DPO.running_loss st' = (DPO.running_loss st + dpo_running_term s w b)%Qc /\
  DPO.num_tokens st' = DPO.num_tokens st + DPO.numel (concatenated_input_ids b).
Proof.
  intros Had. cbn zeta.
  pose proof (forward_passes_spec b (DPO.world st)) as (_ & _ & _ & Htr & HW & Hg & Ha & Hge & _).
  cbn zeta in Htr, HW, Hg, Ha, Hge.
  cbn [DPO.accumulate snd DPO.self DPO.world DPO.running_loss DPO.num_tokens
       backward emit set_grads weights adapter_enabled grad_enabled trace grads].
  rewrite Htr, HW, Hg, Ha, Hge, Had. unfold dpo_accumulate_events.
  rewrite <- app_assoc. repeat split.
Qed.

Lemma dpo_accumulate_all_spec (xs : list DPOBatch) (st : DPO.State) :
  adapter_enabled (DPO.world st) = true ->
  let st' := dpo_accumulate_all xs st in
  let s := DPO.self st in
  let w := DPO.world st in
  DPO.self st' = s /\
  weights (DPO.world st') = weights w /\
  adapter_enabled (DPO.world st') = true /\
  grad_enabled (DPO.world st') = grad_enabled w /\
  trace (DPO.world st') = trace w ++ flat_map (dpo_accumulate_events s w) xs /\
  grads (DPO.world st')
  = fold_left grad_add (map (dpo_backward_grad s (weights w)) xs) (grads w) /\
  DPO.running_loss st' = (DPO.running_loss st + dpo_running_total s w xs)%Qc /\
  DPO.num_tokens st' = DPO.num_tokens st + dpo_tokens_total xs.
Proof.
  revert st. induction xs as [|x xs IH]; intros st Had.
  - cbn. rewrite app_nil_r. repeat split; try assumption; ring.
  - destruct (dpo_accumulate_one x st Had) as (Hs1 & HW1 & Ha1 & Hge1 & Htr1 & Hg1 & Hr1 & Hn1).
    cbn zeta in Hs1, HW1, Ha1, Hge1, Htr1, Hg1, Hr1, Hn1.
    destruct (IH (snd (DPO.accumulate x st)) Ha1) as (Hs & HW & Ha & Hge & Htr & Hg & Hr & Hn).
    cbn zeta in Hs, HW, Ha, Hge, Htr, Hg, Hr, Hn.
    cbn zeta. change (dpo_accumulate_all (x :: xs) st)
      with (dpo_accumulate_all xs (snd (DPO.accumulate x st))).
    assert (Hterm : forall b,
              dpo_running_term (DPO.self (snd (DPO.accumulate x st)))
                               (DPO.world (snd (DPO.accumulate x st))) b
              = dpo_running_term (DPO.self st) (DPO.world st) b).
    { intros b. unfold dpo_running_term. rewrite Hs1.
      rewrite (forward_passes_ext b _ (DPO.world st)); [reflexivity | exact HW1 | congruence]. }
    assert (Hev : forall b,
              dpo_accumulate_events (DPO.self (snd (DPO.accumulate x st)))
                                    (DPO.world (snd (DPO.accumulate x st))) b
              = dpo_accumulate_events (DPO.self st) (DPO.world st) b).
    { intros b. unfold dpo_accumulate_events. now rewrite Hs1, HW1, Hge1. }
    split; [congruence|]. split; [congruence|]. split; [exact Ha|].
    split; [congruence|].
    split.
    { rewrite Htr, Htr1. cbn [flat_map].
      rewrite <- app_assoc, (flat_map_ext _ _ Hev). reflexivity. }
    split.
    { rewrite Hg, Hg1, Hs1, HW1. reflexivity. }
    split.
    { rewrite Hr, Hr1. unfold dpo_running_total. cbn [map].
      rewrite Qc_sum_cons, (map_ext _ _ Hterm). ring. }
    rewrite Hn, Hn1. unfold dpo_tokens_total. cbn [map fold_right]. ring.
Qed.

Lemma dpo_accumulate_all_self (xs : list DPOBatch) (st : DPO.State) :
  DPO.self (dpo_accumulate_all xs st) = DPO.self st.
Proof.
  revert st. induction xs as [|x xs IH]; intros st; [reflexivity|].
  unfold dpo_accumulate_all in *. cbn [fold_left]. now rewrite IH.
Qed.

Lemma dpo_accumulate_run (e : Z) (xs : list DPOBatch) (idx : Z) (st : DPO.State) :
  ready (DPO.self st) ->
  (forall j, 0 <= j < Z.of_nat (length xs) ->
     (idx + j + 1) mod _gradient_accumulation_steps (DPO.self st) <> 0 /\
     dpo_stop (DPO.self st) (idx + j) = false) ->
  for_enumerate (DPO.microbatch e) idx xs st = Ok (dpo_accumulate_all xs st, false).
Proof.
  revert idx st. induction xs as [|x xs IH]; intros idx st Hr Hno; [reflexivity|].
  cbn [for_enumerate].
  pose proof (dpo_microbatch_spec e idx x st Hr) as Hm. cbn zeta in Hm.
  destruct (Hno 0) as (Hmod & Hstop); [cbn [length]; lia|].
  rewrite Z.add_0_r in Hmod, Hstop. rewrite Hstop in Hm.
  destruct Hm as (st2 & Hm & Hst2). rewrite Hm. cbn [bind fst snd].
  destruct (Z.eqb_spec ((idx + 1) mod _gradient_accumulation_steps (DPO.self st)) 0);
    [contradiction|].
  subst st2. rewrite IH.
  - reflexivity.
  - exact Hr.
  - intros j Hj. change (DPO.self (snd (DPO.accumulate x st))) with (DPO.self st).
    replace (idx + 1 + j + 1) with (idx + (j + 1) + 1) by lia.
    replace (idx + 1 + j) with (idx + (j + 1)) by lia.
    apply Hno. cbn [length]. lia.
Qed.

Lemma dpo_window_aligned (e q : Z) (window : list DPOBatch) (st : DPO.State) :
  ready (DPO.self st) ->
  Z.of_nat (length window) = _gradient_accumulation_steps (DPO.self st) ->
  max_steps_per_epoch (DPO.self st) <> Some q ->
  exists st2 f,
    DPO.optimizer_block e f (dpo_accumulate_all window st) = Ok st2 /\
    for_enumerate (DPO.microbatch e) (q * _gradient_accumulation_steps (DPO.self st)) window st
    = Ok (st2, false).
Proof.
  intros Hr Hlen Hcap. pose proof Hr as (HA & _).
  set (A := _gradient_accumulation_steps (DPO.self st)) in *.
  destruct (exists_last (l := window)) as (xs & b & Hw).
  { intros ->. cbn in Hlen. lia. }
  assert (Hxs : Z.of_nat (length xs) = A - 1).
  { rewrite Hw, length_app in Hlen. cbn [length] in Hlen. lia. }
  assert (Hstop : forall r, 0 <= r < A -> dpo_stop (DPO.self st) (q * A + r) = false).
  { intros r Hr'. unfold dpo_stop. fold A. rewrite aligned_div by lia.
    destruct (max_steps_per_epoch (DPO.self st)) as [m|]; [|reflexivity].
    apply Z.eqb_neq. congruence. }
  rewrite Hw, for_enumerate_app, (dpo_accumulate_run e xs (q * A) st Hr).
  - cbn [for_enumerate].
    assert (Hr' : ready (DPO.self (dpo_accumulate_all xs st)))
      by (now rewrite dpo_accumulate_all_self).
    pose proof (dpo_microbatch_spec e (q * A + Z.of_nat (length xs)) b _ Hr') as Hm.
    cbn zeta in Hm. rewrite dpo_accumulate_all_self in Hm. fold A in Hm.
    rewrite Hstop in Hm by lia.
    destruct Hm as (st2 & Hm & Hst2).
    replace (q * A + Z.of_nat (length xs) + 1) with ((q + 1) * A + 0) in Hst2 by lia.
    rewrite aligned_mod in Hst2 by lia. cbn [Z.eqb] in Hst2.
    exists st2, (fst (DPO.accumulate b (dpo_accumulate_all xs st))).
    split.
    + unfold dpo_accumulate_all. rewrite fold_left_app. exact Hst2.
    + rewrite Hm. reflexivity.
  - intros j Hj. fold A. rewrite Hxs in Hj.
    replace (q * A + j + 1) with (q * A + (j + 1)) by lia.
    rewrite aligned_mod by lia. split; [lia|]. apply Hstop. lia.
Qed.

Lemma dpo_optimizer_block_modes (e : Z) (f : DPO.Forwarded) (st st' : DPO.State) :
  ready (DPO.self st) ->
  DPO.optimizer_block e f st = Ok st' ->
  adapter_enabled (DPO.world st') = adapter_enabled (DPO.world st) /\
  grad_enabled (DPO.world st') = grad_enabled (DPO.world st).
Proof.
  intros (HA & Hlog & (n & Hn & Hn0) & _).
  unfold DPO.optimizer_block.
  cbn [global_step set_global_step _log_every_n_steps save_every_n_steps
       total_epochs _lr_scheduler].
  rewrite (pymod_Ok _ _ Hlog), Hn. cbn [bind].
  rewrite (pymod_Ok _ _ Hn0). cbn [bind].
  destruct (_lr_scheduler (DPO.self st));
    destruct ((global_step (DPO.self st) + 1) mod _log_every_n_steps (DPO.self st) =? 0);
    destruct (((global_step (DPO.self st) + 1) mod n =? 0)
              && negb (e =? total_epochs (DPO.self st) - 1));
    rewrite ?dpo_save_checkpoint_spec;
    cbn [bind]; intros H; injection H as <-; split; reflexivity.
Qed.

End DPOCarryOver.

Section DPOCarryOverEpoch.

Context {T : Torch}.

Lemma dpo_loop_total (e : Z) (bs : list DPOBatch) (idx : Z) (st : DPO.State) :
  ready (DPO.self st) ->
  exists st' stop post,
    for_enumerate (DPO.microbatch e) idx bs st = Ok (st', stop) /\
    trace (DPO.world st') = trace (DPO.world st) ++ post.
Proof.
  revert idx st. induction bs as [|b bs IH]; intros idx st Hr.
  { exists st, false, []. now rewrite app_nil_r. }
  pose proof (dpo_microbatch_spec e idx b st Hr) as Hm. cbn zeta in Hm.
  cbn [for_enumerate].
  destruct (dpo_stop (DPO.self st) idx).
  { rewrite Hm. cbn [bind fst snd]. exists st, true, []. now rewrite app_nil_r. }
  destruct Hm as (st2 & Hm & Hst2).
  assert (Hacc : exists ev, trace (DPO.world (snd (DPO.accumulate b st)))
                            = trace (DPO.world st) ++ ev).
  { cbn [DPO.accumulate snd DPO.world backward emit set_grads trace].
    pose proof (forward_passes_spec b (DPO.world st)) as (_ & _ & _ & Htr & _).
    cbn zeta in Htr. rewrite Htr, <- app_assoc. eauto. }
  destruct Hacc as (ev & Hev).
  assert (H2 : ready (DPO.self st2) /\
               exists post, trace (DPO.world st2) = trace (DPO.world st) ++ post).
  { destruct (_ =? 0) in Hst2.
    - destruct (dpo_optimizer_block_spec e (fst (DPO.accumulate b st))
                  (snd (DPO.accumulate b st)) Hr)
        as (st' & Hb & Hself & _ & _ & _ & _ & Htr).
      rewrite Hst2 in Hb. injection Hb as <-. rewrite Hself. split; [exact Hr|].
      rewrite Htr, Hev, <- app_assoc. eauto.
    - subst st2. split; [exact Hr | eauto]. }
  destruct H2 as (Hr2 & post2 & Hpost2).
  rewrite Hm. cbn [bind fst snd].
  destruct (IH (idx + 1) st2 Hr2) as (st' & stop & post & Hloop & Hpost).
  exists st', stop, (post2 ++ post). split; [exact Hloop|].
  now rewrite Hpost, Hpost2, <- app_assoc.
Qed.

Lemma dpo_full_windows (e : Z) (q : nat) (q0 : Z) (full : list DPOBatch) (st : DPO.State) :
  ready (DPO.self st) ->
  adapter_enabled (DPO.world st) = true ->
  Z.of_nat (length full) = Z.of_nat q * _gradient_accumulation_steps (DPO.self st) ->
  (forall m, max_steps_per_epoch (DPO.self st) = Some m -> q0 + Z.of_nat q < m) ->
  0 <= q0 ->
  exists st',
    for_enumerate (DPO.microbatch e) (q0 * _gradient_accumulation_steps (DPO.self st)) full st
    = Ok (st', false) /\
    same_schedule (DPO.self st) (DPO.self st') /\
    adapter_enabled (DPO.world st') = true /\
    (q = 0%nat -> st' = st) /\
    (q <> 0%nat -> dpo_clean st').
Proof.
  revert q0 full st. induction q as [|q IH]; intros q0 full st Hr Had Hlen Hcap Hq0.
  { destruct full; [|cbn in Hlen; lia]. exists st. cbn.
    split; [reflexivity|]. split; [apply same_schedule_refl|].
    split; [exact Had|]. split; [reflexivity | congruence]. }
  pose proof Hr as (HA & _).
  set (A := _gradient_accumulation_steps (DPO.self st)) in *.
  rewrite <- (firstn_skipn (Z.to_nat A) full).
  set (w := firstn (Z.to_nat A) full). set (rest := skipn (Z.to_nat A) full).
  assert (Hw : Z.of_nat (length w) = A).
  { unfold w. rewrite length_firstn. nia. }
  assert (Hrest : Z.of_nat (length rest) = Z.of_nat q * A).
  { unfold rest. rewrite length_skipn. nia. }
  destruct (dpo_window_aligned e q0 w st Hr Hw) as (st2 & f & Hblock & Hloop).
  { intros Hm. apply Hcap in Hm. lia. }
  fold A in Hloop.
  assert (Hr_acc : ready (DPO.self (dpo_accumulate_all w st)))
    by (now rewrite dpo_accumulate_all_self).
  destruct (dpo_optimizer_block_spec e f (dpo_accumulate_all w st) Hr_acc)
    as (st2' & Hb & Hself & Hrl & Hnt & Hg & _).
  rewrite Hblock in Hb. injection Hb as <-.
  destruct (dpo_optimizer_block_modes e f _ _ Hr_acc Hblock) as (Had2 & _).
  pose proof (dpo_accumulate_all_spec w st Had) as (_ & _ & Had_acc & _).
  cbn zeta in Had_acc. rewrite Had_acc in Had2.
  rewrite dpo_accumulate_all_self in Hself.
  assert (Hsame2 : same_schedule (DPO.self st) (DPO.self st2))
    by (rewrite Hself; apply same_schedule_set_global_step).
  assert (Hr2 : ready (DPO.self st2)) by (eapply same_schedule_ready; eassumption).
  pose proof Hsame2 as (_ & _ & HM2 & HA2 & _).
  destruct (IH (q0 + 1) rest st2 Hr2 Had2) as (st' & Hloop' & Hsame' & Had' & Hzero & Hpos).
  { rewrite HA2. exact Hrest. }
  { intros m Hm. rewrite HM2 in Hm. apply Hcap in Hm. lia. }
  { lia. }
  rewrite HA2 in Hloop'. fold A in Hloop'.
  exists st'. rewrite for_enumerate_app, Hloop.
  replace (q0 * A + Z.of_nat (length w)) with ((q0 + 1) * A) by lia.
  split; [exact Hloop'|].
  split; [eapply same_schedule_trans; eassumption|].
  split; [exact Had'|].
  split; [discriminate|]. intros _.
  destruct q as [|q'].
  - rewrite (Hzero eq_refl). repeat split; assumption.
  - apply Hpos. discriminate.
Qed.

Lemma dpo_backward_grad_same (s s' : Recipe) (W : Weights) (b : DPOBatch) :
  same_schedule s s' -> dpo_backward_grad s' W b = dpo_backward_grad s W b.
Proof.
  intros (_ & _ & _ & HA & _). unfold dpo_backward_grad. now rewrite HA.
Qed.

Lemma dpo_running_term_same (s s' : Recipe) (w w' : World) (b : DPOBatch) :
  same_schedule s s' -> weights w' = weights w ->
  adapter_enabled w' = adapter_enabled w ->
  dpo_running_term s' w' b = dpo_running_term s w b.
Proof.
  intros (_ & _ & _ & HA & _) HW Had. unfold dpo_running_term.
  now rewrite HA, (forward_passes_ext b w' w HW Had).
Qed.

(** An epoch of [q] whole windows followed by an incomplete one, then the
    first window of the next epoch. *)
Lemma dpo_carry_over (dataloader : Z -> list DPOBatch) (e q : Z)
    (full tail window rest : list DPOBatch) (st : DPO.State) :
  0 <= q ->
  ready (DPO.self st) ->
  adapter_enabled (DPO.world st) = true ->
  dpo_clean st ->
  let A := _gradient_accumulation_steps (DPO.self st) in
  dataloader e = full ++ tail ->
  Z.of_nat (length full) = q * A ->
  0 < Z.of_nat (length tail) < A ->
  (forall m, max_steps_per_epoch (DPO.self st) = Some m -> q < m) ->
  dataloader (e + 1) = window ++ rest ->
  Z.of_nat (length window) = A ->
  exists st1,
    DPO.epoch dataloader e st = Ok st1 /\
    let s := DPO.self st1 in
    let w1 := DPO.world st1 in
    let g := fold_left grad_add (map (dpo_backward_grad s (weights w1)) tail) grad_none in
    DPO.running_loss st1 = dpo_running_total s w1 tail /\
    DPO.num_tokens st1 = dpo_tokens_total tail /\
    grads w1 = g /\
    (exists before, trace w1 = before ++ flat_map (dpo_accumulate_events s w1) tail) /\
    exists st2 f after,
      DPO.epoch dataloader (e + 1) st1 = Ok st2 /\
      trace (DPO.world st2)
      = trace w1
        ++ flat_map (dpo_accumulate_events s w1) window
        ++ dpo_step_events s (e + 1) f
             (dpo_running_total s w1 tail + dpo_running_total s w1 window)%Qc
             (dpo_tokens_total tail + dpo_tokens_total window)
             (fold_left grad_add (map (dpo_backward_grad s (weights w1)) window) g)
        ++ after.
Proof.
  intros Hq Hr Had Hclean A Hdl Hfull Htail Hcap Hdl2 Hwin.
  pose proof Hr as (HA & _). fold A in HA.
  destruct (dpo_full_windows e (Z.to_nat q) 0 full st Hr Had)
    as (stf & Hloopf & Hsamef & Hadf & Hzero & Hpos).
  { fold A. lia. }
  { intros m Hm. apply Hcap in Hm. lia. }
  { lia. }
  assert (Hcleanf : dpo_clean stf).
  { destruct (Nat.eq_dec (Z.to_nat q) 0) as [E|E].
    - now rewrite (Hzero E).
    - exact (Hpos E). }
  assert (Hrf : ready (DPO.self stf)) by (eapply same_schedule_ready; eassumption).
  pose proof Hsamef as (_ & _ & HMf & HAf & _).
  assert (Hlooptail :
    for_enumerate (DPO.microbatch e) (q * A) tail stf = Ok (dpo_accumulate_all tail stf, false)).
  { apply dpo_accumulate_run; [exact Hrf|].
    intros j Hj. unfold dpo_stop. rewrite HAf, HMf. fold A.
    replace (q * A + j + 1) with (q * A + (j + 1)) by lia.
    rewrite aligned_mod, aligned_div by lia. split; [lia|].
    destruct (max_steps_per_epoch (DPO.self st)) as [m|]; [|reflexivity].
    apply Z.eqb_neq. specialize (Hcap m eq_refl). lia. }
  pose proof (dpo_accumulate_all_spec tail stf Hadf) as (Hs & HW & Ha & Hge & Htr & Hg & Hrl & Hn).
  cbn zeta in Hs, HW, Ha, Hge, Htr, Hg, Hrl, Hn.
  destruct Hcleanf as (Hr0 & Hn0 & Hg0).
  rewrite Hr0, Qcplus_0_l in Hrl. rewrite Hn0, Z.add_0_l in Hn. rewrite Hg0 in Hg.
  set (stT := dpo_accumulate_all tail stf) in *.
  set (st1 := {| DPO.self := set_epochs_run (epochs_run (DPO.self stT) + 1) (DPO.self stT);
                 DPO.world := DPO.world stT;
                 DPO.running_loss := DPO.running_loss stT;
                 DPO.num_tokens := DPO.num_tokens stT |}).
  assert (Hepoch : DPO.epoch dataloader e st = Ok st1).
  { unfold DPO.epoch. rewrite Hdl, for_enumerate_app. cbn [Z.mul] in Hloopf.
    rewrite Hloopf. cbn [Z.add]. rewrite Hfull, Hlooptail. reflexivity. }
  assert (Hsame1 : same_schedule (DPO.self stf) (DPO.self st1)).
  { cbn [st1 DPO.self]. rewrite Hs. apply same_schedule_set_epochs_run. }
  assert (Hr1 : ready (DPO.self st1)) by (eapply same_schedule_ready; eassumption).
  pose proof Hsame1 as (_ & _ & HM1 & HA1 & _).
  assert (Hgrad : forall l,
            map (dpo_backward_grad (DPO.self st1) (weights (DPO.world stT))) l
            = map (dpo_backward_grad (DPO.self stf) (weights (DPO.world stf))) l).
  { intros l. apply map_ext. intros b. rewrite HW. now apply dpo_backward_grad_same. }
  assert (Hterm : forall l,
            dpo_running_total (DPO.self st1) (DPO.world stT) l
            = dpo_running_total (DPO.self stf) (DPO.world stf) l).
  { intros l. unfold dpo_running_total. f_equal. apply map_ext. intros b.
    apply dpo_running_term_same; [exact Hsame1 | exact HW | congruence]. }
  assert (Hevs : forall l,
            flat_map (dpo_accumulate_events (DPO.self st1) (DPO.world stT)) l
            = flat_map (dpo_accumulate_events (DPO.self stf) (DPO.world stf)) l).
  { intros l. apply flat_map_ext. intros b. unfold dpo_accumulate_events.
    rewrite HW, Hge. now rewrite (dpo_backward_grad_same _ _ _ _ Hsame1). }
  exists st1. split; [exact Hepoch|]. cbn zeta.
  change (DPO.world st1) with (DPO.world stT).
  change (DPO.running_loss st1) with (DPO.running_loss stT).
  change (DPO.num_tokens st1) with (DPO.num_tokens stT).
  rewrite !Hgrad, !Hterm, !Hevs.
  split; [exact Hrl|]. split; [exact Hn|]. split; [exact Hg|].
  split; [eexists; exact Htr|].
  destruct (dpo_window_aligned (e + 1) 0 window st1 Hr1) as (st2 & f & Hblock & Hloop2).
  { rewrite HA1, HAf. exact Hwin. }
  { rewrite HM1, HMf. intros Hm. apply Hcap in Hm. lia. }
  cbn [Z.mul] in Hloop2.
  assert (Had1 : adapter_enabled (DPO.world st1) = true) by exact Ha.
  pose proof (dpo_accumulate_all_spec window st1 Had1)
    as (Hs2 & HW2 & Ha2 & Hge2 & Htr2 & Hg2 & Hrl2 & Hn2).
  cbn zeta in Hs2, HW2, Ha2, Hge2, Htr2, Hg2, Hrl2, Hn2.
  destruct (dpo_optimizer_block_spec (e + 1) f (dpo_accumulate_all window st1))
    as (st2' & Hb & Hself2 & _ & _ & _ & _ & Htrb).
  { now rewrite Hs2. }
  rewrite Hblock in Hb. injection Hb as <-.
  assert (Htrace2 :
    trace (DPO.world st2)
    = trace (DPO.world stT)
      ++ flat_map (dpo_accumulate_events (DPO.self stf) (DPO.world stf)) window
      ++ dpo_step_events (DPO.self st1) (e + 1) f
           (dpo_running_total (DPO.self stf) (DPO.world stf) tail
            + dpo_running_total (DPO.self stf) (DPO.world stf) window)%Qc
           (dpo_tokens_total tail + dpo_tokens_total window)
           (fold_left grad_add
              (map (dpo_backward_grad (DPO.self stf) (weights (DPO.world stf))) window)
              (fold_left grad_add
                 (map (dpo_backward_grad (DPO.self stf) (weights (DPO.world stf))) tail)
                 grad_none))).
  { rewrite Htrb, Htr2, Hs2, Hrl2, Hg2, Hn2.
    change (DPO.world st1) with (DPO.world stT).
    change (DPO.running_loss st1) with (DPO.running_loss stT).
    change (DPO.num_tokens st1) with (DPO.num_tokens stT).
    rewrite Hrl, Hg, Hn, !Hgrad, !Hterm, !Hevs, <- app_assoc. reflexivity. }
  assert (Hr2 : ready (DPO.self st2)).
  { rewrite Hself2, Hs2. exact Hr1. }
  unfold DPO.epoch. rewrite Hdl2, for_enumerate_app, Hloop2.
  destruct (dpo_loop_total (e + 1) rest (0 + Z.of_nat (length window)) st2 Hr2)
    as (st3 & stop & post & Hloop3 & Hpost).
  rewrite Hloop3. cbn [bind fst]. eexists _, f, post. split; [reflexivity|].
  cbn [DPO.world]. rewrite Hpost, Htrace2, <- !app_assoc. reflexivity.
Qed.

End DPOCarryOverEpoch.

(** C8.  An epoch [e] whose data source yields [q] whole windows and then
    [r] more microbatches, [0 < r < A], the cap (if any) lying beyond [q]
    steps, entered with no window open.  (When the cap is reached the
    epoch is cut after [A * M] microbatches, a multiple of [A].)  In either
    recipe the epoch ends normally, and after it (that is, after
    [self.epochs_run += 1]) the running sums, the token count and the
    gradient buffers are still what the last [r] microbatches accumulated;
    the last collaborator calls of the epoch are theirs, with no optimizer
    step and no [zero_grad] after them.  The first optimizer step of epoch
    [e + 1] then acts on the gradients of those [r] microbatches plus its
    own [A], and reports running sums over all [r + A] (in the distillation
    recipe: normalized by the tokens of all [r + A]). *)
Theorem incomplete_window_carries_over {T : Torch} (e q : Z) :
  0 <= q ->
  (forall (dataloader : Z -> list KDBatch) (full tail window rest : list KDBatch)
          (st : KD.State),
     ready (KD.self st) ->
     kd_clean st ->
     let A := _gradient_accumulation_steps (KD.self st) in
     dataloader e = full ++ tail ->
     Z.of_nat (length full) = q * A ->
     0 < Z.of_nat (length tail) < A ->
     (forall m, max_steps_per_epoch (KD.self st) = Some m -> q < m) ->
     dataloader (e + 1) = window ++ rest ->
     Z.of_nat (length window) = A ->
     exists st1,
       KD.epoch dataloader e st = Ok st1 /\
       let s := KD.self st1 in
       let W := weights (KD.world st1) in
       let g := fold_left grad_add (map (kd_backward_grad s W) tail) grad_none in
       KD.running_class_loss st1 = kd_weighted_loss fst W tail /\
       KD.running_kd_loss st1 = kd_weighted_loss snd W tail /\
       KD.num_tokens st1 = kd_tokens_total tail /\
       grads (KD.world st1) = g /\
       (exists before,
          trace (KD.world st1)
          = before ++ map (fun b => EvBackward (kd_backward_grad s W b)) tail) /\
       exists st2 after,
         KD.epoch dataloader (e + 1) st1 = Ok st2 /\
         trace (KD.world st2)
         = trace (KD.world st1)
           ++ map (fun b => EvBackward (kd_backward_grad s W b)) window
           ++ kd_step_events s (e + 1)
                (kd_weighted_loss fst W tail + kd_weighted_loss fst W window)%Qc
                (kd_weighted_loss snd W tail + kd_weighted_loss snd W window)%Qc
                (kd_tokens_total tail + kd_tokens_total window)
                (fold_left grad_add (map (kd_backward_grad s W) window) g)
           ++ after) /\
  (forall (dataloader : Z -> list DPOBatch) (full tail window rest : list DPOBatch)
          (st : DPO.State),
     ready (DPO.self st) ->
     adapter_enabled (DPO.world st) = true ->
     dpo_clean st ->
     let A := _gradient_accumulation_steps (DPO.self st) in
     dataloader e = full ++ tail ->
     Z.of_nat (length full) = q * A ->
     0 < Z.of_nat (length tail) < A ->
     (forall m, max_steps_per_epoch (DPO.self st) = Some m -> q < m) ->
     dataloader (e + 1) = window ++ rest ->
     Z.of_nat (length window) = A ->
     exists st1,
       DPO.epoch dataloader e st = Ok st1 /\
       let s := DPO.self st1 in
       let w1 := DPO.world st1 in
       let g := fold_left grad_add (map (dpo_backward_grad s (weights w1)) tail) grad_none in
       DPO.running_loss st1 = dpo_running_total s w1 tail /\
       DPO.num_tokens st1 = dpo_tokens_total tail /\
       grads w1 = g /\
       (exists before, trace w1 = before ++ flat_map (dpo_accumulate_events s w1) tail) /\
       exists st2 f after,
         DPO.epoch dataloader (e + 1) st1 = Ok st2 /\
         trace (DPO.world st2)
         = trace w1
           ++ flat_map (dpo_accumulate_events s w1) window
           ++ dpo_step_events s (e + 1) f
                (dpo_running_total s w1 tail + dpo_running_total s w1 window)%Qc
                (dpo_tokens_total tail + dpo_tokens_total window)
                (fold_left grad_add (map (dpo_backward_grad s (weights w1)) window) g)
           ++ after).
Proof.
  intros Hq. split.
  - intros dataloader full tail window rest st Hr Hclean A Hdl Hfull Htail Hcap Hdl2 Hwin.
    exact (kd_carry_over dataloader e q full tail window rest st
             Hq Hr Hclean Hdl Hfull Htail Hcap Hdl2 Hwin).
  - intros dataloader full tail window rest st Hr Had Hclean A Hdl Hfull Htail Hcap Hdl2 Hwin.
    exact (dpo_carry_over dataloader e q full tail window rest st
             Hq Hr Had Hclean Hdl Hfull Htail Hcap Hdl2 Hwin).
Qed.

Lemma incomplete_window_carries_over_witness :
  (exists st1,
     KD.epoch Sample.kd_dataloader3 0 (Sample.kd_state (Sample.recipe 0 0 None)) = Ok st1 /\
     KD.num_tokens st1 = kd_tokens_total (T := Sample.torch) [Sample.kd_batch 3] /\
     exists st2, KD.epoch Sample.kd_dataloader3 (0 + 1) st1 = Ok st2) /\
  (exists st1,
     DPO.epoch Sample.dpo_dataloader3 0 (Sample.dpo_state (Sample.recipe 0 0 None)) = Ok st1 /\
     DPO.num_tokens st1 = dpo_tokens_total [Sample.dpo_batch 3] /\
     exists st2, DPO.epoch Sample.dpo_dataloader3 (0 + 1) st1 = Ok st2).
Proof.
  destruct (incomplete_window_carries_over (T := Sample.torch) 0 1 ltac:(lia)) as (Hkd & Hdpo).
  assert (Hready : ready (Sample.recipe 0 0 None)).
  { unfold ready; cbn. repeat split; try lia; eexists; split; try reflexivity; lia. }
  split.
  - destruct (Hkd Sample.kd_dataloader3
                [Sample.kd_batch 1; Sample.kd_batch 2] [Sample.kd_batch 3]
                [Sample.kd_batch 1; Sample.kd_batch 2] [Sample.kd_batch 3]
                (Sample.kd_state (Sample.recipe 0 0 None)))
      as (st1 & H1 & _ & _ & Hn & _ & _ & st2 & after & H2 & _).
    + exact Hready.
    + repeat split.
    + reflexivity.
    + reflexivity.
    + cbn. lia.
    + discriminate.
    + reflexivity.
    + reflexivity.
    + exists st1. split; [exact H1|]. split; [exact Hn|]. exists st2. exact H2.
  - destruct (Hdpo Sample.dpo_dataloader3
                [Sample.dpo_batch 1; Sample.dpo_batch 2] [Sample.dpo_batch 3]
                [Sample.dpo_batch 1; Sample.dpo_batch 2] [Sample.dpo_batch 3]
                (Sample.dpo_state (Sample.recipe 0 0 None)))
      as (st1 & H1 & _ & Hn & _ & _ & st2 & f & after & H2 & _).
    + exact Hready.
    + reflexivity.
    + repeat split.
    + reflexivity.
    + reflexivity.
    + cbn. lia.
    + discriminate.
    + reflexivity.
    + reflexivity.
    + exists st1. split; [exact H1|]. split; [exact Hn|]. exists st2. exact H2.
Defined.

(** ** Remarks on the boundary of the cap

    The cap is a positive integer or [None].  A cap of 0, outside that
    domain, would not be handled alike by the two loops: the distillation
    loop tests it after the first microbatch has been processed, the
    preference loop before. *)
Example zero_cap_is_outside_the_domain :
  let r := Sample.recipe 0 0 (Some 0) in
  match for_enumerate (KD.microbatch 0) 0 (Sample.kd_dataloader 0) (Sample.kd_state r) with
  | Ok (st', stop) => (stop, count_backward (trace (KD.world st')))
  | Raise _ => (false, -1)
  end = (true, 1) /\
  match for_enumerate (DPO.microbatch 0) 0 (Sample.dpo_dataloader 0) (Sample.dpo_state r) with
  | Ok (st', stop) => (stop, count_backward (trace (DPO.world st')))
  | Raise _ => (false, -1)
  end = (true, 0).
Proof. split; vm_compute; reflexivity. Qed.

(** * Further properties of the recipes *)

(** ** Errors on resuming *)

Section ResumeErrors.

Context {T : Torch}.

Lemma has_recipe_keys_dec (ckpt : Ckpt) : has_recipe_keys ckpt \/ ~ has_recipe_keys ckpt.
Proof.
  unfold has_recipe_keys.
  destruct (ckpt_epochs ckpt), (ckpt_steps ckpt), (ckpt_seed ckpt),
    (ckpt_max_steps ckpt), (ckpt_total_epochs ckpt);
    try (left; repeat split; discriminate); right; intros (?&?&?&?&?); congruence.
Qed.

Lemma kd_update_recipe_state_missing ckpt (sw : Recipe * World) :
  ~ has_recipe_keys ckpt -> KD._update_recipe_state ckpt sw = Raise KeyError.
Proof.
  unfold has_recipe_keys, KD._update_recipe_state, reconcile_seed,
    reconcile_max_steps, check_total_epochs. intros H.
  destruct (ckpt_epochs ckpt); [|reflexivity].
  destruct (ckpt_steps ckpt); [|reflexivity]. cbn [getitem bind fst snd].
  destruct (ckpt_seed ckpt); [|reflexivity]. cbn [getitem bind].
  destruct (negb _); cbn [bind];
    (destruct (ckpt_max_steps ckpt); [|reflexivity]); cbn [getitem bind];
    destruct (negb _); cbn [bind];
    (destruct (ckpt_total_epochs ckpt); [|reflexivity]);
    exfalso; apply H; repeat split; discriminate.
Qed.

Lemma dpo_update_recipe_state_missing ckpt (sw : Recipe * World) :
  ~ has_dpo_recipe_keys ckpt -> DPO._update_recipe_state ckpt sw = Raise KeyError.
Proof.
  unfold has_dpo_recipe_keys, DPO._update_recipe_state, reconcile_seed,
    reconcile_max_steps, check_total_epochs. intros H.
  destruct (ckpt_epochs ckpt); [|reflexivity]. cbn [getitem bind fst snd].
  destruct (ckpt_seed ckpt); [|reflexivity]. cbn [getitem bind].
  destruct (negb _); cbn [bind];
    (destruct (ckpt_max_steps ckpt); [|reflexivity]); cbn [getitem bind];
    destruct (negb _); cbn [bind];
    (destruct (ckpt_total_epochs ckpt); [|reflexivity]);
    exfalso; apply H; repeat split; discriminate.
Qed.

Lemma dpo_update_recipe_state_present ckpt (sw : Recipe * World) :
  has_dpo_recipe_keys ckpt -> exists rw, DPO._update_recipe_state ckpt sw = Ok rw.
Proof.
  intros (He & Hs & Hm & Ht). unfold DPO._update_recipe_state.
  destruct (ckpt_epochs ckpt); [|congruence]. cbn [getitem bind].
  destruct (reconcile_seed_total ckpt (set_epochs_run z (fst sw), snd sw) Hs)
    as [rw1 ->]. cbn [bind].
  destruct (reconcile_max_steps_total ckpt rw1 Hm) as [rw2 ->]. cbn [bind].
  apply check_total_epochs_total, Ht.
Qed.

End ResumeErrors.

(** X1.  [_update_recipe_state] returns exactly when the checkpoint holds
    every key it reads, and raises [KeyError], never anything else,
    otherwise.  The distillation recipe reads five keys; the preference
    recipe does not read the step count, so a checkpoint without it is
    accepted there and rejected by the distillation recipe. *)
Theorem update_recipe_state_key_errors {T : Torch} (ckpt : Ckpt) (sw : Recipe * World) :
  (has_recipe_keys ckpt -> exists rw, KD._update_recipe_state ckpt sw = Ok rw) /\
  (~ has_recipe_keys ckpt -> KD._update_recipe_state ckpt sw = Raise KeyError) /\
  (has_dpo_recipe_keys ckpt -> exists rw, DPO._update_recipe_state ckpt sw = Ok rw) /\
  (~ has_dpo_recipe_keys ckpt -> DPO._update_recipe_state ckpt sw = Raise KeyError) /\
  (ckpt_steps ckpt = None -> has_dpo_recipe_keys ckpt ->
     KD._update_recipe_state ckpt sw = Raise KeyError /\
     exists rw, DPO._update_recipe_state ckpt sw = Ok rw).
Proof.
  split; [apply kd_update_recipe_state_total|].
  split; [apply kd_update_recipe_state_missing|].
  split; [apply dpo_update_recipe_state_present|].
  split; [apply dpo_update_recipe_state_missing|].
  intros Hsteps Hkeys. split.
  - apply kd_update_recipe_state_missing. intros (_ & H & _). congruence.
  - now apply dpo_update_recipe_state_present.
Qed.

(** X2.  Resuming from a checkpoint without adapter weights is refused
    with [ValueError] by [setup] in both recipes, whatever else the
    checkpoint holds or lacks: the test comes before any recipe-state key
    is read.  The checkpoint tested is the distributed one when
    asynchronous checkpointing is enabled, the base one otherwise. *)
Theorem setup_requires_adapter_weights {T : Torch} (base dist : Ckpt) (L : Z)
    (sw : Recipe * World) :
  _resume_from_checkpoint (fst sw) = true ->
  ckpt_has_adapter (if _enable_async_checkpointing (fst sw) then dist else base) = false ->
  KD.setup base dist L sw = Raise ValueError /\
  DPO.setup base dist L sw = Raise ValueError.
Proof.
  intros Hres Had. unfold KD.setup, DPO.setup, setup_resume.
  rewrite Hres, Had. split; reflexivity.
Qed.

Lemma setup_requires_adapter_weights_witness :
  let no_adapter :=
    {| ckpt_has_adapter := false; ckpt_epochs := None; ckpt_steps := None;
       ckpt_seed := None; ckpt_max_steps := None; ckpt_total_epochs := None |} in
  KD.setup (T := Sample.torch) no_adapter Sample.ckpt 8
    (__init__ (Sample.cfg true None None) Sample.world0) = Raise ValueError /\
  DPO.setup (T := Sample.torch) no_adapter Sample.ckpt 8
    (__init__ (Sample.cfg true None None) Sample.world0) = Raise ValueError.
Proof.
  exact (setup_requires_adapter_weights (T := Sample.torch)
           {| ckpt_has_adapter := false; ckpt_epochs := None; ckpt_steps := None;
              ckpt_seed := None; ckpt_max_steps := None; ckpt_total_epochs := None |}
           Sample.ckpt 8
           (__init__ (Sample.cfg true None None) Sample.world0) eq_refl eq_refl).
Defined.

(** ** The warnings of a resume *)

Section ResumeWarnings.

Context {T : Torch}.

Lemma reconcile_chain_warnings ckpt (sw : Recipe * World) (r : Recipe) (w : World)
    (s : Z) (m : option Z) (t : Z) :
  ckpt_seed ckpt = Some s -> ckpt_max_steps ckpt = Some m ->
  ckpt_total_epochs ckpt = Some t ->
  (sw3 <- reconcile_seed ckpt sw ;;
   sw4 <- reconcile_max_steps ckpt sw3 ;;
   check_total_epochs ckpt sw4) = Ok (r, w) ->
  warnings w = warnings (snd sw) ++ resume_warnings (fst sw) s m t.
Proof.
  intros Hs Hm Ht. destruct sw as [r0 w0].
  unfold reconcile_seed, reconcile_max_steps, check_total_epochs, resume_warnings.
  rewrite Hs, Hm, Ht. cbn [getitem bind fst snd].
  destruct (seed r0 =? s); cbn [negb bind fst snd set_seed_attr max_steps_per_epoch];
    destruct (opt_eqb (max_steps_per_epoch r0) m);
    cbn [negb bind fst snd set_max_steps_per_epoch set_seed_attr total_epochs];
    destruct (total_epochs r0 =? t); cbn [negb];
    intros H; injection H as _ <-; cbn [warn warnings app];
    rewrite <- ?app_assoc, ?app_nil_r; reflexivity.
Qed.

End ResumeWarnings.

(** X3.  A resume that goes through issues one warning for each of seed,
    step cap and epoch total on which config and checkpoint disagree, in
    that order, and no other; when the three agree it issues none.  The
    epoch count and step count taken from the checkpoint never cause a
    warning.  Both recipes. *)
Theorem resume_warnings_exact {T : Torch} (ckpt : Ckpt) (sw : Recipe * World)
    (s : Z) (m : option Z) (t : Z) :
  ckpt_seed ckpt = Some s ->
  ckpt_max_steps ckpt = Some m ->
  ckpt_total_epochs ckpt = Some t ->
  (forall r w, KD._update_recipe_state ckpt sw = Ok (r, w) ->
     warnings w = warnings (snd sw) ++ resume_warnings (fst sw) s m t) /\
  (forall r w, DPO._update_recipe_state ckpt sw = Ok (r, w) ->
     warnings w = warnings (snd sw) ++ resume_warnings (fst sw) s m t) /\
  (seed (fst sw) = s -> max_steps_per_epoch (fst sw) = m -> total_epochs (fst sw) = t ->
     resume_warnings (fst sw) s m t = []).
Proof.
  intros Hs Hm Ht. split; [|split].
  - intros r w H. unfold KD._update_recipe_state in H.
    inv_bind H. inv_bind H.
    exact (reconcile_chain_warnings ckpt _ r w s m t Hs Hm Ht H).
  - intros r w H. unfold DPO._update_recipe_state in H.
    inv_bind H.
    exact (reconcile_chain_warnings ckpt _ r w s m t Hs Hm Ht H).
  - intros <- <- <-. unfold resume_warnings.
    rewrite Z.eqb_refl, Z.eqb_refl.
    now replace (opt_eqb _ _) with true by (symmetry; now apply opt_eqb_eq).
Qed.

Lemma resume_warnings_exact_witness :
  match KD._update_recipe_state (T := Sample.torch) Sample.ckpt
          (__init__ (Sample.cfg true None None) Sample.world0) with
  | Ok (_, w) => warnings w = [WarnSeed 2; WarnMaxSteps (Some 3); WarnTotalEpochs 2]
  | Raise _ => False
  end.
Proof.
  destruct (resume_warnings_exact (T := Sample.torch) Sample.ckpt
              (__init__ (Sample.cfg true None None) Sample.world0) 2 (Some 3) 5
              eq_refl eq_refl eq_refl) as (Hkd & _).
  destruct (KD._update_recipe_state Sample.ckpt
              (__init__ (Sample.cfg true None None) Sample.world0))
    as [[r w]|err] eqn:E.
  - exact (Hkd r w eq_refl).
  - vm_compute in E. discriminate E.
Defined.

Lemma update_recipe_state_key_errors_witness :
  let no_steps :=
    {| ckpt_has_adapter := true; ckpt_epochs := Some 1; ckpt_steps := None;
       ckpt_seed := Some 2; ckpt_max_steps := Some None; ckpt_total_epochs := Some 2 |} in
  let sw := __init__ (T := Sample.torch) (Sample.cfg true None None) Sample.world0 in
  KD._update_recipe_state no_steps sw = Raise KeyError /\
  exists rw, DPO._update_recipe_state no_steps sw = Ok rw.
Proof.
  apply (update_recipe_state_key_errors (T := Sample.torch)
           {| ckpt_has_adapter := true; ckpt_epochs := Some 1; ckpt_steps := None;
              ckpt_seed := Some 2; ckpt_max_steps := Some None;
              ckpt_total_epochs := Some 2 |}
           (__init__ (Sample.cfg true None None) Sample.world0)).
  - reflexivity.
  - unfold has_dpo_recipe_keys; cbn. repeat split; discriminate.
Defined.

(** ** Edge cases of [train] and [setup] *)

(** X4.  When no epoch is left to run ([epochs_run >= total_epochs], as
    when a finished run is resumed), [train] of either recipe has no epoch
    to loop over.  [train] is the loop over the epochs, then the read of
    [curr_epoch], then the final [save_checkpoint] in the world the loop
    left.  Here the loop returns at once and leaves the recipe and the
    world, so also the trace of what was done, as they are; [curr_epoch]
    was never bound, so reading it raises [UnboundLocalError], whatever
    would have been done with it: the final [save_checkpoint] is not
    called, and [train] raises [UnboundLocalError]. *)
Theorem train_without_epoch_left {T : Torch}
    (kd_dataloader : Z -> list KDBatch) (dpo_dataloader : Z -> list DPOBatch)
    (s : Recipe) (w : World) :
  total_epochs s <= epochs_run s ->
  let epochs := range (epochs_run s) (total_epochs s) in
  let kd0 :=
    {| KD.self := s; KD.world := w;
       KD.running_class_loss := Q2Qc 0; KD.running_kd_loss := Q2Qc 0;
       KD.num_tokens := 0 |} in
  let dpo0 :=
    {| DPO.self := s; DPO.world := w;
       DPO.running_loss := Q2Qc 0; DPO.num_tokens := 0 |} in
  epochs = [] /\
  KD.train kd_dataloader (s, w)
  = (st <- for_each (KD.epoch kd_dataloader) epochs kd0 ;;
     curr_epoch <- loop_variable epochs ;;
     w' <- KD.save_checkpoint curr_epoch true (KD.self st, KD.world st) ;;
     Ok (KD.self st, w')) /\
  DPO.train dpo_dataloader (s, w)
  = (st <- for_each (DPO.epoch dpo_dataloader) epochs dpo0 ;;
     curr_epoch <- loop_variable epochs ;;
     w' <- DPO.save_checkpoint curr_epoch true (DPO.self st, DPO.world st) ;;
     Ok (DPO.self st, w')) /\
  (forall st, for_each (KD.epoch kd_dataloader) epochs st = Ok st) /\
  (forall st, for_each (DPO.epoch dpo_dataloader) epochs st = Ok st) /\
  (forall (R : Type) (rest : Z -> result R),
     (curr_epoch <- loop_variable epochs ;; rest curr_epoch)
     = Raise UnboundLocalError) /\
  KD.train kd_dataloader (s, w) = Raise UnboundLocalError /\
  DPO.train dpo_dataloader (s, w) = Raise UnboundLocalError.
Proof.
  intros H epochs kd0 dpo0. unfold kd0, dpo0, epochs, KD.train, DPO.train. cbn [fst snd].
  rewrite (range_empty _ _ H). repeat split.
Qed.

Lemma train_without_epoch_left_witness :
  KD.train Sample.kd_dataloader (Sample.recipe 2 8 None, Sample.world0)
  = Raise UnboundLocalError /\
  DPO.train Sample.dpo_dataloader (Sample.recipe 2 8 None, Sample.world0)
  = Raise UnboundLocalError.
Proof.
  apply (train_without_epoch_left (T := Sample.torch) Sample.kd_dataloader
           Sample.dpo_dataloader (Sample.recipe 2 8 None) Sample.world0).
  cbn. lia.
Defined.

(** X5.  With [gradient_accumulation_steps = 0] the [setup] of either
    recipe never returns.  On a fresh run it raises [ZeroDivisionError]
    (from [len(dataloader) // 0]). *)
Theorem setup_zero_accumulation {T : Torch} (base dist : Ckpt) (L : Z)
    (sw : Recipe * World) :
  _gradient_accumulation_steps (fst sw) = 0 ->
  (forall res, KD.setup base dist L sw <> Ok res) /\
  (forall res, DPO.setup base dist L sw <> Ok res) /\
  (_resume_from_checkpoint (fst sw) = false ->
     KD.setup base dist L sw = Raise ZeroDivisionError /\
     DPO.setup base dist L sw = Raise ZeroDivisionError).
Proof.
  intros HA.
  assert (Hsched : forall s, _gradient_accumulation_steps s = 0 ->
                             setup_schedule L s = Raise ZeroDivisionError).
  { intros s Hs. unfold setup_schedule. rewrite Hs. reflexivity. }
  split; [|split].
  - intros res H. unfold KD.setup in H. inv_bind H. inv_bind H.
    rewrite Hsched in Hx0; [discriminate|].
    rewrite <- HA. eapply setup_resume_accum; [|exact Hx].
    intros; eapply kd_update_recipe_state_accum; eassumption.
  - intros res H. unfold DPO.setup in H. inv_bind H. inv_bind H.
    rewrite Hsched in Hx0; [discriminate|].
    rewrite <- HA. eapply setup_resume_accum; [|exact Hx].
    intros; eapply dpo_update_recipe_state_accum; eassumption.
  - intros Hres. unfold KD.setup, DPO.setup.
    rewrite !setup_resume_off by exact Hres. cbn [bind].
    rewrite (Hsched _ HA). split; reflexivity.
Qed.

Lemma setup_zero_accumulation_witness :
  let cfg0 :=
    {| cfg_seed := Some 1; cfg_epochs := 2; cfg_max_steps_per_epoch := None;
       cfg_resume_from_checkpoint := false; cfg_gradient_accumulation_steps := 0;
       cfg_save_every_n_steps := None; cfg_log_every_n_steps := None;
       cfg_enable_async_checkpointing := None; cfg_clip_grad_norm := None;
       cfg_kd_ratio := None; cfg_lr_scheduler := true;
       cfg_device_type := "cpu"%string; cfg_log_peak_memory_stats := None |} in
  KD.setup Sample.ckpt Sample.ckpt 8 (__init__ cfg0 Sample.world0)
  = Raise ZeroDivisionError /\
  DPO.setup Sample.ckpt Sample.ckpt 8 (__init__ cfg0 Sample.world0)
  = Raise ZeroDivisionError.
Proof.
  intros cfg0.
  exact (proj2 (proj2 (setup_zero_accumulation (T := Sample.torch)
                         Sample.ckpt Sample.ckpt 8 (__init__ cfg0 Sample.world0) eq_refl))
               eq_refl).
Defined.

(** ** Steps, counters and the schedule: distillation *)

Section KDCounters.

Context {T : Torch}.

Lemma count_lr_scheduler_steps_app (a b : list event) :
  count_lr_scheduler_steps (a ++ b) = count_lr_scheduler_steps a + count_lr_scheduler_steps b.
Proof. unfold count_lr_scheduler_steps. rewrite filter_app, length_app. lia. Qed.

Lemma kd_step_events_lr (s : Recipe) (e : Z) (rc rk : Qc) (nt : Z) (g : Grad) :
  count_lr_scheduler_steps (kd_step_events s e rc rk nt g) = 1.
Proof.
  unfold kd_step_events, kd_save_events.
  destruct (_clip_grad_norm s), (_ =? 0), (save_every_n_steps s),
    (_steps_per_epoch s), (checkpoint_dir_prefix s);
    try destruct (_ && _); reflexivity.
Qed.

(** One pass through the loop body: the counters and the trace move
    together. *)
Lemma kd_microbatch_summary (e idx : Z) (b : KDBatch) (st : KD.State) :
  ready (KD.self st) ->
  let A := _gradient_accumulation_steps (KD.self st) in
  let k := if (idx + 1) mod A =? 0 then 1 else 0 in
  exists st2,
    KD.microbatch e idx b st
    = Ok (st2, opt_eqb (Some ((idx + 1) / A)) (max_steps_per_epoch (KD.self st))) /\
    same_schedule (KD.self st) (KD.self st2) /\
    epochs_run (KD.self st2) = epochs_run (KD.self st) /\
    global_step (KD.self st2) = global_step (KD.self st) + k /\
    count_backward (trace (KD.world st2)) = count_backward (trace (KD.world st)) + 1 /\
    count_optimizer_steps (trace (KD.world st2))
    = count_optimizer_steps (trace (KD.world st)) + k /\
    count_lr_scheduler_steps (trace (KD.world st2))
    = count_lr_scheduler_steps (trace (KD.world st)) + k.
Proof.
  intros Hr A k.
  destruct (kd_microbatch_counts e idx b st Hr) as (st2 & Hm & Hsame & Hep & Hcb & Hcs).
  fold A in Hm, Hcs. fold k in Hcs.
  exists st2. split; [exact Hm|]. split; [exact Hsame|]. split; [exact Hep|].
  destruct (kd_microbatch_spec e idx b st Hr) as (st2' & Hm' & Hst2).
  fold A in Hm', Hst2. rewrite Hm in Hm'. injection Hm' as <-.
  assert (Hacc : count_lr_scheduler_steps (trace (KD.world (KD.accumulate b st)))
                 = count_lr_scheduler_steps (trace (KD.world st))).
  { cbn [KD.accumulate KD.world backward emit set_grads trace].
    rewrite count_lr_scheduler_steps_app. cbn. lia. }
  unfold k in *. destruct ((idx + 1) mod A =? 0).
  - destruct (kd_optimizer_block_spec e (KD.accumulate b st) Hr)
      as (st' & Hb & Hself & _ & _ & _ & _ & _ & Htr).
    rewrite Hst2 in Hb. injection Hb as <-.
    split; [rewrite Hself; reflexivity|]. split; [exact Hcb|]. split; [exact Hcs|].
    rewrite Htr, count_lr_scheduler_steps_app, kd_step_events_lr, Hacc. reflexivity.
  - subst st2. split; [cbn [KD.accumulate KD.self]; lia|].
    split; [exact Hcb|]. split; [exact Hcs|]. rewrite Hacc. lia.
Qed.

(** The loop over any data, from any index: it returns, and
    [global_step] has advanced by the number of optimizer steps taken,
    which is also the number of scheduler steps. *)
Lemma kd_loop_counters (e : Z) (bs : list KDBatch) (idx : Z) (st : KD.State) :
  ready (KD.self st) ->
  exists st' stop k,
    for_enumerate (KD.microbatch e) idx bs st = Ok (st', stop) /\
    same_schedule (KD.self st) (KD.self st') /\
    epochs_run (KD.self st') = epochs_run (KD.self st) /\
    0 <= k /\
    global_step (KD.self st') = global_step (KD.self st) + k /\
    count_optimizer_steps (trace (KD.world st'))
    = count_optimizer_steps (trace (KD.world st)) + k /\
    count_lr_scheduler_steps (trace (KD.world st'))
    = count_lr_scheduler_steps (trace (KD.world st)) + k.
Proof.
  revert idx st. induction bs as [|b bs IH]; intros idx st Hr.
  { exists st, false, 0. cbn. split; [reflexivity|]. split; [apply same_schedule_refl|].
    repeat split; lia. }
  destruct (kd_microbatch_summary e idx b st Hr)
    as (st2 & Hm & Hsame & Hep & Hg & _ & Hcs & Hlr).
  cbn zeta in Hg, Hcs, Hlr.
  set (k := if (idx + 1) mod _gradient_accumulation_steps (KD.self st) =? 0 then 1 else 0) in *.
  assert (Hk : 0 <= k) by (unfold k; destruct (_ =? 0); lia).
  cbn [for_enumerate]. rewrite Hm. cbn [bind fst snd].
  destruct (opt_eqb _ _).
  - exists st2, true, k. split; [reflexivity|]. split; [exact Hsame|].
    repeat split; assumption.
  - assert (Hr2 : ready (KD.self st2)) by (eapply same_schedule_ready; eassumption).
    destruct (IH (idx + 1) st2 Hr2) as (st' & stop & k' & Hloop & Hsame' & Hep' & Hk' & Hg' & Hcs' & Hlr').
    exists st', stop, (k + k'). split; [exact Hloop|].
    split; [eapply same_schedule_trans; eassumption|].
    repeat split; lia.
Qed.

(** The loop over the data of an epoch, from an index the cap has not been
    reached at: it processes the microbatches up to the end of the data or
    up to [A * cap], whichever comes first, and takes one optimizer step per
    whole window among them. *)
Lemma kd_run_summary (e : Z) (bs : list KDBatch) (idx : Z) (st : KD.State) :
  ready (KD.self st) ->
  let A := _gradient_accumulation_steps (KD.self st) in
  0 <= idx ->
  (forall m, max_steps_per_epoch (KD.self st) = Some m -> idx < A * m) ->
  let n_end :=
    match max_steps_per_epoch (KD.self st) with
    | Some m => Z.min (idx + Z.of_nat (length bs)) (A * m)
    | None => idx + Z.of_nat (length bs)
    end in
  exists st' stop,
    for_enumerate (KD.microbatch e) idx bs st = Ok (st', stop) /\
    same_schedule (KD.self st) (KD.self st') /\
    epochs_run (KD.self st') = epochs_run (KD.self st) /\
    global_step (KD.self st') = global_step (KD.self st) + (n_end / A - idx / A) /\
    count_backward (trace (KD.world st'))
    = count_backward (trace (KD.world st)) + (n_end - idx) /\
    count_optimizer_steps (trace (KD.world st'))
    = count_optimizer_steps (trace (KD.world st)) + (n_end / A - idx / A).
Proof.
  revert idx st. induction bs as [|b bs IH]; intros idx st Hr A Hidx Hcap n_end.
  { exists st, false. cbn [for_enumerate].
    assert (Hn : n_end = idx).
    { unfold n_end. cbn [length]. destruct (max_steps_per_epoch (KD.self st)) as [m|];
        [specialize (Hcap m eq_refl)|]; lia. }
    rewrite Hn. split; [reflexivity|]. split; [apply same_schedule_refl|].
    repeat split; lia. }
  pose proof Hr as (HA & _). fold A in HA.
  destruct (kd_microbatch_summary e idx b st Hr)
    as (st2 & Hm & Hsame & Hep & Hg & Hcb & Hcs & _).
  cbn zeta in Hg, Hcs. fold A in Hm, Hg, Hcs.
  pose proof (div_succ A idx HA) as Hdiv.
  set (k := if (idx + 1) mod A =? 0 then 1 else 0) in *.
  cbn [for_enumerate]. rewrite Hm. cbn [bind fst snd].
  pose proof Hsame as (_ & _ & HM2 & HA2 & _).
  assert (Hr2 : ready (KD.self st2)) by (eapply same_schedule_ready; eassumption).
  assert (Hlen : idx + Z.of_nat (length (b :: bs)) = idx + 1 + Z.of_nat (length bs))
    by (cbn [length]; lia).
  unfold n_end. clear n_end. rewrite Hlen.
  specialize (IH (idx + 1) st2 Hr2). cbn zeta in IH. rewrite HM2, HA2 in IH. fold A in IH.
  destruct (max_steps_per_epoch (KD.self st)) as [m|] eqn:HM.
  - specialize (Hcap m eq_refl). cbn [opt_eqb].
    destruct (Z.eqb_spec ((idx + 1) / A) m) as [Heq|Hne].
    + assert (Hend : idx + 1 = A * m).
      { pose proof (Z.div_mod (idx + 1) A ltac:(lia)) as E.
        pose proof (Z.mod_pos_bound (idx + 1) A HA). rewrite Heq in E. nia. }
      replace (Z.min (idx + 1 + Z.of_nat (length bs)) (A * m)) with (idx + 1) by lia.
      exists st2, true. split; [reflexivity|]. split; [exact Hsame|].
      repeat split; lia.
    + assert (Hlt : idx + 1 < A * m).
      { destruct (Z.eq_dec (idx + 1) (A * m)) as [E|E]; [|lia].
        exfalso. apply Hne. rewrite E, Z.mul_comm. apply Z.div_mul. lia. }
      destruct IH as (st' & stop & Hloop & Hsame' & Hep' & Hg' & Hcb' & Hcs').
      { lia. }
      { intros m' Hm'. injection Hm' as <-. lia. }
      exists st', stop. split; [exact Hloop|].
      split; [eapply same_schedule_trans; eassumption|].
      repeat split; lia.
  - cbn [opt_eqb].
    destruct IH as (st' & stop & Hloop & Hsame' & Hep' & Hg' & Hcb' & Hcs').
    { lia. }
    { intros m' Hm'. discriminate. }
    exists st', stop. split; [exact Hloop|].
    split; [eapply same_schedule_trans; eassumption|].
    repeat split; lia.
Qed.

End KDCounters.

Section KDRuns.

Context {T : Torch}.

Lemma min_div (A L m : Z) : 0 < A -> Z.min L (A * m) / A = Z.min m (L / A).
Proof.
  intros HA. destruct (Z.le_gt_cases L (A * m)) as [H|H].
  - rewrite Z.min_l by exact H.
    assert (L / A <= m) by (apply Z.div_le_upper_bound; lia). lia.
  - rewrite Z.min_r by lia.
    replace (A * m) with (m * A) by lia. rewrite Z.div_mul by lia.
    assert (m <= L / A) by (apply Z.div_le_lower_bound; lia). lia.
Qed.

Lemma steps_of_microbatches (s : Recipe) (L : Z) :
  0 < _gradient_accumulation_steps s ->
  microbatches_processed s L / _gradient_accumulation_steps s = steps_scheduled s L.
Proof.
  intros HA. unfold microbatches_processed, steps_scheduled.
  destruct (max_steps_per_epoch s); [now apply min_div | reflexivity].
Qed.

Lemma same_schedule_steps (s s' : Recipe) (L : Z) :
  same_schedule s s' ->
  steps_scheduled s' L = steps_scheduled s L /\
  microbatches_processed s' L = microbatches_processed s L /\
  (cap_positive s -> cap_positive s').
Proof.
  intros (_ & _ & HM & HA & _). unfold steps_scheduled, microbatches_processed, cap_positive.
  rewrite HM, HA. repeat split. auto.
Qed.

Lemma kd_epoch_regular (dataloader : Z -> list KDBatch) (e L : Z) (st : KD.State) :
  ready (KD.self st) ->
  cap_positive (KD.self st) ->
  Z.of_nat (length (dataloader e)) = L ->
  exists st',
    KD.epoch dataloader e st = Ok st' /\
    same_schedule (KD.self st) (KD.self st') /\
    epochs_run (KD.self st') = epochs_run (KD.self st) + 1 /\
    global_step (KD.self st') = global_step (KD.self st) + steps_scheduled (KD.self st) L /\
    count_backward (trace (KD.world st'))
    = count_backward (trace (KD.world st)) + microbatches_processed (KD.self st) L /\
    count_optimizer_steps (trace (KD.world st'))
    = count_optimizer_steps (trace (KD.world st)) + steps_scheduled (KD.self st) L.
Proof.
  intros Hr Hcap HL. pose proof Hr as (HA & _).
  destruct (kd_run_summary e (dataloader e) 0 st Hr) as (st' & stop & Hloop & Hsame & Hep & Hg & Hcb & Hcs).
  { lia. }
  { intros m Hm. apply Hcap in Hm. nia. }
  rewrite HL in Hg, Hcb, Hcs. cbn [Z.add] in Hg, Hcb, Hcs.
  change (match max_steps_per_epoch (KD.self st) with
          | Some m => Z.min L (_gradient_accumulation_steps (KD.self st) * m)
          | None => L
          end) with (microbatches_processed (KD.self st) L) in Hg, Hcb, Hcs.
  rewrite steps_of_microbatches, Z.div_0_l, Z.sub_0_r in Hg, Hcs by lia.
  rewrite Z.sub_0_r in Hcb.
  unfold KD.epoch. rewrite Hloop. cbn [bind fst].
  eexists. split; [reflexivity|]. cbn [KD.self KD.world set_epochs_run epochs_run global_step].
  split; [eapply same_schedule_trans; [exact Hsame | apply same_schedule_set_epochs_run]|].
  split; [lia|]. split; [exact Hg|]. split; [exact Hcb | exact Hcs].
Qed.

Lemma kd_epochs_regular (dataloader : Z -> list KDBatch) (L : Z) (es : list Z)
    (st : KD.State) :
  ready (KD.self st) ->
  cap_positive (KD.self st) ->
  (forall e, Z.of_nat (length (dataloader e)) = L) ->
  let n := Z.of_nat (length es) in
  exists st',
    for_each (KD.epoch dataloader) es st = Ok st' /\
    same_schedule (KD.self st) (KD.self st') /\
    epochs_run (KD.self st') = epochs_run (KD.self st) + n /\
    global_step (KD.self st') = global_step (KD.self st) + n * steps_scheduled (KD.self st) L /\
    count_backward (trace (KD.world st'))
    = count_backward (trace (KD.world st)) + n * microbatches_processed (KD.self st) L /\
    count_optimizer_steps (trace (KD.world st'))
    = count_optimizer_steps (trace (KD.world st)) + n * steps_scheduled (KD.self st) L.
Proof.
  revert st. induction es as [|e es IH]; intros st Hr Hcap HL n.
  { exists st. cbn. split; [reflexivity|]. split; [apply same_schedule_refl|].
    repeat split; lia. }
  destruct (kd_epoch_regular dataloader e L st Hr Hcap (HL e))
    as (st1 & Hep1 & Hsame1 & He1 & Hg1 & Hcb1 & Hcs1).
  assert (Hr1 : ready (KD.self st1)) by (eapply same_schedule_ready; eassumption).
  destruct (same_schedule_steps _ _ L Hsame1) as (Hst & Hmp & Hcp).
  destruct (IH st1 Hr1 (Hcp Hcap) HL) as (st' & Hloop & Hsame' & He' & Hg' & Hcb' & Hcs').
  rewrite Hst, Hmp in *.
  exists st'. cbn [for_each]. rewrite Hep1. cbn [bind].
  split; [exact Hloop|]. split; [eapply same_schedule_trans; eassumption|].
  unfold n. cbn [length]. rewrite Nat2Z.inj_succ. repeat split; lia.
Qed.

Lemma length_range (a b : Z) : a <= b -> Z.of_nat (length (range a b)) = b - a.
Proof. intros H. unfold range. rewrite length_map, length_seq. lia. Qed.

Lemma count_optimizer_steps_save (tr : list event) tp e f p :
  count_optimizer_steps (tr ++ [EvSaveCheckpoint tp e f p]) = count_optimizer_steps tr.
Proof. rewrite count_optimizer_steps_app. cbn. lia. Qed.

Lemma count_backward_save (tr : list event) tp e f p :
  count_backward (tr ++ [EvSaveCheckpoint tp e f p]) = count_backward tr.
Proof. rewrite count_backward_app. cbn. lia. Qed.

Lemma count_lr_scheduler_steps_save (tr : list event) tp e f p :
  count_lr_scheduler_steps (tr ++ [EvSaveCheckpoint tp e f p]) = count_lr_scheduler_steps tr.
Proof. rewrite count_lr_scheduler_steps_app. cbn. lia. Qed.

(** A whole run of the distillation recipe over a data source that yields
    [L] microbatches in every epoch. *)
Lemma kd_train_regular (dataloader : Z -> list KDBatch) (L : Z) (s : Recipe) (w : World) :
  ready s ->
  cap_positive s ->
  (forall e, Z.of_nat (length (dataloader e)) = L) ->
  epochs_run s < total_epochs s ->
  let n := total_epochs s - epochs_run s in
  let g' := global_step s + n * steps_scheduled s L in
  exists r' w' p pre,
    KD.train dataloader (s, w) = Ok (r', w') /\
    same_schedule s r' /\
    _steps_per_epoch s = Some p /\
    epochs_run r' = total_epochs s /\
    global_step r' = g' /\
    count_backward (trace w') = count_backward (trace w) + n * microbatches_processed s L /\
    count_optimizer_steps (trace w') = count_optimizer_steps (trace w) + n * steps_scheduled s L /\
    exists before,
      trace w'
      = before
        ++ [EvSaveCheckpoint
              {| tp_seed := seed s;
                 tp_epochs_run :=
                   if g' mod p =? 0 then total_epochs s else total_epochs s - 1;
                 tp_total_epochs := total_epochs s;
                 tp_max_steps_per_epoch := max_steps_per_epoch s |}
              (total_epochs s - 1) true (Some pre)].
Proof.
  intros Hr Hcap HL Hlt n g'.
  set (st0 := {| KD.self := s; KD.world := w;
                 KD.running_class_loss := Q2Qc 0; KD.running_kd_loss := Q2Qc 0;
                 KD.num_tokens := 0 |}).
  destruct (kd_epochs_regular dataloader L (range (epochs_run s) (total_epochs s)) st0 Hr Hcap HL)
    as (st' & Hloop & Hsame & He & Hg & Hcb & Hcs).
  rewrite length_range in He, Hg, Hcb, Hcs by lia.
  cbn [st0 KD.self KD.world] in Hsame, He, Hg, Hcb, Hcs. fold n in He, Hg, Hcb, Hcs.
  assert (Hr' : ready (KD.self st')) by (eapply same_schedule_ready; eassumption).
  pose proof Hr' as (_ & _ & _ & (p & Hp & Hp0) & (pre & Hpre)).
  pose proof Hsame as (Hseed & HT & HM & _ & _ & _ & _ & _ & _ & Hspe & _).
  unfold KD.train. cbn [fst snd]. fold st0. rewrite Hloop. cbn [bind].
  rewrite (loop_variable_range _ _ Hlt). cbn [bind].
  rewrite (kd_save_checkpoint_spec _ _ _ _ p pre) by assumption. cbn [bind].
  exists (KD.self st'), (emit (EvSaveCheckpoint
              {| tp_seed := seed (KD.self st');
                 tp_epochs_run :=
                   if global_step (KD.self st') mod p =? 0
                   then total_epochs s - 1 + 1 else total_epochs s - 1;
                 tp_total_epochs := total_epochs (KD.self st');
                 tp_max_steps_per_epoch := max_steps_per_epoch (KD.self st') |}
              (total_epochs s - 1) true (Some pre)) (KD.world st')), p, pre.
  split; [reflexivity|]. split; [exact Hsame|].
  split; [congruence|]. split; [unfold n in He; lia|]. split; [exact Hg|].
  cbn [emit trace].
  split; [rewrite count_backward_save; exact Hcb|].
  split; [rewrite count_optimizer_steps_save; exact Hcs|].
  exists (trace (KD.world st')). rewrite Hseed, HT, HM, Hg. fold g'.
  replace (total_epochs s - 1 + 1) with (total_epochs s) by lia. reflexivity.
Qed.

End KDRuns.

(** ** Steps, counters and the schedule: preference recipe *)

Section DPOCounters.

Context {T : Torch}.

Lemma dpo_step_events_lr (s : Recipe) (e : Z) (f : DPO.Forwarded) (r : Qc) (nt : Z) (g : Grad) :
  count_lr_scheduler_steps (dpo_step_events s e f r nt g)
  = if _lr_scheduler s then 1 else 0.
Proof.
  unfold dpo_step_events, dpo_save_events.
  destruct (_lr_scheduler s), (_ =? 0), (save_every_n_steps s);
    try destruct (_ && _); reflexivity.
Qed.

Lemma dpo_accumulate_lr (b : DPOBatch) (st : DPO.State) :
  count_lr_scheduler_steps (trace (DPO.world (snd (DPO.accumulate b st))))
  = count_lr_scheduler_steps (trace (DPO.world st)).
Proof.
  cbn [DPO.accumulate snd DPO.world backward emit set_grads trace].
  pose proof (forward_passes_spec b (DPO.world st)) as (_ & _ & _ & Htr & _).
  cbn zeta in Htr. rewrite Htr, !count_lr_scheduler_steps_app. cbn. lia.
Qed.

Lemma dpo_microbatch_summary (e idx : Z) (b : DPOBatch) (st : DPO.State) :
  ready (DPO.self st) ->
  let A := _gradient_accumulation_steps (DPO.self st) in
  let k := if (idx + 1) mod A =? 0 then 1 else 0 in
  if dpo_stop (DPO.self st) idx
  then DPO.microbatch e idx b st = Ok (st, true)
  else exists st2,
      DPO.microbatch e idx b st = Ok (st2, false) /\
      same_schedule (DPO.self st) (DPO.self st2) /\
      epochs_run (DPO.self st2) = epochs_run (DPO.self st) /\
      global_step (DPO.self st2) = global_step (DPO.self st) + k /\
      count_backward (trace (DPO.world st2)) = count_backward (trace (DPO.world st)) + 1 /\
      count_optimizer_steps (trace (DPO.world st2))
      = count_optimizer_steps (trace (DPO.world st)) + k /\
      count_lr_scheduler_steps (trace (DPO.world st2))
      = count_lr_scheduler_steps (trace (DPO.world st))
        + (if _lr_scheduler (DPO.self st) then k else 0).
Proof.
  intros Hr A k.
  pose proof (dpo_microbatch_counts e idx b st Hr) as Hc. cbn zeta in Hc. fold A k in Hc.
  pose proof (dpo_microbatch_spec e idx b st Hr) as Hs. cbn zeta in Hs. fold A in Hs.
  destruct (dpo_stop (DPO.self st) idx); [exact Hc|].
  destruct Hc as (st2 & Hm & Hsame & Hep & Hcb & Hcs).
  destruct Hs as (st2' & Hm' & Hst2). rewrite Hm in Hm'. injection Hm' as <-.
  exists st2. split; [exact Hm|]. split; [exact Hsame|]. split; [exact Hep|].
  pose proof (dpo_accumulate_lr b st) as Hacc.
  unfold k in *. destruct ((idx + 1) mod A =? 0).
  - destruct (dpo_optimizer_block_spec e (fst (DPO.accumulate b st))
                (snd (DPO.accumulate b st)) Hr)
      as (st' & Hb & Hself & _ & _ & _ & _ & Htr).
    rewrite Hst2 in Hb. injection Hb as <-.
    split; [rewrite Hself; reflexivity|]. split; [exact Hcb|]. split; [exact Hcs|].
    rewrite Htr, count_lr_scheduler_steps_app, dpo_step_events_lr, Hacc. reflexivity.
  - subst st2. split; [cbn [DPO.accumulate DPO.self snd]; lia|].
    split; [exact Hcb|]. split; [exact Hcs|]. rewrite Hacc.
    destruct (_lr_scheduler (DPO.self st)); lia.
Qed.

Lemma dpo_loop_counters (e : Z) (bs : list DPOBatch) (idx : Z) (st : DPO.State) :
  ready (DPO.self st) ->
  exists st' stop k,
    for_enumerate (DPO.microbatch e) idx bs st = Ok (st', stop) /\
    same_schedule (DPO.self st) (DPO.self st') /\
    epochs_run (DPO.self st') = epochs_run (DPO.self st) /\
    0 <= k /\
    global_step (DPO.self st') = global_step (DPO.self st) + k /\
    count_optimizer_steps (trace (DPO.world st'))
    = count_optimizer_steps (trace (DPO.world st)) + k /\
    count_lr_scheduler_steps (trace (DPO.world st'))
    = count_lr_scheduler_steps (trace (DPO.world st))
      + (if _lr_scheduler (DPO.self st) then k else 0).
Proof.
  revert idx st. induction bs as [|b bs IH]; intros idx st Hr.
  { exists st, false, 0. cbn. split; [reflexivity|]. split; [apply same_schedule_refl|].
    destruct (_lr_scheduler (DPO.self st)); repeat split; lia. }
  pose proof (dpo_microbatch_summary e idx b st Hr) as Hm. cbn zeta in Hm.
  cbn [for_enumerate].
  destruct (dpo_stop (DPO.self st) idx).
  { rewrite Hm. cbn [bind fst snd]. exists st, true, 0.
    split; [reflexivity|]. split; [apply same_schedule_refl|].
    destruct (_lr_scheduler (DPO.self st)); repeat split; lia. }
  destruct Hm as (st2 & Hm & Hsame & Hep & Hg & _ & Hcs & Hlr).
  set (k := if (idx + 1) mod _gradient_accumulation_steps (DPO.self st) =? 0 then 1 else 0) in *.
  assert (Hk : 0 <= k) by (unfold k; destruct (_ =? 0); lia).
  rewrite Hm. cbn [bind fst snd].
  assert (Hr2 : ready (DPO.self st2)) by (eapply same_schedule_ready; eassumption).
  pose proof Hsame as (_ & _ & _ & _ & _ & _ & _ & _ & Hsched & _).
  destruct (IH (idx + 1) st2 Hr2)
    as (st' & stop & k' & Hloop & Hsame' & Hep' & Hk' & Hg' & Hcs' & Hlr').
  rewrite Hsched in Hlr'.
  exists st', stop, (k + k'). split; [exact Hloop|].
  split; [eapply same_schedule_trans; eassumption|].
  destruct (_lr_scheduler (DPO.self st)); repeat split; lia.
Qed.

Lemma dpo_run_summary (e : Z) (bs : list DPOBatch) (idx : Z) (st : DPO.State) :
  ready (DPO.self st) ->
  let A := _gradient_accumulation_steps (DPO.self st) in
  0 <= idx ->
  (forall m, max_steps_per_epoch (DPO.self st) = Some m -> idx <= A * m) ->
  let n_end :=
    match max_steps_per_epoch (DPO.self st) with
    | Some m => Z.min (idx + Z.of_nat (length bs)) (A * m)
    | None => idx + Z.of_nat (length bs)
    end in
  exists st' stop,
    for_enumerate (DPO.microbatch e) idx bs st = Ok (st', stop) /\
    same_schedule (DPO.self st) (DPO.self st') /\
    epochs_run (DPO.self st') = epochs_run (DPO.self st) /\
    global_step (DPO.self st') = global_step (DPO.self st) + (n_end / A - idx / A) /\
    count_backward (trace (DPO.world st'))
    = count_backward (trace (DPO.world st)) + (n_end - idx) /\
    count_optimizer_steps (trace (DPO.world st'))
    = count_optimizer_steps (trace (DPO.world st)) + (n_end / A - idx / A).
Proof.
  revert idx st. induction bs as [|b bs IH]; intros idx st Hr A Hidx Hcap n_end.
  { exists st, false. cbn [for_enumerate].
    assert (Hn : n_end = idx).
    { unfold n_end. cbn [length]. destruct (max_steps_per_epoch (DPO.self st)) as [m|];
        [specialize (Hcap m eq_refl)|]; lia. }
    rewrite Hn. split; [reflexivity|]. split; [apply same_schedule_refl|].
    repeat split; lia. }
  pose proof Hr as (HA & _). fold A in HA.
  pose proof (dpo_microbatch_summary e idx b st Hr) as Hm. cbn zeta in Hm. fold A in Hm.
  pose proof (div_succ A idx HA) as Hdiv.
  set (k := if (idx + 1) mod A =? 0 then 1 else 0) in *.
  cbn [for_enumerate].
  assert (Hlen : idx + Z.of_nat (length (b :: bs)) = idx + 1 + Z.of_nat (length bs))
    by (cbn [length]; lia).
  unfold n_end. clear n_end. rewrite Hlen.
  unfold dpo_stop in Hm. fold A in Hm.
  destruct (max_steps_per_epoch (DPO.self st)) as [m|] eqn:HM.
  - specialize (Hcap m eq_refl).
    destruct (Z.eqb_spec (idx / A) m) as [Heq|Hne].
    + rewrite Hm. cbn [bind fst snd].
      assert (Hend : idx = A * m).
      { pose proof (Z.div_mod idx A ltac:(lia)) as E.
        pose proof (Z.mod_pos_bound idx A HA). rewrite Heq in E. nia. }
      replace (Z.min (idx + 1 + Z.of_nat (length bs)) (A * m)) with idx by lia.
      exists st, true. split; [reflexivity|]. split; [apply same_schedule_refl|].
      repeat split; lia.
    + destruct Hm as (st2 & Hm & Hsame & Hep & Hg & Hcb & Hcs & _).
      rewrite Hm. cbn [bind fst snd].
      assert (Hlt : idx < A * m).
      { destruct (Z.eq_dec idx (A * m)) as [E|E]; [|lia].
        exfalso. apply Hne. rewrite E, Z.mul_comm. apply Z.div_mul. lia. }
      pose proof Hsame as (_ & _ & HM2 & HA2 & _).
      assert (Hr2 : ready (DPO.self st2)) by (eapply same_schedule_ready; eassumption).
      specialize (IH (idx + 1) st2 Hr2). cbn zeta in IH.
      rewrite HM2, HA2, HM in IH. fold A in IH.
      destruct IH as (st' & stop & Hloop & Hsame' & Hep' & Hg' & Hcb' & Hcs').
      { lia. }
      { intros m' Hm'. injection Hm' as <-. lia. }
      exists st', stop. split; [exact Hloop|].
      split; [eapply same_schedule_trans; eassumption|].
      repeat split; lia.
  - destruct Hm as (st2 & Hm & Hsame & Hep & Hg & Hcb & Hcs & _).
    rewrite Hm. cbn [bind fst snd].
    pose proof Hsame as (_ & _ & HM2 & HA2 & _).
    assert (Hr2 : ready (DPO.self st2)) by (eapply same_schedule_ready; eassumption).
    specialize (IH (idx + 1) st2 Hr2). cbn zeta in IH.
    rewrite HM2, HA2, HM in IH. fold A in IH.
    destruct IH as (st' & stop & Hloop & Hsame' & Hep' & Hg' & Hcb' & Hcs').
    { lia. }
    { intros m' Hm'. discriminate. }
    exists st', stop. split; [exact Hloop|].
    split; [eapply same_schedule_trans; eassumption|].
    repeat split; lia.
Qed.

Lemma dpo_epoch_regular (dataloader : Z -> list DPOBatch) (e L : Z) (st : DPO.State) :
  ready (DPO.self st) ->
  cap_positive (DPO.self st) ->
  Z.of_nat (length (dataloader e)) = L ->
  exists st',
    DPO.epoch dataloader e st = Ok st' /\
    same_schedule (DPO.self st) (DPO.self st') /\
    epochs_run (DPO.self st') = epochs_run (DPO.self st) + 1 /\
    global_step (DPO.self st') = global_step (DPO.self st) + steps_scheduled (DPO.self st) L /\
    count_backward (trace (DPO.world st'))
    = count_backward (trace (DPO.world st)) + microbatches_processed (DPO.self st) L /\
    count_optimizer_steps (trace (DPO.world st'))
    = count_optimizer_steps (trace (DPO.world st)) + steps_scheduled (DPO.self st) L.
Proof.
  intros Hr Hcap HL. pose proof Hr as (HA & _).
  destruct (dpo_run_summary e (dataloader e) 0 st Hr)
    as (st' & stop & Hloop & Hsame & Hep & Hg & Hcb & Hcs).
  { lia. }
  { intros m Hm. apply Hcap in Hm. nia. }
  rewrite HL in Hg, Hcb, Hcs. cbn [Z.add] in Hg, Hcb, Hcs.
  change (match max_steps_per_epoch (DPO.self st) with
          | Some m => Z.min L (_gradient_accumulation_steps (DPO.self st) * m)
          | None => L
          end) with (microbatches_processed (DPO.self st) L) in Hg, Hcb, Hcs.
  rewrite steps_of_microbatches, Z.div_0_l, Z.sub_0_r in Hg, Hcs by lia.
  rewrite Z.sub_0_r in Hcb.
  unfold DPO.epoch. rewrite Hloop. cbn [bind fst].
  eexists. split; [reflexivity|]. cbn [DPO.self DPO.world set_epochs_run epochs_run global_step].
  split; [eapply same_schedule_trans; [exact Hsame | apply same_schedule_set_epochs_run]|].
  split; [lia|]. split; [exact Hg|]. split; [exact Hcb | exact Hcs].
Qed.

Lemma dpo_epochs_regular (dataloader : Z -> list DPOBatch) (L : Z) (es : list Z)
    (st : DPO.State) :
  ready (DPO.self st) ->
  cap_positive (DPO.self st) ->
  (forall e, Z.of_nat (length (dataloader e)) = L) ->
  let n := Z.of_nat (length es) in
  exists st',
    for_each (DPO.epoch dataloader) es st = Ok st' /\
    same_schedule (DPO.self st) (DPO.self st') /\
    epochs_run (DPO.self st') = epochs_run (DPO.self st) + n /\
    global_step (DPO.self st') = global_step (DPO.self st) + n * steps_scheduled (DPO.self st) L /\
    count_backward (trace (DPO.world st'))
    = count_backward (trace (DPO.world st)) + n * microbatches_processed (DPO.self st) L /\
    count_optimizer_steps (trace (DPO.world st'))
    = count_optimizer_steps (trace (DPO.world st)) + n * steps_scheduled (DPO.self st) L.
Proof.
  revert st. induction es as [|e es IH]; intros st Hr Hcap HL n.
  { exists st. cbn. split; [reflexivity|]. split; [apply same_schedule_refl|].
    repeat split; lia. }
  destruct (dpo_epoch_regular dataloader e L st Hr Hcap (HL e))
    as (st1 & Hep1 & Hsame1 & He1 & Hg1 & Hcb1 & Hcs1).
  assert (Hr1 : ready (DPO.self st1)) by (eapply same_schedule_ready; eassumption).
  destruct (same_schedule_steps _ _ L Hsame1) as (Hst & Hmp & Hcp).
  destruct (IH st1 Hr1 (Hcp Hcap) HL) as (st' & Hloop & Hsame' & He' & Hg' & Hcb' & Hcs').
  rewrite Hst, Hmp in *.
  exists st'. cbn [for_each]. rewrite Hep1. cbn [bind].
  split; [exact Hloop|]. split; [eapply same_schedule_trans; eassumption|].
  unfold n. cbn [length]. rewrite Nat2Z.inj_succ. repeat split; lia.
Qed.

(** A whole run of the preference recipe over a data source that yields
    [L] microbatches in every epoch. *)
Lemma dpo_train_regular (dataloader : Z -> list DPOBatch) (L : Z) (s : Recipe) (w : World) :
  ready s ->
  cap_positive s ->
  (forall e, Z.of_nat (length (dataloader e)) = L) ->
  epochs_run s < total_epochs s ->
  let n := total_epochs s - epochs_run s in
  exists r' w',
    DPO.train dataloader (s, w) = Ok (r', w') /\
    same_schedule s r' /\
    epochs_run r' = total_epochs s /\
    global_step r' = global_step s + n * steps_scheduled s L /\
    count_backward (trace w') = count_backward (trace w) + n * microbatches_processed s L /\
    count_optimizer_steps (trace w') = count_optimizer_steps (trace w) + n * steps_scheduled s L /\
    exists before,
      trace w'
      = before
        ++ [EvSaveCheckpoint
              {| tp_seed := seed s;
                 tp_epochs_run := total_epochs s;
                 tp_total_epochs := total_epochs s;
                 tp_max_steps_per_epoch := max_steps_per_epoch s |}
              (total_epochs s - 1) true None].
Proof.
  intros Hr Hcap HL Hlt n.
  set (st0 := {| DPO.self := s; DPO.world := w;
                 DPO.running_loss := Q2Qc 0; DPO.num_tokens := 0 |}).
  destruct (dpo_epochs_regular dataloader L (range (epochs_run s) (total_epochs s)) st0 Hr Hcap HL)
    as (st' & Hloop & Hsame & He & Hg & Hcb & Hcs).
  rewrite length_range in He, Hg, Hcb, Hcs by lia.
  cbn [st0 DPO.self DPO.world] in Hsame, He, Hg, Hcb, Hcs. fold n in He, Hg, Hcb, Hcs.
  pose proof Hsame as (Hseed & HT & HM & _).
  unfold DPO.train. cbn [fst snd]. fold st0. rewrite Hloop. cbn [bind].
  rewrite (loop_variable_range _ _ Hlt). cbn [bind].
  rewrite dpo_save_checkpoint_spec. cbn [bind].
  eexists _, _. split; [reflexivity|]. split; [exact Hsame|].
  split; [unfold n in He; lia|]. split; [exact Hg|].
  cbn [emit trace].
  split; [rewrite count_backward_save; exact Hcb|].
  split; [rewrite count_optimizer_steps_save; exact Hcs|].
  exists (trace (DPO.world st')). rewrite Hseed, HT, HM, He.
  unfold n. replace (epochs_run s + (total_epochs s - epochs_run s)) with (total_epochs s) by lia.
  reflexivity.
Qed.

End DPOCounters.

(** ** Step accounting of a whole run *)

Section Accounting.

Context {T : Torch}.

Lemma kd_epochs_counters (dataloader : Z -> list KDBatch) (es : list Z) (st : KD.State) :
  ready (KD.self st) ->
  exists st' k,
    for_each (KD.epoch dataloader) es st = Ok st' /\
    same_schedule (KD.self st) (KD.self st') /\
    epochs_run (KD.self st') = epochs_run (KD.self st) + Z.of_nat (length es) /\
    0 <= k /\
    global_step (KD.self st') = global_step (KD.self st) + k /\
    count_optimizer_steps (trace (KD.world st'))
    = count_optimizer_steps (trace (KD.world st)) + k /\
    count_lr_scheduler_steps (trace (KD.world st'))
    = count_lr_scheduler_steps (trace (KD.world st)) + k.
Proof.
  revert st. induction es as [|e es IH]; intros st Hr.
  { exists st, 0. cbn. split; [reflexivity|]. split; [apply same_schedule_refl|].
    repeat split; lia. }
  destruct (kd_loop_counters e (dataloader e) 0 st Hr)
    as (st1 & stop & k1 & Hloop & Hsame1 & He1 & Hk1 & Hg1 & Hcs1 & Hlr1).
  set (st2 := {| KD.self := set_epochs_run (epochs_run (KD.self st1) + 1) (KD.self st1);
                 KD.world := KD.world st1;
                 KD.running_class_loss := KD.running_class_loss st1;
                 KD.running_kd_loss := KD.running_kd_loss st1;
                 KD.num_tokens := KD.num_tokens st1 |}).
  assert (Hsame2 : same_schedule (KD.self st) (KD.self st2)).
  { eapply same_schedule_trans; [exact Hsame1 | apply same_schedule_set_epochs_run]. }
  assert (Hr2 : ready (KD.self st2)) by (eapply same_schedule_ready; eassumption).
  destruct (IH st2 Hr2) as (st' & k & Hrest & Hsame' & He' & Hk & Hg' & Hcs' & Hlr').
  cbn [st2 KD.self KD.world set_epochs_run epochs_run global_step] in He', Hg', Hcs', Hlr'.
  exists st', (k1 + k). cbn [for_each]. unfold KD.epoch at 1. rewrite Hloop. cbn [bind fst].
  fold st2. split; [exact Hrest|].
  split; [eapply same_schedule_trans; eassumption|].
  cbn [length]. rewrite Nat2Z.inj_succ. repeat split; lia.
Qed.

Lemma dpo_epochs_counters (dataloader : Z -> list DPOBatch) (es : list Z) (st : DPO.State) :
  ready (DPO.self st) ->
  exists st' k,
    for_each (DPO.epoch dataloader) es st = Ok st' /\
    same_schedule (DPO.self st) (DPO.self st') /\
    epochs_run (DPO.self st') = epochs_run (DPO.self st) + Z.of_nat (length es) /\
    0 <= k /\
    global_step (DPO.self st') = global_step (DPO.self st) + k /\
    count_optimizer_steps (trace (DPO.world st'))
    = count_optimizer_steps (trace (DPO.world st)) + k /\
    count_lr_scheduler_steps (trace (DPO.world st'))
    = count_lr_scheduler_steps (trace (DPO.world st))
      + (if _lr_scheduler (DPO.self st) then k else 0).
Proof.
  revert st. induction es as [|e es IH]; intros st Hr.
  { exists st, 0. cbn. split; [reflexivity|]. split; [apply same_schedule_refl|].
    destruct (_lr_scheduler (DPO.self st)); repeat split; lia. }
  destruct (dpo_loop_counters e (dataloader e) 0 st Hr)
    as (st1 & stop & k1 & Hloop & Hsame1 & He1 & Hk1 & Hg1 & Hcs1 & Hlr1).
  set (st2 := {| DPO.self := set_epochs_run (epochs_run (DPO.self st1) + 1) (DPO.self st1);
                 DPO.world := DPO.world st1;
                 DPO.running_loss := DPO.running_loss st1;
                 DPO.num_tokens := DPO.num_tokens st1 |}).
  assert (Hsame2 : same_schedule (DPO.self st) (DPO.self st2)).
  { eapply same_schedule_trans; [exact Hsame1 | apply same_schedule_set_epochs_run]. }
  assert (Hr2 : ready (DPO.self st2)) by (eapply same_schedule_ready; eassumption).
  pose proof Hsame2 as (_ & _ & _ & _ & _ & _ & _ & _ & Hsched & _).
  destruct (IH st2 Hr2) as (st' & k & Hrest & Hsame' & He' & Hk & Hg' & Hcs' & Hlr').
  rewrite Hsched in Hlr'.
  cbn [st2 DPO.self DPO.world set_epochs_run epochs_run global_step] in He', Hg', Hcs', Hlr'.
  exists st', (k1 + k). cbn [for_each]. unfold DPO.epoch at 1. rewrite Hloop. cbn [bind fst].
  fold st2. split; [exact Hrest|].
  split; [eapply same_schedule_trans; eassumption|].
  cbn [length]. rewrite Nat2Z.inj_succ.
  destruct (_lr_scheduler (DPO.self st)); repeat split; lia.
Qed.

End Accounting.

(** X6.  [train] of a recipe whose schedule is set and not degenerate
    ([ready]: a positive accumulation factor, a non-zero logging cadence,
    [save_every_n_steps] and [_steps_per_epoch] set and non-zero, the
    checkpoint prefix chosen; a precondition on the recipe, not a
    consequence of [setup]), with at least one epoch left, returns for
    every data source, in both recipes.  [global_step] advances by exactly the number of optimizer steps taken;
    the learning-rate scheduler is stepped once per optimizer step (in the
    preference recipe only when one is configured, and never otherwise);
    [epochs_run] ends at [total_epochs]; nothing else of the schedule
    changes. *)
Theorem train_step_accounting {T : Torch}
    (kd_dataloader : Z -> list KDBatch) (dpo_dataloader : Z -> list DPOBatch)
    (s : Recipe) (w : World) :
  ready s ->
  epochs_run s < total_epochs s ->
  (exists r' w' k,
     KD.train kd_dataloader (s, w) = Ok (r', w') /\
     same_schedule s r' /\ epochs_run r' = total_epochs s /\ 0 <= k /\
     global_step r' = global_step s + k /\
     count_optimizer_steps (trace w') = count_optimizer_steps (trace w) + k /\
     count_lr_scheduler_steps (trace w') = count_lr_scheduler_steps (trace w) + k) /\
  (exists r' w' k,
     DPO.train dpo_dataloader (s, w) = Ok (r', w') /\
     same_schedule s r' /\ epochs_run r' = total_epochs s /\ 0 <= k /\
     global_step r' = global_step s + k /\
     count_optimizer_steps (trace w') = count_optimizer_steps (trace w) + k /\
     count_lr_scheduler_steps (trace w')
     = count_lr_scheduler_steps (trace w) + (if _lr_scheduler s then k else 0)).
Proof.
  intros Hr Hlt. split.
  - set (st0 := {| KD.self := s; KD.world := w;
                   KD.running_class_loss := Q2Qc 0; KD.running_kd_loss := Q2Qc 0;
                   KD.num_tokens := 0 |}).
    destruct (kd_epochs_counters kd_dataloader (range (epochs_run s) (total_epochs s)) st0 Hr)
      as (st' & k & Hloop & Hsame & He & Hk & Hg & Hcs & Hlr).
    rewrite length_range in He by lia.
    cbn [st0 KD.self KD.world] in Hsame, He, Hg, Hcs, Hlr.
    assert (Hr' : ready (KD.self st')) by (eapply same_schedule_ready; eassumption).
    pose proof Hr' as (_ & _ & _ & (p & Hp & Hp0) & (pre & Hpre)).
    unfold KD.train. cbn [fst snd]. fold st0. rewrite Hloop. cbn [bind].
    rewrite (loop_variable_range _ _ Hlt). cbn [bind].
    rewrite (kd_save_checkpoint_spec _ _ _ _ p pre) by assumption. cbn [bind].
    eexists _, _, k. split; [reflexivity|]. cbn [emit trace].
    rewrite count_optimizer_steps_save, count_lr_scheduler_steps_save.
    split; [exact Hsame|]. repeat split; lia.
  - set (st0 := {| DPO.self := s; DPO.world := w;
                   DPO.running_loss := Q2Qc 0; DPO.num_tokens := 0 |}).
    destruct (dpo_epochs_counters dpo_dataloader (range (epochs_run s) (total_epochs s)) st0 Hr)
      as (st' & k & Hloop & Hsame & He & Hk & Hg & Hcs & Hlr).
    rewrite length_range in He by lia.
    cbn [st0 DPO.self DPO.world] in Hsame, He, Hg, Hcs, Hlr.
    unfold DPO.train. cbn [fst snd]. fold st0. rewrite Hloop. cbn [bind].
    rewrite (loop_variable_range _ _ Hlt). cbn [bind].
    rewrite dpo_save_checkpoint_spec. cbn [bind].
    eexists _, _, k. split; [reflexivity|]. cbn [emit trace].
    rewrite count_optimizer_steps_save, count_lr_scheduler_steps_save.
    split; [exact Hsame|]. repeat split; lia || assumption.
Qed.

Lemma train_step_accounting_witness :
  exists r' w' k,
    DPO.train Sample.dpo_dataloader3 (Sample.recipe 0 0 None, Sample.world0) = Ok (r', w') /\
    epochs_run r' = 2 /\ global_step r' = 0 + k /\
    count_optimizer_steps (trace w') = 0 + k /\
    count_lr_scheduler_steps (trace w') = 0 + k.
Proof.
  destruct (train_step_accounting (T := Sample.torch) Sample.kd_dataloader3
              Sample.dpo_dataloader3 (Sample.recipe 0 0 None) Sample.world0)
    as (_ & (r' & w' & k & H1 & _ & H2 & _ & H3 & H4 & H5)).
  - unfold ready; cbn. repeat split; try lia; eexists; split; try reflexivity; lia.
  - cbn; lia.
  - exists r', w', k. repeat split; assumption.
Defined.

(** X7.  A run over a data source that yields [L] microbatches in every
    epoch, from a recipe that has been through [setup] (fresh or resumed)
    with [n] epochs left and a positive or absent step cap.  Both recipes
    put [n * min(L, A * cap)] microbatches through forward and backward
    ([n * L] without a cap), take [n * min(cap, L // A)] optimizer steps
    ([n * (L // A)] without a cap) and leave [global_step] advanced by
    that number: the leftover [L % A] microbatches of an epoch are
    processed but earn no step of their own in that epoch. *)
Theorem regular_run_totals {T : Torch}
    (kd_dataloader : Z -> list KDBatch) (dpo_dataloader : Z -> list DPOBatch)
    (L : Z) (s : Recipe) (w : World) :
  ready s ->
  cap_positive s ->
  (forall e, Z.of_nat (length (kd_dataloader e)) = L) ->
  (forall e, Z.of_nat (length (dpo_dataloader e)) = L) ->
  epochs_run s < total_epochs s ->
  let n := total_epochs s - epochs_run s in
  let totals (r' : Recipe) (w' : World) :=
    epochs_run r' = total_epochs s /\
    global_step r' = global_step s + n * steps_scheduled s L /\
    count_backward (trace w') = count_backward (trace w) + n * microbatches_processed s L /\
    count_optimizer_steps (trace w')
    = count_optimizer_steps (trace w) + n * steps_scheduled s L in
  (exists r' w', KD.train kd_dataloader (s, w) = Ok (r', w') /\ totals r' w') /\
  (exists r' w', DPO.train dpo_dataloader (s, w) = Ok (r', w') /\ totals r' w') /\
  steps_scheduled s L = microbatches_processed s L / _gradient_accumulation_steps s.
Proof.
  intros Hr Hcap Hkd Hdpo Hlt n totals. split; [|split].
  - destruct (kd_train_regular kd_dataloader L s w Hr Hcap Hkd Hlt)
      as (r' & w' & p & pre & Htrain & _ & _ & He & Hg & Hcb & Hcs & _).
    exists r', w'. split; [exact Htrain|]. unfold totals. fold n in Hg, Hcb, Hcs.
    split; [exact He|]. split; [exact Hg|]. split; [exact Hcb | exact Hcs].
  - destruct (dpo_train_regular dpo_dataloader L s w Hr Hcap Hdpo Hlt)
      as (r' & w' & Htrain & _ & He & Hg & Hcb & Hcs & _).
    exists r', w'. split; [exact Htrain|]. unfold totals. fold n in Hg, Hcb, Hcs.
    split; [exact He|]. split; [exact Hg|]. split; [exact Hcb | exact Hcs].
  - symmetry. apply steps_of_microbatches. apply Hr.
Qed.

Lemma regular_run_totals_witness :
  (exists r' w',
     KD.train Sample.kd_dataloader3 (Sample.recipe 0 0 None, Sample.world0) = Ok (r', w') /\
     global_step r' = 2 /\ count_backward (trace w') = 6 /\
     count_optimizer_steps (trace w') = 2) /\
  (exists r' w',
     DPO.train Sample.dpo_dataloader3 (Sample.recipe 0 0 None, Sample.world0) = Ok (r', w') /\
     global_step r' = 2 /\ count_backward (trace w') = 6 /\
     count_optimizer_steps (trace w') = 2).
Proof.
  destruct (regular_run_totals (T := Sample.torch) Sample.kd_dataloader3
              Sample.dpo_dataloader3 3 (Sample.recipe 0 0 None) Sample.world0)
    as ((r1 & w1 & H1 & _ & Hg1 & Hb1 & Hs1) & (r2 & w2 & H2 & _ & Hg2 & Hb2 & Hs2) & _).
  - unfold ready; cbn. repeat split; try lia; eexists; split; try reflexivity; lia.
  - intros m Hm. discriminate Hm.
  - intros e. reflexivity.
  - intros e. reflexivity.
  - cbn; lia.
  - split; [exists r1, w1 | exists r2, w2]; (split; [assumption|]);
      (split; [assumption|]); split; assumption.
Defined.

(** ** A fresh run, from the constructor to the last checkpoint *)

Section FreshRun.

Context {T : Torch}.

Lemma steps_scheduled_pos (s : Recipe) (L : Z) :
  0 < _gradient_accumulation_steps s ->
  _gradient_accumulation_steps s <= L ->
  cap_positive s ->
  0 < steps_scheduled s L.
Proof.
  intros HA HL Hcap. unfold steps_scheduled.
  assert (0 < L / _gradient_accumulation_steps s) by (apply Z.div_str_pos; lia).
  destruct (max_steps_per_epoch s) as [m|] eqn:HM; [specialize (Hcap m HM)|]; lia.
Qed.

Ltac fresh_schedule Hk Hres :=
  cbn [save_every_n_steps set_global_step set_steps_per_epoch _steps_per_epoch
       set_checkpoint_dir_prefix set_save_every_n_steps _resume_from_checkpoint
       epochs_run];
  rewrite ?Hk;
  cbn [save_every_n_steps set_global_step set_steps_per_epoch _steps_per_epoch
       set_checkpoint_dir_prefix set_save_every_n_steps _resume_from_checkpoint
       epochs_run];
  rewrite Hres; eexists; (split; [reflexivity|]);
  unfold ready;
  cbn [save_every_n_steps set_global_step set_steps_per_epoch _steps_per_epoch
       set_checkpoint_dir_prefix set_save_every_n_steps _resume_from_checkpoint
       epochs_run global_step seed total_epochs max_steps_per_epoch
       _gradient_accumulation_steps _lr_scheduler _log_every_n_steps
       checkpoint_dir_prefix].

(** The schedule part of [setup] on a run that does not resume and whose
    data source fills at least one accumulation window. *)
Lemma setup_schedule_fresh (L : Z) (s : Recipe) :
  _resume_from_checkpoint s = false ->
  0 < _gradient_accumulation_steps s ->
  _gradient_accumulation_steps s <= L ->
  cap_positive s ->
  _log_every_n_steps s <> 0 ->
  save_every_n_steps s <> Some 0 ->
  epochs_run s = 0 ->
  global_step s = 0 ->
  exists r,
    setup_schedule L s = Ok (r, false) /\
    ready r /\
    _steps_per_epoch r = Some (steps_scheduled s L) /\
    global_step r = 0 /\ epochs_run r = 0 /\
    seed r = seed s /\ total_epochs r = total_epochs s /\
    max_steps_per_epoch r = max_steps_per_epoch s /\
    _gradient_accumulation_steps r = _gradient_accumulation_steps s /\
    _lr_scheduler r = _lr_scheduler s.
Proof.
  intros Hres HA HL Hcap Hlog Hsave He Hg.
  pose proof (steps_scheduled_pos s L HA HL Hcap) as Hpos.
  unfold setup_schedule, steps_scheduled in *.
  rewrite floordiv_Ok by lia. cbn [bind].
  set (spe := L / _gradient_accumulation_steps s) in *.
  cbn [max_steps_per_epoch set_steps_per_epoch].
  destruct (max_steps_per_epoch s) as [m|] eqn:HM.
  - destruct (Z.ltb_spec m spe) as [Hlt|Hge];
      destruct (save_every_n_steps s) as [k|] eqn:Hk;
      fresh_schedule Hk Hres; rewrite ?HM, ?Hk, ?He, ?Hg;
      repeat split; try assumption; try lia; try reflexivity;
      try (eexists; split; [reflexivity|]; try congruence; lia);
      try (eexists; reflexivity); f_equal; lia.
  - destruct (save_every_n_steps s) as [k|] eqn:Hk;
      fresh_schedule Hk Hres; rewrite ?HM, ?Hk, ?He, ?Hg;
      repeat split; try assumption; try lia; try reflexivity;
      try (eexists; split; [reflexivity|]; try congruence; lia);
      try (eexists; reflexivity).
Qed.

End FreshRun.

(** X8.  A fresh run from the constructor to the last checkpoint, over a
    data source of [L >= A] microbatches per epoch, with a positive or
    absent cap, non-zero logging and checkpoint cadences and at least one
    epoch.  [setup] returns; the scheduler is given
    [num_training_steps = total_epochs * _steps_per_epoch] and
    [last_epoch = -1]; [train] returns after exactly [num_training_steps]
    optimizer steps, with [global_step] equal to that number, and its last
    act is a full checkpoint for epoch [total_epochs - 1] whose snapshot
    records [epochs_run = total_epochs].  Both recipes. *)
Theorem fresh_run_follows_schedule {T : Torch} (cfg : Cfg) (w0 : World)
    (base dist : Ckpt)
    (kd_dataloader : Z -> list KDBatch) (dpo_dataloader : Z -> list DPOBatch) (L : Z) :
  cfg_resume_from_checkpoint cfg = false ->
  0 < cfg_gradient_accumulation_steps cfg ->
  cfg_gradient_accumulation_steps cfg <= L ->
  (forall m, cfg_max_steps_per_epoch cfg = Some m -> 0 < m) ->
  cfg_log_every_n_steps cfg <> Some 0 ->
  cfg_save_every_n_steps cfg <> Some 0 ->
  0 < cfg_epochs cfg ->
  (forall e, Z.of_nat (length (kd_dataloader e)) = L) ->
  (forall e, Z.of_nat (length (dpo_dataloader e)) = L) ->
  let s0 := fst (__init__ cfg w0) in
  let N := cfg_epochs cfg * steps_scheduled s0 L in
  let finished (r' : Recipe) (w' : World) :=
    global_step r' = N /\ epochs_run r' = cfg_epochs cfg /\
    count_optimizer_steps (trace w') = count_optimizer_steps (trace w0) + N /\
    exists before pre,
      trace w'
      = before
        ++ [EvSaveCheckpoint
              {| tp_seed := seed s0;
                 tp_epochs_run := cfg_epochs cfg;
                 tp_total_epochs := cfg_epochs cfg;
                 tp_max_steps_per_epoch := cfg_max_steps_per_epoch cfg |}
              (cfg_epochs cfg - 1) true pre] in
  (exists r w1 d r' w',
     KD.setup base dist L (__init__ cfg w0) = Ok (r, w1, d) /\
     lr_scheduler_args r = Ok (N, -1) /\
     KD.train kd_dataloader (r, w1) = Ok (r', w') /\ finished r' w') /\
  (exists r w1 d r' w',
     DPO.setup base dist L (__init__ cfg w0) = Ok (r, w1, d) /\
     lr_scheduler_args r = Ok (N, -1) /\
     DPO.train dpo_dataloader (r, w1) = Ok (r', w') /\ finished r' w').
Proof.
  intros Hres HA HL Hcap Hlog Hsave Hepochs Hkd Hdpo s0 N finished.
  assert (Hlog0 : _log_every_n_steps s0 <> 0).
  { unfold s0. cbn [__init__ fst _log_every_n_steps].
    destruct (cfg_log_every_n_steps cfg) as [n|]; [congruence | lia]. }
  destruct (setup_schedule_fresh L s0 Hres HA HL Hcap Hlog0 Hsave eq_refl eq_refl)
    as (r & Hsched & Hr & Hspe & Hg & He & Hseed & HT & HM & HAr & _).
  change (total_epochs s0) with (cfg_epochs cfg) in HT.
  change (max_steps_per_epoch s0) with (cfg_max_steps_per_epoch cfg) in HM.
  assert (Hss : steps_scheduled r L = steps_scheduled s0 L).
  { unfold steps_scheduled. now rewrite HM, HAr. }
  assert (Hcapr : cap_positive r).
  { intros m Hm. apply Hcap. now rewrite <- HM. }
  assert (Hlt : epochs_run r < total_epochs r) by lia.
  assert (Hargs : lr_scheduler_args r = Ok (N, -1)).
  { unfold lr_scheduler_args. rewrite Hspe. cbn [getattr bind]. rewrite HT, Hg. reflexivity. }
  assert (Hsetup : forall update,
             (sw1 <- setup_resume update base dist (__init__ cfg w0) ;;
              r0 <- setup_schedule L (fst sw1) ;;
              Ok (fst r0, snd sw1, snd r0)) = Ok (r, snd (__init__ cfg w0), false)).
  { intros update. rewrite setup_resume_off by exact Hres. cbn [bind].
    fold s0. rewrite Hsched. reflexivity. }
  assert (Hmod : (global_step r + (total_epochs r - epochs_run r) * steps_scheduled r L)
                 mod steps_scheduled s0 L = 0).
  { rewrite Hg, He, Hss, Z.add_0_l, Z.sub_0_r. apply Z.mod_mul.
    pose proof (steps_scheduled_pos s0 L HA HL Hcap). lia. }
  split.
  - destruct (kd_train_regular kd_dataloader L r (snd (__init__ cfg w0)) Hr Hcapr Hkd Hlt)
      as (r' & w' & p & pre & Htrain & _ & Hp & He' & Hg' & _ & Hcs & before & Htr).
    rewrite Hspe in Hp. injection Hp as <-.
    rewrite Hmod in Htr. cbn [Z.eqb] in Htr.
    exists r, (snd (__init__ cfg w0)), false, r', w'.
    split; [apply (Hsetup KD._update_recipe_state)|].
    split; [exact Hargs|]. split; [exact Htrain|].
    unfold finished. rewrite Hg, He, Hss, HT in *.
    split; [rewrite Hg'; unfold N; lia|]. split; [exact He'|].
    split; [rewrite Hcs; cbn [__init__ snd set_seed set_rng trace]; unfold N; lia|].
    exists before, (Some pre). rewrite Htr, Hseed, HM. reflexivity.
  - destruct (dpo_train_regular dpo_dataloader L r (snd (__init__ cfg w0)) Hr Hcapr Hdpo Hlt)
      as (r' & w' & Htrain & _ & He' & Hg' & _ & Hcs & before & Htr).
    exists r, (snd (__init__ cfg w0)), false, r', w'.
    split; [apply (Hsetup DPO._update_recipe_state)|].
    split; [exact Hargs|]. split; [exact Htrain|].
    unfold finished. rewrite Hg, He, Hss, HT in *.
    split; [rewrite Hg'; unfold N; lia|]. split; [exact He'|].
    split; [rewrite Hcs; cbn [__init__ snd set_seed set_rng trace]; unfold N; lia|].
    exists before, None. rewrite Htr, Hseed, HM. reflexivity.
Qed.

Lemma fresh_run_follows_schedule_witness :
  let cfg := Sample.cfg false (Some 3) None in
  (exists r w1 d r' w',
     KD.setup Sample.ckpt Sample.ckpt 8 (__init__ cfg Sample.world0) = Ok (r, w1, d) /\
     lr_scheduler_args r = Ok (6, -1) /\
     KD.train Sample.kd_dataloader (r, w1) = Ok (r', w') /\
     global_step r' = 6 /\ count_optimizer_steps (trace w') = 6) /\
  (exists r w1 d r' w',
     DPO.setup Sample.ckpt Sample.ckpt 8 (__init__ cfg Sample.world0) = Ok (r, w1, d) /\
     lr_scheduler_args r = Ok (6, -1) /\
     DPO.train Sample.dpo_dataloader (r, w1) = Ok (r', w') /\
     global_step r' = 6 /\ count_optimizer_steps (trace w') = 6).
Proof.
  intros cfg.
  destruct (fresh_run_follows_schedule (T := Sample.torch) cfg Sample.world0
              Sample.ckpt Sample.ckpt Sample.kd_dataloader Sample.dpo_dataloader 8)
    as ((r1 & w1 & d1 & r1' & w1' & Hs1 & Ha1 & Ht1 & Hg1 & _ & Hc1 & _)
        & (r2 & w2 & d2 & r2' & w2' & Hs2 & Ha2 & Ht2 & Hg2 & _ & Hc2 & _)).
  - reflexivity.
  - cbn; lia.
  - cbn; lia.
  - intros m Hm. cbn in Hm. injection Hm as <-. lia.
  - discriminate.
  - discriminate.
  - cbn; lia.
  - intros e. reflexivity.
  - intros e. reflexivity.
  - split; [exists r1, w1, d1, r1', w1' | exists r2, w2, d2, r2', w2'];
      (split; [assumption|]); (split; [assumption|]); (split; [assumption|]);
      split; assumption.
Defined.

(** ** The checkpoint policy of the preference recipe *)

Section DPOCheckpoints.

Context {T : Torch}.

Lemma dpo_step_events_view (s : Recipe) (e : Z) (f : DPO.Forwarded) (r : Qc) (nt : Z) (g : Grad)
    (n : Z) :
  save_every_n_steps s = Some n ->
  checkpoint_view (dpo_step_events s e f r nt g)
  = ckpt_block n (total_epochs s - 1) (e, global_step s + 1).
Proof.
  intros Hn. unfold dpo_step_events, dpo_save_events, ckpt_block. rewrite Hn.
  cbn [fst snd].
  destruct (_lr_scheduler s), (_ mod _log_every_n_steps s =? 0), (_ && _);
    cbn; rewrite Z.add_simpl_r; reflexivity.
Qed.

Lemma dpo_accumulate_view (b : DPOBatch) (st : DPO.State) :
  checkpoint_view (trace (DPO.world (snd (DPO.accumulate b st))))
  = checkpoint_view (trace (DPO.world st)).
Proof.
  cbn [DPO.accumulate snd DPO.world backward emit set_grads trace].
  pose proof (forward_passes_spec b (DPO.world st)) as (_ & _ & _ & Htr & _).
  cbn zeta in Htr. rewrite Htr, !checkpoint_view_app. cbn. now rewrite !app_nil_r.
Qed.

Lemma dpo_loop_view (e n : Z) (bs : list DPOBatch) (idx : Z) (st : DPO.State) :
  ready (DPO.self st) ->
  save_every_n_steps (DPO.self st) = Some n ->
  exists st' stop m,
    for_enumerate (DPO.microbatch e) idx bs st = Ok (st', stop) /\
    same_schedule (DPO.self st) (DPO.self st') /\
    epochs_run (DPO.self st') = epochs_run (DPO.self st) /\
    global_step (DPO.self st') = global_step (DPO.self st) + Z.of_nat m /\
    checkpoint_view (trace (DPO.world st'))
    = checkpoint_view (trace (DPO.world st))
      ++ flat_map (ckpt_block n (total_epochs (DPO.self st) - 1))
                  (epoch_steps e (global_step (DPO.self st)) m).
Proof.
  revert idx st. induction bs as [|b bs IH]; intros idx st Hr Hn.
  { exists st, false, 0%nat. cbn. rewrite app_nil_r, Z.add_0_r.
    split; [reflexivity|]. split; [apply same_schedule_refl|]. repeat split. }
  pose proof (dpo_microbatch_spec e idx b st Hr) as Hm. cbn zeta in Hm.
  cbn [for_enumerate].
  destruct (dpo_stop (DPO.self st) idx).
  { rewrite Hm. cbn [bind fst snd]. exists st, true, 0%nat.
    cbn. rewrite app_nil_r, Z.add_0_r.
    split; [reflexivity|]. split; [apply same_schedule_refl|]. repeat split. }
  destruct Hm as (st2 & Hm & Hst2).
  assert (Hstep :
    exists k : nat,
      same_schedule (DPO.self st) (DPO.self st2) /\
      epochs_run (DPO.self st2) = epochs_run (DPO.self st) /\
      global_step (DPO.self st2) = global_step (DPO.self st) + Z.of_nat k /\
      checkpoint_view (trace (DPO.world st2))
      = checkpoint_view (trace (DPO.world st))
        ++ flat_map (ckpt_block n (total_epochs (DPO.self st) - 1))
                    (epoch_steps e (global_step (DPO.self st)) k)).
  { pose proof (dpo_accumulate_view b st) as Hacc.
    destruct (_ =? 0) in Hst2.
    - destruct (dpo_optimizer_block_spec e (fst (DPO.accumulate b st))
                  (snd (DPO.accumulate b st)) Hr)
        as (st' & Hb & Hself & _ & _ & _ & _ & Htr).
      rewrite Hst2 in Hb. injection Hb as <-.
      exists 1%nat. rewrite Hself, Htr, checkpoint_view_app, Hacc.
      rewrite (dpo_step_events_view _ _ _ _ _ _ n) by assumption.
      change (DPO.self (snd (DPO.accumulate b st))) with (DPO.self st).
      split; [apply same_schedule_set_global_step|].
      repeat split. cbn. now rewrite app_nil_r.
    - subst st2. exists 0%nat. rewrite Hacc.
      change (DPO.self (snd (DPO.accumulate b st))) with (DPO.self st).
      cbn. rewrite app_nil_r, Z.add_0_r.
      split; [apply same_schedule_refl|]. repeat split. }
  destruct Hstep as (k & Hsame & Hep & Hg & Hview).
  rewrite Hm. cbn [bind fst snd].
  assert (Hr2 : ready (DPO.self st2)) by (eapply same_schedule_ready; eassumption).
  pose proof Hsame as (_ & HT & _ & _ & Hsv & _).
  destruct (IH (idx + 1) st2 Hr2) as (st' & stop & m & Hloop & Hsame' & Hep' & Hg' & Hview').
  { now rewrite Hsv. }
  exists st', stop, (k + m)%nat. split; [exact Hloop|].
  split; [eapply same_schedule_trans; eassumption|].
  split; [congruence|]. split; [lia|].
  rewrite Hview', Hview, HT, Hg, <- app_assoc, <- flat_map_app. do 2 f_equal.
  symmetry. apply epoch_steps_app.
Qed.

Lemma dpo_epoch_view (dataloader : Z -> list DPOBatch) (e n : Z) (st : DPO.State) :
  ready (DPO.self st) ->
  save_every_n_steps (DPO.self st) = Some n ->
  exists st' m,
    DPO.epoch dataloader e st = Ok st' /\
    same_schedule (DPO.self st) (DPO.self st') /\
    global_step (DPO.self st') = global_step (DPO.self st) + Z.of_nat m /\
    checkpoint_view (trace (DPO.world st'))
    = checkpoint_view (trace (DPO.world st))
      ++ flat_map (ckpt_block n (total_epochs (DPO.self st) - 1))
                  (epoch_steps e (global_step (DPO.self st)) m).
Proof.
  intros Hr Hn.
  destruct (dpo_loop_view e n (dataloader e) 0 st Hr Hn)
    as (st' & stop & m & Hloop & Hsame & _ & Hg & Hview).
  unfold DPO.epoch. rewrite Hloop. cbn [bind fst].
  eexists _, m. split; [reflexivity|]. cbn [DPO.self DPO.world].
  split; [|split; [exact Hg | exact Hview]].
  eapply same_schedule_trans; [exact Hsame | apply same_schedule_set_epochs_run].
Qed.

Lemma dpo_epochs_view (dataloader : Z -> list DPOBatch) (n : Z) (es : list Z)
    (st : DPO.State) :
  ready (DPO.self st) ->
  save_every_n_steps (DPO.self st) = Some n ->
  exists st' steps,
    for_each (DPO.epoch dataloader) es st = Ok st' /\
    same_schedule (DPO.self st) (DPO.self st') /\
    global_step (DPO.self st') = global_step (DPO.self st) + Z.of_nat (length steps) /\
    consecutive_from (global_step (DPO.self st)) (map snd steps) /\
    Forall (fun p => In (fst p) es) steps /\
    checkpoint_view (trace (DPO.world st'))
    = checkpoint_view (trace (DPO.world st))
      ++ flat_map (ckpt_block n (total_epochs (DPO.self st) - 1)) steps.
Proof.
  revert st. induction es as [|e es IH]; intros st Hr Hn.
  { exists st, []. cbn. rewrite app_nil_r, Z.add_0_r.
    split; [reflexivity|]. split; [apply same_schedule_refl|].
    repeat split. constructor. }
  destruct (dpo_epoch_view dataloader e n st Hr Hn) as (st1 & m & Hep & Hsame & Hg & Hview).
  assert (Hr1 : ready (DPO.self st1)) by (eapply same_schedule_ready; eassumption).
  pose proof Hsame as (_ & HT & _ & _ & Hsv & _).
  destruct (IH st1 Hr1) as (st' & steps & Hloop & Hsame' & Hg' & Hcons & Hin & Hview').
  { now rewrite Hsv. }
  destruct (consecutive_epoch_steps e (global_step (DPO.self st)) m) as (Hc1 & Hl1 & Hf1).
  exists st', (epoch_steps e (global_step (DPO.self st)) m ++ steps).
  cbn [for_each]. rewrite Hep. cbn [bind].
  split; [exact Hloop|].
  split; [eapply same_schedule_trans; eassumption|].
  split; [rewrite length_app, Hl1; lia|].
  split.
  { rewrite map_app. apply consecutive_from_app; [exact Hc1|].
    rewrite length_map, Hl1, <- Hg. exact Hcons. }
  split.
  { apply Forall_app. split.
    - eapply Forall_impl; [|exact Hf1]. intros p ->. now left.
    - eapply Forall_impl; [|exact Hin]. intros p Hp. now right. }
  rewrite Hview', Hview, HT, flat_map_app, <- app_assoc. reflexivity.
Qed.

Lemma dpo_update_recipe_state_cadence ckpt (sw : Recipe * World) r w :
  DPO._update_recipe_state ckpt sw = Ok (r, w) ->
  save_every_n_steps r = save_every_n_steps (fst sw).
Proof.
  unfold DPO._update_recipe_state. intros H.
  inv_bind H. inv_bind H. inv_bind H.
  destruct x0 as [r1 w1], x1 as [r2 w2].
  apply reconcile_seed_spec in Hx0 as (s & Hs & -> & _).
  apply reconcile_max_steps_spec in Hx1 as (m & Hm & -> & _).
  apply check_total_epochs_spec in H as (t & Ht & -> & _).
  reflexivity.
Qed.

End DPOCheckpoints.

(** X9.  The checkpoint policy of the preference recipe is that of the
    distillation recipe.  After [setup], with at least one epoch left,
    [train] returns for every data source, and what it shows of its
    checkpointing is, for each optimizer step in turn, the step followed by
    an intermediate (not full) checkpoint exactly when
    [global_step % save_every_n_steps == 0] and the epoch is not the last
    one, and after all of them one full checkpoint for the last epoch.  The
    steps are numbered consecutively from the [global_step] held on entry.
    [setup] sets the cadence to [_steps_per_epoch], with the [epoch]
    prefix, when the config leaves [save_every_n_steps] unset, and keeps
    the config value, with the [step] prefix, otherwise. *)
Theorem dpo_checkpoint_policy {T : Torch} (dataloader : Z -> list DPOBatch)
    (s : Recipe) (w : World) (n : Z) :
  ready s ->
  save_every_n_steps s = Some n ->
  epochs_run s < total_epochs s ->
  (exists r' w' steps,
     DPO.train dataloader (s, w) = Ok (r', w') /\
     checkpoint_view (trace w')
     = checkpoint_view (trace w)
       ++ flat_map (ckpt_block n (total_epochs s - 1)) steps
       ++ [ObsSave (total_epochs s - 1) true] /\
     consecutive_from (global_step s) (map snd steps) /\
     Forall (fun p => epochs_run s <= fst p < total_epochs s) steps) /\
  (forall base dist L sw r w0 d,
     DPO.setup base dist L sw = Ok (r, w0, d) ->
     match save_every_n_steps (fst sw) with
     | None =>
         save_every_n_steps r = _steps_per_epoch r /\
         checkpoint_dir_prefix r = Some prefix_epoch
     | Some k =>
         save_every_n_steps r = Some k /\
         checkpoint_dir_prefix r = Some prefix_step
     end).
Proof.
  intros Hr Hn Hlt. split.
  - set (st0 := {| DPO.self := s; DPO.world := w;
                   DPO.running_loss := Q2Qc 0; DPO.num_tokens := 0 |}).
    destruct (dpo_epochs_view dataloader n (range (epochs_run s) (total_epochs s)) st0 Hr Hn)
      as (st' & steps & Hloop & Hsame & Hg & Hcons & Hin & Hview).
    unfold DPO.train. cbn [fst snd]. fold st0. rewrite Hloop. cbn [bind].
    rewrite (loop_variable_range _ _ Hlt). cbn [bind].
    rewrite dpo_save_checkpoint_spec. cbn [bind].
    eexists _, _, steps. split; [reflexivity|].
    cbn [emit trace]. rewrite checkpoint_view_app, Hview. cbn [st0 DPO.world DPO.self].
    rewrite <- app_assoc. split; [reflexivity|]. split; [exact Hcons|].
    eapply Forall_impl; [|exact Hin]. intros q Hq. now apply in_range.
  - intros base dist L sw r w0 d H. unfold DPO.setup in H.
    inv_bind H. inv_bind H. injection H as <- _ _. destruct x0 as [r' d']. cbn [fst].
    pose proof (setup_schedule_cadence _ _ _ _ Hx0) as Hc.
    assert (Hsv : save_every_n_steps (fst x) = save_every_n_steps (fst sw)).
    { revert Hx. unfold setup_resume.
      destruct (_resume_from_checkpoint (fst sw)).
      - destruct (negb _); [discriminate|]. destruct x.
        apply dpo_update_recipe_state_cadence.
      - intros H. now injection H as <-. }
    now rewrite Hsv in Hc.
Qed.

Lemma dpo_checkpoint_policy_witness :
  exists r' w' steps,
    DPO.train Sample.dpo_dataloader (Sample.recipe 0 0 None, Sample.world0) = Ok (r', w') /\
    checkpoint_view (trace w')
    = flat_map (ckpt_block 4 1) steps ++ [ObsSave 1 true] /\
    consecutive_from 0 (map snd steps).
Proof.
  destruct (dpo_checkpoint_policy (T := Sample.torch) Sample.dpo_dataloader
              (Sample.recipe 0 0 None) Sample.world0 4)
    as ((r' & w' & steps & H1 & H2 & H3 & _) & _).
  - unfold ready; cbn. repeat split; try lia; eexists; split; try reflexivity; lia.
  - reflexivity.
  - cbn; lia.
  - exists r', w', steps. split; [exact H1|]. split; [exact H2 | exact H3].
Defined.

(** ** A data source shorter than one accumulation window *)

Section ShortDataSource.

Context {T : Torch}.

Lemma short_index (A idx : Z) :
  0 <= idx -> idx + 1 < A -> (idx + 1) mod A = idx + 1 /\ (idx + 1) / A = 0 /\ idx / A = 0.
Proof.
  intros H0 H1. split; [apply Z.mod_small; lia|].
  split; apply Z.div_small; lia.
Qed.

Lemma saved_progress_app (a b : list event) :
  saved_progress (a ++ b) = saved_progress a ++ saved_progress b.
Proof. apply flat_map_app. Qed.

Lemma kd_short_loop (e : Z) (xs : list KDBatch) (idx : Z) (st : KD.State) :
  0 <= idx ->
  idx + Z.of_nat (length xs) < _gradient_accumulation_steps (KD.self st) ->
  cap_positive (KD.self st) ->
  exists st',
    for_enumerate (KD.microbatch e) idx xs st = Ok (st', false) /\
    KD.self st' = KD.self st /\
    count_backward (trace (KD.world st'))
    = count_backward (trace (KD.world st)) + Z.of_nat (length xs) /\
    count_optimizer_steps (trace (KD.world st')) = count_optimizer_steps (trace (KD.world st)) /\
    saved_progress (trace (KD.world st')) = saved_progress (trace (KD.world st)).
Proof.
  revert idx st. induction xs as [|x xs IH]; intros idx st H0 Hlen Hcap.
  { exists st. cbn. repeat split; lia. }
  cbn [length] in Hlen. rewrite Nat2Z.inj_succ in Hlen.
  destruct (short_index (_gradient_accumulation_steps (KD.self st)) idx H0 ltac:(lia))
    as (Hmod & Hdiv & _).
  cbn [for_enumerate]. unfold KD.microbatch.
  change (KD.self (KD.accumulate x st)) with (KD.self st).
  rewrite pymod_Ok by lia. cbn [bind]. rewrite Hmod.
  destruct (Z.eqb_spec (idx + 1) 0) as [E|_]; [lia|]. cbn [bind].
  change (KD.self (KD.accumulate x st)) with (KD.self st).
  rewrite floordiv_Ok by lia. cbn [bind fst snd]. rewrite Hdiv.
  assert (Hno : opt_eqb (Some 0) (max_steps_per_epoch (KD.self st)) = false).
  { destruct (max_steps_per_epoch (KD.self st)) as [m|] eqn:HM; [|reflexivity].
    cbn [opt_eqb]. apply Z.eqb_neq. specialize (Hcap m HM). lia. }
  rewrite Hno.
  destruct (IH (idx + 1) (KD.accumulate x st)) as (st' & Hloop & Hself & Hcb & Hcs & Hsp).
  { lia. }
  { change (KD.self (KD.accumulate x st)) with (KD.self st). lia. }
  { exact Hcap. }
  exists st'. split; [exact Hloop|]. split; [exact Hself|].
  revert Hcb Hcs Hsp. cbn [KD.accumulate KD.world backward emit set_grads trace].
  rewrite count_backward_app, count_optimizer_steps_app, saved_progress_app. cbn [length].
  rewrite Nat2Z.inj_succ. cbn. rewrite app_nil_r. intros Hcb Hcs Hsp.
  split; [lia|]. split; [lia | exact Hsp].
Qed.

Lemma dpo_accumulate_saved (b : DPOBatch) (st : DPO.State) :
  saved_progress (trace (DPO.world (snd (DPO.accumulate b st))))
  = saved_progress (trace (DPO.world st)).
Proof.
  cbn [DPO.accumulate snd DPO.world backward emit set_grads trace].
  pose proof (forward_passes_spec b (DPO.world st)) as (_ & _ & _ & Htr & _).
  cbn zeta in Htr. rewrite Htr, !saved_progress_app. cbn. now rewrite !app_nil_r.
Qed.

Lemma dpo_short_loop (e : Z) (xs : list DPOBatch) (idx : Z) (st : DPO.State) :
  0 <= idx ->
  idx + Z.of_nat (length xs) < _gradient_accumulation_steps (DPO.self st) ->
  cap_positive (DPO.self st) ->
  exists st',
    for_enumerate (DPO.microbatch e) idx xs st = Ok (st', false) /\
    DPO.self st' = DPO.self st /\
    count_backward (trace (DPO.world st'))
    = count_backward (trace (DPO.world st)) + Z.of_nat (length xs) /\
    count_optimizer_steps (trace (DPO.world st'))
    = count_optimizer_steps (trace (DPO.world st)) /\
    saved_progress (trace (DPO.world st')) = saved_progress (trace (DPO.world st)).
Proof.
  revert idx st. induction xs as [|x xs IH]; intros idx st H0 Hlen Hcap.
  { exists st. cbn. repeat split; lia. }
  cbn [length] in Hlen. rewrite Nat2Z.inj_succ in Hlen.
  destruct (short_index (_gradient_accumulation_steps (DPO.self st)) idx H0 ltac:(lia))
    as (Hmod & _ & Hdiv).
  cbn [for_enumerate]. unfold DPO.microbatch.
  assert (Hstop :
    match max_steps_per_epoch (DPO.self st) with
    | Some m =>
        q <- floordiv idx (_gradient_accumulation_steps (DPO.self st)) ;; Ok (q =? m)
    | None => Ok false
    end = Ok false).
  { destruct (max_steps_per_epoch (DPO.self st)) as [m|] eqn:HM; [|reflexivity].
    rewrite floordiv_Ok by lia. cbn [bind]. rewrite Hdiv. f_equal.
    apply Z.eqb_neq. specialize (Hcap m HM). lia. }
  rewrite Hstop. cbn [bind]. cbn zeta.
  change (DPO.self (snd (DPO.accumulate x st))) with (DPO.self st).
  rewrite pymod_Ok by lia. cbn [bind]. rewrite Hmod.
  destruct (Z.eqb_spec (idx + 1) 0) as [E|_]; [lia|]. cbn [bind fst snd].
  destruct (IH (idx + 1) (snd (DPO.accumulate x st)))
    as (st' & Hloop & Hself & Hcb & Hcs & Hsp).
  { lia. }
  { change (DPO.self (snd (DPO.accumulate x st))) with (DPO.self st). lia. }
  { exact Hcap. }
  exists st'. split; [exact Hloop|]. split; [exact Hself|].
  destruct (dpo_accumulate_counts x st) as (Hb1 & Hs1).
  cbn [length]. rewrite Nat2Z.inj_succ.
  split; [lia|]. split; [lia|].
  rewrite Hsp. apply dpo_accumulate_saved.
Qed.

Lemma kd_short_epochs (dataloader : Z -> list KDBatch) (L : Z) (es : list Z) (st : KD.State) :
  L < _gradient_accumulation_steps (KD.self st) ->
  cap_positive (KD.self st) ->
  (forall e, Z.of_nat (length (dataloader e)) = L) ->
  exists st',
    for_each (KD.epoch dataloader) es st = Ok st' /\
    same_schedule (KD.self st) (KD.self st') /\
    global_step (KD.self st') = global_step (KD.self st) /\
    epochs_run (KD.self st') = epochs_run (KD.self st) + Z.of_nat (length es) /\
    count_backward (trace (KD.world st'))
    = count_backward (trace (KD.world st)) + Z.of_nat (length es) * L /\
    count_optimizer_steps (trace (KD.world st'))
    = count_optimizer_steps (trace (KD.world st)) /\
    saved_progress (trace (KD.world st')) = saved_progress (trace (KD.world st)).
Proof.
  revert st. induction es as [|e es IH]; intros st HL Hcap Hlen.
  { exists st. split; [reflexivity|]. split; [apply same_schedule_refl|].
    cbn. repeat split; lia. }
  destruct (kd_short_loop e (dataloader e) 0 st)
    as (st1 & Hloop & Hself & Hcb1 & Hcs1 & Hsp1).
  { lia. }
  { rewrite Hlen. lia. }
  { exact Hcap. }
  rewrite Hlen in Hcb1.
  cbn [for_each]. unfold KD.epoch at 1. rewrite Hloop. cbn [bind fst]. rewrite Hself.
  match goal with |- context [for_each _ es ?s] =>
    destruct (IH s) as (st' & Hrest & Hsame & Hg & He & Hcb & Hcs & Hsp) end.
  { exact HL. }
  { exact Hcap. }
  { exact Hlen. }
  cbn [KD.self KD.world set_epochs_run epochs_run global_step] in Hg, He, Hcb, Hcs, Hsp.
  exists st'. split; [exact Hrest|].
  split; [eapply same_schedule_trans; [apply same_schedule_set_epochs_run | exact Hsame]|].
  cbn [length]. rewrite Nat2Z.inj_succ.
  split; [lia|]. split; [lia|]. split; [lia|]. split; [lia|]. congruence.
Qed.

Lemma dpo_short_epochs (dataloader : Z -> list DPOBatch) (L : Z) (es : list Z)
    (st : DPO.State) :
  L < _gradient_accumulation_steps (DPO.self st) ->
  cap_positive (DPO.self st) ->
  (forall e, Z.of_nat (length (dataloader e)) = L) ->
  exists st',
    for_each (DPO.epoch dataloader) es st = Ok st' /\
    same_schedule (DPO.self st) (DPO.self st') /\
    global_step (DPO.self st') = global_step (DPO.self st) /\
    epochs_run (DPO.self st') = epochs_run (DPO.self st) + Z.of_nat (length es) /\
    count_backward (trace (DPO.world st'))
    = count_backward (trace (DPO.world st)) + Z.of_nat (length es) * L /\
    count_optimizer_steps (trace (DPO.world st'))
    = count_optimizer_steps (trace (DPO.world st)) /\
    saved_progress (trace (DPO.world st')) = saved_progress (trace (DPO.world st)).
Proof.
  revert st. induction es as [|e es IH]; intros st HL Hcap Hlen.
  { exists st. split; [reflexivity|]. split; [apply same_schedule_refl|].
    cbn. repeat split; lia. }
  destruct (dpo_short_loop e (dataloader e) 0 st)
    as (st1 & Hloop & Hself & Hcb1 & Hcs1 & Hsp1).
  { lia. }
  { rewrite Hlen. lia. }
  { exact Hcap. }
  rewrite Hlen in Hcb1.
  cbn [for_each]. unfold DPO.epoch at 1. rewrite Hloop. cbn [bind fst]. rewrite Hself.
  match goal with |- context [for_each _ es ?s] =>
    destruct (IH s) as (st' & Hrest & Hsame & Hg & He & Hcb & Hcs & Hsp) end.
  { exact HL. }
  { exact Hcap. }
  { exact Hlen. }
  cbn [DPO.self DPO.world set_epochs_run epochs_run global_step] in Hg, He, Hcb, Hcs, Hsp.
  exists st'. split; [exact Hrest|].
  split; [eapply same_schedule_trans; [apply same_schedule_set_epochs_run | exact Hsame]|].
  cbn [length]. rewrite Nat2Z.inj_succ.
  split; [lia|]. split; [lia|]. split; [lia|]. split; [lia|]. congruence.
Qed.

End ShortDataSource.

Section ShortSetup.

Context {T : Torch}.

Lemma setup_schedule_short (L : Z) (s : Recipe) :
  _resume_from_checkpoint s = false ->
  0 <= L < _gradient_accumulation_steps s ->
  cap_positive s ->
  epochs_run s = 0 ->
  global_step s = 0 ->
  exists r,
    setup_schedule L s = Ok (r, false) /\
    _steps_per_epoch r = Some 0 /\
    global_step r = 0 /\ epochs_run r = 0 /\
    seed r = seed s /\ total_epochs r = total_epochs s /\
    max_steps_per_epoch r = max_steps_per_epoch s /\
    _gradient_accumulation_steps r = _gradient_accumulation_steps s.
Proof.
  intros Hres HL Hcap He Hg.
  unfold setup_schedule. rewrite floordiv_Ok by lia. cbn [bind].
  rewrite Z.div_small by lia.
  cbn [max_steps_per_epoch set_steps_per_epoch].
  assert (Hnocap : match max_steps_per_epoch s with
                   | Some m => m <? 0 | None => false end = false).
  { destruct (max_steps_per_epoch s) as [m|] eqn:HM; [|reflexivity].
    apply Z.ltb_ge. specialize (Hcap m HM). lia. }
  destruct (max_steps_per_epoch s) as [m|] eqn:HM; rewrite ?Hnocap;
    destruct (save_every_n_steps s) as [k|] eqn:Hk;
    cbn [save_every_n_steps set_global_step set_steps_per_epoch _steps_per_epoch
         set_checkpoint_dir_prefix set_save_every_n_steps _resume_from_checkpoint
         epochs_run];
    rewrite ?Hk;
    cbn [save_every_n_steps set_global_step set_steps_per_epoch _steps_per_epoch
         set_checkpoint_dir_prefix set_save_every_n_steps _resume_from_checkpoint
         epochs_run];
    rewrite Hres; eexists; (split; [reflexivity|]);
    cbn [save_every_n_steps set_global_step set_steps_per_epoch _steps_per_epoch
         set_checkpoint_dir_prefix set_save_every_n_steps _resume_from_checkpoint
         epochs_run global_step seed total_epochs max_steps_per_epoch
         _gradient_accumulation_steps];
    rewrite ?HM; repeat split; assumption.
Qed.

End ShortSetup.

(** X10.  A fresh run over a data source that yields fewer microbatches
    per epoch than one accumulation window ([0 <= L < A]), with a positive
    or absent cap and at least one epoch.  [setup] returns in both recipes
    with [_steps_per_epoch = 0], and the scheduler is told to expect no
    training step.  [train] of the distillation recipe is the loop over
    the epochs, then the read of [curr_epoch], then the final
    [save_checkpoint] in the world the loop left.  The loop over the epochs
    runs to its end: every microbatch goes through backward, no
    optimizer step is taken and the checkpoint client is not called; the
    final [save_checkpoint], called for epoch [total_epochs - 1] in the
    world the loop leaves, raises [ZeroDivisionError] on
    [global_step % _steps_per_epoch] before it reaches the checkpoint
    client, and so does [train].  The preference recipe completes: every
    microbatch goes through forward and backward, no optimizer step is
    taken, [global_step] stays 0, and the final full checkpoint is the one
    call of the checkpoint client. *)
Theorem short_data_source {T : Torch} (cfg : Cfg) (w0 : World) (base dist : Ckpt)
    (kd_dataloader : Z -> list KDBatch) (dpo_dataloader : Z -> list DPOBatch) (L : Z) :
  cfg_resume_from_checkpoint cfg = false ->
  0 <= L < cfg_gradient_accumulation_steps cfg ->
  (forall m, cfg_max_steps_per_epoch cfg = Some m -> 0 < m) ->
  0 < cfg_epochs cfg ->
  (forall e, Z.of_nat (length (kd_dataloader e)) = L) ->
  (forall e, Z.of_nat (length (dpo_dataloader e)) = L) ->
  (exists r w1 d st,
     KD.setup base dist L (__init__ cfg w0) = Ok (r, w1, d) /\
     _steps_per_epoch r = Some 0 /\
     lr_scheduler_args r = Ok (0, -1) /\
     KD.train kd_dataloader (r, w1)
     = (st1 <- for_each (KD.epoch kd_dataloader) (range (epochs_run r) (total_epochs r))
                 {| KD.self := r; KD.world := w1;
                    KD.running_class_loss := Q2Qc 0; KD.running_kd_loss := Q2Qc 0;
                    KD.num_tokens := 0 |} ;;
        curr_epoch <- loop_variable (range (epochs_run r) (total_epochs r)) ;;
        w' <- KD.save_checkpoint curr_epoch true (KD.self st1, KD.world st1) ;;
        Ok (KD.self st1, w')) /\
     for_each (KD.epoch kd_dataloader) (range (epochs_run r) (total_epochs r))
       {| KD.self := r; KD.world := w1;
          KD.running_class_loss := Q2Qc 0; KD.running_kd_loss := Q2Qc 0;
          KD.num_tokens := 0 |} = Ok st /\
     epochs_run (KD.self st) = cfg_epochs cfg /\
     global_step (KD.self st) = 0 /\
     _steps_per_epoch (KD.self st) = Some 0 /\
     count_backward (trace (KD.world st)) = count_backward (trace w0) + cfg_epochs cfg * L /\
     count_optimizer_steps (trace (KD.world st)) = count_optimizer_steps (trace w0) /\
     saved_progress (trace (KD.world st)) = saved_progress (trace w0) /\
     loop_variable (range (epochs_run r) (total_epochs r)) = Ok (cfg_epochs cfg - 1) /\
     KD.save_checkpoint (cfg_epochs cfg - 1) true (KD.self st, KD.world st)
     = Raise ZeroDivisionError /\
     KD.train kd_dataloader (r, w1) = Raise ZeroDivisionError) /\
  (exists r w1 d r' w',
     DPO.setup base dist L (__init__ cfg w0) = Ok (r, w1, d) /\
     _steps_per_epoch r = Some 0 /\
     lr_scheduler_args r = Ok (0, -1) /\
     DPO.train dpo_dataloader (r, w1) = Ok (r', w') /\
     global_step r' = 0 /\ epochs_run r' = cfg_epochs cfg /\
     count_optimizer_steps (trace w') = count_optimizer_steps (trace w0) /\
     count_backward (trace w') = count_backward (trace w0) + cfg_epochs cfg * L /\
     saved_progress (trace w')
     = saved_progress (trace w0)
       ++ [({| tp_seed := seed (fst (__init__ cfg w0));
               tp_epochs_run := cfg_epochs cfg;
               tp_total_epochs := cfg_epochs cfg;
               tp_max_steps_per_epoch := cfg_max_steps_per_epoch cfg |}, true)]).
Proof.
  intros Hres HL Hcap Hepochs Hkd Hdpo.
  set (s0 := fst (__init__ cfg w0)).
  destruct (setup_schedule_short L s0 Hres HL Hcap eq_refl eq_refl)
    as (r & Hsched & Hspe & Hg & He & Hseed & HT & HM & HAr).
  change (total_epochs s0) with (cfg_epochs cfg) in HT.
  change (max_steps_per_epoch s0) with (cfg_max_steps_per_epoch cfg) in HM.
  change (_gradient_accumulation_steps s0) with (cfg_gradient_accumulation_steps cfg) in HAr.
  assert (Hcapr : cap_positive r).
  { intros m Hm. apply Hcap. now rewrite <- HM. }
  assert (Hlt : epochs_run r < total_epochs r) by lia.
  assert (HLr : L < _gradient_accumulation_steps r) by lia.
  assert (Hargs : lr_scheduler_args r = Ok (0, -1)).
  { unfold lr_scheduler_args. rewrite Hspe. cbn [getattr bind].
    rewrite Z.mul_0_r, Hg. reflexivity. }
  assert (Hsetup : forall update,
             (sw1 <- setup_resume update base dist (__init__ cfg w0) ;;
              r0 <- setup_schedule L (fst sw1) ;;
              Ok (fst r0, snd sw1, snd r0)) = Ok (r, snd (__init__ cfg w0), false)).
  { intros update. rewrite setup_resume_off by exact Hres. cbn [bind].
    fold s0. rewrite Hsched. reflexivity. }
  split.
  - set (st0 := {| KD.self := r; KD.world := snd (__init__ cfg w0);
                   KD.running_class_loss := Q2Qc 0; KD.running_kd_loss := Q2Qc 0;
                   KD.num_tokens := 0 |}).
    destruct (kd_short_epochs kd_dataloader L (range (epochs_run r) (total_epochs r)) st0
                HLr Hcapr Hkd) as (st' & Hloop & Hsame & Hg' & He' & Hcb & Hcs & Hsp).
    rewrite length_range in He', Hcb by lia.
    cbn [st0 KD.self KD.world] in Hsame, Hg', He', Hcb, Hcs, Hsp.
    pose proof Hsame as (_ & _ & _ & _ & _ & _ & _ & _ & _ & Hspe' & _).
    rewrite Hspe in Hspe'.
    assert (Hsave : KD.save_checkpoint (cfg_epochs cfg - 1) true (KD.self st', KD.world st')
                    = Raise ZeroDivisionError).
    { unfold KD.save_checkpoint. cbn [fst snd]. rewrite Hspe'. reflexivity. }
    assert (Hvar : loop_variable (range (epochs_run r) (total_epochs r))
                   = Ok (cfg_epochs cfg - 1)).
    { rewrite (loop_variable_range _ _ Hlt), HT. reflexivity. }
    exists r, (snd (__init__ cfg w0)), false, st'.
    split; [apply (Hsetup KD._update_recipe_state)|].
    split; [exact Hspe|]. split; [exact Hargs|]. split; [reflexivity|].
    split; [exact Hloop|].
    split; [lia|]. split; [lia|]. split; [exact Hspe'|].
    split; [rewrite Hcb, He, HT, Z.sub_0_r; reflexivity|].
    split; [exact Hcs|]. split; [exact Hsp|]. split; [exact Hvar|].
    split; [exact Hsave|].
    unfold KD.train. cbn [fst snd]. fold st0. rewrite Hloop. cbn [bind].
    rewrite Hvar. cbn [bind]. rewrite Hsave. reflexivity.
  - set (st0 := {| DPO.self := r; DPO.world := snd (__init__ cfg w0);
                   DPO.running_loss := Q2Qc 0; DPO.num_tokens := 0 |}).
    destruct (dpo_short_epochs dpo_dataloader L (range (epochs_run r) (total_epochs r)) st0
                HLr Hcapr Hdpo) as (st' & Hloop & Hsame & Hg' & He' & Hcb & Hcs & Hview).
    rewrite length_range in He', Hcb by lia.
    cbn [st0 DPO.self DPO.world] in Hsame, Hg', He', Hcb, Hcs, Hview.
    pose proof Hsame as (Hseed' & HT' & HM' & _).
    exists r, (snd (__init__ cfg w0)), false.
    eexists _, _.
    split; [apply (Hsetup DPO._update_recipe_state)|].
    split; [exact Hspe|]. split; [exact Hargs|].
    unfold DPO.train. cbn [fst snd]. fold st0. rewrite Hloop. cbn [bind].
    rewrite (loop_variable_range _ _ Hlt). cbn [bind].
    rewrite dpo_save_checkpoint_spec. cbn [bind].
    split; [reflexivity|]. cbn [emit trace].
    split; [lia|]. split; [lia|].
    split; [rewrite count_optimizer_steps_save, Hcs; reflexivity|].
    split; [rewrite count_backward_save, Hcb, He, HT, Z.sub_0_r; reflexivity|].
    unfold saved_progress at 1. rewrite flat_map_app. fold (saved_progress (trace (DPO.world st'))).
    rewrite Hview. cbn [flat_map app]. rewrite Hseed', HT', HM', Hseed, HT, HM, He'.
    rewrite He, HT, Z.sub_0_r, Z.add_0_l. reflexivity.
Qed.

Lemma short_data_source_witness :
  let cfg := Sample.cfg false None None in
  (exists r w1 d,
     KD.setup Sample.ckpt Sample.ckpt 1 (__init__ cfg Sample.world0) = Ok (r, w1, d) /\
     KD.train (fun _ => [Sample.kd_batch 1]) (r, w1) = Raise ZeroDivisionError) /\
  (exists r w1 d r' w',
     DPO.setup Sample.ckpt Sample.ckpt 1 (__init__ cfg Sample.world0) = Ok (r, w1, d) /\
     DPO.train (fun _ => [Sample.dpo_batch 1]) (r, w1) = Ok (r', w') /\
     count_optimizer_steps (trace w') = 0 /\ count_backward (trace w') = 2).
Proof.
  intros cfg.
  destruct (short_data_source (T := Sample.torch) cfg Sample.world0
              Sample.ckpt Sample.ckpt
              (fun _ => [Sample.kd_batch 1]) (fun _ => [Sample.dpo_batch 1]) 1)
    as ((r1 & w1 & d1 & st1 & Hs1 & _ & _ & _ & _ & _ & _ & _ & _ & _ & _ & _ & _ & Ht1)
        & (r2 & w2 & d2 & r2' & w2' & Hs2 & _ & _ & Ht2 & _ & _ & Hc2 & Hb2 & _)).
  - reflexivity.
  - cbn; lia.
  - intros m Hm. discriminate Hm.
  - cbn; lia.
  - intros e. reflexivity.
  - intros e. reflexivity.
  - split; [exists r1, w1, d1 | exists r2, w2, d2, r2', w2'].
    + split; assumption.
    + split; [assumption|]. split; [assumption|]. split; assumption.
Defined.

(** ** The modes of the forward passes of the preference recipe *)

Section ForwardModes.

Context {T : Torch}.

Lemma forward_modes_app (a b : list event) :
  forward_modes (a ++ b) = forward_modes a ++ forward_modes b.
Proof. apply flat_map_app. Qed.

Lemma policy_then_reference_app (g : bool) (j k : nat) :
  policy_then_reference g (j + k)
  = policy_then_reference g j ++ policy_then_reference g k.
Proof.
  unfold policy_then_reference. now rewrite repeat_app, concat_app.
Qed.

Lemma dpo_step_events_modes (s : Recipe) (e : Z) (f : DPO.Forwarded) (r : Qc) (nt : Z) (g : Grad) :
  forward_modes (dpo_step_events s e f r nt g) = [].
Proof.
  unfold dpo_step_events, dpo_save_events.
  destruct (_lr_scheduler s), (_ =? 0), (save_every_n_steps s);
    try destruct (_ && _); reflexivity.
Qed.

Lemma dpo_accumulate_modes (b : DPOBatch) (st : DPO.State) :
  adapter_enabled (DPO.world (snd (DPO.accumulate b st))) = true /\
  grad_enabled (DPO.world (snd (DPO.accumulate b st))) = grad_enabled (DPO.world st) /\
  forward_modes (trace (DPO.world (snd (DPO.accumulate b st))))
  = forward_modes (trace (DPO.world st))
    ++ [(adapter_enabled (DPO.world st), grad_enabled (DPO.world st)); (false, false)].
Proof.
  pose proof (forward_passes_spec b (DPO.world st))
    as (_ & _ & _ & Htr & _ & _ & Had & Hgr & _).
  cbn zeta in Htr, Had, Hgr.
  cbn [DPO.accumulate snd DPO.world backward emit set_grads trace adapter_enabled
       grad_enabled].
  split; [exact Had|]. split; [exact Hgr|].
  rewrite Htr, !forward_modes_app. cbn. now rewrite app_nil_r.
Qed.

Lemma dpo_loop_modes (e : Z) (bs : list DPOBatch) (idx : Z) (st : DPO.State) :
  ready (DPO.self st) ->
  adapter_enabled (DPO.world st) = true ->
  exists st' stop k,
    for_enumerate (DPO.microbatch e) idx bs st = Ok (st', stop) /\
    same_schedule (DPO.self st) (DPO.self st') /\
    adapter_enabled (DPO.world st') = true /\
    grad_enabled (DPO.world st') = grad_enabled (DPO.world st) /\
    count_backward (trace (DPO.world st'))
    = count_backward (trace (DPO.world st)) + Z.of_nat k /\
    forward_modes (trace (DPO.world st'))
    = forward_modes (trace (DPO.world st))
      ++ policy_then_reference (grad_enabled (DPO.world st)) k.
Proof.
  revert idx st. induction bs as [|b bs IH]; intros idx st Hr Had.
  { exists st, false, 0%nat. cbn. rewrite app_nil_r, Z.add_0_r.
    split; [reflexivity|]. split; [apply same_schedule_refl|]. repeat split. exact Had. }
  pose proof (dpo_microbatch_summary e idx b st Hr) as Hsum. cbn zeta in Hsum.
  pose proof (dpo_microbatch_spec e idx b st Hr) as Hm. cbn zeta in Hm.
  cbn [for_enumerate].
  destruct (dpo_stop (DPO.self st) idx).
  { rewrite Hm. cbn [bind fst snd]. exists st, true, 0%nat.
    cbn. rewrite app_nil_r, Z.add_0_r.
    split; [reflexivity|]. split; [apply same_schedule_refl|]. repeat split. exact Had. }
  destruct Hsum as (st2 & Hm2 & Hsame & _ & _ & Hcb & _).
  destruct Hm as (st2' & Hm & Hst2). rewrite Hm2 in Hm. injection Hm as <-.
  destruct (dpo_accumulate_modes b st) as (Had1 & Hgr1 & Hfm1). rewrite Had in Hfm1.
  assert (Hstep :
    adapter_enabled (DPO.world st2) = true /\
    grad_enabled (DPO.world st2) = grad_enabled (DPO.world st) /\
    forward_modes (trace (DPO.world st2))
    = forward_modes (trace (DPO.world st))
      ++ policy_then_reference (grad_enabled (DPO.world st)) 1).
  { destruct (_ =? 0) in Hst2.
    - destruct (dpo_optimizer_block_modes e (fst (DPO.accumulate b st))
                  (snd (DPO.accumulate b st)) st2 Hr Hst2) as (Ha & Hg).
      destruct (dpo_optimizer_block_spec e (fst (DPO.accumulate b st))
                  (snd (DPO.accumulate b st)) Hr)
        as (st' & Hb & _ & _ & _ & _ & _ & Htr).
      rewrite Hst2 in Hb. injection Hb as <-.
      split; [congruence|]. split; [congruence|].
      rewrite Htr, forward_modes_app, dpo_step_events_modes, app_nil_r, Hfm1.
      reflexivity.
    - subst st2. split; [exact Had1|]. split; [exact Hgr1|]. rewrite Hfm1. reflexivity. }
  destruct Hstep as (Had2 & Hgr2 & Hfm2).
  rewrite Hm2. cbn [bind fst snd].
  assert (Hr2 : ready (DPO.self st2)) by (eapply same_schedule_ready; eassumption).
  destruct (IH (idx + 1) st2 Hr2 Had2)
    as (st' & stop & k & Hloop & Hsame' & Had' & Hgr' & Hcb' & Hfm').
  exists st', stop, (1 + k)%nat. split; [exact Hloop|].
  split; [eapply same_schedule_trans; eassumption|].
  split; [exact Had'|]. split; [congruence|]. split; [lia|].
  rewrite Hfm', Hfm2, Hgr2, <- app_assoc, <- policy_then_reference_app. reflexivity.
Qed.

Lemma dpo_epochs_modes (dataloader : Z -> list DPOBatch) (es : list Z) (st : DPO.State) :
  ready (DPO.self st) ->
  adapter_enabled (DPO.world st) = true ->
  exists st' k,
    for_each (DPO.epoch dataloader) es st = Ok st' /\
    adapter_enabled (DPO.world st') = true /\
    grad_enabled (DPO.world st') = grad_enabled (DPO.world st) /\
    count_backward (trace (DPO.world st'))
    = count_backward (trace (DPO.world st)) + Z.of_nat k /\
    forward_modes (trace (DPO.world st'))
    = forward_modes (trace (DPO.world st))
      ++ policy_then_reference (grad_enabled (DPO.world st)) k.
Proof.
  revert st. induction es as [|e es IH]; intros st Hr Had.
  { exists st, 0%nat. cbn. rewrite app_nil_r, Z.add_0_r. repeat split. exact Had. }
  destruct (dpo_loop_modes e (dataloader e) 0 st Hr Had)
    as (st1 & stop & k1 & Hloop & Hsame1 & Had1 & Hgr1 & Hcb1 & Hfm1).
  set (st2 := {| DPO.self := set_epochs_run (epochs_run (DPO.self st1) + 1) (DPO.self st1);
                 DPO.world := DPO.world st1;
                 DPO.running_loss := DPO.running_loss st1;
                 DPO.num_tokens := DPO.num_tokens st1 |}).
  assert (Hr2 : ready (DPO.self st2)).
  { eapply same_schedule_ready; [|exact Hr].
    eapply same_schedule_trans; [exact Hsame1 | apply same_schedule_set_epochs_run]. }
  destruct (IH st2 Hr2 Had1) as (st' & k & Hrest & Had' & Hgr' & Hcb' & Hfm').
  cbn [st2 DPO.world] in Hgr', Hcb', Hfm'.
  exists st', (k1 + k)%nat. cbn [for_each]. unfold DPO.epoch at 1.
  rewrite Hloop. cbn [bind fst]. fold st2.
  split; [exact Hrest|]. split; [exact Had'|]. split; [congruence|]. split; [lia|].
  rewrite Hfm', Hfm1, Hgr1, <- app_assoc, <- policy_then_reference_app. reflexivity.
Qed.

End ForwardModes.

(** X11.  In a run of the preference recipe that starts with the adapters
    enabled, every microbatch that goes through backward has had exactly
    two forward passes: the policy pass with the adapters enabled under the
    ambient gradient mode, then the reference pass with the adapters
    disabled and gradients off.  No forward pass runs in any other mode, and
    when [train] returns the adapters are enabled and the gradient mode is
    the one it started with. *)
Theorem dpo_forward_pass_modes {T : Torch} (dataloader : Z -> list DPOBatch)
    (s : Recipe) (w : World) :
  ready s ->
  epochs_run s < total_epochs s ->
  adapter_enabled w = true ->
  exists r' w' k,
    DPO.train dataloader (s, w) = Ok (r', w') /\
    adapter_enabled w' = true /\
    grad_enabled w' = grad_enabled w /\
    count_backward (trace w') = count_backward (trace w) + Z.of_nat k /\
    forward_modes (trace w')
    = forward_modes (trace w) ++ policy_then_reference (grad_enabled w) k.
Proof.
  intros Hr Hlt Had.
  set (st0 := {| DPO.self := s; DPO.world := w;
                 DPO.running_loss := Q2Qc 0; DPO.num_tokens := 0 |}).
  destruct (dpo_epochs_modes dataloader (range (epochs_run s) (total_epochs s)) st0 Hr Had)
    as (st' & k & Hloop & Had' & Hgr' & Hcb' & Hfm').
  cbn [st0 DPO.world] in Hgr', Hcb', Hfm'.
  unfold DPO.train. cbn [fst snd]. fold st0. rewrite Hloop. cbn [bind].
  rewrite (loop_variable_range _ _ Hlt). cbn [bind].
  rewrite dpo_save_checkpoint_spec. cbn [bind].
  eexists _, _, k. split; [reflexivity|].
  cbn [emit trace adapter_enabled grad_enabled].
  split; [exact Had'|]. split; [exact Hgr'|].
  split; [rewrite count_backward_save; exact Hcb'|].
  rewrite forward_modes_app, Hfm'. cbn. now rewrite app_nil_r.
Qed.

Lemma dpo_forward_pass_modes_witness :
  exists r' w' k,
    DPO.train Sample.dpo_dataloader3 (Sample.recipe 1 1 None, Sample.world0) = Ok (r', w') /\
    adapter_enabled w' = true /\
    count_backward (trace w') = Z.of_nat k /\
    forward_modes (trace w') = policy_then_reference true k.
Proof.
  destruct (dpo_forward_pass_modes (T := Sample.torch) Sample.dpo_dataloader3
              (Sample.recipe 1 1 None) Sample.world0)
    as (r' & w' & k & H1 & H2 & _ & H3 & H4).
  - unfold ready; cbn. repeat split; try lia; eexists; split; try reflexivity; lia.
  - cbn; lia.
  - reflexivity.
  - exists r', w', k. split; [exact H1|]. split; [exact H2|].
    split; [exact H3 | exact H4].
Defined.

(** ** Draining the data source on resume *)

Section Drain.

Context {T : Torch}.

Lemma pymod_inv (a b x : Z) : pymod a b = Ok x -> b <> 0 /\ x = a mod b.
Proof.
  unfold pymod. destruct (Z.eqb_spec b 0); [discriminate|].
  intros H. injection H as <-. split; [assumption | reflexivity].
Qed.

Lemma floordiv_inv (a b x : Z) : floordiv a b = Ok x -> b <> 0 /\ x = a / b.
Proof.
  unfold floordiv. destruct (Z.eqb_spec b 0); [discriminate|].
  intros H. injection H as <-. split; [assumption | reflexivity].
Qed.

(** The last statement of the schedule part of [setup]. *)
Lemma setup_schedule_drains (L : Z) (s r : Recipe) (d : bool) :
  setup_schedule L s = Ok (r, d) ->
  (_resume_from_checkpoint s = false -> d = false) /\
  (_resume_from_checkpoint s = true ->
   exists p,
     _steps_per_epoch r = Some p /\ p <> 0 /\ d = (global_step r mod p =? 0) /\
     (global_step r = global_step s \/ global_step r = epochs_run s * p)).
Proof.
  unfold setup_schedule. intros H. inv_bind H. revert H.
  destruct (max_steps_per_epoch s) as [M|] eqn:HM;
    [cbn; rewrite HM; destruct (M <? x)|cbn; rewrite HM];
    (cbn; destruct (save_every_n_steps s) eqn:Hsv; cbn;
     destruct (_resume_from_checkpoint s); cbn; intros H;
     [ inv_bind H; injection H as <- <-;
       apply pymod_inv in Hx0 as (Hp0 & ->)
     | injection H as <- <-
     | inv_bind H; injection H as <- <-;
       apply pymod_inv in Hx0 as (Hp0 & ->)
     | injection H as <- <- ]);
    (split; [intros Hres; try discriminate Hres; reflexivity|]);
    intros Hres; try discriminate Hres;
    eexists; cbn; (split; [reflexivity|]); (split; [exact Hp0|]);
    (split; [reflexivity|]); auto.
Qed.

Lemma kd_update_recipe_state_resume ckpt (sw : Recipe * World) r w :
  KD._update_recipe_state ckpt sw = Ok (r, w) ->
  _resume_from_checkpoint r = _resume_from_checkpoint (fst sw).
Proof.
  unfold KD._update_recipe_state. intros H.
  inv_bind H. inv_bind H. inv_bind H. inv_bind H.
  destruct x1 as [r1 w1], x2 as [r2 w2].
  apply reconcile_seed_spec in Hx1 as (s & Hs & -> & _).
  apply reconcile_max_steps_spec in Hx2 as (m & Hm & -> & _).
  apply check_total_epochs_spec in H as (t & Ht & -> & _).
  reflexivity.
Qed.

Lemma dpo_update_recipe_state_resume ckpt (sw : Recipe * World) r w :
  DPO._update_recipe_state ckpt sw = Ok (r, w) ->
  _resume_from_checkpoint r = _resume_from_checkpoint (fst sw).
Proof.
  unfold DPO._update_recipe_state. intros H.
  inv_bind H. inv_bind H. inv_bind H.
  destruct x0 as [r1 w1], x1 as [r2 w2].
  apply reconcile_seed_spec in Hx0 as (s & Hs & -> & _).
  apply reconcile_max_steps_spec in Hx1 as (m & Hm & -> & _).
  apply check_total_epochs_spec in H as (t & Ht & -> & _).
  reflexivity.
Qed.

Lemma setup_resume_flag update base dist (sw sw1 : Recipe * World) :
  (forall ckpt r w, update ckpt sw = Ok (r, w) ->
     _resume_from_checkpoint r = _resume_from_checkpoint (fst sw)) ->
  setup_resume update base dist sw = Ok sw1 ->
  _resume_from_checkpoint (fst sw1) = _resume_from_checkpoint (fst sw).
Proof.
  intros Hup. unfold setup_resume.
  destruct (_resume_from_checkpoint (fst sw)) eqn:E.
  - destruct (negb _); [discriminate|]. destruct sw1. intros H. cbn [fst].
    exact (Hup _ _ _ H).
  - intros H. injection H as <-. exact E.
Qed.

End Drain.

(** X12.  Whether [setup] drains the data source ([list(self._dataloader)]).
    A fresh run never does.  A resumed run of the distillation recipe does
    exactly when the restored [global_step] is a multiple of
    [_steps_per_epoch].  A resumed run of the preference recipe always
    does, whatever step the checkpoint was taken at: its [global_step] is
    the constructor's 0, or [epochs_run * max_steps_per_epoch] when the cap
    is in force, and both are multiples of [_steps_per_epoch].  A resumed
    [setup] that returns has a non-zero [_steps_per_epoch]. *)
Theorem setup_drains_data_source {T : Torch} (base dist : Ckpt) (L : Z)
    (sw : Recipe * World) :
  (_resume_from_checkpoint (fst sw) = false ->
   forall r w d,
     KD.setup base dist L sw = Ok (r, w, d) \/ DPO.setup base dist L sw = Ok (r, w, d) ->
     d = false) /\
  (_resume_from_checkpoint (fst sw) = true ->
   forall r w d,
     KD.setup base dist L sw = Ok (r, w, d) ->
     exists p, _steps_per_epoch r = Some p /\ p <> 0 /\
               d = (global_step r mod p =? 0)) /\
  (_resume_from_checkpoint (fst sw) = true ->
   global_step (fst sw) = 0 ->
   forall r w d,
     DPO.setup base dist L sw = Ok (r, w, d) ->
     d = true /\ exists p, _steps_per_epoch r = Some p /\ p <> 0 /\ global_step r mod p = 0).
Proof.
  split; [|split].
  - intros Hres r w d [H|H]; [unfold KD.setup in H | unfold DPO.setup in H];
      inv_bind H; inv_bind H; destruct x0 as [r0 d0]; injection H as <- _ <-;
      rewrite setup_resume_off in Hx by exact Hres; injection Hx as <-;
      exact (proj1 (setup_schedule_drains _ _ _ _ Hx0) Hres).
  - intros Hres r w d H. unfold KD.setup in H.
    inv_bind H. inv_bind H. destruct x0 as [r0 d0]. injection H as <- _ <-.
    assert (Hres1 : _resume_from_checkpoint (fst x) = true).
    { rewrite <- Hres. eapply setup_resume_flag; [|exact Hx].
      intros; eapply kd_update_recipe_state_resume; eassumption. }
    destruct (proj2 (setup_schedule_drains _ _ _ _ Hx0) Hres1) as (p & Hp & Hp0 & Hd & _).
    exists p. split; [exact Hp|]. split; [exact Hp0 | exact Hd].
  - intros Hres Hg r w d H. unfold DPO.setup in H.
    inv_bind H. inv_bind H. destruct x0 as [r0 d0]. injection H as <- _ <-.
    assert (Hres1 : _resume_from_checkpoint (fst x) = true).
    { rewrite <- Hres. eapply setup_resume_flag; [|exact Hx].
      intros; eapply dpo_update_recipe_state_resume; eassumption. }
    assert (Hg1 : global_step (fst x) = 0).
    { revert Hx. unfold setup_resume. rewrite Hres.
      destruct (negb _); [discriminate|]. destruct x as [r1 w1]. intros Hx.
      apply dpo_update_recipe_state_spec in Hx as (_ & Hgs & _). cbn [fst].
      now rewrite Hgs. }
    destruct (proj2 (setup_schedule_drains _ _ _ _ Hx0) Hres1)
      as (p & Hp & Hp0 & Hd & Hgr).
    assert (Hmod : global_step r0 mod p = 0).
    { destruct Hgr as [-> | ->]; [rewrite Hg1; apply Z.mod_0_l; exact Hp0|].
      apply Z.mod_mul. exact Hp0. }
    cbn [fst snd]. split.
    + rewrite Hd, Hmod. reflexivity.
    + exists p. split; [exact Hp|]. split; [exact Hp0 | exact Hmod].
Qed.

Lemma setup_drains_data_source_witness :
  match DPO.setup (T := Sample.torch) Sample.ckpt Sample.ckpt 9
          (__init__ (Sample.cfg true None None) Sample.world0) with
  | Ok (_, _, d) => d = true /\ ckpt_steps Sample.ckpt = Some 4
  | Raise _ => False
  end.
Proof.
  destruct (setup_drains_data_source (T := Sample.torch) Sample.ckpt Sample.ckpt 9
              (__init__ (Sample.cfg true None None) Sample.world0)) as (_ & _ & Hdpo).
  specialize (Hdpo eq_refl eq_refl).
  destruct (DPO.setup Sample.ckpt Sample.ckpt 9
              (__init__ (Sample.cfg true None None) Sample.world0))
    as [[[r w] d]|err] eqn:E.
  - split; [exact (proj1 (Hdpo r w d eq_refl)) | reflexivity].
  - vm_compute in E. discriminate E.
Defined.

(** ** A whole accumulation window of the preference recipe *)

Section DPOWindow.

Context {T : Torch}.

Lemma Qc_sum_div {B : Type} (f : B -> Qc) (c : Qc) (l : list B) :
  Qc_sum (map (fun b => (f b / c)%Qc) l) = (Qc_sum (map f l) / c)%Qc.
Proof.
  induction l as [|b l IH]; cbn [map].
  - unfold Qc_sum. cbn [fold_right]. unfold Qcdiv. ring.
  - rewrite !Qc_sum_cons, IH. unfold Qcdiv. ring.
Qed.

Lemma dpo_running_total_mean (s : Recipe) (w : World) (xs : list DPOBatch) :
  Z.of_nat (length xs) = _gradient_accumulation_steps s ->
  dpo_running_total s w xs
  = mean (map (fun b => DPO.loss (fst (DPO.forward_passes b w))) xs).
Proof.
  intros Hlen. unfold dpo_running_total, mean, dpo_running_term.
  rewrite length_map, Hlen. apply Qc_sum_div.
Qed.

(** The loop over a window, with the local variables the optimizer block
    sees: those of the window's last microbatch. *)
Lemma dpo_window_run (e q : Z) (xs : list DPOBatch) (b : DPOBatch) (st : DPO.State) :
  ready (DPO.self st) ->
  Z.of_nat (length (xs ++ [b])) = _gradient_accumulation_steps (DPO.self st) ->
  max_steps_per_epoch (DPO.self st) <> Some q ->
  exists st2,
    DPO.optimizer_block e (fst (DPO.accumulate b (dpo_accumulate_all xs st)))
      (dpo_accumulate_all (xs ++ [b]) st) = Ok st2 /\
    for_enumerate (DPO.microbatch e) (q * _gradient_accumulation_steps (DPO.self st))
      (xs ++ [b]) st
    = Ok (st2, false).
Proof.
  intros Hr Hlen Hcap. pose proof Hr as (HA & _).
  set (A := _gradient_accumulation_steps (DPO.self st)) in *.
  assert (Hxs : Z.of_nat (length xs) = A - 1).
  { rewrite length_app in Hlen. cbn [length] in Hlen. lia. }
  assert (Hstop : forall r, 0 <= r < A -> dpo_stop (DPO.self st) (q * A + r) = false).
  { intros r Hr'. unfold dpo_stop. fold A. rewrite aligned_div by lia.
    destruct (max_steps_per_epoch (DPO.self st)) as [m|]; [|reflexivity].
    apply Z.eqb_neq. congruence. }
  rewrite for_enumerate_app, (dpo_accumulate_run e xs (q * A) st Hr).
  - cbn [for_enumerate].
    assert (Hr' : ready (DPO.self (dpo_accumulate_all xs st)))
      by (now rewrite dpo_accumulate_all_self).
    pose proof (dpo_microbatch_spec e (q * A + Z.of_nat (length xs)) b _ Hr') as Hm.
    cbn zeta in Hm. rewrite dpo_accumulate_all_self in Hm. fold A in Hm.
    rewrite Hstop in Hm by lia.
    destruct Hm as (st2 & Hm & Hst2).
    replace (q * A + Z.of_nat (length xs) + 1) with ((q + 1) * A + 0) in Hst2 by lia.
    rewrite aligned_mod in Hst2 by lia. cbn [Z.eqb] in Hst2.
    exists st2. split.
    + unfold dpo_accumulate_all. rewrite fold_left_app. exact Hst2.
    + rewrite Hm. reflexivity.
  - intros j Hj. fold A. rewrite Hxs in Hj.
    replace (q * A + j + 1) with (q * A + (j + 1)) by lia.
    rewrite aligned_mod by lia. split; [lia|]. apply Hstop. lia.
Qed.

End DPOWindow.

(** X13.  The [q]-th accumulation window of an epoch of the preference
    recipe: [A] microbatches from index [q * A], entered with the running
    loss and the token count at zero and the adapters enabled, under
    weights [W].  The loop over the window returns without [break].  Each
    microbatch has its two forward passes and one [backward] of its loss
    divided by [A]; then the optimizer steps on the accumulated gradient as
    it is: no rescaling by the token count, no clipping.  The dict logged
    holds under ["loss"] the plain mean of the [A] microbatch losses, under
    ["tokens_per_second_per_gpu"] the token count of the whole window over
    the time of the step, and under the reward, log-probability and logit
    keys the values of the window's last microbatch alone.  Afterwards the
    running loss and the token count are zero and [global_step] is one
    more.  (The window is reached only if the cap is not [q].) *)
Theorem dpo_window_loss_and_gradient {T : Torch} (e q : Z)
    (window : list DPOBatch) (last : DPOBatch) (st : DPO.State) :
  ready (DPO.self st) ->
  Z.of_nat (length (window ++ [last])) = _gradient_accumulation_steps (DPO.self st) ->
  max_steps_per_epoch (DPO.self st) <> Some q ->
  DPO.running_loss st = Q2Qc 0 ->
  DPO.num_tokens st = 0 ->
  adapter_enabled (DPO.world st) = true ->
  let s := DPO.self st in
  let A := _gradient_accumulation_steps s in
  let w := DPO.world st in
  let all := window ++ [last] in
  let loss := mean (map (fun b => DPO.loss (fst (DPO.forward_passes b w))) all) in
  let tokens := dpo_tokens_total all in
  let g := fold_left grad_add (map (dpo_backward_grad s (weights w)) all) (grads w) in
  let f := fst (DPO.forward_passes last w) in
  let log_dict := DPO.log_dict s (global_step s + 1) tokens loss f in
  (exists st',
     for_enumerate (DPO.microbatch e) (q * A) all st = Ok (st', false) /\
     trace (DPO.world st')
     = trace w
       ++ flat_map (dpo_accumulate_events s w) all
       ++ [EvOptimizerStep g; EvZeroGrad]
       ++ (if _lr_scheduler s then [EvLrSchedulerStep] else [])
       ++ [EvPbar (e + 1) (global_step s + 1) (Finite loss)]
       ++ (if (global_step s + 1) mod _log_every_n_steps s =? 0
           then [EvLogDict (global_step s + 1) log_dict]
           else [])
       ++ dpo_save_events s e (global_step s + 1) /\
     weights (DPO.world st') = optimizer_step (weights w) g /\
     DPO.running_loss st' = Q2Qc 0 /\
     DPO.num_tokens st' = 0 /\
     grads (DPO.world st') = grad_none /\
     global_step (DPO.self st') = global_step s + 1) /\
  In ("loss"%string, Finite loss) log_dict /\
  In ("tokens_per_second_per_gpu"%string,
      Finite (Z2Qc tokens / time_per_step (global_step s + 1))%Qc) log_dict /\
  In ("lr"%string, Finite (optimizer_lr (global_step s + 1))) log_dict /\
  In ("rewards/chosen"%string, Finite (mean (DPO.chosen_rewards f))) log_dict /\
  In ("rewards/rejected"%string, Finite (mean (DPO.rejected_rewards f))) log_dict /\
  In ("rewards/accuracies"%string,
      Finite (mean (DPO.reward_accuracies (DPO.chosen_rewards f)
                                          (DPO.rejected_rewards f)))) log_dict /\
  In ("rewards/margins"%string,
      Finite (mean (map (fun p => (fst p - snd p)%Qc)
                        (combine (DPO.chosen_rewards f) (DPO.rejected_rewards f)))))
     log_dict /\
  In ("log_probs/rejected"%string,
      Finite (mean (DPO.rejected_logps (DPO.policy_chosen_rejected_outputs f))))
     log_dict /\
  In ("log_probs/chosen"%string,
      Finite (mean (DPO.chosen_logps (DPO.policy_chosen_rejected_outputs f))))
     log_dict /\
  In ("logits/rejected"%string, Finite (DPO.policy_rejected_logits_mean f)) log_dict /\
  In ("logits/chosen"%string, Finite (DPO.policy_chosen_logits_mean f)) log_dict /\
  length log_dict = (if _log_peak_memory_stats s then 14 else 11)%nat.
Proof.
  intros Hr Hlen Hcap Hrl Hnt Had s A w all loss tokens g f log_dict.
  split.
  - destruct (dpo_window_run e q window last st Hr Hlen Hcap) as (st2 & Hblock & Hloop).
    fold s A all in Hloop, Hblock.
    pose proof (dpo_accumulate_all_spec all st Had)
      as (Hs & HW & _ & _ & Htr & Hg & Hrun & Hn).
    cbn zeta in Hs, HW, Htr, Hg, Hrun, Hn. fold s w in Hs, HW, Htr, Hg, Hrun.
    rewrite Hrl, Qcplus_0_l, (dpo_running_total_mean s w all Hlen) in Hrun.
    fold loss in Hrun. rewrite Hnt, Z.add_0_l in Hn. fold tokens in Hn.
    pose proof (dpo_accumulate_all_spec window st Had) as (_ & HWx & Hax & _).
    cbn zeta in HWx, Hax. fold w in HWx, Hax.
    assert (Hf : fst (DPO.accumulate last (dpo_accumulate_all window st)) = f).
    { cbn [DPO.accumulate fst]. apply forward_passes_ext; [exact HWx|].
      rewrite Hax. symmetry. exact Had. }
    rewrite Hf in Hblock.
    destruct (dpo_optimizer_block_spec e f (dpo_accumulate_all all st))
      as (st' & Hblock' & Hself' & Hrl' & Hnt' & Hg' & HW' & Htr').
    { now rewrite Hs. }
    rewrite Hblock in Hblock'. injection Hblock' as <-.
    exists st2. split; [exact Hloop|].
    split.
    { rewrite Htr', Htr, Hs, Hrun, Hg, Hn. fold g. unfold dpo_step_events.
      fold log_dict. rewrite <- !app_assoc. reflexivity. }
    split; [rewrite HW', HW, Hg; reflexivity|].
    split; [exact Hrl'|]. split; [exact Hnt'|]. split; [exact Hg'|].
    rewrite Hself', Hs. reflexivity.
  - unfold log_dict, DPO.log_dict.
    repeat (split; [apply in_or_app; left; cbn [In]; tauto|]).
    rewrite length_app. destruct (_log_peak_memory_stats s); reflexivity.
Qed.

Lemma dpo_window_loss_and_gradient_witness :
  let st := Sample.dpo_state (Sample.recipe 0 0 None) in
  exists st',
    for_enumerate (DPO.microbatch 0) (0 * 2) ([Sample.dpo_batch 1] ++ [Sample.dpo_batch 2]) st
    = Ok (st', false) /\
    DPO.running_loss st' = Q2Qc 0 /\
    DPO.num_tokens st' = 0 /\
    global_step (DPO.self st') = 0 + 1.
Proof.
  destruct (dpo_window_loss_and_gradient (T := Sample.torch) 0 0
              [Sample.dpo_batch 1] (Sample.dpo_batch 2)
              (Sample.dpo_state (Sample.recipe 0 0 None)))
    as ((st' & Hloop & _ & _ & Hrl & Hnt & _ & Hg) & _).
  - unfold ready; cbn. repeat split; try lia; eexists; split; try reflexivity; lia.
  - reflexivity.
  - discriminate.
  - reflexivity.
  - reflexivity.
  - reflexivity.
  - exists st'. split; [exact Hloop|]. split; [exact Hrl|]. split; [exact Hnt | exact Hg].
Defined.

(** ** Where a resumed run places the learning-rate schedule *)

Section ResumeSchedule.

Context {T : Torch}.

Lemma setup_resume_on update base dist (sw sw1 : Recipe * World) :
  _resume_from_checkpoint (fst sw) = true ->
  setup_resume update base dist sw = Ok sw1 ->
  update (if _enable_async_checkpointing (fst sw) then dist else base) sw = Ok sw1.
Proof.
  intros Hres. unfold setup_resume. rewrite Hres.
  destruct (negb _); [discriminate|]. auto.
Qed.

(** The scheduler arguments in terms of the recipe that enters the
    schedule part of [setup]. *)
Lemma setup_schedule_lr_args (L : Z) (s r : Recipe) (d : bool) :
  _gradient_accumulation_steps s <> 0 ->
  setup_schedule L s = Ok (r, d) ->
  let spe := L / _gradient_accumulation_steps s in
  total_epochs r = total_epochs s /\
  max_steps_per_epoch r = max_steps_per_epoch s /\
  epochs_run r = epochs_run s /\
  (forall M, max_steps_per_epoch s = Some M -> M < spe ->
     lr_scheduler_args r = Ok (total_epochs s * M, epochs_run s * M - 1)) /\
  (max_steps_per_epoch s = None \/
   (exists M, max_steps_per_epoch s = Some M /\ spe <= M) ->
     lr_scheduler_args r = Ok (total_epochs s * spe, global_step s - 1)).
Proof.
  intros HA H spe.
  pose proof (setup_schedule_spec L s r d HA H) as (HM & He & Hcap & Hfree).
  cbn zeta in Hcap, Hfree. fold spe in Hcap, Hfree.
  assert (HT : total_epochs r = total_epochs s).
  { revert H. unfold setup_schedule. rewrite (floordiv_Ok _ _ HA). cbn [bind].
    destruct (max_steps_per_epoch (set_steps_per_epoch _ s)) as [M|];
      [destruct (M <? _)|];
      (destruct (save_every_n_steps _);
       (destruct (_resume_from_checkpoint _);
        [intros H; inv_bind H; inv_bind H; injection H as <- _
        | intros H; injection H as <- _])); reflexivity. }
  split; [exact HT|]. split; [exact HM|]. split; [exact He|]. split.
  - intros M HMs Hlt. destruct (Hcap M HMs Hlt) as (Hp & Hg).
    unfold lr_scheduler_args. rewrite Hp. cbn [getattr bind]. now rewrite HT, Hg.
  - intros Hno. destruct (Hfree Hno) as (Hp & Hg).
    unfold lr_scheduler_args. rewrite Hp. cbn [getattr bind]. now rewrite HT, Hg.
Qed.

End ResumeSchedule.

Lemma setup_schedule_accum_nonzero (L : Z) (s : Recipe) (rd : Recipe * bool) :
  setup_schedule L s = Ok rd -> _gradient_accumulation_steps s <> 0.
Proof.
  unfold setup_schedule. intros H. apply bind_Ok in H as (spe & Hspe & _).
  unfold floordiv in Hspe. destruct (Z.eqb_spec (_gradient_accumulation_steps s) 0);
    [discriminate | assumption].
Qed.

(** X14.  Where a resumed run places the learning-rate schedule.  [setup]
    hands the scheduler [last_epoch = global_step - 1].  When the cap is
    not in force, the distillation recipe passes the checkpoint's step
    count minus one, so the schedule continues; the preference recipe
    passes the [global_step] the recipe held before [setup] minus one,
    which after the constructor is [-1]: the schedule starts again from its
    beginning, whatever step the checkpoint was taken at.  When the cap
    [M < L // A] is in force, both pass [epochs_run * M - 1] with the
    checkpoint's epoch count.  [num_training_steps] is the config's
    [total_epochs] times the steps per epoch. *)
Theorem resume_lr_scheduler_position {T : Torch} (base dist : Ckpt) (L : Z)
    (sw : Recipe * World) :
  _resume_from_checkpoint (fst sw) = true ->
  let ckpt := if _enable_async_checkpointing (fst sw) then dist else base in
  let A := _gradient_accumulation_steps (fst sw) in
  let uncapped (r : Recipe) :=
    max_steps_per_epoch r = None \/
    exists M, max_steps_per_epoch r = Some M /\ L / A <= M in
  (forall r w d,
     KD.setup base dist L sw = Ok (r, w, d) -> uncapped r ->
     exists g, ckpt_steps ckpt = Some g /\
               lr_scheduler_args r = Ok (total_epochs (fst sw) * (L / A), g - 1)) /\
  (forall r w d,
     DPO.setup base dist L sw = Ok (r, w, d) -> uncapped r ->
     lr_scheduler_args r
     = Ok (total_epochs (fst sw) * (L / A), global_step (fst sw) - 1)) /\
  (forall r w d M,
     KD.setup base dist L sw = Ok (r, w, d) \/ DPO.setup base dist L sw = Ok (r, w, d) ->
     max_steps_per_epoch r = Some M -> M < L / A ->
     exists e, ckpt_epochs ckpt = Some e /\
               lr_scheduler_args r = Ok (total_epochs (fst sw) * M, e * M - 1)).
Proof.
  intros Hres ckpt A uncapped.
  assert (Hkd : forall r w d,
            KD.setup base dist L sw = Ok (r, w, d) ->
            exists r1 w1,
              KD._update_recipe_state ckpt sw = Ok (r1, w1) /\
              setup_schedule L r1 = Ok (r, d)).
  { intros r w d H. unfold KD.setup in H. inv_bind H. inv_bind H.
    destruct x as [r1 w1], x0 as [r0 d0]. injection H as <- _ <-.
    exists r1, w1. split; [|exact Hx0].
    exact (setup_resume_on _ _ _ _ _ Hres Hx). }
  assert (Hdpo : forall r w d,
            DPO.setup base dist L sw = Ok (r, w, d) ->
            exists r1 w1,
              DPO._update_recipe_state ckpt sw = Ok (r1, w1) /\
              setup_schedule L r1 = Ok (r, d)).
  { intros r w d H. unfold DPO.setup in H. inv_bind H. inv_bind H.
    destruct x as [r1 w1], x0 as [r0 d0]. injection H as <- _ <-.
    exists r1, w1. split; [|exact Hx0].
    exact (setup_resume_on _ _ _ _ _ Hres Hx). }
  split; [|split].
  - intros r w d H Hun. destruct (Hkd r w d H) as (r1 & w1 & Hup & Hsched).
    pose proof (kd_update_recipe_state_spec _ _ _ _ Hup) as (_ & Hg & _ & _ & HT).
    pose proof (kd_update_recipe_state_accum _ _ _ _ Hup) as HA1.
    pose proof (setup_schedule_accum_nonzero _ _ _ Hsched) as HA0.
    destruct (setup_schedule_lr_args L r1 r d HA0 Hsched) as (_ & HM & _ & _ & Hfree).
    exists (global_step r1). split; [exact Hg|].
    rewrite HA1, HT, <- HM in Hfree. apply Hfree. exact Hun.
  - intros r w d H Hun. destruct (Hdpo r w d H) as (r1 & w1 & Hup & Hsched).
    pose proof (dpo_update_recipe_state_spec _ _ _ _ Hup) as (_ & Hg & _ & _ & HT).
    pose proof (dpo_update_recipe_state_accum _ _ _ _ Hup) as HA1.
    pose proof (setup_schedule_accum_nonzero _ _ _ Hsched) as HA0.
    destruct (setup_schedule_lr_args L r1 r d HA0 Hsched) as (_ & HM & _ & _ & Hfree).
    rewrite HA1, HT, Hg, <- HM in Hfree. apply Hfree. exact Hun.
  - intros r w d M [H|H] HMr Hlt.
    + destruct (Hkd r w d H) as (r1 & w1 & Hup & Hsched).
      pose proof (kd_update_recipe_state_spec _ _ _ _ Hup) as (He & _ & _ & _ & HT).
      pose proof (kd_update_recipe_state_accum _ _ _ _ Hup) as HA1.
      pose proof (setup_schedule_accum_nonzero _ _ _ Hsched) as HA0.
      destruct (setup_schedule_lr_args L r1 r d HA0 Hsched) as (_ & HM & _ & Hcap & _).
      exists (epochs_run r1). split; [exact He|].
      rewrite HA1, HT, <- HM in Hcap. apply Hcap; assumption.
    + destruct (Hdpo r w d H) as (r1 & w1 & Hup & Hsched).
      pose proof (dpo_update_recipe_state_spec _ _ _ _ Hup) as (He & _ & _ & _ & HT).
      pose proof (dpo_update_recipe_state_accum _ _ _ _ Hup) as HA1.
      pose proof (setup_schedule_accum_nonzero _ _ _ Hsched) as HA0.
      destruct (setup_schedule_lr_args L r1 r d HA0 Hsched) as (_ & HM & _ & Hcap & _).
      exists (epochs_run r1). split; [exact He|].
      rewrite HA1, HT, <- HM in Hcap. apply Hcap; assumption.
Qed.

Lemma resume_lr_scheduler_position_witness :
  let uncapped_ckpt :=
    {| ckpt_has_adapter := true; ckpt_epochs := Some 1; ckpt_steps := Some 4;
       ckpt_seed := Some 1; ckpt_max_steps := Some None; ckpt_total_epochs := Some 2 |} in
  let sw := __init__ (T := Sample.torch) (Sample.cfg true None None) Sample.world0 in
  match KD.setup uncapped_ckpt uncapped_ckpt 8 sw, DPO.setup uncapped_ckpt uncapped_ckpt 8 sw with
  | Ok (r_kd, _, _), Ok (r_dpo, _, _) =>
      lr_scheduler_args r_kd = Ok (8, 3) /\ lr_scheduler_args r_dpo = Ok (8, -1)
  | _, _ => False
  end.
Proof.
  intros uncapped_ckpt sw.
  destruct (resume_lr_scheduler_position (T := Sample.torch) uncapped_ckpt uncapped_ckpt 8 sw
              eq_refl) as (Hkd & Hdpo & _).
  destruct (KD.setup uncapped_ckpt uncapped_ckpt 8 sw) as [[[r1 w1] d1]|err] eqn:E1;
    [|vm_compute in E1; discriminate E1].
  destruct (DPO.setup uncapped_ckpt uncapped_ckpt 8 sw) as [[[r2 w2] d2]|err] eqn:E2;
    [|vm_compute in E2; discriminate E2].
  assert (H1 : max_steps_per_epoch r1 = None)
    by (vm_compute in E1; injection E1 as <- _ _; reflexivity).
  assert (H2 : max_steps_per_epoch r2 = None)
    by (vm_compute in E2; injection E2 as <- _ _; reflexivity).
  split.
  - destruct (Hkd r1 w1 d1 eq_refl (or_introl H1)) as (g & Hg & Hargs).
    injection Hg as <-. exact Hargs.
  - exact (Hdpo r2 w2 d2 eq_refl (or_introl H2)).
Defined.

(** ** The default cadence: one checkpoint per epoch *)

Section DefaultCadence.

Context {T : Torch}.

Lemma saves_of_app (a b : list ckpt_obs) : saves_of (a ++ b) = saves_of a ++ saves_of b.
Proof. apply flat_map_app. Qed.

Lemma saves_of_steps (e g0 : Z) (l : list nat) :
  saves_of (map (fun k => ObsStep e (g0 + Z.of_nat k)) l) = [].
Proof. induction l as [|k l IH]; [reflexivity | exact IH]. Qed.

Lemma saves_of_epoch_then_checkpoint (p last e : Z) :
  saves_of (epoch_then_checkpoint p last e) = [(e, e =? last)].
Proof. unfold epoch_then_checkpoint. now rewrite saves_of_app, saves_of_steps. Qed.

Lemma saves_of_epochs (p last : Z) (es : list Z) :
  saves_of (flat_map (epoch_then_checkpoint p last) es) = map (fun e => (e, e =? last)) es.
Proof.
  induction es as [|e es IH]; [reflexivity|].
  cbn [flat_map map]. now rewrite saves_of_app, saves_of_epoch_then_checkpoint, IH.
Qed.

(** Steps strictly inside an epoch of [p] steps earn no checkpoint. *)
Lemma view_steps_inside (p last e q : Z) (j : nat) :
  0 < p -> Z.of_nat j < p ->
  flat_map (ckpt_block p last) (epoch_steps e (q * p) j)
  = map (fun k => ObsStep e (q * p + Z.of_nat k)) (seq 1 j).
Proof.
  intros Hp. induction j as [|j IH]; intros Hj; [reflexivity|].
  replace (S j) with (j + 1)%nat at 1 by lia.
  rewrite epoch_steps_app, flat_map_app, IH by lia.
  rewrite seq_S, map_app. f_equal.
  unfold epoch_steps, ckpt_block. cbn [seq map flat_map fst snd app].
  replace (q * p + Z.of_nat j + Z.of_nat 1) with (q * p + (Z.of_nat j + 1)) by lia.
  rewrite aligned_mod by lia.
  destruct (Z.eqb_spec (Z.of_nat j + 1) 0) as [E|_]; [lia|].
  cbn [andb]. do 2 f_equal. lia.
Qed.

(** A whole epoch of [p] steps under the cadence [p], entered on an epoch
    boundary: its steps, then one intermediate checkpoint after the last
    of them, unless it is the last epoch. *)
Lemma view_epoch (p last e q : Z) :
  0 < p ->
  flat_map (ckpt_block p last) (epoch_steps e (q * p) (Z.to_nat p))
  = map (fun k => ObsStep e (q * p + Z.of_nat k)) (seq 1 (Z.to_nat p))
    ++ (if e =? last then [] else [ObsSave e false]).
Proof.
  intros Hp.
  replace (Z.to_nat p) with (S (Z.to_nat (p - 1))) by lia.
  replace (S (Z.to_nat (p - 1))) with (Z.to_nat (p - 1) + 1)%nat at 1 by lia.
  rewrite epoch_steps_app, flat_map_app, view_steps_inside by lia.
  rewrite seq_S, map_app, <- app_assoc. f_equal.
  unfold epoch_steps, ckpt_block. cbn [seq map flat_map fst snd app].
  replace (q * p + Z.of_nat (Z.to_nat (p - 1)) + Z.of_nat 1) with ((q + 1) * p + 0) by lia.
  rewrite aligned_mod by lia. cbn [Z.eqb andb].
  replace (q * p + Z.of_nat (1 + Z.to_nat (p - 1))) with ((q + 1) * p + 0) by lia.
  destruct (e =? last); reflexivity.
Qed.

Lemma flat_map_agree {A B : Type} (f g : A -> list B) (l : list A) :
  (forall x, In x l -> f x = g x) -> flat_map f l = flat_map g l.
Proof.
  induction l as [|x l IH]; intros H; [reflexivity|].
  cbn [flat_map]. rewrite (H x) by now left.
  rewrite IH by (intros y Hy; apply H; now right). reflexivity.
Qed.

(** The intermediate checkpoints of the epochs before the last and the
    final checkpoint, read as one checkpoint per epoch. *)
Lemma view_run (p a t : Z) :
  a < t ->
  flat_map (fun e => map (fun k => ObsStep e (e * p + Z.of_nat k)) (seq 1 (Z.to_nat p))
                     ++ (if e =? t - 1 then [] else [ObsSave e false]))
           (range a t)
  ++ [ObsSave (t - 1) true]
  = flat_map (epoch_then_checkpoint p (t - 1)) (range a t).
Proof.
  intros H. rewrite (range_nonempty a t H), !flat_map_app.
  cbn [flat_map]. rewrite Z.eqb_refl, !app_nil_r, <- app_assoc.
  unfold epoch_then_checkpoint at 2. rewrite Z.eqb_refl. f_equal.
  apply flat_map_agree. intros e He. apply in_range in He.
  unfold epoch_then_checkpoint.
  destruct (Z.eqb_spec e (t - 1)); [lia | reflexivity].
Qed.

Lemma steps_scheduled_nonneg (s : Recipe) (L : Z) :
  0 < _gradient_accumulation_steps s -> 0 <= L -> cap_positive s ->
  0 <= steps_scheduled s L.
Proof.
  intros HA HL Hcap. unfold steps_scheduled.
  assert (0 <= L / _gradient_accumulation_steps s) by (apply Z.div_pos; lia).
  destruct (max_steps_per_epoch s) as [m|] eqn:HM; [specialize (Hcap m HM)|]; lia.
Qed.

Lemma kd_epoch_saves (dataloader : Z -> list KDBatch) (e L q p : Z) (st : KD.State) :
  ready (KD.self st) ->
  cap_positive (KD.self st) ->
  Z.of_nat (length (dataloader e)) = L ->
  save_every_n_steps (KD.self st) = Some p ->
  steps_scheduled (KD.self st) L = p ->
  global_step (KD.self st) = q * p ->
  exists st',
    KD.epoch dataloader e st = Ok st' /\
    same_schedule (KD.self st) (KD.self st') /\
    global_step (KD.self st') = (q + 1) * p /\
    checkpoint_view (trace (KD.world st'))
    = checkpoint_view (trace (KD.world st))
      ++ map (fun k => ObsStep e (q * p + Z.of_nat k)) (seq 1 (Z.to_nat p))
      ++ (if e =? total_epochs (KD.self st) - 1 then [] else [ObsSave e false]).
Proof.
  intros Hr Hcap HL Hn Hp Hg.
  pose proof Hr as (HA & _ & (n & Hn' & Hn0) & _).
  rewrite Hn in Hn'. injection Hn' as <-.
  assert (Hpos : 0 < p).
  { pose proof (steps_scheduled_nonneg (KD.self st) L HA ltac:(lia) Hcap). lia. }
  destruct (kd_epoch_view dataloader e p st Hr Hn) as (st' & m & Hep & Hsame & Hgm & Hview).
  destruct (kd_epoch_regular dataloader e L st Hr Hcap HL) as (st2 & Hep2 & _ & _ & Hg2 & _).
  rewrite Hep in Hep2. injection Hep2 as <-.
  assert (Hm : m = Z.to_nat p) by lia.
  exists st'. split; [exact Hep|]. split; [exact Hsame|]. split; [lia|].
  rewrite Hview, Hg, Hm. f_equal. now apply view_epoch.
Qed.

Lemma dpo_epoch_saves (dataloader : Z -> list DPOBatch) (e L q p : Z) (st : DPO.State) :
  ready (DPO.self st) ->
  cap_positive (DPO.self st) ->
  Z.of_nat (length (dataloader e)) = L ->
  save_every_n_steps (DPO.self st) = Some p ->
  steps_scheduled (DPO.self st) L = p ->
  global_step (DPO.self st) = q * p ->
  exists st',
    DPO.epoch dataloader e st = Ok st' /\
    same_schedule (DPO.self st) (DPO.self st') /\
    global_step (DPO.self st') = (q + 1) * p /\
    checkpoint_view (trace (DPO.world st'))
    = checkpoint_view (trace (DPO.world st))
      ++ map (fun k => ObsStep e (q * p + Z.of_nat k)) (seq 1 (Z.to_nat p))
      ++ (if e =? total_epochs (DPO.self st) - 1 then [] else [ObsSave e false]).
Proof.
  intros Hr Hcap HL Hn Hp Hg.
  pose proof Hr as (HA & _ & (n & Hn' & Hn0) & _).
  rewrite Hn in Hn'. injection Hn' as <-.
  assert (Hpos : 0 < p).
  { pose proof (steps_scheduled_nonneg (DPO.self st) L HA ltac:(lia) Hcap). lia. }
  destruct (dpo_epoch_view dataloader e p st Hr Hn) as (st' & m & Hep & Hsame & Hgm & Hview).
  destruct (dpo_epoch_regular dataloader e L st Hr Hcap HL) as (st2 & Hep2 & _ & _ & Hg2 & _).
  rewrite Hep in Hep2. injection Hep2 as <-.
  assert (Hm : m = Z.to_nat p) by lia.
  exists st'. split; [exact Hep|]. split; [exact Hsame|]. split; [lia|].
  rewrite Hview, Hg, Hm. f_equal. now apply view_epoch.
Qed.

Lemma kd_epochs_saves (dataloader : Z -> list KDBatch) (L p : Z) (n : nat) :
  forall (a : Z) (st : KD.State),
    ready (KD.self st) ->
    cap_positive (KD.self st) ->
    (forall e, Z.of_nat (length (dataloader e)) = L) ->
    save_every_n_steps (KD.self st) = Some p ->
    steps_scheduled (KD.self st) L = p ->
    global_step (KD.self st) = a * p ->
    exists st',
      for_each (KD.epoch dataloader) (range a (a + Z.of_nat n)) st = Ok st' /\
      same_schedule (KD.self st) (KD.self st') /\
      checkpoint_view (trace (KD.world st'))
      = checkpoint_view (trace (KD.world st))
        ++ flat_map (fun e =>
                       map (fun k => ObsStep e (e * p + Z.of_nat k)) (seq 1 (Z.to_nat p))
                       ++ (if e =? total_epochs (KD.self st) - 1 then [] else [ObsSave e false]))
                    (range a (a + Z.of_nat n)).
Proof.
  induction n as [|n IH]; intros a st Hr Hcap HL Hn Hp Hg.
  { rewrite range_empty by lia. exists st. cbn. rewrite app_nil_r.
    split; [reflexivity|]. split; [apply same_schedule_refl | reflexivity]. }
  rewrite range_cons by lia.
  replace (a + Z.of_nat (S n)) with (a + 1 + Z.of_nat n) by lia.
  destruct (kd_epoch_saves dataloader a L a p st Hr Hcap (HL a) Hn Hp Hg)
    as (st1 & Hep & Hsame & Hg1 & Hsv1).
  assert (Hr1 : ready (KD.self st1)) by (eapply same_schedule_ready; eassumption).
  destruct (same_schedule_steps _ _ L Hsame) as (Hst & _ & Hcp).
  pose proof Hsame as (_ & HT & _ & _ & Hsv & _).
  destruct (IH (a + 1) st1 Hr1 (Hcp Hcap) HL) as (st' & Hloop & Hsame' & Hsv').
  { now rewrite Hsv. }
  { now rewrite Hst. }
  { exact Hg1. }
  exists st'. cbn [for_each]. rewrite Hep. cbn [bind].
  split; [exact Hloop|]. split; [eapply same_schedule_trans; eassumption|].
  rewrite Hsv', Hsv1, HT. cbn [flat_map]. now rewrite <- !app_assoc.
Qed.

Lemma dpo_epochs_saves (dataloader : Z -> list DPOBatch) (L p : Z) (n : nat) :
  forall (a : Z) (st : DPO.State),
    ready (DPO.self st) ->
    cap_positive (DPO.self st) ->
    (forall e, Z.of_nat (length (dataloader e)) = L) ->
    save_every_n_steps (DPO.self st) = Some p ->
    steps_scheduled (DPO.self st) L = p ->
    global_step (DPO.self st) = a * p ->
    exists st',
      for_each (DPO.epoch dataloader) (range a (a + Z.of_nat n)) st = Ok st' /\
      same_schedule (DPO.self st) (DPO.self st') /\
      checkpoint_view (trace (DPO.world st'))
      = checkpoint_view (trace (DPO.world st))
        ++ flat_map (fun e =>
                       map (fun k => ObsStep e (e * p + Z.of_nat k)) (seq 1 (Z.to_nat p))
                       ++ (if e =? total_epochs (DPO.self st) - 1 then [] else [ObsSave e false]))
                    (range a (a + Z.of_nat n)).
Proof.
  induction n as [|n IH]; intros a st Hr Hcap HL Hn Hp Hg.
  { rewrite range_empty by lia. exists st. cbn. rewrite app_nil_r.
    split; [reflexivity|]. split; [apply same_schedule_refl | reflexivity]. }
  rewrite range_cons by lia.
  replace (a + Z.of_nat (S n)) with (a + 1 + Z.of_nat n) by lia.
  destruct (dpo_epoch_saves dataloader a L a p st Hr Hcap (HL a) Hn Hp Hg)
    as (st1 & Hep & Hsame & Hg1 & Hsv1).
  assert (Hr1 : ready (DPO.self st1)) by (eapply same_schedule_ready; eassumption).
  destruct (same_schedule_steps _ _ L Hsame) as (Hst & _ & Hcp).
  pose proof Hsame as (_ & HT & _ & _ & Hsv & _).
  destruct (IH (a + 1) st1 Hr1 (Hcp Hcap) HL) as (st' & Hloop & Hsame' & Hsv').
  { now rewrite Hsv. }
  { now rewrite Hst. }
  { exact Hg1. }
  exists st'. cbn [for_each]. rewrite Hep. cbn [bind].
  split; [exact Hloop|]. split; [eapply same_schedule_trans; eassumption|].
  rewrite Hsv', Hsv1, HT. cbn [flat_map]. now rewrite <- !app_assoc.
Qed.

(** A whole run entered on an epoch boundary, under the cadence of one
    epoch's steps. *)
Lemma kd_train_saves (dataloader : Z -> list KDBatch) (L p : Z) (s : Recipe) (w : World) :
  ready s -> cap_positive s ->
  (forall e, Z.of_nat (length (dataloader e)) = L) ->
  save_every_n_steps s = Some p ->
  steps_scheduled s L = p ->
  global_step s = epochs_run s * p ->
  epochs_run s < total_epochs s ->
  exists r' w',
    KD.train dataloader (s, w) = Ok (r', w') /\
    checkpoint_view (trace w')
    = checkpoint_view (trace w)
      ++ flat_map (epoch_then_checkpoint p (total_epochs s - 1))
                  (range (epochs_run s) (total_epochs s)).
Proof.
  intros Hr Hcap HL Hn Hp Hg Hlt.
  set (st0 := {| KD.self := s; KD.world := w;
                 KD.running_class_loss := Q2Qc 0; KD.running_kd_loss := Q2Qc 0;
                 KD.num_tokens := 0 |}).
  destruct (kd_epochs_saves dataloader L p (Z.to_nat (total_epochs s - epochs_run s))
              (epochs_run s) st0 Hr Hcap HL Hn Hp Hg) as (st' & Hloop & Hsame & Hsv).
  replace (epochs_run s + Z.of_nat (Z.to_nat (total_epochs s - epochs_run s)))
    with (total_epochs s) in Hloop, Hsv by lia.
  cbn [st0 KD.self KD.world] in Hsame, Hsv.
  assert (Hr' : ready (KD.self st')) by (eapply same_schedule_ready; eassumption).
  pose proof Hr' as (_ & _ & _ & (p' & Hp' & Hp0) & (pre & Hpre)).
  unfold KD.train. cbn [fst snd]. fold st0. rewrite Hloop. cbn [bind].
  rewrite (loop_variable_range _ _ Hlt). cbn [bind].
  rewrite (kd_save_checkpoint_spec _ _ _ _ p' pre) by assumption. cbn [bind].
  eexists _, _. split; [reflexivity|]. cbn [emit trace].
  rewrite checkpoint_view_app, Hsv, <- app_assoc. f_equal.
  cbn [checkpoint_view flat_map app]. now apply view_run.
Qed.

Lemma dpo_train_saves (dataloader : Z -> list DPOBatch) (L p : Z) (s : Recipe) (w : World) :
  ready s -> cap_positive s ->
  (forall e, Z.of_nat (length (dataloader e)) = L) ->
  save_every_n_steps s = Some p ->
  steps_scheduled s L = p ->
  global_step s = epochs_run s * p ->
  epochs_run s < total_epochs s ->
  exists r' w',
    DPO.train dataloader (s, w) = Ok (r', w') /\
    checkpoint_view (trace w')
    = checkpoint_view (trace w)
      ++ flat_map (epoch_then_checkpoint p (total_epochs s - 1))
                  (range (epochs_run s) (total_epochs s)).
Proof.
  intros Hr Hcap HL Hn Hp Hg Hlt.
  set (st0 := {| DPO.self := s; DPO.world := w;
                 DPO.running_loss := Q2Qc 0; DPO.num_tokens := 0 |}).
  destruct (dpo_epochs_saves dataloader L p (Z.to_nat (total_epochs s - epochs_run s))
              (epochs_run s) st0 Hr Hcap HL Hn Hp Hg) as (st' & Hloop & Hsame & Hsv).
  replace (epochs_run s + Z.of_nat (Z.to_nat (total_epochs s - epochs_run s)))
    with (total_epochs s) in Hloop, Hsv by lia.
  cbn [st0 DPO.self DPO.world] in Hsame, Hsv.
  unfold DPO.train. cbn [fst snd]. fold st0. rewrite Hloop. cbn [bind].
  rewrite (loop_variable_range _ _ Hlt). cbn [bind].
  rewrite dpo_save_checkpoint_spec. cbn [bind].
  eexists _, _. split; [reflexivity|]. cbn [emit trace].
  rewrite checkpoint_view_app, Hsv, <- app_assoc. f_equal.
  cbn [checkpoint_view flat_map app]. now apply view_run.
Qed.

End DefaultCadence.

(** X15.  The default cadence gives one checkpoint per epoch, made after
    the last optimizer step of its epoch.  A fresh run whose config leaves
    [save_every_n_steps] unset, over a data source of [L >= A] microbatches
    per epoch, with a positive or absent cap, a non-zero logging cadence
    and at least one epoch; [p] is the number of optimizer steps of an
    epoch, [L // A] or the cap if that is smaller.  In both recipes
    [setup] and [train] return, [p] is positive, and what the run adds to
    the sequence of optimizer steps and calls of the checkpoint client is,
    for each epoch [e] from 0 to [total_epochs - 1] in order, the [p]
    optimizer steps [e * p + 1], ..., [e * p + p] made in epoch [e]
    followed by one call of the checkpoint client for [e]: an intermediate
    checkpoint for every epoch but the last, the full one for the last.
    So the checkpoint client is called exactly [total_epochs] times, once
    for each epoch in order. *)
Theorem default_cadence_one_checkpoint_per_epoch {T : Torch} (cfg : Cfg) (w0 : World)
    (base dist : Ckpt)
    (kd_dataloader : Z -> list KDBatch) (dpo_dataloader : Z -> list DPOBatch) (L : Z) :
  cfg_resume_from_checkpoint cfg = false ->
  cfg_save_every_n_steps cfg = None ->
  0 < cfg_gradient_accumulation_steps cfg ->
  cfg_gradient_accumulation_steps cfg <= L ->
  (forall m, cfg_max_steps_per_epoch cfg = Some m -> 0 < m) ->
  cfg_log_every_n_steps cfg <> Some 0 ->
  0 < cfg_epochs cfg ->
  (forall e, Z.of_nat (length (kd_dataloader e)) = L) ->
  (forall e, Z.of_nat (length (dpo_dataloader e)) = L) ->
  let p := match cfg_max_steps_per_epoch cfg with
           | Some m => Z.min m (L / cfg_gradient_accumulation_steps cfg)
           | None => L / cfg_gradient_accumulation_steps cfg
           end in
  let added :=
    flat_map (epoch_then_checkpoint p (cfg_epochs cfg - 1)) (range 0 (cfg_epochs cfg)) in
  let expected :=
    map (fun e => (e, e =? cfg_epochs cfg - 1)) (range 0 (cfg_epochs cfg)) in
  0 < p /\
  (exists r w1 d r' w',
     KD.setup base dist L (__init__ cfg w0) = Ok (r, w1, d) /\
     KD.train kd_dataloader (r, w1) = Ok (r', w') /\
     checkpoint_view (trace w') = checkpoint_view (trace w0) ++ added /\
     saves_of (checkpoint_view (trace w'))
     = saves_of (checkpoint_view (trace w0)) ++ expected) /\
  (exists r w1 d r' w',
     DPO.setup base dist L (__init__ cfg w0) = Ok (r, w1, d) /\
     DPO.train dpo_dataloader (r, w1) = Ok (r', w') /\
     checkpoint_view (trace w') = checkpoint_view (trace w0) ++ added /\
     saves_of (checkpoint_view (trace w'))
     = saves_of (checkpoint_view (trace w0)) ++ expected).
Proof.
  intros Hres Hnone HA HL Hcap Hlog Hepochs Hkd Hdpo p added expected.
  set (s0 := fst (__init__ cfg w0)).
  assert (Hlog0 : _log_every_n_steps s0 <> 0).
  { unfold s0. cbn [__init__ fst _log_every_n_steps].
    destruct (cfg_log_every_n_steps cfg) as [n|]; [congruence | lia]. }
  assert (Hsave : save_every_n_steps s0 <> Some 0).
  { unfold s0. cbn [__init__ fst save_every_n_steps]. rewrite Hnone. discriminate. }
  destruct (setup_schedule_fresh L s0 Hres HA HL Hcap Hlog0 Hsave eq_refl eq_refl)
    as (r & Hsched & Hr & Hspe & Hg & He & _ & HT & HM & HAr & _).
  change (total_epochs s0) with (cfg_epochs cfg) in HT.
  pose proof (setup_schedule_cadence _ _ _ _ Hsched) as Hcad.
  change (save_every_n_steps s0) with (cfg_save_every_n_steps cfg) in Hcad.
  rewrite Hnone in Hcad. destruct Hcad as (Hcad & _). rewrite Hspe in Hcad.
  change (steps_scheduled s0 L) with p in Hcad, Hspe.
  assert (Hss : steps_scheduled r L = p).
  { unfold steps_scheduled. now rewrite HM, HAr. }
  assert (Hcapr : cap_positive r).
  { intros m Hm. apply Hcap. rewrite HM in Hm. exact Hm. }
  assert (Hlt : epochs_run r < total_epochs r) by lia.
  assert (Hg0 : global_step r = epochs_run r * p) by (rewrite Hg, He; lia).
  assert (Hpos : 0 < p).
  { pose proof Hr as (_ & _ & (n & Hn & Hn0) & _).
    rewrite Hcad in Hn. injection Hn as <-.
    assert (HA' : 0 < _gradient_accumulation_steps r) by (rewrite HAr; exact HA).
    pose proof (steps_scheduled_nonneg r L HA' ltac:(lia) Hcapr) as H0.
    rewrite Hss in H0. lia. }
  assert (Hsetup : forall update,
             (sw1 <- setup_resume update base dist (__init__ cfg w0) ;;
              r0 <- setup_schedule L (fst sw1) ;;
              Ok (fst r0, snd sw1, snd r0)) = Ok (r, snd (__init__ cfg w0), false)).
  { intros update. rewrite setup_resume_off by exact Hres. cbn [bind].
    fold s0. rewrite Hsched. reflexivity. }
  split; [exact Hpos|]. split.
  - destruct (kd_train_saves kd_dataloader L p r (snd (__init__ cfg w0))
                Hr Hcapr Hkd Hcad Hss Hg0 Hlt) as (r' & w' & Htrain & Hsv).
    rewrite He, HT in Hsv.
    exists r, (snd (__init__ cfg w0)), false, r', w'.
    split; [apply (Hsetup KD._update_recipe_state)|]. split; [exact Htrain|].
    split; [exact Hsv|].
    rewrite Hsv, saves_of_app, saves_of_epochs. reflexivity.
  - destruct (dpo_train_saves dpo_dataloader L p r (snd (__init__ cfg w0))
                Hr Hcapr Hdpo Hcad Hss Hg0 Hlt) as (r' & w' & Htrain & Hsv).
    rewrite He, HT in Hsv.
    exists r, (snd (__init__ cfg w0)), false, r', w'.
    split; [apply (Hsetup DPO._update_recipe_state)|]. split; [exact Htrain|].
    split; [exact Hsv|].
    rewrite Hsv, saves_of_app, saves_of_epochs. reflexivity.
Qed.

Lemma default_cadence_one_checkpoint_per_epoch_witness :
  let cfg := Sample.cfg false None None in
  let added := [ObsStep 0 1; ObsSave 0 false; ObsStep 1 2; ObsSave 1 true] in
  (exists r w1 d r' w',
     KD.setup Sample.ckpt Sample.ckpt 3 (__init__ cfg Sample.world0) = Ok (r, w1, d) /\
     KD.train Sample.kd_dataloader3 (r, w1) = Ok (r', w') /\
     checkpoint_view (trace w') = added) /\
  (exists r w1 d r' w',
     DPO.setup Sample.ckpt Sample.ckpt 3 (__init__ cfg Sample.world0) = Ok (r, w1, d) /\
     DPO.train Sample.dpo_dataloader3 (r, w1) = Ok (r', w') /\
     checkpoint_view (trace w') = added).
Proof.
  intros cfg added.
  destruct (default_cadence_one_checkpoint_per_epoch (T := Sample.torch) cfg Sample.world0
              Sample.ckpt Sample.ckpt Sample.kd_dataloader3 Sample.dpo_dataloader3 3)
    as (_ & (r1 & w1 & d1 & r1' & w1' & Hs1 & Ht1 & Hv1 & _)
        & (r2 & w2 & d2 & r2' & w2' & Hs2 & Ht2 & Hv2 & _)).
  - reflexivity.
  - reflexivity.
  - cbn; lia.
  - cbn; lia.
  - intros m Hm. discriminate Hm.
  - discriminate.
  - cbn; lia.
  - intros e. reflexivity.
  - intros e. reflexivity.
  - split; [exists r1, w1, d1, r1', w1' | exists r2, w2, d2, r2', w2'];
      (split; [assumption|]); split; assumption.
Defined.
